(* ===== verification/_CoqProject ===== *)
-Q . S2P
Prelude.v
RustStr.v
Externals.v
Status.v
Keys.v
Framing.v
Codec.v
Handshake.v
Attestation.v
Session.v
SessionFacts.v
Client.v
Connect.v
Dialogue.v
MailStore.v
Sqlite.v
SqliteFacts.v
Uids.v
UserLife.v
ToyStore.v
ImapResponse.v
ImapParse.v
ImapParseFacts.v
ImapFetch.v
ImapSession.v
ImapSessionFacts.v
ImapMailFacts.v
ImapWire.v
Template.v
Sink.v
ImapServer.v
ImapServerFacts.v
SinkFacts.v
SecureMailbox.v
SecureMailboxFacts.v
Dns.v
Secure.v
SecureFacts.v
Daemon.v
ToyDaemon.v
ToyImap.v
Journey.v
Files.v
Sockets.v
Schema.v
SchemaFacts.v
StoreFile.v
Wallet.v
Indexer.v
Config.v
Cli.v
ConfigCmd.v
KeyCmd.v
Accounts.v
Remote.v
Ledger.v
CtlFacts.v
AccountFacts.v
KeyFacts.v
ConfigFacts.v
LedgerFacts.v
Capture.v
Listeners.v
CaptureFacts.v
Tls.v
Talkd.v
TalkdFacts.v
Restart.v
Programs.v
AccountLife.v
System.v
ToyCtl.v
TestsBase.v
TestsProtocol.v
TestsKeys.v
TestsImap.v
TestsDaemon.v
TestsSession.v
TestsStore.v
TestsMachine.v
