(* ===== verification/Prelude.v ===== *)
(** * Talk: a verification development of the ZSMTP mail daemon

    Talk carries invoices between domains.  A sending daemon discovers the key and
    the endpoint of the recipient's domain, proves itself over ZSMTP, asks for an
    address and hands over the invoice; the receiving daemon stores it as a message,
    records it in its ledger and notifies mail clients, which read it over IMAP.
    [talkctl] manages accounts, keys, configuration and ledger on the same store.
    The source is a Rust workspace under src/crates; each of its parts is a file here.

    ** The parts and the files that model them

    - the protocol between daemons ([talk-protocol]): [Status] (status.rs, envelope.rs),
      [Framing] (framing.rs), [Codec] (codec.rs), [Handshake] (handshake.rs),
      [Attestation] (attestation.rs), [Session] with [SessionFacts] (session.rs),
      [Client] (client.rs), [Connect] (its connections and the certificate verifier), and
      [Dialogue], which composes client and server;
    - discovery: [Dns] (dns.rs);
    - the control channel between daemon and tool: [SecureMailbox] with
      [SecureMailboxFacts] (mailbox.rs, emulate.rs), its handler in [Secure] with
      [SecureFacts] (talkd's secure.rs);
    - keys ([talk-keys]): [Keys] (dk.rs, share.rs, resolver.rs, master.rs);
    - the mail store ([talk-mailstore]): [MailStore] (lib.rs, password.rs),
      [Sqlite] (the methods of sqlite.rs as SQL statements on tables), [Schema] with
      [SchemaFacts] (opening it), [StoreFile] (the tables of a file as the store's rows),
      and their properties in [SqliteFacts], [Uids] and [UserLife];
    - delivery: [Template] (template.rs), [Sink] with [SinkFacts] (talkd's sink.rs);
    - the IMAP server ([talk-imap]): [ImapResponse] (response.rs), [ImapParse] with
      [ImapParseFacts] (parse.rs), [ImapFetch] and [ImapSession] (session.rs) with
      [ImapSessionFacts], [ImapMailFacts] and [ImapWire], [ImapServer] with
      [ImapServerFacts] (server.rs), [Capture] with [CaptureFacts] (capture.rs),
      [Tls] (tls.rs);
    - the machine: [Files] ([std::fs] with faults), [Sockets] (talk-core's sockets.rs),
      [Config] (config.rs), [Wallet] and [Indexer] (talk-wallet);
    - the listeners of the daemon: [Listeners] (the accept loops of both servers);
    - the daemon: [Talkd] with [TalkdFacts] (talkd's main.rs), [Restart] (starting it again);
    - the two programs, from arguments to exit code, and their logging: [Programs];
    - the tool ([talk-ctl]): [Cli] (its state and errors), [ConfigCmd] (config_cmd.rs),
      [KeyCmd] (key.rs), [Accounts] (store.rs), [Remote] (remote.rs), [Ledger] (tx.rs and
      the dispatcher of lib.rs); its properties in [CtlFacts], [AccountFacts],
      [KeyFacts], [ConfigFacts] and [LedgerFacts];
    - the compositions: [Daemon] (two daemons, from SEND to the recipient's store),
      [Journey] (on to the recipient's mail client), [AccountLife] (tool and IMAP
      login), [System] (the machine, on which one daemon with all its connections runs
      until it is stopped or killed, and the tool, as a step relation).

    [Prelude], [RustStr] (strings and UTF-8 of Rust's standard library) and [Externals]
    are shared.  The files and modules called Toy hold concrete implementations of the
    interfaces and the inputs on which the theorems are applied; the files called Tests
    hold the repository's own unit and integration tests, run on the model.

    ** How the code corresponds to the definitions

    Functions and methods keep their names.  A struct is a [Record], an enum an
    [Inductive]; a [String] and a [Vec<u8>] are lists of bytes; an [iN] or [uN] is a [Z]
    with its wrap-around written out.  A method that changes a struct or the store is a
    function in a state and error monad ([st], [M], [H], [Ctl]); an early return is an
    error.  A shared object behind [Arc<dyn Trait>] is a record of operations on a world.
    A database is a record of tables; a statement fails when the list of faults of the
    store says so or when a constraint is violated, and then changes nothing.  Files have
    faults of their own.  Clocks and random draws are arguments.  What runs beside a
    task is explicit: interleaved appends ([Uids]), the other tasks at each input of an
    IMAP connection ([ImapServer.conn_step]), the system calls of two processes that
    bind one path ([Sockets]), and the steps of the whole system ([System]), where
    connections interleave command by command.

    ** What the theorems show

    - the way of an invoice: [Journey.invoice_reaches_reader] from SEND to FETCH,
      [Dialogue.dialogue_delivers] for the protocol, [SinkFacts] for delivery;
    - what nobody can do: deliver without authentication and address
      ([SessionFacts.delivery_authorised]), be told of success without storage
      ([SinkFacts.accepted_is_stored]), act over IMAP for a user without its password
      ([ImapServerFacts.connection_authorised], [ImapSessionFacts.login_exact]), pass a
      client flow without a fresh and signed response ([Client.client_verifies]);
    - what always holds: the schema and who changes what ([System.system_sound],
      [Uids.schema_always_holds]), UIDs ([Uids.uids_never_reused]), the session
      ([SessionFacts.session_invariant]), deletion ([UserLife]), opening
      ([SchemaFacts.open_upgrades], [StoreFile.opened_file_reads]), starting again
      ([Restart.daemon_restarts]);
    - what commands do: [ImapMailFacts], [AccountLife], [AccountFacts], [LedgerFacts],
      [ConfigFacts], [KeyFacts], [TalkdFacts]; who can be sent to
      ([TalkdFacts.discovery_only_counterparty]);
    - the wire: round trips and bounds in [Framing], [Codec], [ImapParseFacts], replies
      that a client can read ([ImapWire]), refinement of the loops over bytes to the
      handlers over commands ([SessionFacts.run_refines_handler],
      [ImapServerFacts.pipelined_in_order]), the control channel ([SecureMailboxFacts]),
      transcripts ([CaptureFacts]);
    - where they end: [SessionFacts.run_terminates], [ImapParseFacts.tokenize_ends].

    Where the code does something else than it means to, a theorem says what it does;
    these are the findings of the manifest.

    ** Fuel

    Loops over received bytes take one turn more than there are bytes:
    [Session.run_loop], [SecureMailbox.serve_loop] and the readers consume at least one
    byte in each turn, and their files prove that this fuel gives the result and that
    more changes nothing.  The tokenizer of the IMAP reader need not end; it returns
    [None] without fuel, and [ImapParse.tokenize_fuel] shows that as many turns as
    characters decide whether it ends.  Loops that serve for ever (the accept loops) run
    over the list of what arrives.

    ** Interfaces

    Code that is not part of the repository is a class of operations, and what the
    source relies on of its documented behaviour a class of laws beside it, with an
    instance in a Toy module: [Signing] (ed25519 and SHA-256), [Encodings] (base64 and
    hex), [Json], [RowIds] (SQLite's choice of a row id), [ErrorTexts], [Argon2],
    [KeyCrypto] (ChaCha20-Poly1305, X25519, HKDF), [Templates] (Tera, TOML), [DnsExternals]
    (environment, HTTP, and JSON as trees), [Network] (sockets and rustls of the client),
    [Outside] (sockets and entropy of the daemon), [CtlOutside] (of the tool; its
    [open_store] is the outcome of [SqliteMailStore::open], which [Schema] models on raw
    tables), [TomlText], [ConfigParser], [TlsParser], [TalkdOutside], [DaemonSocket],
    [Broadcast] (tokio's channel), [TimeFormat], [OsGroups], [IoTexts], [CaptureTime],
    [Grpc] (the generated client of the indexer), [Tracing] (filters of the log),
    [ArgParsers] (what clap derives for the arguments).

    ** Not modelled

    What clap derives to parse arguments, and the lines that are logged; what tokio and
    rustls do inside [accept] and a handshake, of which the outcome enters; statements of
    two connections that interleave within one command, but for the two statements that
    matter, in [Uids]; zeroizing of keys and [Debug]; the synchronous variant of the
    control channel's handler, which nothing implements; the generated gRPC code. *)

From Stdlib Require Export Ascii ZArith Lia.
From stdpp Require Export base tactics option strings gmap numbers.
From stdpp Require Export list.
Export list.

(** ** Byte strings

    A Rust [String]/[&str] is the list of its UTF-8 bytes and a [Vec<u8>]/[&[u8]]
    is the list of its bytes; both are [str]. *)

Abbreviation str := (list ascii).

(** Literals: [#"HELLO"] is the byte string of the source literal. *)
Definition lit (s : string) : str := String.list_ascii_of_string s.

#[global] Arguments lit : simpl never.

Declare Scope talk_scope.
Delimit Scope talk_scope with talk.
Notation "# s" := (lit s%string) (at level 1, s at level 0, format "# s") : talk_scope.
Notation "x ≟ y" := (bool_decide (x = y)) (at level 70, no associativity) : talk_scope.
Global Open Scope talk_scope.

(** Bytes the code names by number. *)
Definition b_nl : ascii := "010"%char.
Definition b_cr : ascii := "013"%char.
Definition b_sp : ascii := " "%char.
Definition b_at : ascii := "@"%char.
Definition b_dq : ascii := "034"%char.
Definition b_nul : ascii := "000"%char.
Definition crlf : str := [b_cr; b_nl].

(** A string literal of the source, with its double quotes written as tildes. *)
Definition dq (s : string) : str := map (fun c => if c ≟ "~"%char then b_dq else c) (lit s).

(** ** The error monad: Rust's [Result<A, E>], error type first. *)

Inductive result (E A : Type) : Type :=
  | Ok (x : A)
  | Err (e : E).
Arguments Ok {E A} x.
Arguments Err {E A} e.

#[export] Instance result_ret {E} : MRet (result E) := fun A x => Ok x.
#[export] Instance result_bind {E} : MBind (result E) := fun A B f m =>
  match m with Ok x => f x | Err e => Err e end.
#[export] Instance result_fmap {E} : FMap (result E) := fun A B f m =>
  match m with Ok x => Ok (f x) | Err e => Err e end.
#[export] Instance result_eq_dec `{!EqDecision E, !EqDecision A} : EqDecision (result E A).
Proof.
  refine (fun r1 r2 => match r1, r2 with
    | Ok x, Ok y => cast_if (decide (x = y))
    | Err e, Err f => cast_if (decide (e = f))
    | _, _ => right _
    end); abstract congruence.
Defined.

(** [Option::ok_or], [Result::map_err], [Result::ok], [Result::is_ok]. *)
Definition ok_or {E A} (o : option A) (e : E) : result E A :=
  match o with Some x => Ok x | None => Err e end.
Definition map_err {E F A} (f : E -> F) (r : result E A) : result F A :=
  match r with Ok x => Ok x | Err e => Err (f e) end.
Definition ok {E A} (r : result E A) : option A :=
  match r with Ok x => Some x | Err _ => None end.
Definition is_ok {E A} (r : result E A) : bool :=
  match r with Ok _ => true | Err _ => false end.

(** ** State and errors: a handler that changes a state [S] and may fail. A
    failure keeps the state reached so far, as a Rust method does that returns
    [Err] through [?] after it has changed [self]. *)

Definition st (S E A : Type) : Type := S -> result E A * S.
#[export] Instance st_ret {S E} : MRet (st S E) := fun A x s => (Ok x, s).
#[export] Instance st_bind {S E} : MBind (st S E) := fun A B f m s =>
  match m s with (Ok x, s') => f x s' | (Err e, s') => (Err e, s') end.
Definition raise {S E A} (e : E) : st S E A := fun s => (Err e, s).
Definition gets {S E A} (f : S -> A) : st S E A := fun s => (Ok (f s), s).
Definition modify {S E} (f : S -> S) : st S E unit := fun s => (Ok tt, f s).
Definition lift {S E A} (r : result E A) : st S E A := fun s => (r, s).
(** [match m { Ok(x) => f(x), Err(e) => g(e) }] and [.map_err]. *)
Definition try_with {S E F A B} (m : st S E A) (f : A -> st S F B) (g : E -> st S F B) : st S F B :=
  fun s => match m s with (Ok x, s') => f x s' | (Err e, s') => g e s' end.
Definition st_map_err {S E F A} (f : E -> F) (m : st S E A) : st S F A :=
  fun s => match m s with (Ok x, s') => (Ok x, s') | (Err e, s') => (Err (f e), s') end.

(** A stable insertion sort, for [ORDER BY] and [sort_by]. *)
Fixpoint insert_by {A} (le : A -> A -> bool) (x : A) (l : list A) : list A :=
  match l with
  | [] => [x]
  | y :: r => if le x y then x :: l else y :: insert_by le x r
  end.
Definition sort_by {A} (le : A -> A -> bool) (l : list A) : list A :=
  foldr (insert_by le) [] l.

(** ** Machine integers: a value of a [w]-bit unsigned type is a [Z] in
    [0, 2^w); [as] casts wrap. *)
Definition wrap (w : Z) (z : Z) : Z := z `mod` 2 ^ w.
Definition u16_max : Z := 65535.
Definition u32_max : Z := 4294967295.
Definition usize_max : Z := 18446744073709551615.
Definition i64_max : Z := 9223372036854775807.
Definition i64_min : Z := -9223372036854775808.

(** ** Tactics and hints *)

Create HintDb talk.
Create Rewrite HintDb talk_rw.

(** Split every [if]/[match] of the goal on its scrutinee. *)
Ltac cases := repeat (case_match; simplify_eq/=; try done).

(** Reduce one [bool_decide] of a decided proposition. *)
Ltac decide_true := rewrite bool_decide_eq_true_2 by (done || lia).
Ltac decide_false := rewrite bool_decide_eq_false_2 by (done || lia).

(** Decide the closed string comparisons of the goal. *)
Ltac decide_lits :=
  repeat match goal with
  | |- context [bool_decide (?a = ?b)] =>
      let v := eval vm_compute in (bool_decide (a = b)) in
      match v with
      | true => change (bool_decide (a = b)) with true
      | false => change (bool_decide (a = b)) with false
      end; cbv iota
  end.

(** ** Generic lemmas *)

Lemma bind_Ok {E A B} (f : A -> result E B) (m : result E A) b :
  (m ≫= f) = Ok b -> exists a, m = Ok a /\ f a = Ok b.
Proof. destruct m; cbn; [eauto | done]. Qed.

Lemma Ok_inj {E A} (x y : A) : @Ok E A x = Ok y -> x = y.
Proof. congruence. Qed.

Lemma st_bind_Ok {S E A B} (m : st S E A) (f : A -> st S E B) s x s' :
  m s = (Ok x, s') -> (m ≫= f) s = f x s'.
Proof. intros H. unfold mbind, st_bind. by rewrite H. Qed.

Lemma st_bind_Err {S E A B} (m : st S E A) (f : A -> st S E B) s e s' :
  m s = (Err e, s') -> (m ≫= f) s = (Err e, s').
Proof. intros H. unfold mbind, st_bind. by rewrite H. Qed.

Lemma st_bind_inv {S E A B} (m : st S E A) (f : A -> st S E B) s y s' :
  (m ≫= f) s = (Ok y, s') -> exists x s1, m s = (Ok x, s1) /\ f x s1 = (Ok y, s').
Proof. unfold mbind, st_bind. destruct (m s) as [[x|e] s1]; [eauto|done]. Qed.

Lemma Forall_not_elem {A} (x : A) l : Forall (fun y => y <> x) l <-> x ∉ l.
Proof.
  split.
  - intros H Hx. rewrite Forall_forall in H. exact (H x Hx eq_refl).
  - intros H. rewrite Forall_forall. intros y Hy Heq. by subst.
Qed.

Lemma elem_of_concat {A} (x : A) (ls : list (list A)) : x ∈ concat ls <-> exists l, l ∈ ls /\ x ∈ l.
Proof.
  rewrite list_elem_of_In, in_concat. split; intros (l & H1 & H2); exists l;
    by rewrite ?list_elem_of_In in *.
Qed.

Lemma insert_by_perm {A} (le : A -> A -> bool) x l : insert_by le x l ≡ₚ x :: l.
Proof.
  induction l as [|y r IH]; [done|]. cbn. destruct (le x y); [done|].
  rewrite IH. apply Permutation_swap.
Qed.

Lemma sort_by_perm {A} (le : A -> A -> bool) l : sort_by le l ≡ₚ l.
Proof.
  induction l as [|x l IH]; [done|]. cbn. rewrite insert_by_perm. by rewrite IH.
Qed.

Lemma sort_by_elem {A} (le : A -> A -> bool) l x : x ∈ sort_by le l <-> x ∈ l.
Proof. by rewrite sort_by_perm. Qed.

(** A byte that does not occur in a closed string. *)
Lemma not_in_lit (c : ascii) (s : str) : bool_decide (c ∉ s) = true -> c ∉ s.
Proof. apply bool_decide_eq_true_1. Qed.

Lemma length_lit_app s t : length (lit s ++ t) = (length (lit s) + length t)%nat.
Proof. apply length_app. Qed.

Lemma str_eqb_refl {A} `{EqDecision A} (s : A) : (s ≟ s) = true.
Proof. by apply bool_decide_eq_true_2. Qed.

#[export] Hint Rewrite @str_eqb_refl : talk_rw.
