(* ===== verification/RustStr.v ===== *)
(** * The string operations of Rust's standard library that the source uses

    A [str] is a list of bytes.  A character is a chunk of one to four of them:
    [chunks] splits a byte string the way [core::str::Utf8Chunks] does, marking
    each chunk as a valid character or as a maximal invalid prefix, and
    [from_utf8], [from_utf8_lossy], [trim], [split_whitespace] are read off it.
    The other operations of the source split at, strip or compare ASCII bytes
    and act on the bytes directly.  Decimal and hexadecimal printing and parsing
    are at the end, with their round trips. *)

From S2P Require Export Prelude.

(** ** Bytes *)

Definition byte (a : ascii) : Z := Z.of_N (N_of_ascii a).
Definition of_byte (z : Z) : ascii := ascii_of_N (Z.to_N z).
Definition between (lo hi : Z) (a : ascii) : bool := (lo <=? byte a)%Z && (byte a <=? hi)%Z.
Definition is_ascii (a : ascii) : bool := between 0 127 a.
Definition is_ascii_digit (a : ascii) : bool := between 48 57 a.

Definition to_ascii_upper_byte (a : ascii) : ascii :=
  if between 97 122 a then of_byte (byte a - 32) else a.
Definition to_ascii_lower_byte (a : ascii) : ascii :=
  if between 65 90 a then of_byte (byte a + 32) else a.
Definition to_ascii_uppercase (s : str) : str := map to_ascii_upper_byte s.
Definition to_ascii_lowercase (s : str) : str := map to_ascii_lower_byte s.
Definition eq_ignore_ascii_case (s t : str) : bool :=
  to_ascii_lowercase s ≟ to_ascii_lowercase t.

(** ** UTF-8 *)

Definition cont (a : ascii) : bool := between 128 191 a.

(** The second byte allowed after a three- or four-byte lead. *)
Definition second_ok (lead snd : ascii) : bool :=
  (between 224 224 lead && between 160 191 snd)
  || (between 225 236 lead && between 128 191 snd)
  || (between 237 237 lead && between 128 159 snd)
  || (between 238 239 lead && between 128 191 snd)
  || (between 240 240 lead && between 144 191 snd)
  || (between 241 243 lead && between 128 191 snd)
  || (between 244 244 lead && between 128 143 snd).

(** How many of the next bytes belong to the chunk that starts with [c], and
    whether the chunk is a character. *)
Definition utf8_step (c : ascii) (rest : str) : bool * nat :=
  if between 0 127 c then (true, 0%nat)
  else if between 194 223 c then
    match rest with
    | x :: _ => if cont x then (true, 1%nat) else (false, 0%nat)
    | [] => (false, 0%nat)
    end
  else if between 224 239 c then
    match rest with
    | x :: r =>
        if second_ok c x then
          match r with
          | y :: _ => if cont y then (true, 2%nat) else (false, 1%nat)
          | [] => (false, 1%nat)
          end
        else (false, 0%nat)
    | [] => (false, 0%nat)
    end
  else if between 240 244 c then
    match rest with
    | x :: r =>
        if second_ok c x then
          match r with
          | y :: r' =>
              if cont y then
                match r' with
                | z :: _ => if cont z then (true, 3%nat) else (false, 2%nat)
                | [] => (false, 2%nat)
                end
              else (false, 1%nat)
          | [] => (false, 1%nat)
          end
        else (false, 0%nat)
    | [] => (false, 0%nat)
    end
  else (false, 0%nat).

Fixpoint chunks_aux (fuel : nat) (s : str) : list (bool * str) :=
  match fuel, s with
  | S f, c :: rest =>
      let '(v, n) := utf8_step c rest in
      (v, c :: take n rest) :: chunks_aux f (drop n rest)
  | _, _ => []
  end.
Definition chunks (s : str) : list (bool * str) := chunks_aux (length s) s.

Definition utf8_valid (s : str) : bool := forallb fst (chunks s).

(** [String::from_utf8] and [String::from_utf8_lossy]. *)
Definition from_utf8 (s : str) : option str := if utf8_valid s then Some s else None.
Definition replacement : str := [of_byte 239; of_byte 191; of_byte 189].
Definition from_utf8_lossy (s : str) : str :=
  concat (map (fun '(v, ch) => if v : bool then ch else replacement) (chunks s)).

(** [str::chars]: the characters as byte chunks. *)
Definition chars (s : str) : list str := map snd (chunks s).

(** [char::is_whitespace]: the 25 characters of Unicode's White_Space. *)
Definition whitespace_chars : list str :=
  map (fun z => [of_byte z]) [9; 10; 11; 12; 13; 32]%Z ++
  map (map of_byte)
    ([[194; 133]; [194; 160]; [225; 154; 128]; [226; 128; 168]; [226; 128; 169];
      [226; 128; 175]; [226; 129; 159]; [227; 128; 128]]
     ++ map (fun z => [226; 128; z]) [128; 129; 130; 131; 132; 133; 134; 135; 136; 137; 138])%Z.
Definition is_whitespace (ch : str) : bool := bool_decide (ch ∈ whitespace_chars).

Fixpoint drop_while {A} (p : A -> bool) (l : list A) : list A :=
  match l with x :: r => if p x then drop_while p r else l | [] => [] end.
Definition drop_while_end {A} (p : A -> bool) (l : list A) : list A :=
  reverse (drop_while p (reverse l)).

Definition trim_start (s : str) : str := concat (drop_while is_whitespace (chars s)).
Definition trim_end (s : str) : str := concat (drop_while_end is_whitespace (chars s)).
Definition trim (s : str) : str :=
  concat (drop_while_end is_whitespace (drop_while is_whitespace (chars s))).

(** [str::split_whitespace]: the maximal runs of non-whitespace characters. *)
Fixpoint split_ws (cur : str) (l : list str) : list str :=
  match l with
  | [] => match cur with [] => [] | _ => [cur] end
  | ch :: r =>
      if is_whitespace ch then
        match cur with [] => split_ws [] r | _ => cur :: split_ws [] r end
      else split_ws (cur ++ ch) r
  end.
Definition split_whitespace (s : str) : list str := split_ws [] (chars s).

(** ** Splitting at a byte *)

(** [s.split_once(c)] and [s.rsplit_once(c)]. *)
Fixpoint split_once (c : ascii) (s : str) : option (str * str) :=
  match s with
  | [] => None
  | x :: r => if x ≟ c then Some ([], r)
              else match split_once c r with Some (a, b) => Some (x :: a, b) | None => None end
  end.
Definition rsplit_once (c : ascii) (s : str) : option (str * str) :=
  match split_once c (reverse s) with
  | Some (a, b) => Some (reverse b, reverse a)
  | None => None
  end.

(** [s.splitn(n, c)]: at most [n] pieces. *)
Fixpoint splitn (n : nat) (c : ascii) (s : str) : list str :=
  match n with
  | O => []
  | S O => [s]
  | S m => match split_once c s with
           | Some (a, b) => a :: splitn m c b
           | None => [s]
           end
  end.

(** [s.split(c)]: all pieces. *)
Fixpoint split (c : ascii) (s : str) : list str :=
  match s with
  | [] => [[]]
  | x :: r => if x ≟ c then [] :: split c r
              else match split c r with p :: ps => (x :: p) :: ps | [] => [[x]] end
  end.

Fixpoint strip_prefix (p s : str) : option str :=
  match p, s with
  | [], _ => Some s
  | a :: p', b :: s' => if a ≟ b then strip_prefix p' s' else None
  | _, [] => None
  end.
Definition strip_suffix (p s : str) : option str :=
  reverse <$> strip_prefix (reverse p) (reverse s).
Definition starts_with (p s : str) : bool := bool_decide (is_Some (strip_prefix p s)).
Definition ends_with (p s : str) : bool := bool_decide (is_Some (strip_suffix p s)).

(** [[String]::join(sep)]. *)
Fixpoint join (sep : str) (l : list str) : str :=
  match l with
  | [] => []
  | [x] => x
  | x :: r => x ++ sep ++ join sep r
  end.

(** ** Decimal numbers *)

Fixpoint show_digits (fuel : nat) (n : N) (acc : str) : str :=
  match fuel with
  | O => acc
  | S f =>
      let acc' := of_byte (48 + Z.of_N (n mod 10)) :: acc in
      if (n <? 10)%N then acc' else show_digits f (n / 10)%N acc'
  end.
Definition show_N (n : N) : str := show_digits (S (N.size_nat n)) n [].
Definition show_Z (z : Z) : str :=
  if (z <? 0)%Z then "-"%char :: show_N (Z.to_N (- z)) else show_N (Z.to_N z).
Definition show_nat (n : nat) : str := show_N (N.of_nat n).

Definition digit_val (a : ascii) : option Z :=
  if is_ascii_digit a then Some (byte a - 48)%Z else None.
Fixpoint parse_digits (acc : Z) (s : str) : option Z :=
  match s with
  | [] => Some acc
  | c :: r => match digit_val c with
              | Some d => parse_digits (10 * acc + d)%Z r
              | None => None
              end
  end.

(** [str::parse] at an integer type with values [lo..=hi]: an optional [+]
    (and [-] at a signed type), then at least one digit, and no overflow. *)
Definition parse_int (lo hi : Z) (s : str) : option Z :=
  let run (neg : bool) (ds : str) :=
    match ds with
    | [] => None
    | _ => match parse_digits 0 ds with
           | Some v => let v := if neg then (- v)%Z else v in
                       if ((lo <=? v) && (v <=? hi))%Z then Some v else None
           | None => None
           end
    end in
  match s with
  | c :: r =>
      if c ≟ "+"%char then run false r
      else if (c ≟ "-"%char) && (lo <? 0)%Z then run true r
      else run false s
  | [] => None
  end.
Definition parse_u16 : str -> option Z := parse_int 0 u16_max.
Definition parse_u32 : str -> option Z := parse_int 0 u32_max.
Definition parse_usize : str -> option Z := parse_int 0 usize_max.
Definition parse_i64 : str -> option Z := parse_int i64_min i64_max.

(** ** Hexadecimal, [format!("{b:02x}")] per byte *)

Definition hex_digit (z : Z) : ascii :=
  if (z <? 10)%Z then of_byte (48 + z) else of_byte (87 + z).
Definition hex_byte (a : ascii) : str := [hex_digit (byte a / 16); hex_digit (byte a `mod` 16)].
Definition hex (s : str) : str := s ≫= hex_byte.

(** [u8::from_str_radix(pair, 16)] on one digit. *)
Definition hex_val (a : ascii) : option Z :=
  if between 48 57 a then Some (byte a - 48)%Z
  else if between 97 102 a then Some (byte a - 87)%Z
  else if between 65 70 a then Some (byte a - 55)%Z
  else None.

(** Two digits per byte, [(hi << 4) | lo]; an odd digit is an error. *)
Fixpoint unhex_pairs (s : str) : option str :=
  match s with
  | [] => Some []
  | a :: b :: r =>
      hi ← hex_val a; lo ← hex_val b; t ← unhex_pairs r;
      Some (of_byte (Z.lor (Z.shiftl hi 4) lo) :: t)
  | [_] => None
  end.

(** ** [i64::to_be_bytes] and wrapping [i64] arithmetic *)

Fixpoint be_bytes (n : nat) (z : Z) : str :=
  match n with
  | O => []
  | S m => of_byte (Z.shiftr z (8 * Z.of_nat m) `mod` 256) :: be_bytes m z
  end.
Definition i64_be_bytes (z : Z) : str := be_bytes 8 z.
Definition wrap_i64 (z : Z) : Z := ((z + 2 ^ 63) `mod` 2 ^ 64 - 2 ^ 63)%Z.
Definition in_i64 (z : Z) : Prop := (i64_min <= z <= i64_max)%Z.

#[global] Arguments chunks : simpl never.
#[global] Arguments chars : simpl never.
#[global] Arguments utf8_valid : simpl never.
#[global] Arguments from_utf8 : simpl never.
#[global] Arguments from_utf8_lossy : simpl never.
#[global] Arguments is_whitespace : simpl never.
#[global] Arguments trim : simpl never.
#[global] Arguments split_whitespace : simpl never.
#[global] Arguments show_N : simpl never.
#[global] Arguments show_Z : simpl never.
#[global] Arguments parse_int : simpl never.
#[global] Arguments of_byte : simpl never.
#[global] Arguments byte : simpl never.
#[global] Arguments between : simpl never.

(** ** Lemmas: bytes *)

Lemma byte_range a : (0 <= byte a < 256)%Z.
Proof. unfold byte. pose proof (N_ascii_bounded a). lia. Qed.

Lemma of_byte_byte a : of_byte (byte a) = a.
Proof. unfold of_byte, byte. by rewrite N2Z.id, ascii_N_embedding. Qed.

Lemma byte_of_byte z : (0 <= z < 256)%Z -> byte (of_byte z) = z.
Proof. intros Hz. unfold of_byte, byte. rewrite N_ascii_embedding; lia. Qed.

Lemma byte_inj a b : byte a = byte b -> a = b.
Proof. intros H. by rewrite <- (of_byte_byte a), H, of_byte_byte. Qed.

Lemma between_true lo hi a : between lo hi a = true <-> (lo <= byte a <= hi)%Z.
Proof. unfold between. rewrite andb_true_iff, !Z.leb_le. done. Qed.

Lemma between_false lo hi a : between lo hi a = false <-> ~ (lo <= byte a <= hi)%Z.
Proof. rewrite <- not_true_iff_false. by rewrite between_true. Qed.

#[export] Hint Rewrite between_true between_false : talk_rw.

(** ** Lemmas: chunks *)

Lemma chunks_aux_fuel n m s :
  (length s <= n)%nat -> (length s <= m)%nat -> chunks_aux n s = chunks_aux m s.
Proof.
  revert m s. induction n as [|n IH]; intros m s Hn Hm.
  - destruct s, m; cbn in *; done || lia.
  - destruct s as [|c r]; [by destruct m |]. destruct m as [|m]; [cbn in Hm; lia |].
    cbn in *. destruct (utf8_step c r) as [v k]. f_equal.
    apply IH; rewrite length_drop; lia.
Qed.

Lemma chunks_cons c r :
  chunks (c :: r) =
  (fst (utf8_step c r), c :: take (snd (utf8_step c r)) r)
    :: chunks (drop (snd (utf8_step c r)) r).
Proof.
  unfold chunks. cbn [length chunks_aux]. destruct (utf8_step c r) as [v n]. cbn. f_equal.
  apply chunks_aux_fuel; rewrite ?length_drop; lia.
Qed.

(** Induction along the chunks of a string. *)
Lemma chunks_ind (P : str -> Prop) :
  P [] -> (forall c r, P (drop (snd (utf8_step c r)) r) -> P (c :: r)) -> forall s, P s.
Proof.
  intros Hnil Hcons s. induction s as [s IH] using (induction_ltof1 _ (@length ascii)).
  destruct s as [|c r]; [done |]. apply Hcons, IH.
  unfold ltof. rewrite length_drop. cbn. lia.
Qed.

Lemma chars_concat s : concat (chars s) = s.
Proof.
  unfold chars. induction s as [|c r IH] using chunks_ind; [done |].
  rewrite chunks_cons. cbn. rewrite IH. f_equal. apply take_drop.
Qed.

Lemma utf8_step_app c r t :
  fst (utf8_step c r) = true -> utf8_step c (r ++ t) = utf8_step c r.
Proof.
  unfold utf8_step. repeat (case_match; cbn in *; simplify_eq); done.
Qed.

Lemma utf8_step_len c r : (snd (utf8_step c r) <= length r)%nat.
Proof. unfold utf8_step. repeat (case_match; cbn in *; simplify_eq); lia. Qed.

Lemma chunks_app s t : utf8_valid s = true -> chunks (s ++ t) = chunks s ++ chunks t.
Proof.
  unfold utf8_valid. induction s as [|c r IH] using chunks_ind; [done |].
  change ((c :: r) ++ t) with (c :: (r ++ t)). rewrite !chunks_cons.
  cbn [forallb]. rewrite andb_true_iff. intros [Hv Hr]. cbn in Hv.
  rewrite utf8_step_app by done. cbn [app].
  rewrite take_app_le, drop_app_le by apply utf8_step_len.
  by rewrite IH.
Qed.

Lemma utf8_valid_app s t :
  utf8_valid s = true -> utf8_valid t = true -> utf8_valid (s ++ t) = true.
Proof.
  intros Hs Ht. unfold utf8_valid in *. rewrite chunks_app by done.
  rewrite forallb_app. by rewrite Hs, Ht.
Qed.

Lemma chars_app s t : utf8_valid s = true -> chars (s ++ t) = chars s ++ chars t.
Proof. intros H. unfold chars. by rewrite chunks_app, map_app. Qed.

Lemma chunks_ascii s : forallb is_ascii s = true -> chunks s = map (fun c => (true, [c])) s.
Proof.
  induction s as [|c r IH]; [done |]. cbn [forallb]. rewrite andb_true_iff. intros [Hc Hr].
  rewrite chunks_cons. unfold utf8_step. unfold is_ascii in Hc. rewrite Hc. cbn.
  by rewrite drop_0, IH.
Qed.

Lemma utf8_valid_ascii s : forallb is_ascii s = true -> utf8_valid s = true.
Proof.
  intros H. unfold utf8_valid. rewrite chunks_ascii by done.
  clear H. by induction s.
Qed.

Lemma from_utf8_valid s : utf8_valid s = true -> from_utf8 s = Some s.
Proof. unfold from_utf8. by intros ->. Qed.

Lemma from_utf8_Some s t : from_utf8 s = Some t -> t = s /\ utf8_valid s = true.
Proof. unfold from_utf8. case_match; naive_solver. Qed.

Lemma from_utf8_lossy_valid s : utf8_valid s = true -> from_utf8_lossy s = s.
Proof.
  unfold utf8_valid, from_utf8_lossy. induction s as [|c r IH] using chunks_ind; [done |].
  rewrite chunks_cons. cbn. rewrite andb_true_iff. intros [Hv Hr]. rewrite Hv, IH by done.
  cbn. f_equal. apply take_drop.
Qed.

#[export] Hint Resolve utf8_valid_app from_utf8_valid : talk.

(** ** Lemmas: splitting *)

Lemma split_once_app c a b : c ∉ a -> split_once c (a ++ c :: b) = Some (a, b).
Proof.
  induction a as [|x a IH]; cbn; intros H.
  - by rewrite str_eqb_refl.
  - apply not_elem_of_cons in H as [Hx Ha]. rewrite bool_decide_eq_false_2 by done.
    by rewrite IH.
Qed.

Lemma split_once_None c s : c ∉ s -> split_once c s = None.
Proof.
  induction s as [|x s IH]; [done |]. cbn. intros [Hx Hs]%not_elem_of_cons.
  rewrite bool_decide_eq_false_2 by done. by rewrite IH.
Qed.

Lemma split_once_Some c s a b :
  split_once c s = Some (a, b) -> s = a ++ c :: b /\ c ∉ a.
Proof.
  revert a b. induction s as [|x s IH]; intros a b; cbn; [done |].
  case_bool_decide as Hx; [intros [= <- <-]; subst; split; [done | apply not_elem_of_nil] |].
  destruct (split_once c s) as [[a' b']|]; [|done]. intros [= <- <-].
  specialize (IH a' b' eq_refl) as [-> Hn]. split; [done |].
  apply not_elem_of_cons. naive_solver.
Qed.

Lemma rsplit_once_app c a b : c ∉ b -> rsplit_once c (a ++ c :: b) = Some (a, b).
Proof.
  intros H. unfold rsplit_once. rewrite reverse_app, reverse_cons, <- app_assoc. cbn.
  rewrite split_once_app by (by rewrite elem_of_reverse). by rewrite !reverse_involutive.
Qed.

Lemma rsplit_once_Some c s a b :
  rsplit_once c s = Some (a, b) -> s = a ++ c :: b /\ (c ∉ b).
Proof.
  unfold rsplit_once. destruct (split_once c (reverse s)) as [[x y]|] eqn:E; [|done].
  intros [= <- <-]. apply split_once_Some in E as [E Hx]. split; [|by rewrite elem_of_reverse].
  by rewrite <- (reverse_involutive s), E, reverse_app, reverse_cons, <- app_assoc.
Qed.

Lemma split_not_nil c s : split c s <> [].
Proof. induction s as [|x r IH]; cbn; [done |]. by case_match; [|case_match]. Qed.

Lemma split_single c s : c ∉ s -> split c s = [s].
Proof.
  induction s as [|x s IH]; [done |]. cbn. intros [Hx Hs]%not_elem_of_cons.
  rewrite bool_decide_eq_false_2 by done. by rewrite IH.
Qed.

Lemma split_app c a b : c ∉ a -> split c (a ++ c :: b) = a :: split c b.
Proof.
  induction a as [|x a IH]; cbn; intros H.
  - by rewrite str_eqb_refl.
  - apply not_elem_of_cons in H as [Hx Ha]. rewrite bool_decide_eq_false_2 by done.
    by rewrite IH.
Qed.

Lemma strip_prefix_app p s : strip_prefix p (p ++ s) = Some s.
Proof. induction p as [|a p IH]; cbn; [by destruct s |]. by rewrite str_eqb_refl. Qed.

Lemma strip_prefix_Some p s r : strip_prefix p s = Some r <-> s = p ++ r.
Proof.
  split; [|intros ->; apply strip_prefix_app].
  revert s. induction p as [|a p IH]; intros [|b s]; cbn; try naive_solver.
  case_bool_decide; [|done]. intros ->%IH. by subst.
Qed.

Lemma strip_suffix_Some p s r : strip_suffix p s = Some r <-> s = r ++ p.
Proof.
  unfold strip_suffix. rewrite fmap_Some. split.
  - intros (x & Hx & ->). apply strip_prefix_Some in Hx.
    by rewrite <- (reverse_involutive s), Hx, reverse_app, reverse_involutive.
  - intros ->. exists (reverse r). rewrite reverse_involutive. split; [|done].
    apply strip_prefix_Some. by rewrite reverse_app.
Qed.

Lemma starts_with_app p s : starts_with p (p ++ s) = true.
Proof. apply bool_decide_eq_true_2. rewrite strip_prefix_app. eauto. Qed.

(** ** Lemmas: characters and words *)

(** A word: non-empty valid UTF-8 without whitespace. *)
Definition word (s : str) : bool :=
  utf8_valid s && negb (s ≟ []) && forallb (fun ch => negb (is_whitespace ch)) (chars s).

Lemma chunks_chunk s v ch : (v, ch) ∈ chunks s -> ch <> [].
Proof.
  induction s as [|c r IH] using chunks_ind; [by rewrite elem_of_nil |].
  rewrite chunks_cons, elem_of_cons. intros [[= _ ->]|H]; [done | by apply IH].
Qed.

Lemma split_ws_word cur l rest :
  forallb (fun ch => negb (is_whitespace ch)) l = true ->
  split_ws cur (l ++ rest) = split_ws (cur ++ concat l) rest.
Proof.
  revert cur. induction l as [|ch l IH]; intros cur; cbn.
  - by rewrite app_nil_r.
  - rewrite andb_true_iff, negb_true_iff. intros [-> Hl]. by rewrite IH, app_assoc.
Qed.

Lemma split_ws_space cur rest :
  cur <> [] -> split_ws cur ([b_sp] :: rest) = cur :: split_ws [] rest.
Proof. intros H. cbn. destruct cur; done. Qed.

Lemma chars_sp s : chars (b_sp :: s) = [b_sp] :: chars s.
Proof. unfold chars. rewrite chunks_cons. cbn. by rewrite drop_0. Qed.

Lemma split_whitespace_word s : word s = true -> split_whitespace s = [s].
Proof.
  unfold word, split_whitespace. rewrite !andb_true_iff. intros [[Hv Hne] Hw].
  rewrite <- (app_nil_r (chars s)), split_ws_word by done. rewrite chars_concat. cbn.
  destruct s; [|done]. by rewrite bool_decide_eq_true_2 in Hne.
Qed.

Lemma split_whitespace_cons s t :
  word s = true -> split_whitespace (s ++ b_sp :: t) = s :: split_whitespace t.
Proof.
  unfold word, split_whitespace. rewrite !andb_true_iff. intros [[Hv Hne] Hw].
  rewrite chars_app, chars_sp, split_ws_word by done. rewrite chars_concat.
  rewrite app_nil_l, split_ws_space; [done |]. intros ->. by rewrite bool_decide_eq_true_2 in Hne.
Qed.

Lemma word_nonempty s : word s = true -> s <> [].
Proof. unfold word. intros H ->. cbn in H. by rewrite andb_false_r in H. Qed.

(** Single-byte whitespace does not occur in a word. *)
Lemma chars_ascii_in c s :
  is_ascii c = true -> c ∈ s -> utf8_valid s = true -> [c] ∈ chars s.
Proof.
  intros Hc. unfold utf8_valid, chars.
  induction s as [|d r IH] using chunks_ind; [by rewrite elem_of_nil |].
  rewrite chunks_cons. cbn [forallb map]. rewrite andb_true_iff. intros Hin [Hv Hr].
  cbn in Hv.
  assert (Hstep : forall x, x ∈ take (snd (utf8_step d r)) r -> is_ascii x = false).
  { clear IH Hr Hin. intros x. revert Hv. unfold utf8_step, second_ok, cont, is_ascii.
    repeat (case_match; cbn in *; simplify_eq; try done);
    rewrite ?orb_true_iff, ?andb_true_iff, ?between_true in *;
    rewrite ?elem_of_cons, ?elem_of_nil; intros _ Hx; destruct_or?; subst; try done;
    apply between_false; lia. }
  assert (Hhead : is_ascii d = true -> snd (utf8_step d r) = 0%nat).
  { unfold is_ascii, utf8_step. by intros ->. }
  apply elem_of_cons in Hin as [<-|Hin].
  - rewrite Hhead by done. cbn. apply elem_of_cons. by left.
  - apply elem_of_cons. right.
    rewrite <- (take_drop (snd (utf8_step d r)) r), elem_of_app in Hin.
    destruct Hin as [Hx%Hstep|Hin]; [congruence |]. by apply IH.
Qed.

Lemma word_no_byte c s :
  is_ascii c = true -> is_whitespace [c] = true -> word s = true -> c ∉ s.
Proof.
  unfold word. rewrite !andb_true_iff. intros Hc Hw [[Hv _] Hf] Hin.
  apply (chars_ascii_in c s Hc) in Hin; [|done].
  rewrite forallb_forall in Hf. apply list_elem_of_In in Hin.
  apply Hf in Hin. by rewrite Hw in Hin.
Qed.

Lemma drop_while_none {A} (p : A -> bool) l :
  forallb (fun x => negb (p x)) l = true -> drop_while p l = l.
Proof. destruct l; cbn; [done |]. by destruct (p a). Qed.

Lemma trim_word s :
  forallb (fun ch => negb (is_whitespace ch)) (chars s) = true -> trim s = s.
Proof.
  intros H. unfold trim, drop_while_end. rewrite (drop_while_none _ (chars s)) by done.
  rewrite drop_while_none, reverse_involutive; [apply chars_concat |].
  rewrite forallb_forall in *. intros x Hx. apply H.
  apply list_elem_of_In. apply list_elem_of_In in Hx. by rewrite <- elem_of_reverse.
Qed.

(** ** Lemmas: numbers *)

Definition all_digits (s : str) : bool := forallb is_ascii_digit s.

Lemma mod10_range n : (0 <= Z.of_N (n mod 10) < 10)%Z.
Proof. rewrite N2Z.inj_mod. apply Z.mod_pos_bound. lia. Qed.

Lemma digit_byte z : (0 <= z < 10)%Z -> byte (of_byte (48 + z)) = (48 + z)%Z.
Proof. intros. apply byte_of_byte. lia. Qed.

Lemma show_digits_digits fuel n acc :
  all_digits acc = true -> all_digits (show_digits fuel n acc) = true.
Proof.
  revert n acc. induction fuel as [|f IH]; intros n acc H; cbn; [done |].
  assert (Hd : all_digits (of_byte (48 + Z.of_N (n mod 10)) :: acc) = true).
  { unfold all_digits in *. cbn [forallb]. rewrite H, andb_true_r. unfold is_ascii_digit.
    pose proof (mod10_range n). rewrite between_true, digit_byte; lia. }
  case_match; eauto.
Qed.

Lemma show_N_digits n : all_digits (show_N n) = true.
Proof. by apply show_digits_digits. Qed.

Lemma show_digits_ne fuel n acc : acc <> [] -> show_digits fuel n acc <> [].
Proof.
  revert n acc. induction fuel as [|f IH]; intros n acc H; cbn; [done |].
  case_match; [done | by apply IH].
Qed.

Lemma show_N_ne n : show_N n <> [].
Proof. unfold show_N. cbn. case_match; [done | by apply show_digits_ne]. Qed.

Lemma show_digits_length fuel n acc k :
  (n < 10 ^ N.of_nat k)%N -> (0 < k)%nat ->
  (length (show_digits fuel n acc) <= k + length acc)%nat.
Proof.
  revert n acc k. induction fuel as [|f IH]; intros n acc k Hn Hk; cbn [show_digits]; [lia |].
  case_match; cbn [length]; [lia |].
  destruct k as [|k]; [lia |].
  assert (10 <= n)%N by (by apply N.ltb_ge).
  destruct k as [|k]; [change (10 ^ N.of_nat 1)%N with 10%N in Hn; lia |].
  etrans; [apply (IH _ _ (S k)); [|lia] | cbn; lia].
  replace (N.of_nat (S (S k))) with (N.succ (N.of_nat (S k))) in Hn by lia.
  rewrite N.pow_succ_r' in Hn.
  apply N.Div0.div_lt_upper_bound. lia.
Qed.

Lemma show_N_length n k :
  (n < 10 ^ N.of_nat k)%N -> (0 < k)%nat -> (length (show_N n) <= k)%nat.
Proof.
  intros. unfold show_N. etrans; [by apply (show_digits_length _ _ _ k) | cbn; lia].
Qed.

Lemma parse_digits_app a s t :
  parse_digits a (s ++ t) = v ← parse_digits a s; parse_digits v t.
Proof.
  revert a. induction s as [|c s IH]; intros a; cbn; [done |].
  by destruct (digit_val c).
Qed.

(** [show_digits] prepends the decimal expansion of [n]. *)
Lemma parse_show_digits fuel n acc :
  (n < 10 ^ N.of_nat fuel)%N -> (0 < fuel)%nat ->
  exists s, show_digits fuel n acc = s ++ acc /\ parse_digits 0 s = Some (Z.of_N n).
Proof.
  revert n acc. induction fuel as [|f IH]; intros n acc Hn Hf; [lia |].
  cbn [show_digits].
  assert (Hd : digit_val (of_byte (48 + Z.of_N (n mod 10))) = Some (Z.of_N (n mod 10))).
  { pose proof (mod10_range n). unfold digit_val, is_ascii_digit. rewrite (proj2 (between_true _ _ _)), digit_byte; try lia.
    - f_equal. lia.
    - rewrite digit_byte; lia. }
  destruct (n <? 10)%N eqn:E.
  - apply N.ltb_lt in E. exists [of_byte (48 + Z.of_N (n mod 10))].
    rewrite N.mod_small in * by done. split; [done |]. cbn. by rewrite Hd.
  - apply N.ltb_ge in E. destruct f as [|f'].
    { change (10 ^ N.of_nat 1)%N with 10%N in Hn. lia. }
    set (d := of_byte _). destruct (IH (n / 10)%N (d :: acc)) as (s & Hs & Hp); [|lia|].
    { apply N.Div0.div_lt_upper_bound.
      replace (N.of_nat (S (S f'))) with (N.succ (N.of_nat (S f'))) in Hn by lia.
      by rewrite N.pow_succ_r' in Hn. }
    exists (s ++ [d]). rewrite Hs, <- app_assoc. split; [done |].
    rewrite parse_digits_app, Hp. cbn. subst d. rewrite Hd. f_equal.
    rewrite N2Z.inj_div, N2Z.inj_mod. pose proof (Z.div_mod (Z.of_N n) 10). lia.
Qed.

Lemma pos_size_nat p : N.of_nat (Pos.size_nat p) = N.pos (Pos.size p).
Proof. induction p as [p IH|p IH|]; cbn [Pos.size_nat Pos.size]; lia. Qed.

Lemma N_lt_pow10_size n : (n < 10 ^ N.of_nat (S (N.size_nat n)))%N.
Proof.
  assert (n < 2 ^ N.of_nat (N.size_nat n))%N.
  { destruct n as [|p]; [done |]. cbn [N.size_nat]. rewrite pos_size_nat.
    exact (N.size_gt (N.pos p)). }
  eapply N.lt_le_trans; [done |].
  etrans; [apply N.pow_le_mono_l; instantiate (1 := 10%N); lia |].
  apply N.pow_le_mono_r; lia.
Qed.

Lemma parse_digits_show n : parse_digits 0 (show_N n) = Some (Z.of_N n).
Proof.
  destruct (parse_show_digits (S (N.size_nat n)) n []) as (s & Hs & Hp);
    [apply N_lt_pow10_size | lia |].
  unfold show_N. by rewrite Hs, app_nil_r.
Qed.

Lemma digit_not_sign c : is_ascii_digit c = true -> c <> "+"%char /\ c <> "-"%char.
Proof. unfold is_ascii_digit. rewrite between_true. intros H. split; intros ->; unfold byte in H; cbn in H; lia. Qed.

(** Parsing the decimal print of a number in range gives it back. *)
Lemma parse_int_show lo hi z :
  (lo <= z <= hi)%Z -> parse_int lo hi (show_Z z) = Some z.
Proof.
  intros Hz. unfold show_Z. destruct (z <? 0)%Z eqn:E.
  - apply Z.ltb_lt in E. unfold parse_int.
    rewrite (bool_decide_eq_false_2 ("-"%char = "+"%char)), str_eqb_refl by done.
    rewrite (proj2 (Z.ltb_lt lo 0)) by lia. cbn [andb].
    pose proof (show_N_ne (Z.to_N (- z))). destruct (show_N _) as [|c r] eqn:Es; [done |].
    rewrite <- Es, parse_digits_show. rewrite Z2N.id, Z.opp_involutive by lia.
    by rewrite (proj2 (andb_true_iff _ _)) by (rewrite !Z.leb_le; lia).
  - apply Z.ltb_ge in E.
    pose proof (show_N_ne (Z.to_N z)). pose proof (show_N_digits (Z.to_N z)) as Hd.
    destruct (show_N (Z.to_N z)) as [|c r] eqn:Es; [done |]. cbn in Hd.
    apply andb_true_iff in Hd as [Hc Hr]. apply digit_not_sign in Hc as [Hp Hm].
    unfold parse_int. rewrite !bool_decide_eq_false_2 by done. cbn [andb].
    rewrite <- Es, parse_digits_show, Z2N.id by lia.
    by rewrite (proj2 (andb_true_iff _ _)) by (rewrite !Z.leb_le; lia).
Qed.

Lemma parse_int_range lo hi s z : parse_int lo hi s = Some z -> (lo <= z <= hi)%Z.
Proof.
  unfold parse_int.
  repeat (case_match; simplify_eq/=; try done);
    match goal with H : (_ <=? _)%Z && (_ <=? _)%Z = true |- _ =>
      apply andb_true_iff in H; rewrite !Z.leb_le in H end; intros [= <-]; lia.
Qed.

Lemma show_Z_ne z : show_Z z <> [].
Proof. unfold show_Z. case_match; [done | apply show_N_ne]. Qed.

(** The bytes of a decimal number. *)
Lemma show_Z_bytes z c : c ∈ show_Z z -> c = "-"%char \/ is_ascii_digit c = true.
Proof.
  assert (Hs : forall n, c ∈ show_N n -> is_ascii_digit c = true).
  { intros n Hc. pose proof (show_N_digits n) as Hd. unfold all_digits in Hd.
    rewrite forallb_forall in Hd. apply Hd. by apply list_elem_of_In. }
  unfold show_Z. destruct (z <? 0)%Z; [rewrite elem_of_cons; intros [?|?] | intros ?]; eauto.
Qed.

Lemma digit_ascii c : is_ascii_digit c = true -> is_ascii c = true.
Proof. unfold is_ascii_digit, is_ascii. rewrite !between_true. lia. Qed.

Lemma show_Z_not_in z c : c <> "-"%char -> is_ascii_digit c = false -> c ∉ show_Z z.
Proof. intros H1 H2 [?|?]%show_Z_bytes; congruence. Qed.

Lemma forallb_elem {A} (f : A -> bool) l :
  (forall x, x ∈ l -> f x = true) -> forallb f l = true.
Proof. intros H. apply forallb_forall. intros x Hx. apply H. by apply list_elem_of_In. Qed.

Lemma forallb_all {A} (f : A -> bool) l :
  forallb f l = true -> forall x, x ∈ l -> f x = true.
Proof. rewrite forallb_forall. intros H x Hx. apply H. by apply list_elem_of_In. Qed.

Lemma show_Z_ascii z : forallb is_ascii (show_Z z) = true.
Proof. apply forallb_elem. intros c [->|H]%show_Z_bytes; [done | by apply digit_ascii]. Qed.

(** An ASCII string whose bytes are not whitespace trims to itself. *)
Lemma no_ws_ascii s :
  forallb is_ascii s = true -> (forall c, c ∈ s -> is_whitespace [c] = false) ->
  forallb (fun ch => negb (is_whitespace ch)) (chars s) = true.
Proof.
  intros Ha Hw. unfold chars. rewrite chunks_ascii, map_map by done. cbn.
  apply forallb_elem. intros ch (c & -> & Hc)%list_elem_of_fmap. by rewrite Hw.
Qed.

(** The one-byte whitespace characters. *)
Lemma is_whitespace_byte c : is_whitespace [c] = between 9 13 c || between 32 32 c.
Proof. destruct c as [[] [] [] [] [] [] [] []]; vm_compute; reflexivity. Qed.

Lemma digit_not_ws c : is_ascii_digit c = true -> is_whitespace [c] = false.
Proof.
  rewrite is_whitespace_byte, orb_false_iff, !between_false. unfold is_ascii_digit.
  rewrite between_true. lia.
Qed.

Lemma trim_show_Z z : trim (show_Z z) = show_Z z.
Proof.
  apply trim_word, no_ws_ascii; [apply show_Z_ascii |].
  intros c [->|H]%show_Z_bytes; [done | by apply digit_not_ws].
Qed.

#[export] Hint Resolve show_Z_ascii utf8_valid_ascii : talk.

(** ** Lemmas: hexadecimal *)

Lemma hex_digit_val z : (0 <= z < 16)%Z -> hex_val (hex_digit z) = Some z.
Proof.
  intros Hz. unfold hex_val, hex_digit, between.
  destruct (z <? 10)%Z eqn:E.
  - apply Z.ltb_lt in E. rewrite byte_of_byte by lia.
    rewrite (proj2 (andb_true_iff _ _)) by (rewrite !Z.leb_le; lia). f_equal. lia.
  - apply Z.ltb_ge in E. rewrite byte_of_byte by lia.
    rewrite (proj2 (andb_false_iff _ _)) by (rewrite !Z.leb_gt; lia).
    rewrite (proj2 (andb_true_iff _ _)) by (rewrite !Z.leb_le; lia). f_equal. lia.
Qed.

Lemma hex_length s : length (hex s) = (2 * length s)%nat.
Proof.
  induction s as [|c s IH]; [done |].
  change (hex (c :: s)) with (hex_byte c ++ hex s). rewrite length_app, IH. cbn. lia.
Qed.

Lemma hex_bytes s c : c ∈ hex s -> is_Some (hex_val c).
Proof.
  unfold hex. rewrite list_elem_of_bind. intros (a & Hc & Ha). pose proof (byte_range a).
  unfold hex_byte in Hc. rewrite !elem_of_cons, elem_of_nil in Hc.
  assert (0 <= byte a / 16 < 16)%Z by (split; [apply Z.div_pos | apply Z.div_lt_upper_bound]; lia).
  assert (0 <= byte a `mod` 16 < 16)%Z by (apply Z.mod_pos_bound; lia).
  destruct Hc as [->|[->|[]]]; rewrite hex_digit_val by done; eauto.
Qed.

Lemma hex_cons c s : hex (c :: s) = hex_byte c ++ hex s.
Proof. done. Qed.

Lemma unhex_pairs_byte c r :
  unhex_pairs (hex_byte c ++ r) = t ← unhex_pairs r; Some (c :: t).
Proof. destruct c as [[] [] [] [] [] [] [] []]; reflexivity. Qed.

Lemma unhex_pairs_hex s : unhex_pairs (hex s) = Some s.
Proof. induction s as [|c s IH]; [done |]. by rewrite hex_cons, unhex_pairs_byte, IH. Qed.

Lemma hex_val_graphic c : is_Some (hex_val c) -> between 33 126 c = true /\ c <> "|"%char.
Proof.
  unfold hex_val. intros H. rewrite between_true.
  split; [|intros ->; by destruct H].
  repeat (case_match; simplify_eq/=; rewrite ?between_true in *; try lia).
  by destruct H.
Qed.

Lemma hex_graphic s c : c ∈ hex s -> between 33 126 c = true /\ c <> "|"%char.
Proof. intros H. by apply hex_val_graphic, (hex_bytes s). Qed.

(** ** Lemmas: big-endian bytes *)

Lemma be_bytes_length n z : length (be_bytes n z) = n.
Proof. induction n as [|n IH]; cbn; [done |]. by rewrite IH. Qed.

Fixpoint from_be (acc : Z) (s : str) : Z :=
  match s with [] => acc | c :: r => from_be (256 * acc + byte c)%Z r end.

Lemma from_be_bytes n z acc :
  from_be acc (be_bytes n z) = (acc * 256 ^ Z.of_nat n + z `mod` 256 ^ Z.of_nat n)%Z.
Proof.
  revert acc. induction n as [|n IH]; intros acc; cbn [be_bytes from_be].
  - cbn. rewrite Z.mod_1_r. lia.
  - rewrite IH, byte_of_byte by (apply Z.mod_pos_bound; lia).
    rewrite Nat2Z.inj_succ, Z.pow_succ_r by lia.
    assert (0 < 256 ^ Z.of_nat n)%Z by (apply Z.pow_pos_nonneg; lia).
    rewrite Z.shiftr_div_pow2 by lia. rewrite Z.pow_mul_r by lia.
    change (2 ^ 8)%Z with 256%Z.
    rewrite (Z.mul_comm 256 (256 ^ _)), (Z.rem_mul_r z) by lia. lia.
Qed.

Lemma i64_be_bytes_inj a b : in_i64 a -> in_i64 b -> i64_be_bytes a = i64_be_bytes b -> a = b.
Proof.
  unfold in_i64, i64_min, i64_max, i64_be_bytes. intros Ha Hb Heq.
  assert (Hm : from_be 0 (be_bytes 8 a) = from_be 0 (be_bytes 8 b)) by (by rewrite Heq).
  rewrite !from_be_bytes in Hm. change (256 ^ Z.of_nat 8)%Z with 18446744073709551616%Z in Hm.
  pose proof (Z.div_mod a 18446744073709551616). pose proof (Z.div_mod b 18446744073709551616). lia.
Qed.

Lemma wrap_i64_id z : in_i64 z -> wrap_i64 z = z.
Proof.
  unfold in_i64, i64_min, i64_max, wrap_i64. intros. rewrite Z.mod_small; lia.
Qed.

(** ** Lemmas: fields separated by one byte *)

Lemma app_sep_inj (c : ascii) (a a' b b' : str) :
  c ∉ a -> c ∉ a' -> a ++ c :: b = a' ++ c :: b' -> a = a' /\ b = b'.
Proof.
  intros Ha Ha' Heq.
  assert (Some (a, b) = Some (a', b')) by (by rewrite <- (split_once_app c), Heq, split_once_app).
  naive_solver.
Qed.

(** ** Lemmas: the words of a valid string *)

Definition is_char (ch : str) : Prop := chunks ch = [(true, ch)].

Lemma utf8_step_take c r :
  fst (utf8_step c r) = true ->
  utf8_step c (take (snd (utf8_step c r)) r) = utf8_step c r.
Proof.
  unfold utf8_step. destruct r as [|x [|y [|z r]]];
    repeat (case_match; cbn in *; simplify_eq); done.
Qed.

Lemma chars_is_char s : utf8_valid s = true -> Forall is_char (chars s).
Proof.
  unfold utf8_valid, chars. induction s as [|c r IH] using chunks_ind; [by constructor|].
  rewrite chunks_cons. cbn [forallb map fst snd]. rewrite andb_true_iff. intros [Hv Hr].
  apply Forall_cons. split; [|by apply IH]. unfold is_char. rewrite chunks_cons.
  rewrite utf8_step_take by done. rewrite Hv. pose proof (utf8_step_len c r).
  by rewrite take_idemp, skipn_firstn_comm, Nat.sub_diag.
Qed.

Lemma chunks_concat l : Forall is_char l -> chunks (concat l) = map (pair true) l.
Proof.
  induction 1 as [|ch l Hch _ IH]; [done|]. cbn. rewrite chunks_app, Hch, IH; [done|].
  unfold utf8_valid. by rewrite Hch.
Qed.

Lemma concat_word l :
  Forall is_char l -> l <> [] -> forallb (fun ch => negb (is_whitespace ch)) l = true ->
  word (concat l) = true.
Proof.
  intros Hl Hne Hw. unfold word, utf8_valid, chars. rewrite chunks_concat, map_map, map_id by done.
  rewrite Hw, andb_true_r, bool_decide_eq_false_2.
  - rewrite andb_true_r. apply forallb_elem. by intros x (y & -> & _)%list_elem_of_fmap.
  - destruct l as [|ch l]; [done|]. apply Forall_cons in Hl as [Hc _]. destruct ch; [done|]. done.
Qed.

Lemma split_ws_words l cur :
  Forall is_char l -> Forall is_char cur ->
  forallb (fun ch => negb (is_whitespace ch)) cur = true ->
  Forall (fun w => word w = true) (split_ws (concat cur) l).
Proof.
  assert (Hne : forall (c : list str), Forall is_char c -> concat c = [] -> c = []).
  { intros [|ch c]; [done|]. intros [Hc _]%Forall_cons. by destruct ch. }
  revert cur. induction l as [|ch l IH]; intros cur Hl Hc Hw; cbn.
  - destruct (concat cur) eqn:E; [by constructor|]. rewrite <- E. apply Forall_singleton.
    apply concat_word; [done| |done]. intros ->. done.
  - apply Forall_cons in Hl as [Hch Hl]. destruct (is_whitespace ch) eqn:Ews.
    + destruct (concat cur) eqn:E; [by apply (IH [])|]. rewrite <- E. apply Forall_cons. split.
      * apply concat_word; [done| |done]. intros ->. done.
      * by apply (IH []).
    + replace (concat cur ++ ch) with (concat (cur ++ [ch]))
        by (rewrite concat_app; cbn; by rewrite app_nil_r).
      apply IH; [done| |].
      * apply Forall_app. split; [done|]. by apply Forall_singleton.
      * rewrite forallb_app, Hw. cbn. by rewrite Ews.
Qed.

Lemma split_whitespace_words s :
  utf8_valid s = true -> Forall (fun w => word w = true) (split_whitespace s).
Proof. intros H. apply (split_ws_words _ []); [by apply chars_is_char | constructor | done]. Qed.
