(* ===== verification/Externals.v ===== *)
(** * Third-party code as interfaces

    The crates the source calls are not part of it.  Each is a class of
    operations; what the source relies on of their documented behaviour is a
    class of laws beside it.  The theorems of the development are proved for
    every implementation of these classes; the module [Toy] gives one concrete
    implementation of each, on which the witnesses evaluate. *)

From S2P Require Export RustStr.

(** ** [ed25519_dalek] and [sha2] *)

Class Signing := {
  SigningKey : Type;
  VerifyingKey : Type;
  verifying_key : SigningKey -> VerifyingKey;
  (** [sign(m).to_bytes()] *)
  sign_bytes : SigningKey -> str -> str;
  (** [verify(m, &Signature::from_bytes(sig)).is_ok()] *)
  verify_bytes : VerifyingKey -> str -> str -> bool;
  (** [Sha256] over the concatenation of the [update]s *)
  sha256 : str -> str;
}.

Class SigningLaws `{Signing} : Prop := {
  sign_length : forall k m, length (sign_bytes k m) = 64%nat;
  sign_verifies : forall k m, verify_bytes (verifying_key k) m (sign_bytes k m) = true;
}.

(** ** [base64::engine::general_purpose::STANDARD] and the [hex] crate *)

Class Encodings := {
  b64_encode : str -> str;
  b64_decode : str -> option str;
  hex_encode : str -> str;
  hex_decode : str -> option str;
}.

Class EncodingsLaws `{Encodings} : Prop := {
  b64_roundtrip : forall s, b64_decode (b64_encode s) = Some s;
  (** the standard alphabet has no blank, no line end and only ASCII *)
  b64_graphic : forall s c, c ∈ b64_encode s -> between 33 126 c = true;
  b64_length : forall s, (length (b64_encode s) <= 2 * length s + 4)%nat;
  (** [hex::encode] is lower-case hexadecimal, which [hex::decode] accepts *)
  hex_encode_lower : forall s, hex_encode s = hex s;
  hex_decode_lower : forall s, hex_decode (hex s) = Some s;
}.

(** ** [serde_json] at a type of the source

    [json_wf] says that the strings of a value are Rust strings (valid UTF-8). *)

Class Json (A : Type) := {
  to_json : A -> str;
  from_json : str -> option A;
}.

Class JsonLaws (A : Type) `{Json A} (json_wf : A -> Prop) : Prop := {
  json_roundtrip : forall a, json_wf a -> from_json (to_json a) = Some a;
  json_utf8 : forall a, json_wf a -> utf8_valid (to_json a) = true;
}.

(** ** Concrete implementations for the witnesses *)

Module Toy.

  (** A key is a byte string, its public half is itself; a signature is the key
      and the message, cut or padded to 64 bytes. *)
Definition pad64 (s : str) : str := take 64 (s ++ replicate 64 b_nul).

#[export] Instance toy_signing : Signing := {|
  SigningKey := str;
  VerifyingKey := str;
  verifying_key := fun k => k;
  sign_bytes := fun k m => pad64 (k ++ m);
  verify_bytes := fun k m sg => bool_decide (sg = pad64 (k ++ m));
  sha256 := fun s => take 32 (s ++ replicate 32 b_nul);
|}.

(** A byte string as a key. *)
Definition skey (s : str) : @SigningKey toy_signing := s.
Definition vkey (s : str) : @VerifyingKey toy_signing := s.

#[export] Instance toy_signing_laws : SigningLaws.
Proof.
  split.
  - intros k m. cbn. unfold pad64. rewrite length_take, length_app, length_replicate. lia.
  - intros k m. cbn. by apply bool_decide_eq_true_2.
Qed.

  (** Hexadecimal in place of base64: it meets the same laws. *)
#[export] Instance toy_encodings : Encodings := {|
  b64_encode := hex; b64_decode := unhex_pairs;
  hex_encode := hex; hex_decode := unhex_pairs |}.

#[export] Instance toy_encodings_laws : EncodingsLaws.
Proof.
  split; cbn.
  - exact unhex_pairs_hex.
  - intros s c Hc. by apply (hex_graphic s).
  - intros s. rewrite hex_length. lia.
  - done.
  - exact unhex_pairs_hex.
Qed.

  (** A list of byte strings as one string: the fields in hexadecimal, each
      followed by a bar. *)
Definition bar : ascii := "|"%char.
Definition enc_fields (l : list str) : str := l ≫= (fun f => hex f ++ [bar]).
Fixpoint dec_pieces (l : list str) : option (list str) :=
  match l with
  | [] => None
  | [e] => if e ≟ [] then Some [] else None
  | p :: r => f ← unhex_pairs p; fs ← dec_pieces r; Some (f :: fs)
  end.
Definition dec_fields (s : str) : option (list str) := dec_pieces (split bar s).

Lemma dec_enc_fields l : dec_fields (enc_fields l) = Some l.
Proof.
  unfold dec_fields. induction l as [|f l IH]; [done |].
  change (enc_fields (f :: l)) with ((hex f ++ [bar]) ++ enc_fields l).
  rewrite <- app_assoc. cbn [app]. rewrite split_app.
  - cbn [dec_pieces]. pose proof (split_not_nil bar (enc_fields l)).
    destruct (split bar (enc_fields l)) eqn:E; [done |].
    rewrite unhex_pairs_hex. cbn [mbind option_bind]. by rewrite IH.
  - intros Hin%hex_graphic. by destruct Hin.
Qed.

Lemma enc_fields_ascii l : forallb is_ascii (enc_fields l) = true.
Proof.
  apply forallb_elem. intros c (f & Hc & _)%list_elem_of_bind.
  apply elem_of_app in Hc as [Hc|Hc].
  - apply hex_graphic in Hc as [Hc _]. unfold is_ascii. rewrite between_true in *. lia.
  - by apply list_elem_of_singleton in Hc as ->.
Qed.

End Toy.
