(* ===== verification/Status.v ===== *)
(** * Status codes and envelopes ([talk-protocol/src/status.rs], [envelope.rs]) *)

From S2P Require Export Externals.

(** A three-digit status code, a [u16]. *)
Record StatusCode := mkCode { value : Z }.
#[export] Instance StatusCode_eq_dec : EqDecision StatusCode.
Proof. solve_decision. Defined.

Definition OK := mkCode 250.
Definition OK_QUEUED := mkCode 250.
Definition OK_SENT := mkCode 251.
Definition CONTINUE := mkCode 354.
Definition TRY_LATER := mkCode 450.
Definition BUSY := mkCode 451.
Definition SYNTAX := mkCode 500.
Definition BAD_SEQUENCE := mkCode 503.
Definition PERM_REJECT := mkCode 550.
Definition MAILBOX_UNAVAILABLE := mkCode 550.
Definition NOT_AUTHED := mkCode 530.

Definition is_success (c : StatusCode) : bool := ((200 <=? value c) && (value c <? 300))%Z.
Definition is_transient (c : StatusCode) : bool := ((400 <=? value c) && (value c <? 500))%Z.
Definition is_permanent (c : StatusCode) : bool := ((500 <=? value c) && (value c <? 600))%Z.

(** A status line [<code> <message>]. *)
Record Status := mkStatus { code : StatusCode; message : str }.
#[export] Instance Status_eq_dec : EqDecision Status.
Proof. solve_decision. Defined.

Definition render (s : Status) : str := show_Z (value (code s)) ++ #" " ++ message s.

(** ** Envelopes *)

Record Recipient := mkRecipient { mailbox : str }.

Inductive Payload := Sealed | Plaintext.
#[export] Instance Payload_eq_dec : EqDecision Payload.
Proof. solve_decision. Defined.

Record Envelope := mkEnvelope {
  env_version : str;
  env_sender_server : str;
  env_message_id : str;
  env_recipient : Recipient;
  env_payload : Payload;
  env_created_at : Z;
}.

(** [Envelope::new]; the clock is an argument. *)
Definition envelope_new (now : Z) (sender_server message_id : str)
    (recipient : Recipient) (payload : Payload) : Envelope :=
  {| env_version := #"1.0"; env_sender_server := sender_server;
     env_message_id := message_id; env_recipient := recipient;
     env_payload := payload; env_created_at := now |}.

Definition is_duplicate_of (e other : Envelope) : bool :=
  (env_sender_server e ≟ env_sender_server other)
  && (env_message_id e ≟ env_message_id other).

(** ** Lemmas *)

Lemma render_cons s : render s = show_Z (value (code s)) ++ b_sp :: message s.
Proof. done. Qed.

(** A client reads the code of a rendered line back ([status_error]). *)
Lemma render_first_token s :
  (0 <= value (code s))%Z ->
  head (split_whitespace (render s)) = Some (show_Z (value (code s))).
Proof.
  intros Hz. rewrite render_cons, split_whitespace_cons; [done |].
  unfold word. rewrite utf8_valid_ascii by apply show_Z_ascii.
  rewrite bool_decide_eq_false_2 by apply show_Z_ne. cbn [negb andb].
  apply no_ws_ascii; [apply show_Z_ascii |].
  intros c [->|H]%show_Z_bytes; [done | by apply digit_not_ws].
Qed.

(** The three failure and success classes are disjoint. *)
Lemma classes_disjoint c :
  ~ (is_success c = true /\ is_transient c = true)
  /\ ~ (is_transient c = true /\ is_permanent c = true)
  /\ ~ (is_success c = true /\ is_permanent c = true).
Proof. unfold is_success, is_transient, is_permanent. lia. Qed.

(** Being a duplicate is an equivalence: dedup may pick any representative. *)
Lemma is_duplicate_of_iff e o :
  is_duplicate_of e o = true <->
  env_sender_server e = env_sender_server o /\ env_message_id e = env_message_id o.
Proof. unfold is_duplicate_of. by rewrite andb_true_iff, !bool_decide_eq_true. Qed.

#[export] Instance is_duplicate_of_equiv : Equivalence (fun e o => is_duplicate_of e o = true).
Proof.
  split.
  - intros e. by rewrite is_duplicate_of_iff.
  - intros e o. rewrite !is_duplicate_of_iff. naive_solver.
  - intros e o p. rewrite !is_duplicate_of_iff. intros [-> ->] [-> ->]. done.
Qed.
