(* ===== verification/Keys.v ===== *)
(** * The key ladder ([talk-keys]: dk.rs, share.rs, resolver.rs, master.rs)

    Data keys, their wrapping under shares (app passwords) and under the master
    key, and the sealed file envelope.  The cipher, X25519 and HKDF are crates:
    they are the class [KeyCrypto], and what the code relies on of them is
    [KeyCryptoLaws].  A draw of randomness is an argument. *)

From S2P Require Export Externals.

Class KeyCrypto := {
  (** [ChaCha20Poly1305::new(key).encrypt(nonce, plaintext)] *)
  chacha_encrypt : str -> str -> str -> str;
  chacha_decrypt : str -> str -> str -> option str;
  (** [PublicKey::from(&StaticSecret::from(k))] and [diffie_hellman] *)
  x25519_public : str -> str;
  diffie_hellman : str -> str -> str;
  (** [Hkdf::<Sha256>::new(None, shared)], 32 bytes expanded under a label *)
  hkdf_expand : str -> str -> str;
}.

Class KeyCryptoLaws `{KeyCrypto} : Prop := {
  chacha_opens : forall key nonce m, chacha_decrypt key nonce (chacha_encrypt key nonce m) = Some m;
  dh_agrees : forall a b, diffie_hellman a (x25519_public b) = diffie_hellman b (x25519_public a);
  public_length : forall a, length (x25519_public a) = 32%nat;
}.

(** ** dk.rs *)

Definition KEY_LEN : nat := 32.
(** [SecretKey], [DataKey] and [Share] are 32 bytes. *)
Abbreviation SecretKey := str.
Abbreviation DataKey := SecretKey.
Abbreviation Share := SecretKey.

Section dk.
Context `{KeyCrypto}.

Definition aead_seal (nonce : str) (key : SecretKey) (plaintext : str) : str :=
  nonce ++ chacha_encrypt key nonce plaintext.

Definition aead_open (key : SecretKey) (ciphertext : str) : option str :=
  if (length ciphertext <? 12)%nat then None
  else chacha_decrypt key (take 12 ciphertext) (drop 12 ciphertext).

(** The 32 bytes of an unwrapped key. *)
Definition open_key {E} (e : E) (key : SecretKey) (wrapped : str) : result E DataKey :=
  bytes ← ok_or (aead_open key wrapped) e;
  if negb (length bytes ≟ KEY_LEN) then Err e else Ok bytes.

End dk.

(** ** share.rs *)

Record WrappedByShare := mkWrapped { share_id : str; wrapped : str }.
Record WrappedDkSet := mkDkSet { wrappers : list WrappedByShare }.
Inductive ShareError := SchemeMismatch | NoSurvivors | ShareDecryptFailed.

(** The trait [ShareScheme]; [rand] gives the randomness of the i-th share. *)
Class ShareScheme := {
  scheme_wrap : (nat -> str * str) -> DataKey -> list Share -> WrappedDkSet;
  scheme_rewrap : (nat -> str * str) -> DataKey -> list Share -> WrappedDkSet;
  scheme_unwrap : Share -> WrappedByShare -> result ShareError DataKey;
}.

Section share.
Context `{KeyCrypto}.

(** Share [i] draws its id and then the nonce of its seal. *)
Definition share_wrap (rand : nat -> str * str) (dk : DataKey) (shares : list Share) : WrappedDkSet :=
  mkDkSet (imap (fun i share => mkWrapped (fst (rand i)) (aead_seal (snd (rand i)) share dk)) shares).
Definition share_rewrap (rand : nat -> str * str) (dk : DataKey) (survivors : list Share) : WrappedDkSet :=
  share_wrap rand dk survivors.
Definition share_unwrap (share : Share) (w : WrappedByShare) : result ShareError DataKey :=
  open_key ShareDecryptFailed share (wrapped w).

Definition PerShareWrapper : ShareScheme :=
  {| scheme_wrap := share_wrap; scheme_rewrap := share_rewrap; scheme_unwrap := share_unwrap |}.

End share.

(** ** resolver.rs *)

Record WrappedByMaster := mkByMaster { ephemeral_pub : str; wrapped_dk : str }.
Inductive ResolverError := DecryptFailed | ShareMismatch.
Inductive Credential := Master (k : SecretKey) | ByShare (s : Share).

Definition resolver_error (e : ShareError) : ResolverError := DecryptFailed.

(** The loop over the wrappers, with the last error. *)
Fixpoint try_wrappers (scheme : ShareScheme) (share : Share) (last_err : ResolverError)
    (l : list WrappedByShare) : result ResolverError DataKey :=
  match l with
  | [] => Err last_err
  | w :: r =>
      match scheme_unwrap share w with
      | Ok dk => Ok dk
      | Err e => try_wrappers scheme share (resolver_error e) r
      end
  end.

Definition share_resolver_unwrap (scheme : ShareScheme) (set : WrappedDkSet) (credential : Credential)
    : result ResolverError DataKey :=
  match credential with
  | ByShare share => try_wrappers scheme share ShareMismatch (wrappers set)
  | Master _ => Err ShareMismatch
  end.

Section master.
Context `{KeyCrypto}.

Definition master_wrap (ephemeral nonce : str) (dk : DataKey) (master_pub : str) : WrappedByMaster :=
  let wrap_key := hkdf_expand (diffie_hellman ephemeral master_pub) #"talk/dk-wrap" in
  mkByMaster (x25519_public ephemeral) (aead_seal nonce wrap_key dk).

Definition master_unwrap (master_priv : SecretKey) (w : WrappedByMaster) : result ResolverError DataKey :=
  let wrap_key := hkdf_expand (diffie_hellman master_priv (ephemeral_pub w)) #"talk/dk-wrap" in
  open_key DecryptFailed wrap_key (wrapped_dk w).

(** ** master.rs *)

Definition MAGIC : str := #"TKS1".
Definition VERSION : Z := 1.
Definition EPHEMERAL_LEN : nat := 32.
Definition HKDF_INFO : str := #"talk/file-seal".

Record MasterKeyPair := mkPair { private : SecretKey; public : str }.
Definition generate_master_pair (static_secret : str) : MasterKeyPair :=
  mkPair static_secret (x25519_public static_secret).
Definition master_pubkey (k : SecretKey) : str := x25519_public k.

Definition derive_wrap_key (shared_secret : str) : SecretKey := hkdf_expand shared_secret HKDF_INFO.

Definition seal_envelope (ephemeral nonce master_pub data : str) : str :=
  let wrap_key := derive_wrap_key (diffie_hellman ephemeral master_pub) in
  MAGIC ++ [of_byte VERSION] ++ x25519_public ephemeral ++ aead_seal nonce wrap_key data.

Inductive SealError := BadMagic | BadVersion (v : Z) | TooShort | SealDecryptFailed.

Definition open_envelope (priv : SecretKey) (envelope : str) : result SealError str :=
  let head := (length MAGIC + 1 + EPHEMERAL_LEN)%nat in
  if (length envelope <? head)%nat then Err TooShort
  else if negb (take 4 envelope ≟ MAGIC) then Err BadMagic
  else
    match envelope !! 4%nat with
    | None => Err TooShort
    | Some v =>
        if negb (byte v =? VERSION)%Z then Err (BadVersion (byte v))
        else
          let ephemeral_pub := drop 5 (take head envelope) in
          let wrap_key := derive_wrap_key (diffie_hellman priv ephemeral_pub) in
          ok_or (aead_open wrap_key (drop head envelope)) SealDecryptFailed
    end.

End master.

(** ** Lemmas *)

Section lemmas.
Context `{KeyCryptoLaws}.

Lemma aead_open_seal nonce key m :
  length nonce = 12%nat -> aead_open key (aead_seal nonce key m) = Some m.
Proof.
  intros Hn. unfold aead_open, aead_seal. rewrite length_app.
  destruct (Nat.ltb_spec (length nonce + length (chacha_encrypt key nonce m)) 12); [lia|].
  rewrite take_app_length' by done. rewrite drop_app_length' by done. apply chacha_opens.
Qed.

Lemma open_key_Ok {E} (e : E) key ct k :
  open_key e key ct = Ok k <-> aead_open key ct = Some k /\ length k = KEY_LEN.
Proof.
  unfold open_key. destruct (aead_open key ct) as [b|]; cbn; [|split; [done|by intros [? _]]].
  case_bool_decide; cbn; split; [by intros [= <-] | by intros [[= <-] _] | done |].
  by intros [[= <-] ?].
Qed.

Lemma open_sealed_key {E} (e : E) nonce key dk :
  length nonce = 12%nat -> length dk = KEY_LEN -> open_key e key (aead_seal nonce key dk) = Ok dk.
Proof. intros. apply open_key_Ok. by rewrite aead_open_seal. Qed.

(** The resolver answers with what one of the wrappers opens to. *)
Lemma try_wrappers_Ok scheme share e l k :
  try_wrappers scheme share e l = Ok k -> exists w, w ∈ l /\ scheme_unwrap share w = Ok k.
Proof.
  revert e. induction l as [|w l IH]; intros e; cbn; [done|].
  destruct (scheme_unwrap share w) as [k'|e'] eqn:E.
  - intros [= ->]. exists w. split; [left | done].
  - intros (w' & Hw & Hk)%IH. exists w'. split; [by right | done].
Qed.

Lemma try_wrappers_total scheme share e l w k :
  w ∈ l -> scheme_unwrap share w = Ok k -> exists k', try_wrappers scheme share e l = Ok k'.
Proof.
  intros Hw Hk. revert e. induction Hw as [l|w y l Hw IH]; intros e; cbn.
  - rewrite Hk. eauto.
  - destruct (scheme_unwrap share y); eauto.
Qed.

Lemma elem_of_share_wrap rand dk shares w :
  w ∈ wrappers (share_wrap rand dk shares) <->
  exists i s, shares !! i = Some s /\ w = mkWrapped (fst (rand i)) (aead_seal (snd (rand i)) s dk).
Proof.
  cbn. rewrite list_elem_of_lookup. split.
  - intros [i Hi]. rewrite list_lookup_imap in Hi. destruct (shares !! i) eqn:E; simplify_eq/=. eauto.
  - intros (i & s & Hs & ->). exists i. by rewrite list_lookup_imap, Hs.
Qed.

Lemma envelope_split (envelope : str) :
  (37 <= length envelope)%nat ->
  exists (m : str) (v : ascii) (eph ct : str), envelope = m ++ [v] ++ eph ++ ct /\ length m = 4%nat /\ length eph = 32%nat.
Proof.
  intros Hl. exists (take 4 envelope).
  destruct (lookup_lt_is_Some_2 envelope 4) as [v Hv]; [lia|].
  exists v, (drop 5 (take 37 envelope)), (drop 37 envelope). split; [|split].
  - rewrite <- (take_drop 4 envelope) at 1. f_equal. rewrite (drop_S _ _ _ Hv). cbn. f_equal.
    rewrite <- (take_drop 32 (drop 5 envelope)) at 1. rewrite drop_drop. cbn.
    f_equal. by rewrite skipn_firstn_comm.
  - rewrite length_take. lia.
  - rewrite length_drop, length_take. lia.
Qed.

Lemma open_envelope_parts priv m v eph ct :
  length m = 4%nat -> length eph = 32%nat ->
  open_envelope priv (m ++ [v] ++ eph ++ ct)
  = if negb (m ≟ MAGIC) then Err BadMagic
    else if negb (byte v =? VERSION)%Z then Err (BadVersion (byte v))
    else ok_or (aead_open (derive_wrap_key (diffie_hellman priv eph)) ct) SealDecryptFailed.
Proof.
  intros Hm He. unfold open_envelope. change (length MAGIC + 1 + EPHEMERAL_LEN)%nat with 37%nat.
  rewrite !length_app. cbn [length].
  destruct (Nat.ltb_spec (length m + (1 + (length eph + length ct))) 37); [lia|].
  rewrite take_app_length' by done. rewrite lookup_app_r by lia. rewrite Hm. cbn [app lookup list_lookup Nat.sub].
  do 2 (case_match; [done|]).
  replace (drop 37 (m ++ v :: eph ++ ct)) with ct.
  2: { rewrite drop_app_ge by lia. rewrite Hm. cbn. by rewrite drop_app_length'. }
  replace (drop 5 (take 37 (m ++ v :: eph ++ ct))) with eph; [done|].
  rewrite take_app_ge by lia. rewrite Hm. cbn. rewrite take_app_length' by done.
  rewrite drop_app_ge by lia. by rewrite Hm.
Qed.

End lemmas.

(** ** Properties *)

Section properties.
Context `{KeyCryptoLaws}.

(** C27: the share ladder. Every share a data key is wrapped (or re-wrapped) under
    unlocks it: the resolver returns a key, and it is the data key unless the
    wrapper of another share opens under this one. A share it was not wrapped under
    unlocks something only by opening another share's wrapper, a master credential
    is always refused, and so is everything when no share is left. *)
Theorem share_ladder rand dk shares share :
  (forall i, length (snd (rand i)) = 12%nat) -> length dk = KEY_LEN ->
  let resolve c := share_resolver_unwrap PerShareWrapper (share_rewrap rand dk shares) c in
  let crossed k := exists i s, shares !! i = Some s /\ s <> share
                     /\ aead_open share (aead_seal (snd (rand i)) s dk) = Some k in
  (share ∈ shares -> exists k, resolve (ByShare share) = Ok k /\ (k = dk \/ crossed k))
  /\ (share ∉ shares -> forall k, resolve (ByShare share) = Ok k -> crossed k)
  /\ (forall m, resolve (Master m) = Err ShareMismatch)
  /\ (shares = [] -> resolve (ByShare share) = Err ShareMismatch).
Proof.
  intros Hn Hdk resolve crossed.
  assert (Hok : forall k, resolve (ByShare share) = Ok k -> (k = dk /\ share ∈ shares) \/ crossed k).
  { intros k (w & (i & s & Hs & ->)%elem_of_share_wrap & Ho)%try_wrappers_Ok.
    apply open_key_Ok in Ho as [Ho _]. cbn in Ho. destruct (decide (s = share)) as [->|Hne].
    - left. rewrite aead_open_seal in Ho by done. split; [congruence|]. by eapply list_elem_of_lookup_2.
    - right. exists i, s. eauto. }
  repeat split.
  - intros [i Hi]%list_elem_of_lookup.
    destruct (try_wrappers_total PerShareWrapper share ShareMismatch
                (wrappers (share_rewrap rand dk shares))
                (mkWrapped (fst (rand i)) (aead_seal (snd (rand i)) share dk)) dk) as [k Hk].
    + apply elem_of_share_wrap. eauto.
    + by apply open_sealed_key.
    + exists k. split; [done|]. destruct (Hok k Hk) as [[-> _]|?]; auto.
  - intros Hni k [[_ Hin]|Hc]%Hok; done.
  - intros ->. done.
Qed.

Lemma open_sealed priv ephemeral nonce data :
  length nonce = 12%nat -> open_envelope priv (seal_envelope ephemeral nonce (master_pubkey priv) data) = Ok data.
Proof.
  intros Hn. unfold seal_envelope. rewrite open_envelope_parts by (done || apply public_length).
  rewrite str_eqb_refl. cbn [negb]. rewrite byte_of_byte by (unfold VERSION; lia). cbn.
  unfold master_pubkey. rewrite <- dh_agrees. by rewrite aead_open_seal.
Qed.

(** Sealed envelopes and master-wrapped keys. Opening reports an envelope below
    37 bytes, a wrong magic and a wrong version as such, in this order, and
    otherwise answers what the cipher opens under the key agreed with the
    ephemeral public key in the envelope; so what is sealed to a public key is
    opened by its private key, and a data key wrapped to a public key is unwrapped
    by its private key. *)
Theorem envelope_spec (priv ephemeral nonce data dk envelope : str) :
  length nonce = 12%nat -> length dk = KEY_LEN ->
  open_envelope priv (seal_envelope ephemeral nonce (master_pubkey priv) data) = Ok data
  /\ master_unwrap priv (master_wrap ephemeral nonce dk (public (generate_master_pair priv))) = Ok dk
  /\ ((length envelope < 37)%nat -> open_envelope priv envelope = Err TooShort)
  /\ ((37 <= length envelope)%nat -> exists (m : str) (v : ascii) (eph ct : str),
        envelope = m ++ [v] ++ eph ++ ct /\ length m = 4%nat /\ length eph = 32%nat
        /\ (m <> MAGIC -> open_envelope priv envelope = Err BadMagic)
        /\ (m = MAGIC -> byte v <> 1%Z -> open_envelope priv envelope = Err (BadVersion (byte v)))
        /\ (m = MAGIC -> byte v = 1%Z -> open_envelope priv envelope
              = ok_or (aead_open (derive_wrap_key (diffie_hellman priv eph)) ct) SealDecryptFailed)).
Proof.
  intros Hn Hdk. split; [|split; [|split]].
  - by apply open_sealed.
  - unfold master_unwrap, master_wrap. cbn. rewrite dh_agrees. by apply open_sealed_key.
  - intros Hl. unfold open_envelope. change (length MAGIC + 1 + EPHEMERAL_LEN)%nat with 37%nat.
    by destruct (Nat.ltb_spec (length envelope) 37); [|lia].
  - intros (m & v & eph & ct & -> & Hm & He)%envelope_split. exists m, v, eph, ct.
    rewrite open_envelope_parts by done. repeat split; try done.
    + intros Hne. by rewrite bool_decide_eq_false_2.
    + intros -> Hv. rewrite str_eqb_refl. by destruct (Z.eqb_spec (byte v) VERSION).
    + intros -> Hv. rewrite str_eqb_refl, Hv. done.
Qed.

End properties.

(** ** A concrete instance *)

Module ToyKeys.

(** The cipher writes the key before the text and checks it; the agreed secret is
    the byte-wise exclusive or of the two keys; HKDF keeps the secret. *)
Definition pad32 (s : str) : str := take 32 (s ++ replicate 32 b_nul).
Definition xor_bytes (a b : str) : str := zip_with (fun x y => of_byte (Z.lxor (byte x) (byte y))) (pad32 a) (pad32 b).

#[export] Instance toy_keys : KeyCrypto := {
  chacha_encrypt := fun key nonce m => pad32 key ++ m;
  chacha_decrypt := fun key nonce c => if take 32 c ≟ pad32 key then Some (drop 32 c) else None;
  x25519_public := pad32;
  diffie_hellman := xor_bytes;
  hkdf_expand := fun s _ => s;
}.

Lemma pad32_length s : length (pad32 s) = 32%nat.
Proof. unfold pad32. rewrite length_take, length_app, length_replicate. lia. Qed.
Lemma pad32_idem s : pad32 (pad32 s) = pad32 s.
Proof. unfold pad32 at 1. by rewrite take_app_length' by (by rewrite pad32_length). Qed.
Lemma xor_bytes_comm a b : xor_bytes a b = xor_bytes b a.
Proof.
  unfold xor_bytes. generalize (pad32 a) (pad32 b). intros l. induction l as [|x l IH]; intros [|y k]; try done.
  cbn. by rewrite Z.lxor_comm, IH.
Qed.

#[export] Instance toy_keys_laws : KeyCryptoLaws.
Proof.
  split.
  - intros key nonce m. cbn. rewrite take_app_length' by (by rewrite pad32_length).
    rewrite str_eqb_refl. by rewrite drop_app_length' by (by rewrite pad32_length).
  - intros a b. cbn. rewrite xor_bytes_comm. unfold xor_bytes. by rewrite !pad32_idem.
  - intros a. apply pad32_length.
Qed.

Definition share_a : Share := pad32 #"share a".
Definition share_b : Share := pad32 #"share b".
Definition dk0 : DataKey := pad32 #"the data key".
Definition rand0 (i : nat) : str * str := (pad32 (show_nat i), #"twelve bytes").

Lemma share_ladder_witness :
  exists k, share_resolver_unwrap PerShareWrapper (share_rewrap rand0 dk0 [share_a; share_b]) (ByShare share_b) = Ok k
  /\ (k = dk0 \/ exists i s, [share_a; share_b] !! i = Some s /\ s <> share_b
                     /\ aead_open share_b (aead_seal (snd (rand0 i)) s dk0) = Some k).
Proof.
  apply (share_ladder rand0 dk0 [share_a; share_b] share_b);
    [intros i; vm_compute; reflexivity | reflexivity | right; left].
Defined.

Lemma envelope_spec_witness :
  open_envelope share_a (seal_envelope share_b #"twelve bytes" (master_pubkey share_a) #"hello") = Ok #"hello".
Proof. apply (envelope_spec share_a share_b #"twelve bytes" #"hello" dk0 []); vm_compute; reflexivity. Defined.

End ToyKeys.
