(* ===== verification/Framing.v ===== *)
(** * Line and blob framing ([talk-protocol/src/framing.rs])

    A connection is what is left to read and what has been written; the end of
    [rx] is the end of the stream.  The transport itself does not fail. *)

From S2P Require Export Status.

Record conn := mkConn { rx : str; tx : str }.

Inductive FramingError :=
  | Io
  | Protocol (what : str)
  | LineTooLong (max : Z)
  | BlobTooLarge (max : Z).
#[export] Instance FramingError_eq_dec : EqDecision FramingError.
Proof. solve_decision. Defined.

Abbreviation io A := (st conn FramingError A).

Definition MAX_LINE : Z := 4096.
Definition MAX_BLOB : Z := Z.shiftl 1 20.

Definition zlength (s : str) : Z := Z.of_nat (length s).

(** [AsyncBufReadExt::read_until(b'\n')]: the bytes up to and with the first
    line feed, or all that is left. *)
Definition read_until (c : conn) : str * conn :=
  match split_once b_nl (rx c) with
  | Some (a, b) => (a ++ [b_nl], mkConn b (tx c))
  | None => (rx c, mkConn [] (tx c))
  end.

(** [read_exact] into a buffer of [n] bytes. *)
Definition read_exact (n : Z) : io str := fun c =>
  if (zlength (rx c) <? n)%Z then (Err Io, mkConn [] (tx c))
  else (Ok (take (Z.to_nat n) (rx c)), mkConn (drop (Z.to_nat n) (rx c)) (tx c)).

Definition write_all (s : str) : io unit := fun c => (Ok tt, mkConn (rx c) (tx c ++ s)).

(** What [read_line] makes of the bytes it has taken off the stream. *)
Definition finish_line (line : str) : result FramingError str :=
  if line ≟ [] then Err (Protocol #"connection closed")
  else if (MAX_LINE <? zlength line)%Z then Err (LineTooLong MAX_LINE)
  else
    match strip_suffix crlf line with
    | Some l => ok_or (from_utf8 l) (Protocol #"line not utf-8")
    | None =>
        match strip_suffix [b_nl] line with
        | Some l => ok_or (from_utf8 l) (Protocol #"line not utf-8")
        | None => Err (Protocol #"line not newline-terminated")
        end
    end.

Definition read_line : io str := fun c =>
  let '(line, c') := read_until c in (finish_line line, c').

Definition write_line (line : str) : io unit :=
  if (MAX_LINE <? zlength line)%Z then raise (LineTooLong MAX_LINE)
  else _ ← write_all line; write_all crlf.

Definition blob_size (header : str) : result FramingError Z :=
  match strip_prefix (#"BLOB ") header with
  | None => Err (Protocol #"expected BLOB header")
  | Some rest => ok_or (parse_usize (trim rest)) (Protocol #"malformed BLOB size")
  end.

Definition read_blob : io str :=
  header ← read_line;
  n ← lift (blob_size header);
  if (MAX_BLOB <? n)%Z then raise (BlobTooLarge MAX_BLOB) else read_exact n.

Definition write_blob (data : str) : io unit :=
  if (MAX_BLOB <? zlength data)%Z then raise (BlobTooLarge MAX_BLOB)
  else _ ← write_line (#"BLOB " ++ show_Z (zlength data)); write_all data.

Definition write_status (status : Status) : io unit := write_line (render status).

#[global] Arguments finish_line : simpl never.
#[global] Arguments read_line : simpl never.
#[global] Arguments write_line : simpl never.
#[global] Arguments read_blob : simpl never.
#[global] Arguments write_blob : simpl never.

(** The bytes a successful write puts on the wire. *)
Definition line_bytes (line : str) : str := line ++ crlf.
Definition blob_bytes (data : str) : str :=
  line_bytes (#"BLOB " ++ show_Z (zlength data)) ++ data.

(** A line the reader takes: short enough with its line end, UTF-8, one line. *)
Definition sendable (line : str) : bool :=
  (zlength line <=? MAX_LINE - 2)%Z && utf8_valid line && bool_decide (b_nl ∉ line).

Lemma sendable_iff line :
  sendable line = true <->
  (zlength line <= MAX_LINE - 2)%Z /\ utf8_valid line = true /\ b_nl ∉ line.
Proof. unfold sendable. rewrite !andb_true_iff, bool_decide_eq_true, Z.leb_le. tauto. Qed.

Lemma zlength_app s t : zlength (s ++ t) = (zlength s + zlength t)%Z.
Proof. unfold zlength. rewrite length_app. lia. Qed.

Lemma zlength_nonneg s : (0 <= zlength s)%Z.
Proof. unfold zlength. lia. Qed.

Lemma finish_line_crlf line : sendable line = true -> finish_line (line ++ crlf) = Ok line.
Proof.
  rewrite sendable_iff. intros (Hlen & Hu & Hn). unfold finish_line.
  rewrite bool_decide_eq_false_2 by (by destruct line).
  rewrite zlength_app, (proj2 (Z.ltb_ge _ _)) by (change (zlength crlf) with 2%Z; lia).
  rewrite (proj2 (strip_suffix_Some crlf (line ++ crlf) line) eq_refl).
  by rewrite from_utf8_valid.
Qed.

Lemma read_until_line line rest t :
  b_nl ∉ line -> read_until (mkConn (line_bytes line ++ rest) t) = (line_bytes line, mkConn rest t).
Proof.
  intros Hn. unfold read_until, line_bytes. cbn [rx tx].
  replace ((line ++ crlf) ++ rest) with ((line ++ [b_cr]) ++ b_nl :: rest)
    by (by rewrite <- !app_assoc).
  rewrite split_once_app by (rewrite elem_of_app, list_elem_of_singleton; naive_solver).
  by rewrite <- app_assoc.
Qed.

Lemma read_line_bytes line rest t :
  sendable line = true ->
  read_line (mkConn (line_bytes line ++ rest) t) = (Ok line, mkConn rest t).
Proof.
  intros Hs. unfold read_line. rewrite read_until_line by (by apply sendable_iff in Hs as (_ & _ & ?)).
  unfold line_bytes. by rewrite finish_line_crlf.
Qed.

Lemma write_line_ok line c :
  (zlength line <= MAX_LINE)%Z ->
  write_line line c = (Ok tt, mkConn (rx c) (tx c ++ line_bytes line)).
Proof.
  intros H. unfold write_line. rewrite (proj2 (Z.ltb_ge _ _)) by lia.
  unfold mbind, st_bind, write_all, line_bytes. cbn. by rewrite <- app_assoc.
Qed.

Lemma write_line_sendable line c :
  sendable line = true -> write_line line c = (Ok tt, mkConn (rx c) (tx c ++ line_bytes line)).
Proof. intros (? & _)%sendable_iff. apply write_line_ok. lia. Qed.

Lemma show_blob_len n : (0 <= n <= MAX_BLOB)%Z -> (zlength (show_Z n) <= 7)%Z.
Proof.
  intros Hn. unfold zlength, show_Z. rewrite (proj2 (Z.ltb_ge _ _)) by lia.
  assert (length (show_N (Z.to_N n)) <= 7)%nat; [|lia].
  apply show_N_length; [|lia]. change (MAX_BLOB) with 1048576%Z in Hn.
  change (10 ^ N.of_nat 7)%N with 10000000%N. lia.
Qed.

Lemma blob_header_sendable n :
  (0 <= n <= MAX_BLOB)%Z -> sendable (#"BLOB " ++ show_Z n) = true.
Proof.
  intros Hn. apply sendable_iff. split; [|split].
  - rewrite zlength_app. pose proof (show_blob_len n Hn).
    change (zlength (#"BLOB ")) with 5%Z. unfold MAX_LINE. lia.
  - apply utf8_valid_app; [done | apply utf8_valid_ascii, show_Z_ascii].
  - rewrite elem_of_app. intros [H|H]; [|by apply show_Z_not_in in H].
    revert H. by apply not_in_lit.
Qed.

Lemma blob_size_show n : (0 <= n <= usize_max)%Z -> blob_size (#"BLOB " ++ show_Z n) = Ok n.
Proof.
  intros Hn. unfold blob_size. rewrite strip_prefix_app, trim_show_Z.
  unfold parse_usize. by rewrite parse_int_show by lia.
Qed.

Lemma read_exact_app s rest t :
  read_exact (zlength s) (mkConn (s ++ rest) t) = (Ok s, mkConn rest t).
Proof.
  unfold read_exact. cbn [rx tx]. rewrite zlength_app, (proj2 (Z.ltb_ge _ _)).
  - unfold zlength. by rewrite Nat2Z.id, take_app_length, drop_app_length.
  - pose proof (zlength_nonneg rest). lia.
Qed.

Lemma read_blob_bytes data rest t :
  (zlength data <= MAX_BLOB)%Z ->
  read_blob (mkConn (blob_bytes data ++ rest) t) = (Ok data, mkConn rest t).
Proof.
  intros Hd. pose proof (zlength_nonneg data). unfold read_blob, blob_bytes.
  rewrite <- app_assoc. erewrite st_bind_Ok by (apply read_line_bytes, blob_header_sendable; lia).
  erewrite st_bind_Ok
    by (unfold lift; rewrite blob_size_show by (unfold usize_max; change MAX_BLOB with 1048576%Z in *; lia); done).
  rewrite (proj2 (Z.ltb_ge _ _)) by lia. apply read_exact_app.
Qed.

Lemma write_blob_ok data c :
  (zlength data <= MAX_BLOB)%Z ->
  write_blob data c = (Ok tt, mkConn (rx c) (tx c ++ blob_bytes data)).
Proof.
  intros Hd. pose proof (zlength_nonneg data). unfold write_blob.
  rewrite (proj2 (Z.ltb_ge _ _)) by lia.
  erewrite st_bind_Ok by (apply write_line_sendable, blob_header_sendable; lia).
  unfold write_all, blob_bytes. cbn. by rewrite <- app_assoc.
Qed.

(** A line that was read consumed at least one byte, and no read writes. *)
Lemma read_line_shrinks c r c' :
  read_line c = (r, c') ->
  tx c' = tx c /\ (length (rx c') <= length (rx c))%nat
  /\ (rx c <> [] -> (length (rx c') < length (rx c))%nat).
Proof.
  unfold read_line, read_until. destruct (split_once b_nl (rx c)) as [[a b]|] eqn:E.
  - intros [= _ <-]. cbn. apply split_once_Some in E as [-> _].
    rewrite length_app. cbn. split; [done |]. lia.
  - intros [= _ <-]. cbn. split; [done |]. destruct (rx c); cbn; [|lia]. naive_solver.
Qed.

Lemma read_line_eof t : read_line (mkConn [] t) = (Err (Protocol #"connection closed"), mkConn [] t).
Proof. done. Qed.

Lemma read_exact_mono n c r c' :
  read_exact n c = (r, c') -> tx c' = tx c /\ (length (rx c') <= length (rx c))%nat.
Proof.
  unfold read_exact. case_match; intros [= _ <-]; cbn; rewrite ?length_drop; split; [done|lia|done|lia].
Qed.

Lemma read_blob_mono c r c' :
  read_blob c = (r, c') -> tx c' = tx c /\ (length (rx c') <= length (rx c))%nat.
Proof.
  unfold read_blob, mbind, st_bind. destruct (read_line c) as [[h|e] c1] eqn:E;
    apply read_line_shrinks in E as (Ht & Hl & _); [|naive_solver].
  unfold lift. destruct (blob_size h); [|naive_solver].
  case_match; [unfold raise; naive_solver |]. intros [Ht' Hl']%read_exact_mono.
  split; [congruence | lia].
Qed.

Lemma write_line_rx l c r c' : write_line l c = (r, c') -> rx c' = rx c.
Proof.
  unfold write_line, raise, mbind, st_bind, write_all. case_match; intros [= _ <-]; done.
Qed.

Lemma write_blob_rx d c r c' : write_blob d c = (r, c') -> rx c' = rx c.
Proof.
  unfold write_blob, mbind, st_bind. case_match; [unfold raise; naive_solver |].
  destruct (write_line _ c) as [[[]|e] c1] eqn:E; apply write_line_rx in E; unfold write_all; naive_solver.
Qed.

(** What a line that was accepted looks like. *)
Lemma read_until_nl c l c1 : read_until c = (l, c1) -> forall a, l = a ++ [b_nl] -> b_nl ∉ a.
Proof.
  unfold read_until. destruct (split_once b_nl (rx c)) as [[x y]|] eqn:E; intros [= <- _] a Ha.
  - apply app_inj_tail in Ha as [-> _]. by apply split_once_Some in E as [_ ?].
  - intros Hin. assert (Hrx : b_nl ∈ rx c) by (rewrite Ha; apply elem_of_app; by left).
    clear Ha Hin. revert E Hrx. induction (rx c) as [|x r IH]; cbn; [by rewrite elem_of_nil|].
    case_bool_decide; [done|]. destruct (split_once b_nl r) as [[? ?]|]; [done|].
    rewrite elem_of_cons. naive_solver.
Qed.

Lemma finish_line_Ok l line :
  finish_line l = Ok line ->
  (zlength line < MAX_LINE)%Z /\ utf8_valid line = true
  /\ ((forall a, l = a ++ [b_nl] -> b_nl ∉ a) -> b_nl ∉ line).
Proof.
  unfold finish_line. case_bool_decide; [done|]. case_match eqn:E; [done|]. apply Z.ltb_ge in E.
  destruct (strip_suffix crlf l) as [l1|] eqn:E1;
    [|destruct (strip_suffix [b_nl] l) as [l1|] eqn:E2; [|done]];
    destruct (from_utf8 l1) as [x|] eqn:Eu; try done; intros [= <-];
    apply from_utf8_Some in Eu as [-> Hu].
  - apply strip_suffix_Some in E1 as ->. rewrite zlength_app in E.
    change (zlength crlf) with 2%Z in E. split; [lia|]. split; [done|].
    intros Ha Hin. apply (Ha (l1 ++ [b_cr])); [by rewrite <- app_assoc|].
    apply elem_of_app. by left.
  - apply strip_suffix_Some in E2 as ->. rewrite zlength_app in E.
    change (zlength [b_nl]) with 1%Z in E. split; [lia|]. split; [done|]. intros Ha. by apply Ha.
Qed.

(** ** Properties *)

(** Lines and blobs travel unchanged. [write_line] puts bytes on the wire for a
    line that fits, from which [read_line] takes exactly that line again and nothing
    of what follows; so do [write_blob] and [read_blob] for every content and every
    size up to [MAX_BLOB], and larger blobs are refused before a byte is written. *)
Theorem framing_roundtrip line data c :
  (sendable line = true ->
    exists bytes,
      write_line line c = (Ok tt, mkConn (rx c) (tx c ++ bytes))
      /\ forall rest t, read_line (mkConn (bytes ++ rest) t) = (Ok line, mkConn rest t))
  /\ if (zlength data <=? MAX_BLOB)%Z then
       exists bytes,
         write_blob data c = (Ok tt, mkConn (rx c) (tx c ++ bytes))
         /\ forall rest t, read_blob (mkConn (bytes ++ rest) t) = (Ok data, mkConn rest t)
     else write_blob data c = (Err (BlobTooLarge MAX_BLOB), c).
Proof.
  split.
  - intros Hs. exists (line_bytes line). split; [by apply write_line_sendable|].
    intros. by apply read_line_bytes.
  - destruct (zlength data <=? MAX_BLOB)%Z eqn:E.
    + apply Z.leb_le in E. exists (blob_bytes data). split; [by apply write_blob_ok |].
      intros. by apply read_blob_bytes.
    + apply Z.leb_gt in E. unfold write_blob, raise.
      by rewrite (proj2 (Z.ltb_lt _ _)) by lia.
Qed.

Lemma framing_roundtrip_witness :
  exists bytes,
    write_line #"HELLO a.org" (mkConn [] []) = (Ok tt, mkConn [] ([] ++ bytes))
    /\ forall rest t, read_line (mkConn (bytes ++ rest) t) = (Ok #"HELLO a.org", mkConn rest t).
Proof. apply (proj1 (framing_roundtrip #"HELLO a.org" [] (mkConn [] []))). vm_compute. reflexivity. Defined.


(** The two size limits do not agree. [write_line] counts the line without its
    end and [read_line] counts it with it, so a line of 4095 or 4096 bytes is
    written without an error and then refused by the peer. *)
Theorem line_limits_disagree line c rest t :
  (MAX_LINE - 1 <= zlength line <= MAX_LINE)%Z -> b_nl ∉ line ->
  exists bytes,
    write_line line c = (Ok tt, mkConn (rx c) (tx c ++ bytes))
    /\ read_line (mkConn (bytes ++ rest) t) = (Err (LineTooLong MAX_LINE), mkConn rest t).
Proof.
  intros Hl Hn. exists (line_bytes line). split; [apply write_line_ok; lia|].
  unfold read_line. rewrite read_until_line by done. unfold finish_line, line_bytes.
  rewrite bool_decide_eq_false_2 by (by destruct line).
  rewrite zlength_app, (proj2 (Z.ltb_lt _ _)); [done|].
  change (zlength crlf) with 2%Z. unfold MAX_LINE in *. lia.
Qed.

Lemma line_limits_disagree_witness :
  exists bytes,
    write_line (replicate 4095 b_at) (mkConn [] []) = (Ok tt, mkConn [] ([] ++ bytes))
    /\ read_line (mkConn (bytes ++ []) []) = (Err (LineTooLong MAX_LINE), mkConn [] []).
Proof.
  apply (line_limits_disagree (replicate 4095 b_at) (mkConn [] []) [] []).
  - vm_compute. split; discriminate.
  - intros Hin. apply elem_of_replicate in Hin as [Heq _]. discriminate Heq.
Defined.

