(* ===== verification/Codec.v ===== *)
(** * The command vocabulary ([talk-protocol/src/codec.rs]) *)

From S2P Require Export Framing.

Inductive AddrMode := AmEphemeral | AmAttested.
#[export] Instance AddrMode_eq_dec : EqDecision AddrMode.
Proof. solve_decision. Defined.

Inductive Command :=
  | Hello (domain : str)
  | Auth (challenge : str)
  | Addr (mode : AddrMode) (user : str)
  | Invoice (sender message_id : str) (payload : Payload) (body : str)
  | StatusCmd (code : Z) (message : str)
  | Quit.
#[export] Instance Command_eq_dec : EqDecision Command.
Proof. solve_decision. Defined.

Inductive CodecError := Unknown (line : str) | Malformed (line : str).
#[export] Instance CodecError_eq_dec : EqDecision CodecError.
Proof. solve_decision. Defined.

Definition addr_mode_str (m : AddrMode) : str :=
  match m with AmEphemeral => #"ephemeral" | AmAttested => #"attested" end.
Definition payload_str (p : Payload) : str :=
  match p with Sealed => #"sealed" | Plaintext => #"plaintext" end.

Section codec.
Context `{Encodings}.

Definition encode_line (cmd : Command) : result CodecError str :=
  match cmd with
  | Hello domain => Ok (#"HELLO " ++ domain)
  | Auth challenge => Ok (#"AUTH " ++ b64_encode challenge)
  | Addr mode user => Ok (#"ADDR " ++ addr_mode_str mode ++ #" " ++ user)
  | Invoice sender message_id payload _ =>
      Ok (#"INVOICE " ++ sender ++ #" " ++ message_id ++ #" " ++ payload_str payload)
  | StatusCmd code message => Ok (#"STATUS " ++ show_Z code ++ #" " ++ message)
  | Quit => Ok (#"QUIT")
  end.

Definition decode_addr_mode (s : str) : option AddrMode :=
  if to_ascii_lowercase s ≟ #"ephemeral" then Some AmEphemeral
  else if to_ascii_lowercase s ≟ #"attested" then Some AmAttested
  else None.
Definition decode_payload (s : str) : option Payload :=
  if to_ascii_lowercase s ≟ #"sealed" then Some Sealed
  else if to_ascii_lowercase s ≟ #"plaintext" then Some Plaintext
  else None.

Definition decode_line (line : str) : result CodecError Command :=
  let parts := splitn 3 b_sp line in
  let verb := to_ascii_uppercase (default [] (nth_error parts 0)) in
  let bad := Malformed line in
  if verb ≟ #"HELLO" then
    domain ← ok_or (nth_error parts 1) bad;
    Ok (Hello domain)
  else if verb ≟ #"AUTH" then
    b64 ← ok_or (nth_error parts 1) bad;
    challenge ← ok_or (b64_decode b64) bad;
    Ok (Auth challenge)
  else if verb ≟ #"ADDR" then
    mode ← ok_or (nth_error parts 1) bad;
    user ← ok_or (nth_error parts 2) bad;
    mode ← ok_or (decode_addr_mode mode) bad;
    Ok (Addr mode user)
  else if verb ≟ #"INVOICE" then
    match split_whitespace line with
    | [_; sender; message_id; p] =>
        payload ← ok_or (decode_payload p) bad;
        Ok (Invoice sender message_id payload [])
    | _ => Err bad
    end
  else if verb ≟ #"STATUS" then
    code ← ok_or (nth_error parts 1) bad;
    let message := default [] (nth_error parts 2) in
    code ← ok_or (parse_u16 code) bad;
    Ok (StatusCmd code message)
  else if verb ≟ #"QUIT" then Ok Quit
  else Err (Unknown line).

End codec.

Definition status_command (status : Status) : Command :=
  StatusCmd (value (code status)) (message status).
Definition ok_status (message : str) : Status := mkStatus OK message.

(** ** Lemmas *)

Lemma splitn3_full v a b :
  b_sp ∉ v -> b_sp ∉ a -> splitn 3 b_sp (v ++ b_sp :: a ++ b_sp :: b) = [v; a; b].
Proof. intros Hv Ha. cbn. by rewrite split_once_app, split_once_app. Qed.

Lemma splitn3_two v a :
  b_sp ∉ v -> b_sp ∉ a -> splitn 3 b_sp (v ++ b_sp :: a) = [v; a].
Proof. intros Hv Ha. cbn. by rewrite split_once_app, split_once_None. Qed.

Lemma decode_encode_addr_mode m : decode_addr_mode (addr_mode_str m) = Some m.
Proof. by destruct m. Qed.
Lemma decode_encode_payload p : decode_payload (payload_str p) = Some p.
Proof. by destruct p. Qed.

Lemma graphic_no_sp (s : str) :
  (forall c, c ∈ s -> between 33 126 c = true) ->
  (b_sp ∉ s) /\ (b_nl ∉ s) /\ forallb is_ascii s = true.
Proof.
  intros H. repeat split.
  - by intros ?%H.
  - by intros ?%H.
  - apply forallb_elem. intros c Hc%H. unfold is_ascii. rewrite between_true in *. lia.
Qed.

(** The commands whose fields the line syntax can carry. *)
Definition encodable (cmd : Command) : Prop :=
  match cmd with
  | Hello domain => b_sp ∉ domain
  | Auth _ => True
  | Addr _ _ => True
  | Invoice sender message_id _ body => word sender = true /\ word message_id = true /\ body = []
  | StatusCmd code _ => (0 <= code <= u16_max)%Z
  | Quit => True
  end.

#[global] Instance encodable_dec cmd : Decision (encodable cmd).
Proof. destruct cmd; cbn; apply _. Defined.

Section roundtrip.
Context `{EncodingsLaws}.

(** Decoding an encoded command gives the command back (an invoice without its
    blob, which travels separately). *)
Lemma decode_encode cmd line :
  encodable cmd -> encode_line cmd = Ok line -> decode_line line = Ok cmd.
Proof.
  destruct cmd as [d|ch|m u|sd mid p body|c msg|]; cbn [encodable encode_line]; intros He Hl;
    apply Ok_inj in Hl as <-; unfold decode_line; cbv zeta.
  - change (#"HELLO " ++ d) with (#"HELLO" ++ b_sp :: d).
    by rewrite splitn3_two by (done || by apply not_in_lit).
  - change (#"AUTH " ++ b64_encode ch) with (#"AUTH" ++ b_sp :: b64_encode ch).
    destruct (graphic_no_sp (b64_encode ch)) as (Hsp & _); [apply b64_graphic |].
    rewrite splitn3_two by (done || by apply not_in_lit). cbn. by rewrite b64_roundtrip.
  - change (#"ADDR " ++ addr_mode_str m ++ #" " ++ u) with (#"ADDR" ++ b_sp :: addr_mode_str m ++ b_sp :: u).
    rewrite splitn3_full by (destruct m; by apply not_in_lit). cbn.
    by rewrite decode_encode_addr_mode.
  - destruct He as (Hs & Hm & ->).
    assert (Hsp : b_sp ∉ sd) by (by eapply word_no_byte).
    assert (Hsp' : b_sp ∉ mid) by (by eapply word_no_byte).
    replace (#"INVOICE " ++ sd ++ #" " ++ mid ++ #" " ++ payload_str p)
      with (#"INVOICE" ++ b_sp :: sd ++ b_sp :: mid ++ b_sp :: payload_str p) by done.
    rewrite splitn3_full by (done || by apply not_in_lit). cbn [nth_error default from_option].
    rewrite !split_whitespace_cons by done. rewrite split_whitespace_word by (by destruct p).
    cbn. by rewrite decode_encode_payload.
  - assert (Hsp : b_sp ∉ show_Z c) by (by apply show_Z_not_in).
    change (#"STATUS " ++ show_Z c ++ #" " ++ msg) with (#"STATUS" ++ b_sp :: show_Z c ++ b_sp :: msg).
    rewrite splitn3_full by (done || by apply not_in_lit). cbn. unfold parse_u16.
    by rewrite parse_int_show.
  - done.
Qed.

End roundtrip.

(** A decoded invoice has words for its fields and no body yet; a decoded status
    has a 16-bit code. *)
Lemma decode_line_encodable_invoice `{Encodings} line s m p b :
  decode_line line = Ok (Invoice s m p b) -> b = [].
Proof.
  unfold decode_line. intros Hd.
  repeat (case_bool_decide; [repeat (apply bind_Ok in Hd as (? & ? & Hd)); try discriminate |]);
    try discriminate.
  repeat (case_match; try discriminate). apply bind_Ok in Hd as (? & ? & [= _ _ _ <-]). done.
Qed.

(** The second of three pieces has no blank. *)
Lemma splitn3_second {E} (e : E) line x :
  ok_or (nth_error (splitn 3 b_sp line) 1) e = Ok x -> b_sp ∉ x.
Proof.
  cbn. destruct (split_once b_sp line) as [[a b]|]; [|done].
  destruct (split_once b_sp b) as [[a' b']|] eqn:E2; cbn; intros [= <-].
  - by apply split_once_Some in E2 as [_ ?].
  - revert E2. induction b as [|c b IH]; [by intros _; apply not_elem_of_nil|]. cbn. case_bool_decide; [done|].
    destruct (split_once b_sp b) as [[??]|]; [done|]. intros _. rewrite elem_of_cons. naive_solver.
Qed.

(** ** Properties *)

Section properties.
Context `{EncodingsLaws}.

(** C19: the line codec is a round trip on all it produces. Every command whose
    fields the syntax can carry is encoded, and decoding gives it back; whatever
    [decode_line] makes of a received line is such a command, so printing and
    parsing it again changes nothing. *)
Theorem command_roundtrip cmd :
  (encodable cmd -> exists line, encode_line cmd = Ok line /\ decode_line line = Ok cmd)
  /\ forall line, utf8_valid line = true -> decode_line line = Ok cmd ->
     encodable cmd /\ exists line', encode_line cmd = Ok line' /\ decode_line line' = Ok cmd.
Proof.
  assert (Henc : encodable cmd -> exists line, encode_line cmd = Ok line /\ decode_line line = Ok cmd).
  { intros He. destruct (encode_line cmd) as [line|e] eqn:E; [|by destruct cmd].
    exists line. split; [done|]. by apply decode_encode. }
  split; [done|]. intros line Hu Hd. assert (He : encodable cmd); [|by auto].
  revert Hd. unfold decode_line. cbv zeta.
  repeat (case_bool_decide; [intros Hd; repeat (apply bind_Ok in Hd as (? & ? & Hd)) |]);
    try discriminate.
  - apply Ok_inj in Hd as <-. by eapply splitn3_second.
  - by apply Ok_inj in Hd as <-.
  - by apply Ok_inj in Hd as <-.
  - pose proof (split_whitespace_words line Hu) as Hw.
    destruct (split_whitespace line) as [|? [|sd [|mid [|p [|]]]]]; try discriminate.
    apply bind_Ok in Hd as (pl & _ & Hd). apply Ok_inj in Hd as <-.
    rewrite !Forall_cons in Hw. cbn. tauto.
  - apply Ok_inj in Hd as <-. cbn.
    match goal with Hp : ok_or (parse_u16 ?x) _ = Ok _ |- _ => destruct (parse_u16 x) eqn:Ep; [|done];
      apply Ok_inj in Hp as <- end. by apply parse_int_range in Ep.
  - by apply Ok_inj in Hd as <-.
Qed.

End properties.

Section witness.
Import Toy.

Lemma command_roundtrip_witness :
  encodable (Invoice #"alice" #"msg-42" Sealed [])
  /\ exists line, encode_line (Invoice #"alice" #"msg-42" Sealed []) = Ok line
                  /\ decode_line line = Ok (Invoice #"alice" #"msg-42" Sealed []).
Proof.
  assert (He : encodable (Invoice #"alice" #"msg-42" Sealed [])) by (vm_compute; auto).
  split; [exact He|].
  exact (proj1 (command_roundtrip (Invoice #"alice" #"msg-42" Sealed [])) He).
Defined.

End witness.
