(* ===== verification/Handshake.v ===== *)
(** * Server authentication by domain keys ([talk-protocol/src/handshake.rs])

    The clock and the random nonce are arguments; the key and hash crates are the
    interface [Signing]. *)

From S2P Require Export Codec.

Inductive HandshakeError :=
  | BadSignature
  | Stale (max_age : Z)
  | Replay
  | DomainMismatch
  | InvalidKey.
#[export] Instance HandshakeError_eq_dec : EqDecision HandshakeError.
Proof. solve_decision. Defined.

Definition MAX_CHALLENGE_AGE : Z := 300.

Record Challenge := mkChallenge {
  sender_domain : str;
  receiver_domain : str;
  nonce : str;
  issued_at : Z;
}.
#[export] Instance Challenge_eq_dec : EqDecision Challenge.
Proof. solve_decision. Defined.

(** What the Rust types guarantee: a 16-byte nonce and a 64-bit time. *)
Definition challenge_typed (c : Challenge) : Prop :=
  length (nonce c) = 16%nat /\ in_i64 (issued_at c).

Definition bar : ascii := "|"%char.

(** [Challenge::issue] with the nonce drawn and the time read by the caller. *)
Definition issue (random : str) (now : Z) (sender_domain receiver_domain : str) : Challenge :=
  mkChallenge sender_domain receiver_domain random now.

(** The bytes [Challenge::digest] hashes. *)
Definition challenge_preimage (c : Challenge) : str :=
  #"zsmtp-v1" ++ sender_domain c ++ [b_nul] ++ receiver_domain c ++ [b_nul]
  ++ nonce c ++ i64_be_bytes (issued_at c).

Definition to_wire (c : Challenge) : str :=
  sender_domain c ++ #"|" ++ receiver_domain c ++ #"|" ++ hex (nonce c)
  ++ #"|" ++ show_Z (issued_at c).

(** The 32-digit nonce. *)
Definition unhex (s : str) : option str :=
  if length s ≟ 32%nat then unhex_pairs s else None.

Definition from_wire (s : str) : option Challenge :=
  match split bar s with
  | sd :: rd :: nonce_hex :: at_str :: more =>
      issued_at ← parse_i64 at_str;
      if negb (length nonce_hex ≟ 32%nat) || negb (more ≟ []) then None
      else nonce ← unhex nonce_hex; Some (mkChallenge sd rd nonce issued_at)
  | _ => None
  end.

Record ChallengeResponse := mkResponse { challenge : Challenge; signature : str }.

Section handshake.
Context `{Signing}.

Definition digest (c : Challenge) : str := sha256 (challenge_preimage c).

Definition respond (c : Challenge) (domain_key : SigningKey) : ChallengeResponse :=
  mkResponse c (sign_bytes domain_key (digest c)).

(** [ChallengeResponse::verify]; [now - issued_at] is 64-bit arithmetic. *)
Definition verify (now : Z) (r : ChallengeResponse) (receiver_pub : VerifyingKey)
    (max_age_secs : Z) : result HandshakeError unit :=
  let c := challenge r in
  if (sender_domain c ≟ []) || (receiver_domain c ≟ []) then Err DomainMismatch
  else
    let age := wrap_i64 (now - issued_at c) in
    if ((max_age_secs <? age) || (age <? 0))%Z then Err (Stale max_age_secs)
    else if negb (length (signature r) ≟ 64%nat) then Err BadSignature
    else if verify_bytes receiver_pub (digest c) (signature r) then Ok tt
    else Err BadSignature.

(** A domain and its signing key. *)
Record DomainKey := mkDomainKey { dk_domain : str; signing : SigningKey }.
Definition verifying (k : DomainKey) : VerifyingKey := verifying_key (signing k).

End handshake.

(** ** Lemmas *)

Lemma to_wire_bars c :
  to_wire c = sender_domain c ++ bar :: receiver_domain c ++ bar :: hex (nonce c)
              ++ bar :: show_Z (issued_at c).
Proof. done. Qed.

Lemma hex_no_bar s : bar ∉ hex s.
Proof. by intros [_ ?]%hex_graphic. Qed.

Lemma show_Z_no_bar z : bar ∉ show_Z z.
Proof. by apply show_Z_not_in. Qed.

Lemma split_to_wire c :
  bar ∉ sender_domain c -> bar ∉ receiver_domain c ->
  split bar (to_wire c) =
  [sender_domain c; receiver_domain c; hex (nonce c); show_Z (issued_at c)].
Proof.
  intros Hs Hr. rewrite to_wire_bars.
  rewrite !split_app by (done || apply hex_no_bar).
  by rewrite split_single by apply show_Z_no_bar.
Qed.

Lemma from_to_wire c :
  challenge_typed c -> bar ∉ sender_domain c -> bar ∉ receiver_domain c ->
  from_wire (to_wire c) = Some c.
Proof.
  intros [Hn Hi] Hs Hr. unfold from_wire. rewrite split_to_wire by done.
  unfold parse_i64. rewrite parse_int_show by exact Hi. cbn [mbind option_bind].
  unfold unhex. rewrite hex_length, Hn. cbn. rewrite unhex_pairs_hex. by destruct c.
Qed.

(** What [from_wire] accepts is typed and bar-free. *)
Lemma parse_i64_range s z : parse_i64 s = Some z -> in_i64 z.
Proof. apply parse_int_range. Qed.

Lemma split_no_sep c s p : p ∈ split c s -> c ∉ p.
Proof.
  revert p. induction s as [|x s IH]; intros p; cbn.
  - rewrite list_elem_of_singleton. intros ->. by apply not_elem_of_nil.
  - case_bool_decide as Hx.
    + rewrite elem_of_cons. intros [->|Hp]; [by apply not_elem_of_nil | by apply IH].
    + destruct (split c s) as [|q qs] eqn:E; [by apply split_not_nil in E |].
      rewrite elem_of_cons. intros [->|Hp].
      * apply not_elem_of_cons. split; [done |]. apply IH. apply elem_of_cons. by left.
      * apply IH. apply elem_of_cons. by right.
Qed.

Lemma unhex_pairs_length n s t :
  length s = (2 * n)%nat -> unhex_pairs s = Some t -> length t = n.
Proof.
  revert s t. induction n as [|n IH]; intros s t Hl.
  - destruct s; [|done]. by intros [= <-].
  - destruct s as [|a [|b r]]; cbn in Hl; try lia. cbn.
    destruct (hex_val a), (hex_val b); cbn; try done.
    destruct (unhex_pairs r) as [t'|] eqn:E; [|done]. intros [= <-].
    apply IH in E; cbn; lia.
Qed.

Lemma from_wire_typed s c :
  from_wire s = Some c ->
  challenge_typed c /\ (bar ∉ sender_domain c) /\ (bar ∉ receiver_domain c).
Proof.
  unfold from_wire. pose proof (split_no_sep bar s) as Hsep.
  destruct (split bar s) as [|sd [|rd [|nh [|ats more]]]]; try done.
  destruct (parse_i64 ats) as [i|] eqn:Ei; [|done]. cbn [mbind option_bind].
  case_bool_decide as El; [|done]. cbn [negb orb]. case_bool_decide; [|done]. cbn [negb].
  unfold unhex. rewrite bool_decide_eq_true_2 by done.
  destruct (unhex_pairs nh) as [n|] eqn:En; [|done]. intros [= <-]. cbn.
  split; [split|split].
  - by apply (unhex_pairs_length 16 nh).
  - by apply (parse_i64_range ats).
  - apply Hsep. rewrite !elem_of_cons. naive_solver.
  - apply Hsep. rewrite !elem_of_cons. naive_solver.
Qed.

(** The signed bytes determine the challenge when the domains have no NUL. *)
Lemma challenge_preimage_inj c d :
  challenge_typed c -> challenge_typed d ->
  b_nul ∉ sender_domain c -> b_nul ∉ receiver_domain c ->
  b_nul ∉ sender_domain d -> b_nul ∉ receiver_domain d ->
  challenge_preimage c = challenge_preimage d -> c = d.
Proof.
  intros [Hnc Hic] [Hnd Hid] ? ? ? ?. unfold challenge_preimage. intros Heq.
  apply app_inv_head in Heq.
  apply app_sep_inj in Heq as [Hs Heq]; [|done..].
  apply app_sep_inj in Heq as [Hr Heq]; [|done..].
  apply app_inj_1 in Heq as [Hn Ht]; [|congruence].
  apply i64_be_bytes_inj in Ht; [|done..].
  destruct c, d; cbn in *. congruence.
Qed.

Lemma wrap_i64_range z : in_i64 (wrap_i64 z).
Proof.
  unfold in_i64, wrap_i64, i64_min, i64_max. change (2 ^ 64)%Z with 18446744073709551616%Z.
  change (2 ^ 63)%Z with 9223372036854775808%Z.
  pose proof (Z.mod_pos_bound (z + 9223372036854775808) 18446744073709551616). lia.
Qed.

(** The wrap-around of the age never makes a challenge look fresh. *)
Lemma age_wrap now i max :
  (0 <= now <= i64_max)%Z -> in_i64 i -> (0 <= max <= i64_max)%Z ->
  (0 <= wrap_i64 (now - i) <= max)%Z <-> (0 <= now - i <= max)%Z.
Proof.
  intros Hn Hi Hm. unfold in_i64, i64_min, i64_max in *.
  destruct (decide (now - i <= i64_max))%Z as [Hle|Hgt]; unfold i64_max in *.
  - by rewrite wrap_i64_id by (unfold in_i64, i64_min, i64_max; lia).
  - assert (wrap_i64 (now - i) = now - i - 2 ^ 64)%Z; [|lia].
    unfold wrap_i64. change (2 ^ 64)%Z with 18446744073709551616%Z.
    change (2 ^ 63)%Z with 9223372036854775808%Z.
    replace (now - i + 9223372036854775808)%Z
      with ((now - i - 9223372036854775808) + 1 * 18446744073709551616)%Z by lia.
    rewrite Z.mod_add, Z.mod_small by lia. lia.
Qed.

Section verify_lemmas.
Context `{Signing}.

Lemma verify_Ok now r pub max :
  verify now r pub max = Ok tt <->
  sender_domain (challenge r) <> [] /\ receiver_domain (challenge r) <> []
  /\ (0 <= wrap_i64 (now - issued_at (challenge r)) <= max)%Z
  /\ length (signature r) = 64%nat
  /\ verify_bytes pub (digest (challenge r)) (signature r) = true.
Proof.
  unfold verify.
  repeat (case_bool_decide || case_match; cbn [orb negb]; try (split; [discriminate | naive_solver lia]));
    naive_solver lia.
Qed.

End verify_lemmas.

Section respond_lemmas.
Context `{SigningLaws}.

Lemma verify_respond now c k max :
  sender_domain c <> [] -> receiver_domain c <> [] ->
  (0 <= now - issued_at c <= max)%Z -> (max <= i64_max)%Z ->
  verify now (respond c k) (verifying_key k) max = Ok tt.
Proof.
  intros Hs Hr Ha Hm. apply verify_Ok. cbn. rewrite sign_length, sign_verifies.
  rewrite wrap_i64_id; [naive_solver |]. unfold in_i64, i64_min in *. lia.
Qed.

End respond_lemmas.

(** ** Properties *)

(** A challenge survives its wire form. For every challenge the types allow
    whose domains have no bar, [from_wire] reads back what [to_wire] wrote; and
    all that [from_wire] accepts from anywhere is such a challenge, so it can be
    echoed without loss. *)
Theorem challenge_wire_roundtrip c :
  (challenge_typed c -> bar ∉ sender_domain c -> bar ∉ receiver_domain c ->
   from_wire (to_wire c) = Some c)
  /\ forall s, from_wire s = Some c -> from_wire (to_wire c) = Some c.
Proof.
  split; [by apply from_to_wire|].
  intros s (? & ? & ?)%from_wire_typed. by apply from_to_wire.
Qed.

Lemma challenge_wire_roundtrip_witness :
  from_wire (to_wire (mkChallenge #"a.org" #"b.org" #"0123456789abcdef" 1700000000))
  = Some (mkChallenge #"a.org" #"b.org" #"0123456789abcdef" 1700000000).
Proof.
  apply (proj1 (challenge_wire_roundtrip
                  (mkChallenge #"a.org" #"b.org" #"0123456789abcdef" 1700000000))).
  - vm_compute. repeat split; discriminate.
  - by apply not_in_lit.
  - by apply not_in_lit.
Defined.

Section properties.
Context `{SigningLaws}.

(** C18: a response is accepted exactly when it should be. With a clock that is not
    negative, [verify] returns [Ok] if and only if both domains are named, the
    challenge is between 0 and [max] seconds old (without wrap-around), the
    signature has 64 bytes and it verifies over the digest of this challenge;
    the receiver's own [respond] is accepted for as long. *)
Theorem verify_exact now r pub max k :
  (0 <= now <= i64_max)%Z -> in_i64 (issued_at (challenge r)) -> (0 <= max <= i64_max)%Z ->
  (verify now r pub max = Ok tt <->
   sender_domain (challenge r) <> [] /\ receiver_domain (challenge r) <> []
   /\ (0 <= now - issued_at (challenge r) <= max)%Z
   /\ length (signature r) = 64%nat
   /\ verify_bytes pub (digest (challenge r)) (signature r) = true)
  /\ (sender_domain (challenge r) <> [] -> receiver_domain (challenge r) <> [] ->
      (0 <= now - issued_at (challenge r) <= max)%Z ->
      verify now (respond (challenge r) k) (verifying_key k) max = Ok tt).
Proof.
  intros Hn Hi Hm. split.
  - rewrite verify_Ok. by rewrite age_wrap.
  - intros. apply verify_respond; [done..|]. apply Hm.
Qed.

(** A signature is for one challenge. Two challenges with NUL-free domains that
    have the same signed digest are equal, unless their signed bytes are an
    explicit SHA-256 collision. *)
Theorem digest_binds_challenge c d :
  challenge_typed c -> challenge_typed d ->
  b_nul ∉ sender_domain c -> b_nul ∉ receiver_domain c ->
  b_nul ∉ sender_domain d -> b_nul ∉ receiver_domain d ->
  digest c = digest d ->
  c = d \/ (challenge_preimage c <> challenge_preimage d
            /\ sha256 (challenge_preimage c) = sha256 (challenge_preimage d)).
Proof.
  intros. destruct (decide (challenge_preimage c = challenge_preimage d)) as [Heq|Hne].
  - left. by apply challenge_preimage_inj.
  - by right.
Qed.

End properties.

Section witness.
Import Toy.

Definition c0 : Challenge := mkChallenge #"a.org" #"b.org" #"0123456789abcdef" 1700000000.

Lemma verify_exact_witness :
  verify 1700000300 (respond c0 (skey #"key")) (vkey #"key") MAX_CHALLENGE_AGE = Ok tt.
Proof.
  apply (proj2 (verify_exact 1700000300 (respond c0 (skey #"key")) (vkey #"key") MAX_CHALLENGE_AGE (skey #"key")
                  ltac:(vm_compute; split; discriminate) ltac:(vm_compute; split; discriminate)
                  ltac:(vm_compute; split; discriminate))); vm_compute; try split; discriminate.
Defined.

Lemma digest_binds_challenge_witness :
  c0 = c0 \/ (challenge_preimage c0 <> challenge_preimage c0
              /\ sha256 (challenge_preimage c0) = sha256 (challenge_preimage c0)).
Proof.
  apply (digest_binds_challenge c0 c0); try (by apply not_in_lit); try reflexivity;
    vm_compute; repeat split; discriminate.
Defined.

End witness.
