(* ===== verification/Attestation.v ===== *)
(** * Address and registration attestations ([talk-protocol/src/attestation.rs]) *)

From S2P Require Export Handshake.

Inductive AttestationError := AttBadSignature | AttInvalidKey | AttDomainMismatch.
#[export] Instance AttestationError_eq_dec : EqDecision AttestationError.
Proof. solve_decision. Defined.

Inductive AttestationMode := Ephemeral | Attested.
#[export] Instance AttestationMode_eq_dec : EqDecision AttestationMode.
Proof. solve_decision. Defined.

Record Attestation := mkAttestation {
  att_domain : str;
  att_user : str;
  att_mode : AttestationMode;
  att_address : str;
  att_pubkey : str;
  att_signature : str;
}.
#[export] Instance Attestation_eq_dec : EqDecision Attestation.
Proof. solve_decision. Defined.

Definition mode_str (m : AttestationMode) : str :=
  match m with Ephemeral => #"ephemeral" | Attested => #"attested" end.

(** The bytes [canonical_digest] hashes. *)
Definition att_preimage (a : Attestation) : str :=
  #"zsmtp-attest-v1" ++ att_domain a ++ [b_nul] ++ att_user a ++ [b_nul]
  ++ mode_str (att_mode a) ++ [b_nul] ++ att_address a ++ [b_nul] ++ att_pubkey a.

(** The strings of the record are Rust strings. *)
Definition att_wf (a : Attestation) : Prop :=
  utf8_valid (att_domain a) = true /\ utf8_valid (att_user a) = true
  /\ utf8_valid (att_address a) = true /\ utf8_valid (att_pubkey a) = true.

(** [Attestation::to_json], [from_json] over [serde_json]. *)
Definition att_to_json `{Json Attestation} (a : Attestation) : str := to_json a.
Definition att_from_json `{Json Attestation} (s : str) : result AttestationError Attestation :=
  ok_or (from_json s) AttInvalidKey.

(** ** Minting *)

Record MintedAddress := mkMinted { address : str; pubkey : str; diversifier : option str }.

(** [placeholder_pubkey] and [mint_pair] on the 32 random bytes drawn. *)
Definition placeholder_pubkey (random : str) : str := hex random.
Definition mint_pair (random : str) (mode : AttestationMode) : str * str :=
  (#"taddr-" ++ hex random, hex random).

(** An address provider draws what it needs from the world [W]. *)
Record AddressProvider (W : Type) := mkProvider {
  mint : AttestationMode -> W -> MintedAddress * W;
}.
Arguments mkProvider {W} mint.
Arguments mint {W} _ _ _.

(** [PlaceholderAddressProvider] over a world that can draw 32 random bytes. *)
Definition placeholder_provider {W} (draw32 : W -> str * W) : AddressProvider W :=
  mkProvider (fun mode w =>
    let '(random, w') := draw32 w in
    let '(addr, pk) := mint_pair random mode in
    (mkMinted addr pk None, w')).

(** ** Registration attestations *)

Definition REGISTRATION_ATTR_V1 : str := #"reg-v1".

Record RegistrationAttestation := mkReg {
  reg_domain : str;
  reg_username : str;
  reg_master_pubkey : str;
  reg_ivk_commitment : option str;
  reg_registered_at : Z;
  reg_signature : str;
}.

Definition reg_preimage (r : RegistrationAttestation) : str :=
  REGISTRATION_ATTR_V1 ++ reg_domain r ++ [b_nul] ++ reg_username r ++ [b_nul]
  ++ reg_master_pubkey r ++ [b_nul] ++ default [] (reg_ivk_commitment r) ++ [b_nul]
  ++ i64_be_bytes (reg_registered_at r).

Section attestation.
Context `{Signing}.

Definition canonical_digest (a : Attestation) : str := sha256 (att_preimage a).

Definition att_sign (domain user : str) (mode : AttestationMode) (address pubkey : str)
    (domain_key : SigningKey) : Attestation :=
  let binding := mkAttestation domain user mode address pubkey [] in
  mkAttestation domain user mode address pubkey
    (sign_bytes domain_key (canonical_digest binding)).

Definition att_verify (a : Attestation) (domain_key : VerifyingKey) (expected_domain : str)
    : result AttestationError unit :=
  if negb (att_domain a ≟ expected_domain) then Err AttDomainMismatch
  else if negb (length (att_signature a) ≟ 64%nat) then Err AttBadSignature
  else if verify_bytes domain_key (canonical_digest a) (att_signature a) then Ok tt
  else Err AttBadSignature.

Definition reg_digest (r : RegistrationAttestation) : str := sha256 (reg_preimage r).

Definition reg_sign `{Encodings} (domain username master_pubkey : str)
    (ivk_commitment : option str) (registered_at : Z) (domain_key : SigningKey)
    : RegistrationAttestation :=
  let binding :=
    mkReg domain username (hex_encode master_pubkey) ivk_commitment registered_at [] in
  mkReg domain username (hex_encode master_pubkey) ivk_commitment registered_at
    (sign_bytes domain_key (reg_digest binding)).

End attestation.

(** [RegistrationAttestation::to_json], [from_json]. *)
Definition reg_to_json `{Json RegistrationAttestation} (r : RegistrationAttestation) : str :=
  to_json r.
Definition reg_from_json `{Json RegistrationAttestation} (s : str)
  : result AttestationError RegistrationAttestation := ok_or (from_json s) AttInvalidKey.

(** ** Lemmas *)

(** The signature is not among the signed bytes. *)
Lemma att_preimage_signature a sg :
  att_preimage (mkAttestation (att_domain a) (att_user a) (att_mode a)
                  (att_address a) (att_pubkey a) sg) = att_preimage a.
Proof. done. Qed.

Lemma mode_no_nul m : b_nul ∉ mode_str m.
Proof. destruct m; by apply not_in_lit. Qed.

Lemma mode_str_inj m n : mode_str m = mode_str n -> m = n.
Proof. by destruct m, n. Qed.

(** The signed bytes determine domain, user, mode, address and key. *)
Lemma att_preimage_inj a b :
  Forall (fun s => b_nul ∉ s)
    [att_domain a; att_user a; att_address a; att_domain b; att_user b; att_address b] ->
  att_preimage a = att_preimage b ->
  att_domain a = att_domain b /\ att_user a = att_user b /\ att_mode a = att_mode b
  /\ att_address a = att_address b /\ att_pubkey a = att_pubkey b.
Proof.
  rewrite !Forall_cons. intros (? & ? & ? & ? & ? & ? & _). unfold att_preimage. intros Heq.
  apply app_inv_head in Heq.
  apply app_sep_inj in Heq as [Hd Heq]; [|done..].
  apply app_sep_inj in Heq as [Hu Heq]; [|done..].
  apply app_sep_inj in Heq as [Hm Heq]; [|apply mode_no_nul..].
  apply app_sep_inj in Heq as [Ha Hp]; [|done..].
  by apply mode_str_inj in Hm.
Qed.

Section lemmas.
Context `{Signing}.

Lemma att_verify_Ok a key d :
  att_verify a key d = Ok tt <->
  att_domain a = d /\ length (att_signature a) = 64%nat
  /\ verify_bytes key (canonical_digest a) (att_signature a) = true.
Proof.
  unfold att_verify.
  repeat (case_bool_decide || case_match; cbn [negb]); naive_solver.
Qed.

End lemmas.

Section sign_lemmas.
Context `{SigningLaws}.

Lemma att_verify_sign d u m ad pk k :
  att_verify (att_sign d u m ad pk k) (verifying_key k) d = Ok tt.
Proof.
  apply att_verify_Ok. cbn. rewrite sign_length. split; [done|split; [done|]].
  apply sign_verifies.
Qed.

End sign_lemmas.

Lemma att_sign_wf `{Signing} d u m ad pk k :
  utf8_valid d = true -> utf8_valid u = true -> utf8_valid ad = true -> utf8_valid pk = true ->
  att_wf (att_sign d u m ad pk k).
Proof. done. Qed.

(** ** JSON stand-ins for the witnesses *)

Module ToyJson.

#[export] Instance attestation_json : Json Attestation := {|
  to_json := fun a =>
    Toy.enc_fields [att_domain a; att_user a; mode_str (att_mode a);
                    att_address a; att_pubkey a; att_signature a];
  from_json := fun s =>
    match Toy.dec_fields s with
    | Some [d; u; m; ad; pk; sg] =>
        m ← (if m ≟ #"ephemeral" then Some Ephemeral
             else if m ≟ #"attested" then Some Attested else None);
        Some (mkAttestation d u m ad pk sg)
    | _ => None
    end
|}.

#[export] Instance attestation_json_laws : JsonLaws Attestation att_wf.
Proof.
  split.
  - intros [d u m ad pk sg] _. cbn [to_json from_json attestation_json].
    rewrite Toy.dec_enc_fields. by destruct m.
  - intros a _. apply utf8_valid_ascii, Toy.enc_fields_ascii.
Qed.

#[export] Instance registration_json : Json RegistrationAttestation := {|
  to_json := fun r =>
    Toy.enc_fields [reg_domain r; reg_username r; reg_master_pubkey r;
                    match reg_ivk_commitment r with Some i => #"1" ++ i | None => [] end;
                    show_Z (reg_registered_at r); reg_signature r];
  from_json := fun s =>
    match Toy.dec_fields s with
    | Some [d; u; m; i; t; sg] =>
        t ← parse_i64 t;
        Some (mkReg d u m (match i with _ :: r => Some r | [] => None end) t sg)
    | _ => None
    end
|}.

End ToyJson.

(** ** Properties *)

Section properties.
Context `{SigningLaws}.

(** What an attestation attests. A signed attestation verifies under the
    domain's own key and for that domain only; and two attestations with NUL-free
    fields whose signed digests agree have the same domain, user, mode, address
    and public key, unless the signed bytes are an explicit SHA-256 collision: a
    valid signature cannot be moved to another key. *)
Theorem attestation_binds domain user mode addr pk k :
  (forall expected,
     att_verify (att_sign domain user mode addr pk k) (verifying_key k) expected
     = if domain ≟ expected then Ok tt else Err AttDomainMismatch)
  /\ forall a b,
     Forall (fun s => b_nul ∉ s)
       [att_domain a; att_user a; att_address a; att_domain b; att_user b; att_address b] ->
     canonical_digest a = canonical_digest b ->
     (att_domain a = att_domain b /\ att_user a = att_user b /\ att_mode a = att_mode b
      /\ att_address a = att_address b /\ att_pubkey a = att_pubkey b)
     \/ (att_preimage a <> att_preimage b /\ sha256 (att_preimage a) = sha256 (att_preimage b)).
Proof.
  split.
  - intros expected. case_bool_decide as Hd; [subst; apply att_verify_sign|].
    unfold att_verify. cbn. by rewrite bool_decide_eq_false_2.
  - intros a b Hf Hdig. destruct (decide (att_preimage a = att_preimage b)) as [Heq|Hne].
    + left. by apply att_preimage_inj.
    + by right.
Qed.

End properties.

Section witness.
Import Toy.

Lemma attestation_binds_witness :
  att_verify (att_sign #"b.org" #"bob" Ephemeral #"taddr-00" #"00" (skey #"key")) (vkey #"key") #"b.org" = Ok tt.
Proof.
  exact (proj1 (attestation_binds #"b.org" #"bob" Ephemeral #"taddr-00" #"00" (skey #"key")) #"b.org").
Defined.

End witness.
