(* ===== verification/Session.v ===== *)
(** * The server session ([talk-protocol/src/session.rs])

    [ZsmptSession] with its handlers [on_hello], [on_auth], [on_addr],
    [on_invoice], the dispatcher [handle] and the connection loop [run].  The
    shared objects behind [Arc<dyn ...>] (delivery sink, user directory, address
    provider) are records of operations on a world [W], which a handler reads
    and changes only through them. *)

From S2P Require Export Attestation.

Inductive SessionState := Greeting | AwaitingAuth | Authenticated.
#[export] Instance SessionState_eq_dec : EqDecision SessionState.
Proof. solve_decision. Defined.

Inductive SessionError := StateError (what : str).

Inductive DeliveryOutcome :=
  | Accepted (message_id : str)
  | Rejected (reason : str)
  | RetryLater (reason : str).
#[export] Instance DeliveryOutcome_eq_dec : EqDecision DeliveryOutcome.
Proof. solve_decision. Defined.

(** [trait DeliverySink], [trait UserDirectory]. *)
Record DeliverySink (W : Type) := mkSink {
  deliver : str -> str -> str -> Payload -> str -> W -> DeliveryOutcome * W;
}.
Arguments mkSink {W} deliver.
Arguments deliver {W} _ _ _ _ _ _ _.
Record UserDirectory (W : Type) := mkDirectory { user_exists : str -> W -> bool * W }.
Arguments mkDirectory {W} user_exists.
Arguments user_exists {W} _ _ _.

Inductive TrustState := Trusted | Untrusted | Unverified.
#[export] Instance TrustState_eq_dec : EqDecision TrustState.
Proof. solve_decision. Defined.
Definition trust_as_str (t : TrustState) : str :=
  match t with
  | Trusted => #"trusted" | Untrusted => #"untrusted" | Unverified => #"unverified"
  end.

(** [trait Keyring]. *)
Record Keyring (W : Type) := mkKeyring { keyring_state : Z -> str -> W -> TrustState * W }.
Arguments mkKeyring {W} keyring_state.
Arguments keyring_state {W} _ _ _ _.

Inductive Reply :=
  | ReplyStatus (s : Status)
  | StatusWithBlob (s : Status) (blob : str).
#[export] Instance Reply_eq_dec : EqDecision Reply.
Proof. solve_decision. Defined.

Section session.
Context `{Signing} `{Encodings} `{Json Attestation} {W : Type}.

Record ZsmptSession := mkSession {
  state : SessionState;
  domain : str;
  domain_key : DomainKey;
  peer_domain : option str;
  addr_user : option str;
  sink : option (DeliverySink W);
  directory : option (UserDirectory W);
  address_provider : AddressProvider W;
}.

(** [with_domain_key]; [new] is this with a freshly generated key. *)
Definition with_domain_key (default_provider : AddressProvider W) (dom : str)
    (signing : SigningKey) : ZsmptSession :=
  mkSession Greeting dom (mkDomainKey dom signing) None None None None default_provider.
Definition with_sink (s : ZsmptSession) (k : DeliverySink W) : ZsmptSession :=
  mkSession (state s) (domain s) (domain_key s) (peer_domain s) (addr_user s)
    (Some k) (directory s) (address_provider s).
Definition with_directory (s : ZsmptSession) (d : UserDirectory W) : ZsmptSession :=
  mkSession (state s) (domain s) (domain_key s) (peer_domain s) (addr_user s)
    (sink s) (Some d) (address_provider s).
Definition with_address_provider (s : ZsmptSession) (p : AddressProvider W) : ZsmptSession :=
  mkSession (state s) (domain s) (domain_key s) (peer_domain s) (addr_user s)
    (sink s) (directory s) p.

Definition set_state (s : ZsmptSession) (x : SessionState) : ZsmptSession :=
  mkSession x (domain s) (domain_key s) (peer_domain s) (addr_user s)
    (sink s) (directory s) (address_provider s).
Definition set_peer (s : ZsmptSession) (x : option str) : ZsmptSession :=
  mkSession (state s) (domain s) (domain_key s) x (addr_user s)
    (sink s) (directory s) (address_provider s).
Definition set_addr_user (s : ZsmptSession) (x : option str) : ZsmptSession :=
  mkSession (state s) (domain s) (domain_key s) (peer_domain s) x
    (sink s) (directory s) (address_provider s).

Definition greeting (s : ZsmptSession) : str := #"ZSMTP 1.0 " ++ domain s.

Definition reply (c : StatusCode) (m : str) : result SessionError Reply :=
  Ok (ReplyStatus (mkStatus c m)).

Definition on_hello (dom : str) (s : ZsmptSession) : result SessionError Reply * ZsmptSession :=
  if negb (state s ≟ Greeting) then (Err (StateError #"HELLO already sent"), s)
  else if dom ≟ [] then (reply SYNTAX #"HELLO requires a domain", s)
  else (reply OK (#"Hello " ++ dom), set_state s AwaitingAuth).

(** The response blob: the challenge's wire form, a bar, the signature. *)
Definition auth_blob (s : ZsmptSession) (c : Challenge) : str :=
  to_wire c ++ #"|" ++ hex (signature (respond c (signing (domain_key s)))).

Definition on_auth (challenge_wire : str) (s : ZsmptSession)
    : result SessionError Reply * ZsmptSession :=
  if negb (state s ≟ AwaitingAuth) then (reply BAD_SEQUENCE #"AUTH not expected now", s)
  else
    match from_wire (from_utf8_lossy challenge_wire) with
    | None => (reply SYNTAX #"malformed challenge", s)
    | Some c =>
        (Ok (StatusWithBlob (mkStatus OK #"authenticated") (auth_blob s c)),
         set_peer (set_state s Authenticated) (Some (sender_domain c)))
    end.

Definition att_mode_of (m : AddrMode) : AttestationMode :=
  match m with AmEphemeral => Ephemeral | AmAttested => Attested end.

(** The directory's answer; without a directory every user is accepted. *)
Definition known_user (user : str) (s : ZsmptSession) (w : W) : bool * W :=
  match directory s with
  | Some d => user_exists d user w
  | None => (true, w)
  end.

Definition on_addr (mode : AddrMode) (user : str) (s : ZsmptSession) (w : W)
    : result SessionError Reply * ZsmptSession * W :=
  if negb (state s ≟ Authenticated) then (reply NOT_AUTHED #"authenticate first", s, w)
  else if user ≟ [] then (reply SYNTAX #"ADDR requires a user", s, w)
  else
    let '(known, w) := known_user user s w in
    if negb known then (reply PERM_REJECT (#"no such user: " ++ user), s, w)
    else
      let s := set_addr_user s (Some user) in
      let '(minted, w) := mint (address_provider s) (att_mode_of mode) w in
      let a := att_sign (domain s) user (att_mode_of mode) (address minted) (pubkey minted)
                 (signing (domain_key s)) in
      (Ok (StatusWithBlob (mkStatus OK #"address attestation") (att_to_json a)), s, w).

Definition outcome_status (o : DeliveryOutcome) : Status :=
  match o with
  | Accepted mid => mkStatus OK_QUEUED (#"accepted into inbox (" ++ mid ++ #")")
  | Rejected reason => mkStatus PERM_REJECT reason
  | RetryLater reason => mkStatus TRY_LATER reason
  end.

Definition on_invoice (sender_user message_id : str) (payload : Payload) (body : str)
    (s : ZsmptSession) (w : W) : result SessionError Reply * W :=
  if negb (state s ≟ Authenticated) then (reply NOT_AUTHED #"authenticate first", w)
  else if message_id ≟ [] then (reply SYNTAX #"INVOICE requires a message id", w)
  else
    match addr_user s with
    | None => (reply BAD_SEQUENCE #"INVOICE requires a prior ADDR", w)
    | Some recipient_user =>
        match peer_domain s with
        | None => (reply BAD_SEQUENCE #"INVOICE requires a sender", w)
        | Some sender_dom =>
            match sink s with
            | None => (reply OK_QUEUED (#"accepted into inbox (" ++ message_id ++ #")"), w)
            | Some k =>
                let mbox := recipient_user ++ #"@" ++ domain s in
                let sender_mailbox := sender_user ++ #"@" ++ sender_dom in
                let '(o, w) := deliver k sender_mailbox message_id mbox payload body w in
                (Ok (ReplyStatus (outcome_status o)), w)
            end
        end
    end.

Definition handle (cmd : Command) (s : ZsmptSession) (w : W)
    : result SessionError Reply * ZsmptSession * W :=
  match cmd with
  | Hello dom => let '(r, s) := on_hello dom s in (r, s, w)
  | Auth ch => let '(r, s) := on_auth ch s in (r, s, w)
  | Addr mode user => on_addr mode user s w
  | Invoice sender mid payload body =>
      let '(r, w) := on_invoice sender mid payload body s w in (r, s, w)
  | StatusCmd _ _ => (Err (StateError #"unexpected STATUS from client"), s, w)
  | Quit => (reply (mkCode 221) (domain s ++ #" closing connection"), s, w)
  end.

(** [write_reply]. *)
Definition write_reply (r : Reply) : io unit :=
  match r with
  | ReplyStatus status => write_line (render status)
  | StatusWithBlob status blob => _ ← write_line (render status); write_blob blob
  end.

(** The blob of an INVOICE is read after its line, whatever the session will
    make of the command. *)
Definition read_body (cmd : Command) : io Command :=
  match cmd with
  | Invoice sender mid payload _ => body ← read_blob; mret (Invoice sender mid payload body)
  | _ => mret cmd
  end.

(** What the loop of [run] writes for a handled command. *)
Definition answer (r : result SessionError Reply) : io unit :=
  match r with
  | Ok rep => write_reply rep
  | Err _ => write_line (render (mkStatus BAD_SEQUENCE #"command not allowed now"))
  end.

Definition is_quit (cmd : Command) : bool := match cmd with Quit => true | _ => false end.

(** One turn of the loop: [None] continues, [Some r] returns [r]. *)
Definition run_step (s : ZsmptSession) (w : W) (c : conn)
    : option (result FramingError unit) * ZsmptSession * W * conn :=
  match read_line c with
  | (Err (Protocol _), c) => (Some (Ok tt), s, w, c)
  | (Err e, c) => (Some (Err e), s, w, c)
  | (Ok line, c) =>
      match decode_line line with
      | Err _ =>
          match write_line (render (mkStatus SYNTAX #"unknown command")) c with
          | (Err e, c) => (Some (Err e), s, w, c)
          | (Ok _, c) => (None, s, w, c)
          end
      | Ok cmd =>
          match read_body cmd c with
          | (Err e, c) => (Some (Err e), s, w, c)
          | (Ok cmd, c) =>
              let '(r, s, w) := handle cmd s w in
              match answer r c with
              | (Err e, c) => (Some (Err e), s, w, c)
              | (Ok _, c) => (if is_quit cmd then Some (Ok tt) else None, s, w, c)
              end
          end
      end
  end.

Fixpoint run_loop (fuel : nat) (s : ZsmptSession) (w : W) (c : conn)
    : option (result FramingError unit * ZsmptSession * W * conn) :=
  match fuel with
  | O => None
  | S f =>
      match run_step s w c with
      | (Some r, s, w, c) => Some (r, s, w, c)
      | (None, s, w, c) => run_loop f s w c
      end
  end.

(** Every turn takes a byte, so one more turn than there are bytes suffices. *)
Definition run (s : ZsmptSession) (w : W) (c : conn)
    : option (result FramingError unit * ZsmptSession * W * conn) :=
  match write_line (greeting s) c with
  | (Err e, c) => Some (Err e, s, w, c)
  | (Ok _, c) => run_loop (S (length (rx c))) s w c
  end.

End session.
Arguments ZsmptSession {_} W.
