(* ===== verification/SessionFacts.v ===== *)
(** * Properties of the server session

    Termination of the connection loop, the session invariant, the refinement of
    the wire-level loop to the command-level handler, and the rule that nothing
    is delivered except what an authenticated and addressed peer sent. *)

From S2P Require Export Session.

(** Case analysis over all handlers of a command. *)
Ltac handler_cases :=
  unfold handle, on_hello, on_auth, on_addr, on_invoice, reply;
  repeat case_match; intros; simplify_eq/=;
  repeat match goal with
  | Hx : negb (bool_decide _) = false |- _ =>
      apply negb_false_iff, bool_decide_eq_true in Hx
  end.

Section facts.
Context `{Signing} `{Encodings} `{Json Attestation} {W : Type}.
Implicit Types (s : ZsmptSession W) (w : W) (c : conn) (cmd : Command).

(** ** The handlers change little *)

(** What no command changes. *)
Definition same_config s s' : Prop :=
  domain s' = domain s /\ domain_key s' = domain_key s /\ sink s' = sink s
  /\ directory s' = directory s /\ address_provider s' = address_provider s.

#[export] Instance same_config_po : PreOrder same_config.
Proof. unfold same_config. split; [done |]. intros ???. naive_solver congruence. Qed.

Definition rank (x : SessionState) : nat :=
  match x with Greeting => 0 | AwaitingAuth => 1 | Authenticated => 2 end.

(** A peer domain is set exactly while authenticated, a recipient only then. *)
Definition session_ok s : Prop :=
  (is_Some (peer_domain s) <-> state s = Authenticated)
  /\ (is_Some (addr_user s) -> state s = Authenticated).

Lemma handle_config cmd s w r s' w' : handle cmd s w = (r, s', w') -> same_config s s'.
Proof. handler_cases; done. Qed.

(** Before it is authenticated a session reads and changes nothing but itself. *)
Lemma handle_unauthenticated cmd s w r s' w' :
  handle cmd s w = (r, s', w') -> state s <> Authenticated -> w' = w.
Proof. handler_cases; done. Qed.

Lemma handle_rank cmd s w r s' w' :
  handle cmd s w = (r, s', w') -> (rank (state s) <= rank (state s'))%nat.
Proof.
  handler_cases; try done; match goal with Hx : state _ = _ |- _ => rewrite Hx end; cbn; lia.
Qed.

Lemma handle_session_ok cmd s w r s' w' :
  handle cmd s w = (r, s', w') -> session_ok s -> session_ok s'.
Proof.
  unfold session_ok. handler_cases; try done;
    match goal with Hx : state _ = _ |- _ => rewrite Hx in * end; destruct_and?;
    (split; [split|]); naive_solver.
Qed.

(** A command that is not answered with success leaves the session as it was. *)
Definition succeeded (r : result SessionError Reply) : bool :=
  match r with
  | Ok (ReplyStatus st) | Ok (StatusWithBlob st _) => is_success (code st)
  | Err _ => false
  end.

Lemma handle_failure_keeps cmd s w r s' w' :
  handle cmd s w = (r, s', w') -> succeeded r = false -> s' = s.
Proof. handler_cases; done. Qed.

(** ** Termination of the loop *)

Lemma write_reply_rx rep c r c' : write_reply rep c = (r, c') -> rx c' = rx c.
Proof.
  destruct rep as [st|st b]; cbn; [apply write_line_rx |].
  unfold mbind, st_bind. destruct (write_line _ c) as [[u|e] c1] eqn:E; apply write_line_rx in E.
  - intros ->%write_blob_rx. done.
  - by intros [= _ <-].
Qed.

Lemma answer_rx r c x c' : answer r c = (x, c') -> rx c' = rx c.
Proof. destruct r; cbn; [apply write_reply_rx | apply write_line_rx]. Qed.

Lemma read_body_mono cmd c r c' :
  read_body cmd c = (r, c') -> tx c' = tx c /\ (length (rx c') <= length (rx c))%nat.
Proof.
  destruct cmd; cbn [read_body]; try (by intros [= _ <-]).
  unfold mbind, st_bind. destruct (read_blob c) as [[b|e] c1] eqn:E; apply read_blob_mono in E.
  - by intros [= _ <-].
  - by intros [= _ <-].
Qed.

Lemma run_step_consumes s w c s' w' c' :
  run_step s w c = (None, s', w', c') -> (length (rx c') < length (rx c))%nat.
Proof.
  unfold run_step. destruct (read_line c) as [[line|e] c1] eqn:El; [|destruct e; naive_solver].
  assert (Hlt : (length (rx c1) < length (rx c))%nat).
  { apply read_line_shrinks in El as Hs. destruct Hs as (_ & _ & Hs). apply Hs. intros Hnil.
    destruct c as [r t]. cbn in Hnil. subst r. by rewrite read_line_eof in El. }
  destruct (decode_line line) as [cmd|e].
  - destruct (read_body cmd c1) as [[cmd'|e] c2] eqn:Eb; [|done].
    apply read_body_mono in Eb as [_ Hb].
    destruct (handle cmd' s w) as [[r s1] w1].
    destruct (answer r c2) as [[u|e] c3] eqn:Ea; [|done].
    apply answer_rx in Ea. destruct (is_quit cmd'); [done |]. intros [= <- <- <-]. rewrite Ea. lia.
  - destruct (write_line _ c1) as [[u|e'] c2] eqn:Ew; [|done].
    apply write_line_rx in Ew. intros [= <- <- <-]. rewrite Ew. lia.
Qed.

Lemma run_loop_total fuel s w c :
  (length (rx c) < fuel)%nat -> is_Some (run_loop fuel s w c).
Proof.
  revert s w c. induction fuel as [|f IH]; intros s w c Hf; [lia |]. cbn.
  destruct (run_step s w c) as [[[[r|] s1] w1] c1] eqn:E; [by eauto |].
  apply run_step_consumes in E. apply IH. lia.
Qed.

Lemma run_total s w c : is_Some (run s w c).
Proof.
  unfold run. destruct (write_line _ c) as [[u|e] c1]; [|by eauto].
  apply run_loop_total. lia.
Qed.

(** More fuel does not change the result. *)
Lemma run_loop_fuel fuel fuel' s w c x :
  run_loop fuel s w c = Some x -> (fuel <= fuel')%nat -> run_loop fuel' s w c = Some x.
Proof.
  revert fuel' s w c. induction fuel as [|f IH]; intros [|f'] s w c; cbn; try done; [lia |].
  intros Hr Hle. destruct (run_step s w c) as [[[[r|] s1] w1] c1]; [done |].
  apply IH; [done | lia].
Qed.

(** ** Invariants of a whole connection *)

Lemma run_step_preserves (P : ZsmptSession W -> W -> Prop) s w c o s' w' c' :
  (forall cmd s w r s' w', handle cmd s w = (r, s', w') -> P s w -> P s' w') ->
  run_step s w c = (o, s', w', c') -> P s w -> P s' w'.
Proof.
  intros HP. unfold run_step. destruct (read_line c) as [[line|e] c1].
  - destruct (decode_line line) as [cmd|e].
    + destruct (read_body cmd c1) as [[cmd'|e] c2]; [|by intros [= <- <- <- <-]].
      destruct (handle cmd' s w) as [[r s1] w1] eqn:Eh.
      destruct (answer r c2) as [[u|e] c3]; intros [= <- <- <- <-]; by eapply HP.
    + destruct (write_line _ c1) as [[u|e'] c2]; by intros [= <- <- <- <-].
  - destruct e; by intros [= <- <- <- <-].
Qed.

Lemma run_preserves_all (P : ZsmptSession W -> W -> Prop) s w c r s' w' c' :
  (forall cmd s w r s' w', handle cmd s w = (r, s', w') -> P s w -> P s' w') ->
  run s w c = Some (r, s', w', c') -> P s w -> P s' w'.
Proof.
  intros HP. unfold run. destruct (write_line _ c) as [[u|e] c1]; [|by intros [= <- <- <- <-]].
  generalize (S (length (rx c1))) as fuel. intros fuel. revert s w c1.
  induction fuel as [|f IH]; intros s w c1; cbn; [done |].
  destruct (run_step s w c1) as [[[[x|] s1] w1] c2] eqn:E; pose proof (run_step_preserves P _ _ _ _ _ _ _ HP E).
  - intros [= <- <- <- <-]. done.
  - intros Hr Hs. by eapply IH; eauto.
Qed.

Lemma run_preserves (P : ZsmptSession W -> Prop) s w c r s' w' c' :
  (forall cmd s w r s' w', handle cmd s w = (r, s', w') -> P s -> P s') ->
  run s w c = Some (r, s', w', c') -> P s -> P s'.
Proof. intros HP. by apply (run_preserves_all (fun s _ => P s)). Qed.

(** ** The loop refines the command handler *)

(** A sequence of commands handled one after the other. *)
Fixpoint handle_all (cmds : list Command) s w
    : list (result SessionError Reply) * ZsmptSession W * W :=
  match cmds with
  | [] => ([], s, w)
  | cmd :: rest =>
      let '(r, s, w) := handle cmd s w in
      let '(rs, s, w) := handle_all rest s w in (r :: rs, s, w)
  end.

(** The command without the blob that travels behind its line. *)
Definition head_of (cmd : Command) : Command :=
  match cmd with Invoice sd mid p _ => Invoice sd mid p [] | _ => cmd end.
Definition body_bytes (cmd : Command) : str :=
  match cmd with Invoice _ _ _ b => blob_bytes b | _ => [] end.
Definition line_of (cmd : Command) : str := default [] (ok (encode_line cmd)).
Definition cmd_bytes (cmd : Command) : str := line_bytes (line_of cmd) ++ body_bytes cmd.

(** A command a peer can put on the wire and the server takes off it unchanged. *)
Definition wire_cmd (cmd : Command) : Prop :=
  encodable (head_of cmd) /\ sendable (line_of cmd) = true
  /\ match cmd with Invoice _ _ _ b => (zlength b <= MAX_BLOB)%Z | _ => True end.

Definition answer_status (r : result SessionError Reply) : Status :=
  match r with
  | Ok (ReplyStatus st) | Ok (StatusWithBlob st _) => st
  | Err _ => mkStatus BAD_SEQUENCE #"command not allowed now"
  end.
Definition answer_bytes (r : result SessionError Reply) : str :=
  line_bytes (render (answer_status r))
  ++ match r with Ok (StatusWithBlob _ b) => blob_bytes b | _ => [] end.
Definition answerable (r : result SessionError Reply) : Prop :=
  (zlength (render (answer_status r)) <= MAX_LINE)%Z
  /\ match r with Ok (StatusWithBlob _ b) => (zlength b <= MAX_BLOB)%Z | _ => True end.

Lemma answer_ok r c :
  answerable r -> answer r c = (Ok tt, mkConn (rx c) (tx c ++ answer_bytes r)).
Proof.
  intros [Hl Hb]. destruct r as [[st|st b]|e]; unfold answer, answer_bytes, write_reply;
    cbn [answer_status] in *; rewrite ?app_nil_r.
  - by apply write_line_ok.
  - erewrite st_bind_Ok by (by apply write_line_ok). rewrite write_blob_ok by done. cbn.
    by rewrite <- app_assoc.
  - by apply write_line_ok.
Qed.

End facts.

Section wire.
Context `{Signing} `{EncodingsLaws} `{Json Attestation} {W : Type}.
Implicit Types (s : ZsmptSession W) (w : W) (c : conn) (cmd : Command).

Lemma decode_line_of cmd : encodable (head_of cmd) -> decode_line (line_of cmd) = Ok (head_of cmd).
Proof.
  intros He. apply decode_encode; [done |]. unfold line_of. by destruct cmd.
Qed.

Lemma read_body_bytes cmd rest t :
  wire_cmd cmd ->
  read_body (head_of cmd) (mkConn (body_bytes cmd ++ rest) t) = (Ok cmd, mkConn rest t).
Proof.
  intros (_ & _ & Hb). destruct cmd; try done. cbn [head_of body_bytes read_body] in *.
  by erewrite st_bind_Ok by (by apply read_blob_bytes).
Qed.

(** One turn of the loop on one wire command. *)
Lemma run_step_cmd cmd s w rest t r s' w' :
  wire_cmd cmd -> handle cmd s w = (r, s', w') -> answerable r ->
  run_step s w (mkConn (cmd_bytes cmd ++ rest) t)
  = (if is_quit cmd then Some (Ok tt) else None, s', w', mkConn rest (t ++ answer_bytes r)).
Proof.
  intros Hw Hh Ha. unfold run_step, cmd_bytes. rewrite <- app_assoc.
  rewrite read_line_bytes by apply Hw. rewrite decode_line_of by apply Hw.
  rewrite read_body_bytes by done. rewrite Hh. by rewrite answer_ok.
Qed.

Lemma run_loop_cmds cmds fuel s w rest t rs s' w' :
  Forall wire_cmd cmds -> Forall (fun cmd => is_quit cmd = false) cmds ->
  handle_all cmds s w = (rs, s', w') -> Forall answerable rs ->
  run_loop (length cmds + fuel) s w (mkConn (concat (map cmd_bytes cmds) ++ rest) t)
  = run_loop fuel s' w' (mkConn rest (t ++ concat (map answer_bytes rs))).
Proof.
  intros Hw Hq. revert s w t rs. induction cmds as [|cmd cmds IH]; intros s w t rs; cbn.
  - intros [= <- <- <-] _. cbn. by rewrite app_nil_r.
  - apply Forall_cons in Hw as [Hc Hw], Hq as [Hqc Hq].
    destruct (handle cmd s w) as [[r s1] w1] eqn:Eh.
    destruct (handle_all cmds s1 w1) as [[rs1 s2] w2] eqn:Ea. intros [= <- <- <-].
    intros [Hr Hrs]%Forall_cons. rewrite <- app_assoc.
    rewrite (run_step_cmd cmd s w _ t r s1 w1) by done. rewrite Hqc.
    rewrite (IH Hw Hq s1 w1 _ rs1) by done. cbn. by rewrite <- app_assoc.
Qed.

(** The commands up to the first QUIT, and the ones behind it. *)
Fixpoint until_quit (cmds : list Command) : list Command * list Command :=
  match cmds with
  | [] => ([], [])
  | cmd :: rest =>
      match cmd with
      | Quit => ([Quit], rest)
      | _ => let '(heard, unread) := until_quit rest in (cmd :: heard, unread)
      end
  end.

Lemma until_quit_cons cmd cmds :
  until_quit (cmd :: cmds)
  = if is_quit cmd then ([cmd], cmds)
    else let '(heard, unread) := until_quit cmds in (cmd :: heard, unread).
Proof. by destruct cmd. Qed.

Lemma run_loop_until_quit cmds fuel heard unread s w t rs s' w' :
  (length cmds < fuel)%nat -> Forall wire_cmd cmds -> until_quit cmds = (heard, unread) ->
  handle_all heard s w = (rs, s', w') -> Forall answerable rs ->
  run_loop fuel s w (mkConn (concat (map cmd_bytes cmds)) t)
  = Some (Ok tt, s', w', mkConn (concat (map cmd_bytes unread)) (t ++ concat (map answer_bytes rs))).
Proof.
  revert fuel heard s w t rs. induction cmds as [|cmd cmds IH]; intros [|fuel] heard s w t rs Hf Hw Hu Hh Ha;
    cbn [length] in Hf; try lia.
  - injection Hu as <- <-. injection Hh as <- <- <-. cbn. by rewrite app_nil_r.
  - apply Forall_cons in Hw as [Hc Hw]. rewrite until_quit_cons in Hu.
    destruct (is_quit cmd) eqn:Eq; [injection Hu as <- <- |
      destruct (until_quit cmds) as [h u] eqn:Eu; injection Hu as <- <-]; cbn [handle_all] in Hh;
      destruct (handle cmd s w) as [[r s1] w1] eqn:Eh.
    + injection Hh as <- <- <-. apply Forall_cons in Ha as [Hr _]. cbn [run_loop map concat].
      rewrite (run_step_cmd cmd s w _ t r s1 w1) by done. rewrite Eq. cbn. by rewrite app_nil_r.
    + destruct (handle_all h s1 w1) as [[rs1 s2] w2] eqn:Ea. injection Hh as <- <- <-.
      apply Forall_cons in Ha as [Hr Hrs]. cbn [run_loop map concat].
      rewrite (run_step_cmd cmd s w _ t r s1 w1) by done. rewrite Eq.
      rewrite (IH fuel h s1 w1 _ rs1) by (done || lia). cbn. by rewrite <- app_assoc.
Qed.

Lemma cmds_length cmds :
  (length cmds <= length (concat (map cmd_bytes cmds)))%nat.
Proof.
  induction cmds as [|cmd cmds IH]; cbn [length map concat]; [lia |].
  rewrite length_app. unfold cmd_bytes at 1, line_bytes. rewrite !length_app.
  change (length crlf) with 2%nat. lia.
Qed.

End wire.

(** ** Nothing is delivered unasked

    The sink, directory and provider of a session are wrapped so that the world
    also keeps the list of deliveries made. *)

Record Delivery := mkDelivery {
  dl_sender : str; dl_message_id : str; dl_mailbox : str; dl_payload : Payload; dl_body : str
}.

Section authorised.
Context `{Signing} `{Encodings} `{Json Attestation} {V : Type}.

Definition logged_sink (k : DeliverySink V) : DeliverySink (V * list Delivery) :=
  mkSink (fun from mid mbox p b w =>
    let '(o, v) := deliver k from mid mbox p b (fst w) in
    (o, (v, snd w ++ [mkDelivery from mid mbox p b]))).
Definition logged_directory (d : UserDirectory V) : UserDirectory (V * list Delivery) :=
  mkDirectory (fun u w => let '(b, v) := user_exists d u (fst w) in (b, (v, snd w))).
Definition logged_provider (p : AddressProvider V) : AddressProvider (V * list Delivery) :=
  mkProvider (fun m w => let '(a, v) := mint p m (fst w) in (a, (v, snd w))).

(** A session as [serve_connection] builds it, with the logging wrappers. *)
Definition logged_session (p : AddressProvider V) (dom : str) (key : SigningKey)
    (k : DeliverySink V) (d : UserDirectory V) : ZsmptSession (V * list Delivery) :=
  with_directory (with_sink (with_domain_key (logged_provider p) dom key) (logged_sink k))
    (logged_directory d).

Variables (dom : str) (d : UserDirectory V).

(** What the commands handled so far establish about a session. *)
Definition greeted (pre : list Command) : Prop := exists h, Hello h ∈ pre /\ h <> [].
Definition proved (pre : list Command) (peer : str) : Prop :=
  exists ch c, Auth ch ∈ pre /\ from_wire (from_utf8_lossy ch) = Some c /\ peer = sender_domain c.
Definition addressed (pre : list Command) (user : str) : Prop :=
  exists m, Addr m user ∈ pre /\ user <> [] /\ exists v, fst (user_exists d user v) = true.

(** The delivery of one INVOICE among [cmds], after the steps that allow it. *)
Definition authorised (cmds : list Command) (x : Delivery) : Prop :=
  exists pre post su mid p b peer user,
    cmds = pre ++ Invoice su mid p b :: post /\ mid <> []
    /\ greeted pre /\ proved pre peer /\ addressed pre user
    /\ x = mkDelivery (su ++ #"@" ++ peer) mid (user ++ #"@" ++ dom) p b.

Definition knows (pre : list Command) (s : ZsmptSession (V * list Delivery)) : Prop :=
  (exists k, sink s = Some (logged_sink k)) /\ directory s = Some (logged_directory d)
  /\ (exists p, address_provider s = logged_provider p) /\ domain s = dom
  /\ (state s <> Greeting -> greeted pre)
  /\ (forall peer, peer_domain s = Some peer -> proved pre peer)
  /\ (forall user, addr_user s = Some user -> addressed pre user).

Lemma greeted_app pre cmd : greeted pre -> greeted (pre ++ [cmd]).
Proof. intros (h & ? & ?). exists h. rewrite elem_of_app. auto. Qed.
Lemma proved_app pre cmd peer : proved pre peer -> proved (pre ++ [cmd]) peer.
Proof. intros (ch & c & ? & ?). exists ch, c. rewrite elem_of_app. auto. Qed.
Lemma addressed_app pre cmd user : addressed pre user -> addressed (pre ++ [cmd]) user.
Proof. intros (m & ? & ?). exists m. rewrite elem_of_app. auto. Qed.
Hint Resolve greeted_app proved_app addressed_app : core.

Lemma knows_app pre cmd s : knows pre s -> knows (pre ++ [cmd]) s.
Proof.
  intros (? & ? & ? & ? & ? & ? & ?). unfold knows.
  repeat (split; [by eauto|]). eauto.
Qed.

(** One command: what is known grows, and what is delivered is authorised. *)
Lemma handle_knows pre cmd s w r s' w' :
  knows pre s -> handle cmd s w = (r, s', w') ->
  knows (pre ++ [cmd]) s'
  /\ (snd w' = snd w \/ exists x, snd w' = snd w ++ [x] /\ authorised (pre ++ [cmd]) x).
Proof.
  intros Hk. pose proof (knows_app pre cmd s Hk) as Hk'.
  destruct Hk as ((k & Hsink) & Hdir & (pv & Hprov) & Hdom & Hg & Hp & Ha).
  destruct cmd as [h|ch|m u|su mid p b|? ?|]; cbn [handle].
  - unfold on_hello. repeat case_match; intros; simplify_eq/=; try by (split; [|left]).
    split; [|by left]. destruct Hk' as (? & ? & ? & ? & ? & ? & ?).
    repeat (split; [done|]). split; [|done]. intros _. exists h.
    rewrite elem_of_app, list_elem_of_singleton. by case_bool_decide; [|auto].
  - unfold on_auth. repeat case_match; intros; simplify_eq/=; try by (split; [|left]).
    split; [|by left]. destruct Hk' as (? & ? & ? & ? & Hg' & ? & ?).
    repeat (split; [done|]). split; [|split; [|done]].
    + intros _. apply Hg'. match goal with Hx : negb (state s ≟ _) = false |- _ =>
        apply negb_false_iff, bool_decide_eq_true in Hx; congruence end.
    + cbn. intros peer [= <-]. exists ch, c. by rewrite elem_of_app, list_elem_of_singleton; auto.
  - unfold on_addr, known_user. cbv zeta.
    cbn [set_addr_user address_provider domain domain_key]. rewrite Hdir, Hprov. cbn.
    repeat case_match; intros; simplify_eq/=; try by (split; [|left]).
    split; [|by left]. destruct Hk' as (? & ? & ? & ? & ? & ? & ?).
    repeat (split; [by eauto|]). cbn. intros user [= <-]. exists m.
    rewrite elem_of_app, list_elem_of_singleton. split; [by auto |].
    case_bool_decide; [done |]. split; [done |]. exists (fst w).
    match goal with Hx : user_exists d u _ = _ |- _ => by rewrite Hx; apply negb_false_iff end.
  - unfold on_invoice. rewrite Hsink. cbn.
    repeat case_match; intros; simplify_eq/=; try by (split; [|left]).
    split; [done |]. right. eexists. split; [done |].
    exists pre, [], su, mid, p, b. do 2 eexists.
    split; [done |]. case_bool_decide; [done |]. split; [done |].
    split; [|split; [by apply Hp | split; [by apply Ha | by rewrite Hdom]]].
    apply Hg. match goal with Hx : negb (state _ ≟ _) = false |- _ =>
      apply negb_false_iff, bool_decide_eq_true in Hx; congruence end.
  - intros [= <- <- <-]. split; [done | by left].
  - intros [= <- <- <-]. split; [done | by left].
Qed.

Lemma authorised_app cmds post x : authorised cmds x -> authorised (cmds ++ post) x.
Proof.
  intros (pre & post' & su & mid & p & b & peer & user & -> & ?).
  exists pre, (post' ++ post), su, mid, p, b, peer, user. by rewrite <- app_assoc.
Qed.

Lemma handle_all_knows cmds pre s w rs s' w' :
  knows pre s -> handle_all cmds s w = (rs, s', w') ->
  exists new, snd w' = snd w ++ new /\ Forall (authorised (pre ++ cmds)) new.
Proof.
  revert pre s w rs. induction cmds as [|cmd cmds IH]; intros pre s w rs Hk; cbn.
  - intros [= <- <- <-]. exists []. by rewrite app_nil_r.
  - destruct (handle cmd s w) as [[r s1] w1] eqn:Eh.
    destruct (handle_all cmds s1 w1) as [[rs1 s2] w2] eqn:Ea. intros [= <- <- <-].
    destruct (handle_knows pre cmd s w r s1 w1 Hk Eh) as [Hk1 Hw1].
    destruct (IH _ _ _ _ Hk1 Ea) as (new & Hnew & Hall).
    rewrite <- app_assoc in Hall. cbn in Hall. rewrite Hnew.
    destruct Hw1 as [->|(x & -> & Hx)]; [by exists new |].
    exists (x :: new). rewrite <- app_assoc. split; [done |].
    apply Forall_cons. split; [|done].
    replace (pre ++ cmd :: cmds) with ((pre ++ [cmd]) ++ cmds) by (by rewrite <- app_assoc).
    by apply authorised_app.
Qed.

Lemma logged_session_knows p key k : knows [] (logged_session p dom key k d).
Proof.
  unfold knows. cbn. split; [by eauto|]. split; [done|]. split; [by eauto|].
  split; [done|]. split; [done|]. split; intros ? ?; discriminate.
Qed.

End authorised.

(** A domain a challenge can carry on the wire. *)
Definition clean_domain (d : str) : Prop := (bar ∉ d) /\ utf8_valid d = true.

(** ** From bytes to handled commands *)

Section bytes.
Context `{Signing} `{Encodings} `{Json Attestation} {W : Type}.
Implicit Types (s : ZsmptSession W) (w : W) (c : conn) (cmd : Command).

Lemma run_step_handles s w c o s' w' c' :
  run_step s w c = (o, s', w', c') ->
  (s' = s /\ w' = w) \/ exists line cmd r,
    decode_line line = Ok (head_of cmd) /\ handle cmd s w = (r, s', w').
Proof.
  unfold run_step. destruct (read_line c) as [[line|e] c1]; [|destruct e; naive_solver].
  destruct (decode_line line) as [cmd|e] eqn:Ed.
  - destruct (read_body cmd c1) as [[cmd'|e] c2] eqn:Eb; [|naive_solver].
    assert (Hh : head_of cmd' = cmd).
    { destruct cmd; cbn [read_body] in Eb; try (by injection Eb as <- _).
      apply decode_line_encodable_invoice in Ed as ->. unfold mbind, st_bind in Eb.
      destruct (read_blob c1) as [[b|e] c3]; [|done]. by injection Eb as <- _. }
    destruct (handle cmd' s w) as [[r s1] w1] eqn:Eh.
    destruct (answer r c2) as [[u|e] c3]; intros [= <- <- <- <-]; right; exists line, cmd', r;
      by rewrite Hh.
  - destruct (write_line _ c1) as [[u|e'] c2]; naive_solver.
Qed.

(** Whatever a connection carries, the loop does what the handler does on the
    commands decoded from its lines. *)
Lemma run_loop_handles fuel s w c r s' w' c' :
  run_loop fuel s w c = Some (r, s', w', c') ->
  exists cmds rs, handle_all cmds s w = (rs, s', w')
    /\ Forall (fun cmd => exists line, decode_line line = Ok (head_of cmd)) cmds.
Proof.
  revert s w c. induction fuel as [|f IH]; intros s w c; cbn; [done|].
  destruct (run_step s w c) as [[[o s1] w1] c1] eqn:E.
  apply run_step_handles in E as [[-> ->]|(line & cmd & rep & Hd & Hh)]; destruct o as [x|].
  - intros [= _ <- <- _]. exists [], []. done.
  - apply IH.
  - intros [= _ <- <- _]. exists [cmd], [rep]. cbn. rewrite Hh. split; [done|].
    apply Forall_singleton. eauto.
  - intros (cmds & rs & Ha & Hall)%IH. exists (cmd :: cmds), (rep :: rs). cbn. rewrite Hh, Ha.
    split; [done|]. apply Forall_cons. eauto.
Qed.

(** A line that is refused takes only itself off the stream. *)
Lemma run_step_refused line e s w rest t :
  sendable line = true -> decode_line line = Err e ->
  run_step s w (mkConn (line_bytes line ++ rest) t)
  = (None, s, w, mkConn rest (t ++ line_bytes (render (mkStatus SYNTAX #"unknown command")))).
Proof.
  intros Hs Hd. unfold run_step. rewrite read_line_bytes, Hd by done. by rewrite write_line_ok.
Qed.

Lemma decode_blob_header n : exists e, decode_line (#"BLOB " ++ show_Z n) = Err e.
Proof.
  eexists. unfold decode_line. change (#"BLOB " ++ show_Z n) with (#"BLOB" ++ b_sp :: show_Z n).
  rewrite splitn3_two by first [by apply not_in_lit | by apply show_Z_not_in].
  cbv zeta. cbn [nth_error default from_option]. unfold id. decide_lits. reflexivity.
Qed.

End bytes.

(** ** Properties *)

Section properties.
Context `{Signing} `{Encodings} `{Json Attestation} {W : Type}.

(** C8: a connection always ends. Whatever bytes arrive, in whatever state the
    session is and whatever the sink, the directory and the provider do, the loop
    of [run] returns, and the number of bytes received bounds its turns. *)
Theorem run_terminates (s : ZsmptSession W) (w : W) (c : conn) :
  is_Some (run s w c)
  /\ forall fuel, (length (rx c) < fuel)%nat ->
     run_loop fuel s w c = run_loop (S (length (rx c))) s w c.
Proof.
  split; [apply run_total|]. intros fuel Hf.
  destruct (run_loop_total (S (length (rx c))) s w c ltac:(lia)) as [x Hx].
  rewrite Hx. by eapply run_loop_fuel; [exact Hx|lia].
Qed.

(** C9: the session invariant. Over a whole connection a peer domain is recorded
    exactly while the session is authenticated and a recipient only then, the
    phase never goes back, and domain, key, sink, directory and provider stay as
    they were attached; a command that is not answered with success leaves the
    session untouched. *)
Theorem session_invariant (s : ZsmptSession W) (w : W) :
  session_ok s ->
  (forall c r s' w' c', run s w c = Some (r, s', w', c') ->
     session_ok s' /\ same_config s s' /\ (rank (state s) <= rank (state s'))%nat)
  /\ (forall cmd r s' w', handle cmd s w = (r, s', w') -> succeeded r = false -> s' = s).
Proof.
  intros Hs. split; [|intros cmd r s' w'; apply handle_failure_keeps].
  intros c r s' w' c' Hr.
  apply (run_preserves (fun x => session_ok x /\ same_config s x
                                 /\ (rank (state s) <= rank (state x))%nat) _ _ _ _ _ _ _) in Hr;
    [done | | done].
  intros cmd s1 w1 r1 s2 w2 Hh (Ho & Hc & Hk). split; [by eapply handle_session_ok|]. split.
  - etrans; [exact Hc|]. by eapply handle_config.
  - apply handle_rank in Hh. lia.
Qed.


(** AUTH signs for any receiver. The domain named in the challenge is not
    compared with the server's own: a session that awaits AUTH answers every
    well-formed challenge, for whatever receiver it names, with its signature. *)
Theorem auth_signs_any_receiver (s : ZsmptSession W) w c receiver :
  state s = AwaitingAuth -> challenge_typed c -> clean_domain (sender_domain c) ->
  clean_domain receiver ->
  let c' := mkChallenge (sender_domain c) receiver (nonce c) (issued_at c) in
  exists s', handle (Auth (to_wire c')) s w
    = (Ok (StatusWithBlob (mkStatus OK #"authenticated")
             (to_wire c' ++ #"|" ++ hex (sign_bytes (signing (domain_key s)) (digest c')))),
       s', w)
    /\ state s' = Authenticated.
Proof.
  intros Hs [Hn Hi] [Hb Hu] [Hb' Hu'] c'.
  assert (Hw : utf8_valid (to_wire c') = true).
  { unfold to_wire. cbn [sender_domain receiver_domain nonce issued_at c'].
    repeat apply utf8_valid_app; try done.
    - apply utf8_valid_ascii. by apply graphic_no_sp; intros x [? _]%hex_graphic.
    - apply utf8_valid_ascii, show_Z_ascii. }
  cbn [handle]. unfold on_auth. rewrite Hs, from_utf8_lossy_valid by done.
  cbn [bool_decide negb]. rewrite from_to_wire by done. eexists. by split.
Qed.

End properties.

Section wire_properties.
Context `{Signing} `{EncodingsLaws} `{Json Attestation} {W : Type}.

(** C7: the connection loop implements the command handler. For every sequence of
    commands a peer can put on the wire, encoded and sent with their blobs, [run]
    ends normally, leaves the session and the world the handler leaves on the
    commands up to the first QUIT, has written the greeting and the handler's
    replies, rendered in order, and has not read what follows the QUIT. *)
Theorem run_refines_handler cmds heard unread (s : ZsmptSession W) w t rs s' w' :
  Forall wire_cmd cmds -> until_quit cmds = (heard, unread) ->
  handle_all heard s w = (rs, s', w') -> Forall answerable rs ->
  (zlength (greeting s) <= MAX_LINE)%Z ->
  run s w (mkConn (concat (map cmd_bytes cmds)) t)
  = Some (Ok tt, s', w',
          mkConn (concat (map cmd_bytes unread))
            (t ++ line_bytes (greeting s) ++ concat (map answer_bytes rs))).
Proof.
  intros Hw Hq Hh Ha Hg. unfold run. rewrite write_line_ok by done. cbn [rx tx].
  rewrite (run_loop_until_quit cmds _ heard unread s w _ rs s' w') by (done || pose proof (cmds_length cmds); lia).
  by rewrite <- app_assoc.
Qed.

(** The blob of a refused INVOICE is executed. When an INVOICE line does not
    decode (a blank inside a field is enough) its blob is left on the stream, and
    if its bytes read as commands the session carries them out. *)
Theorem refused_invoice_smuggles line cmds fuel (s : ZsmptSession W) w t rs s' w' e :
  sendable line = true -> decode_line line = Err e ->
  Forall wire_cmd cmds -> Forall (fun cmd => is_quit cmd = false) cmds ->
  handle_all cmds s w = (rs, s', w') -> Forall answerable rs ->
  (zlength (concat (map cmd_bytes cmds)) <= MAX_BLOB)%Z ->
  let bad := line_bytes (render (mkStatus SYNTAX #"unknown command")) in
  run_loop (S (S (length cmds + fuel))) s w
    (mkConn (line_bytes line ++ blob_bytes (concat (map cmd_bytes cmds))) t)
  = run_loop fuel s' w' (mkConn [] (t ++ bad ++ bad ++ concat (map answer_bytes rs))).
Proof.
  intros Hs Hd Hw Hq Hh Ha Hl bad. cbn [run_loop].
  rewrite (run_step_refused line e) by done. unfold blob_bytes.
  destruct (decode_blob_header (zlength (concat (map cmd_bytes cmds)))) as [e' He'].
  rewrite (run_step_refused _ e');
    [|apply blob_header_sendable; split; [apply zlength_nonneg | done] | done].
  rewrite <- (app_nil_r (concat (map cmd_bytes cmds))).
  rewrite (run_loop_cmds cmds fuel s w [] _ rs s' w') by done.
  subst bad. by rewrite <- !app_assoc.
Qed.

End wire_properties.

(** ** A concrete server, for the witnesses *)

Module ToyServer.
Import Toy ToyJson.

(** The world is the list of deliveries; the only user is bob. *)
Definition sink : DeliverySink (list Delivery) :=
  mkSink (fun from mid mbox p b w => (Accepted mid, w ++ [mkDelivery from mid mbox p b])).
Definition directory : UserDirectory (list Delivery) :=
  mkDirectory (fun u w => (u ≟ #"bob", w)).
Definition provider : AddressProvider (list Delivery) :=
  placeholder_provider (fun w => (replicate 32 "r"%char, w)).
Definition key : SigningKey := skey #"server key".
Definition session : ZsmptSession (list Delivery) :=
  with_directory (with_sink (with_domain_key provider #"b.org" key) sink) directory.
Definition chal : Challenge := mkChallenge #"a.org" #"b.org" #"0123456789abcdef" 1700000000.
Definition cmds : list Command :=
  [Hello #"a.org"; Auth (to_wire chal); Addr AmEphemeral #"bob";
   Invoice #"alice" #"m-1" Sealed #"sealed bytes"].

Definition after (cs : list Command) : ZsmptSession (list Delivery) :=
  snd (fst (handle_all cs session [])).


(** Decide the conditions on closed commands and replies. *)
Ltac concrete :=
  repeat (apply Forall_cons_2 || apply Forall_nil || (apply not_in_lit; reflexivity)
          || (vm_compute; reflexivity) || exact I || split || (vm_compute; discriminate)).

(** The flow, a QUIT and a command behind it. *)
Definition heard : list Command := cmds ++ [Quit].
Definition heard_answers : list (result SessionError Reply) :=
  Eval vm_compute in fst (fst (handle_all heard session [])).

Lemma run_refines_handler_witness :
  exists t, run session [] (mkConn (concat (map cmd_bytes (heard ++ [Hello #"late.org"]))) [])
  = Some (Ok tt, after cmds,
    [mkDelivery #"alice@a.org" #"m-1" #"bob@b.org" Sealed #"sealed bytes"],
    mkConn (concat (map cmd_bytes [Hello #"late.org"])) t).
Proof.
  eexists. apply (run_refines_handler (heard ++ [Hello #"late.org"]) heard [Hello #"late.org"] session [] []
                    heard_answers (after cmds)); concrete.
Defined.

(** The sender user "al ice" makes the line undecodable; the invoice's body is a
    command from another user. *)
Definition forged : list Command := [Invoice #"ceo" #"m-2" Sealed #"pay me"].
Definition forged_answers : list (result SessionError Reply) :=
  Eval vm_compute in fst (fst (handle_all forged (after (take 3 cmds)) [])).

Lemma refused_invoice_smuggles_witness :
  exists c', run_loop 4 (after (take 3 cmds)) []
    (mkConn (line_bytes #"INVOICE al ice m-1 sealed" ++ blob_bytes (concat (map cmd_bytes forged))) [])
  = run_loop 1 (after (take 3 cmds))
      [mkDelivery #"ceo@a.org" #"m-2" #"bob@b.org" Sealed #"pay me"] c'.
Proof.
  eexists.
  apply (refused_invoice_smuggles #"INVOICE al ice m-1 sealed" forged 1 (after (take 3 cmds)) [] []
           forged_answers (after (take 3 cmds)) _
           (Malformed #"INVOICE al ice m-1 sealed")); concrete.
Defined.

Lemma session_invariant_witness :
  session_ok session /\ session_ok (after cmds).
Proof.
  assert (H0 : session_ok session).
  { split; [split|]; intros Hx; try discriminate Hx; by destruct Hx. }
  split; [exact H0|].
  assert (Hr : exists r w' c', run session [] (mkConn (concat (map cmd_bytes cmds)) [])
                               = Some (r, after cmds, w', c'))
    by (do 3 eexists; vm_compute; reflexivity).
  destruct Hr as (r & w' & c' & Hr).
  exact (proj1 (proj1 (session_invariant session [] H0) _ _ _ _ _ Hr)).
Defined.

Lemma auth_signs_any_receiver_witness :
  exists s', handle (Auth (to_wire (mkChallenge #"a.org" #"bank.example" #"0123456789abcdef" 1700000000)))
               (after (take 1 cmds)) []
    = (Ok (StatusWithBlob (mkStatus OK #"authenticated")
             (to_wire (mkChallenge #"a.org" #"bank.example" #"0123456789abcdef" 1700000000)
              ++ #"|" ++ hex (sign_bytes (signing (domain_key (after (take 1 cmds))))
                   (digest (mkChallenge #"a.org" #"bank.example" #"0123456789abcdef" 1700000000))))),
       s', [])
    /\ state s' = Authenticated.
Proof.
  apply (auth_signs_any_receiver (after (take 1 cmds)) [] chal #"bank.example").
  - reflexivity.
  - vm_compute. repeat split; discriminate.
  - split; [by apply not_in_lit | reflexivity].
  - split; [by apply not_in_lit | reflexivity].
Defined.


End ToyServer.
