(* ===== verification/Client.v ===== *)
(** * The sending client ([talk-protocol/src/client.rs])

    [ZsmptClient] mirrors the server session: each method writes a command, reads
    the status line and checks what comes back.  The clock and the nonce are
    arguments of [authenticate]. *)

From S2P Require Export SessionFacts.

Inductive ClientState := Connected | ClAwaitingAuth | ClAuthenticated | Addressed.
#[export] Instance ClientState_eq_dec : EqDecision ClientState.
Proof. solve_decision. Defined.

Inductive ClientError :=
  | Framing (e : FramingError)
  | ClIo (s : str)
  | BadGreeting (s : str)
  | ClRejected (s : str)
  | ClRetryLater (s : str)
  | ClAuth (s : str)
  | BadAttestation (s : str)
  | Order (s : str).
#[export] Instance ClientError_eq_dec : EqDecision ClientError.
Proof. solve_decision. Defined.

(** [to_string] of the errors the client reports (their [#[error]] texts). *)
Definition handshake_error_str (e : HandshakeError) : str :=
  match e with
  | BadSignature => #"signature verification failed"
  | Stale n => #"challenge is stale (older than " ++ show_Z n ++ #" seconds)"
  | Replay => #"challenge nonce replayed"
  | DomainMismatch => #"challenge domain mismatch"
  | InvalidKey => #"invalid key bytes"
  end.
Definition attestation_error_str (e : AttestationError) : str :=
  match e with
  | AttBadSignature => #"signature verification failed"
  | AttInvalidKey => #"invalid key bytes"
  | AttDomainMismatch => #"attestation domain mismatch"
  end.

Record ZsmptClient := mkClient {
  stream : conn;
  cl_state : ClientState;
  cl_sender_domain : str;
  cl_receiver_domain : str;
  cl_addr_user : option str;
}.

Definition set_stream (c : ZsmptClient) (x : conn) : ZsmptClient :=
  mkClient x (cl_state c) (cl_sender_domain c) (cl_receiver_domain c) (cl_addr_user c).
Definition set_cl_state (x : ClientState) (c : ZsmptClient) : ZsmptClient :=
  mkClient (stream c) x (cl_sender_domain c) (cl_receiver_domain c) (cl_addr_user c).
Definition set_cl_addr_user (x : option str) (c : ZsmptClient) : ZsmptClient :=
  mkClient (stream c) (cl_state c) (cl_sender_domain c) (cl_receiver_domain c) x.

Abbreviation cl A := (st ZsmptClient ClientError A).

(** A framing operation on [self.stream], its error converted by [?]. *)
Definition on_stream {A} (m : io A) : cl A := fun c =>
  match m (stream c) with
  | (Ok x, s) => (Ok x, set_stream c s)
  | (Err e, s) => (Err (Framing e), set_stream c s)
  end.

Definition first_code (status : str) : Z :=
  default 0%Z (head (split_whitespace status) ≫= parse_u16).

(** [status_error]: transient codes are retried, all others are rejections. *)
Definition status_error (status : str) : ClientError :=
  if is_transient (mkCode (first_code status)) then ClRetryLater status else ClRejected status.

(** [if !status.starts_with(code) { return Err(self.status_error(&status)) }] *)
Definition expect_status (prefix status : str) : cl unit :=
  if starts_with prefix status then mret tt else raise (status_error status).

Definition expect_state (x : ClientState) (msg : str) : cl unit := fun c =>
  if cl_state c ≟ x then (Ok tt, c) else (Err (Order msg), c).

(** [ZsmptClient::connect] on an open stream. *)
Definition connect (strm : conn) (sender_dom : str) : result ClientError ZsmptClient * conn :=
  match read_line strm with
  | (Err e, strm) => (Err (Framing e), strm)
  | (Ok greeting, strm) =>
      match strip_prefix (#"ZSMTP 1.0 ") greeting with
      | None => (Err (BadGreeting greeting), strm)
      | Some receiver =>
          if receiver ≟ [] then (Err (BadGreeting greeting), strm)
          else (Ok (mkClient strm Connected sender_dom receiver None), strm)
      end
  end.

Definition hello : cl unit :=
  _ ← expect_state Connected #"hello already sent";
  sender ← gets cl_sender_domain;
  _ ← on_stream (write_line (#"HELLO " ++ sender));
  status ← on_stream read_line;
  _ ← expect_status (#"250 ") status;
  modify (set_cl_state ClAwaitingAuth).

Section client.
Context `{Signing} `{Encodings} `{Json Attestation}.

(** The signed challenge in the AUTH reply. *)
Definition parse_response (blob : str) : result ClientError ChallengeResponse :=
  match rsplit_once bar (from_utf8_lossy blob) with
  | None => Err (ClAuth #"malformed auth response")
  | Some (chal_wire, sig_hex) =>
      c ← ok_or (from_wire chal_wire) (ClAuth #"malformed challenge");
      sg ← ok_or (hex_decode sig_hex) (ClAuth #"malformed signature");
      Ok (mkResponse c sg)
  end.

(** [t_issue] and [t_verify] are the two readings of the clock. *)
Definition authenticate (random : str) (t_issue t_verify : Z) (receiver_pub : VerifyingKey)
    : cl unit :=
  _ ← expect_state ClAwaitingAuth #"authenticate out of sequence";
  sender ← gets cl_sender_domain;
  receiver ← gets cl_receiver_domain;
  let c := issue random t_issue sender receiver in
  _ ← on_stream (write_line (#"AUTH " ++ b64_encode (to_wire c)));
  status ← on_stream read_line;
  _ ← expect_status (#"250 ") status;
  blob ← on_stream read_blob;
  response ← lift (parse_response blob);
  _ ← lift (map_err (fun e => ClAuth (handshake_error_str e))
              (verify t_verify response receiver_pub MAX_CHALLENGE_AGE));
  modify (set_cl_state ClAuthenticated).

Definition request_address (user : str) (mode : AttestationMode) (receiver_pub : VerifyingKey)
    : cl Attestation :=
  _ ← expect_state ClAuthenticated #"request_address out of sequence";
  _ ← on_stream (write_line (#"ADDR " ++ mode_str mode ++ #" " ++ user));
  status ← on_stream read_line;
  _ ← expect_status (#"250 ") status;
  blob ← on_stream read_blob;
  att ← lift (map_err (fun e => BadAttestation (attestation_error_str e))
                (att_from_json (from_utf8_lossy blob)));
  receiver ← gets cl_receiver_domain;
  _ ← lift (map_err (fun e => BadAttestation (attestation_error_str e))
              (att_verify att receiver_pub receiver));
  _ ← modify (set_cl_addr_user (Some user));
  _ ← modify (set_cl_state Addressed);
  mret att.

Definition send_invoice (sender_username message_id : str) (payload : Payload) (body : str)
    : cl unit :=
  _ ← expect_state Addressed #"send_invoice out of sequence";
  _ ← on_stream (write_line (#"INVOICE " ++ sender_username ++ #" " ++ message_id ++ #" "
                             ++ payload_str payload));
  _ ← on_stream (write_blob body);
  status ← on_stream read_line;
  expect_status (#"250 ") status.

Definition quit : cl unit :=
  _ ← on_stream (write_line #"QUIT");
  status ← on_stream read_line;
  expect_status (#"221 ") status.

(** [let _ = client.quit().await]. *)
Definition ignore {A} (m : cl A) : cl unit := try_with m (fun _ => mret tt) (fun _ => mret tt).

(** HELLO, AUTH, ADDR, INVOICE, QUIT over an established connection. *)
Definition send_invoice_over (random : str) (t_issue t_verify : Z)
    (sender_username recipient_user : str) (receiver_pub : VerifyingKey)
    (message_id : str) (payload : Payload) (body : str) : cl unit :=
  _ ← hello;
  _ ← authenticate random t_issue t_verify receiver_pub;
  _ ← request_address recipient_user Ephemeral receiver_pub;
  _ ← send_invoice sender_username message_id payload body;
  ignore quit.

(** [SendInvoice] and its [deliver], over the stream the TLS connection gives
    (connecting is in [Connect]). *)
Record SendInvoice := mkSendInvoice {
  si_endpoint : str;
  si_receiver_domain : str;
  si_sender_domain : str;
  si_sender_username : str;
  si_recipient_user : str;
  si_receiver_pub : VerifyingKey;
  si_message_id : str;
  si_payload : Payload;
  si_body : str;
}.
Definition si_deliver (random : str) (t_issue t_verify : Z) (x : SendInvoice) (strm : conn)
    : result ClientError unit :=
  match connect strm (si_sender_domain x) with
  | (Err e, _) => Err e
  | (Ok client, _) =>
      fst (send_invoice_over random t_issue t_verify (si_sender_username x)
             (si_recipient_user x) (si_receiver_pub x) (si_message_id x)
             (si_payload x) (si_body x) client)
  end.

End client.

(** ** Lemmas *)

(** What an exchange of the client does on a stream: it writes [out] and reads
    exactly [inp]. *)
Definition talks {A} (m : io A) (out inp : str) (x : A) : Prop :=
  forall rest t, m (mkConn (inp ++ rest) t) = (Ok x, mkConn rest (t ++ out)).

Lemma talks_write_line line : (zlength line <= MAX_LINE)%Z -> talks (write_line line) (line_bytes line) [] tt.
Proof. intros Hl rest t. by rewrite write_line_ok. Qed.
Lemma talks_read_line line : sendable line = true -> talks read_line [] (line_bytes line) line.
Proof. intros Hl rest t. by rewrite read_line_bytes, app_nil_r. Qed.
Lemma talks_read_blob b : (zlength b <= MAX_BLOB)%Z -> talks read_blob [] (blob_bytes b) b.
Proof. intros Hl rest t. by rewrite read_blob_bytes, app_nil_r. Qed.
Lemma talks_write_blob b : (zlength b <= MAX_BLOB)%Z -> talks (write_blob b) (blob_bytes b) [] tt.
Proof. intros Hl rest t. by rewrite write_blob_ok. Qed.

(** The same for a client step, which also moves the client's other fields. *)
Definition cl_talks {A} (m : cl A) (c : ZsmptClient) (out inp : str) (x : A) (c' : ZsmptClient) : Prop :=
  forall rest t,
    m (set_stream c (mkConn (inp ++ rest) t)) = (Ok x, set_stream c' (mkConn rest (t ++ out))).

Lemma cl_talks_stream {A} (m : io A) c out inp x : talks m out inp x -> cl_talks (on_stream m) c out inp x c.
Proof. intros Hm rest t. unfold on_stream. cbn. by rewrite Hm. Qed.

Lemma cl_talks_bind {A B} (m : cl A) (f : A -> cl B) c c1 c2 o1 o2 i1 i2 x y :
  cl_talks m c o1 i1 x c1 -> cl_talks (f x) c1 o2 i2 y c2 ->
  cl_talks (m ≫= f) c (o1 ++ o2) (i1 ++ i2) y c2.
Proof.
  intros Hm Hf rest t. rewrite <- app_assoc. erewrite st_bind_Ok by apply Hm.
  rewrite Hf. by rewrite <- app_assoc.
Qed.

(** A step that does not touch the stream. *)
Lemma cl_talks_pure {A} (m : cl A) c x c' :
  (forall strm, m (set_stream c strm) = (Ok x, set_stream c' strm)) -> cl_talks m c [] [] x c'.
Proof. intros Hm rest t. rewrite Hm. by rewrite app_nil_r. Qed.

Lemma cl_talks_bind_pure {A B} (m : cl A) (f : A -> cl B) c c1 c2 o i x y :
  (forall strm, m (set_stream c strm) = (Ok x, set_stream c1 strm)) ->
  cl_talks (f x) c1 o i y c2 -> cl_talks (m ≫= f) c o i y c2.
Proof.
  intros Hm Hf rest t. erewrite st_bind_Ok by apply Hm. apply Hf.
Qed.

(** A step that only writes. *)
Lemma cl_talks_write {A B} (m : cl A) (f : A -> cl B) c c1 c2 o1 o2 i x y :
  cl_talks m c o1 [] x c1 -> cl_talks (f x) c1 o2 i y c2 -> cl_talks (m ≫= f) c (o1 ++ o2) i y c2.
Proof. apply cl_talks_bind. Qed.

(** An exchange followed by a step that leaves the stream alone. *)
Lemma cl_talks_last {A B} (m : cl A) (f : A -> cl B) c c1 c2 o i x y :
  cl_talks m c o i x c1 ->
  (forall strm, f x (set_stream c1 strm) = (Ok y, set_stream c2 strm)) ->
  cl_talks (m ≫= f) c o i y c2.
Proof. intros Hm Hf rest t. erewrite st_bind_Ok by apply Hm. apply Hf. Qed.

Lemma cl_talks_gets {A B} (g : ZsmptClient -> A) (f : A -> cl B) c c2 o i y :
  (forall strm, g (set_stream c strm) = g c) ->
  cl_talks (f (g c)) c o i y c2 -> cl_talks (gets g ≫= f) c o i y c2.
Proof. intros Hg Hf. eapply cl_talks_bind_pure; [|exact Hf]. intros strm. unfold gets. by rewrite Hg. Qed.

Lemma expect_state_ok x msg c strm :
  cl_state c = x -> expect_state x msg (set_stream c strm) = (Ok tt, set_stream c strm).
Proof. intros <-. unfold expect_state. cbn. by rewrite bool_decide_eq_true_2. Qed.

Lemma expect_status_ok p s c strm :
  starts_with p s = true -> expect_status p s (set_stream c strm) = (Ok tt, set_stream c strm).
Proof. intros Hs. unfold expect_status. by rewrite Hs. Qed.

(** ** Inversion of the client's monad *)

Lemma on_stream_inv {A} (m : io A) c x c' :
  on_stream m c = (Ok x, c') -> exists strm, m (stream c) = (Ok x, strm) /\ c' = set_stream c strm.
Proof. unfold on_stream. destruct (m (stream c)) as [[y|e] strm]; naive_solver. Qed.

Lemma expect_status_inv p s c u c' :
  expect_status p s c = (Ok u, c') -> starts_with p s = true /\ c' = c.
Proof. unfold expect_status, raise, mret, st_ret. destruct (starts_with p s); naive_solver. Qed.

Lemma expect_state_inv x msg c u c' :
  expect_state x msg c = (Ok u, c') -> cl_state c = x /\ c' = c.
Proof. unfold expect_state. case_bool_decide; naive_solver. Qed.

Lemma lift_inv {S E A} (r : result E A) (s : S) x s' : lift r s = (Ok x, s') -> r = Ok x /\ s' = s.
Proof. unfold lift. naive_solver. Qed.

Lemma map_err_Ok {E F A} (f : E -> F) (r : result E A) x : map_err f r = Ok x -> r = Ok x.
Proof. destruct r; cbn; congruence. Qed.

(** A step keeps an observation of the client, whether it fails or not. *)
Definition keeps {A B} (g : ZsmptClient -> B) (m : cl A) : Prop :=
  forall c r c', m c = (r, c') -> g c' = g c.

(** It may change it, but only together with success. *)
Definition keeps_on_err {A B} (g : ZsmptClient -> B) (m : cl A) : Prop :=
  forall c e c', m c = (Err e, c') -> g c' = g c.

Lemma keeps_bind {A B C} (g : ZsmptClient -> C) (m : cl A) (f : A -> cl B) :
  keeps g m -> (forall x, keeps_on_err g (f x)) -> keeps_on_err g (m ≫= f).
Proof.
  intros Hm Hf c e c'. unfold mbind, st_bind. destruct (m c) as [[x|e1] c1] eqn:E.
  - intros H. rewrite (Hf _ _ _ _ H). by eapply Hm.
  - intros [= _ <-]. by eapply Hm.
Qed.

Lemma keeps_modify {B} (g : ZsmptClient -> B) (h : ZsmptClient -> ZsmptClient) :
  keeps_on_err g (modify h).
Proof. intros c e c'. unfold modify. discriminate. Qed.

Lemma keeps_weaken {A B} (g : ZsmptClient -> B) (m : cl A) : keeps g m -> keeps_on_err g m.
Proof. intros H c e c'. apply H. Qed.

Section keeps.
Context {B : Type} (g : ZsmptClient -> B) (Hg : forall c strm, g (set_stream c strm) = g c).

Lemma keeps_on_stream {A} (m : io A) : keeps g (on_stream m).
Proof. intros c r c'. unfold on_stream. destruct (m (stream c)) as [[x|e] s]; intros [= _ <-]; apply Hg. Qed.
Lemma keeps_expect_state x msg : keeps g (expect_state x msg).
Proof. intros c r c'. unfold expect_state. case_bool_decide; by intros [= _ <-]. Qed.
Lemma keeps_expect_status p s : keeps g (expect_status p s).
Proof. intros c r c'. unfold expect_status, raise, mret, st_ret. by destruct (starts_with p s); intros [= _ <-]. Qed.
Lemma keeps_gets {A} (h : ZsmptClient -> A) : keeps g (gets h).
Proof. intros c r c'. by intros [= _ <-]. Qed.
Lemma keeps_lift {A} (r : result ClientError A) : keeps g (lift r).
Proof. intros c x c'. by intros [= _ <-]. Qed.

End keeps.

#[export] Hint Resolve keeps_on_stream keeps_expect_state keeps_expect_status keeps_gets
  keeps_lift keeps_modify : talk.

Section client_facts.
Context `{Signing} `{Encodings} `{Json Attestation}.

(** What the client has checked when a step succeeds. *)
Definition verified_response (t_verify : Z) (pub : VerifyingKey) (r : ChallengeResponse) : Prop :=
  sender_domain (challenge r) <> [] /\ receiver_domain (challenge r) <> []
  /\ (0 <= wrap_i64 (t_verify - issued_at (challenge r)) <= MAX_CHALLENGE_AGE)%Z
  /\ length (signature r) = 64%nat
  /\ verify_bytes pub (digest (challenge r)) (signature r) = true.

Definition verified_attestation (pub : VerifyingKey) (dom : str) (a : Attestation) : Prop :=
  att_domain a = dom /\ length (att_signature a) = 64%nat
  /\ verify_bytes pub (canonical_digest a) (att_signature a) = true.

Lemma authenticate_inv random ti tv pub c u c' :
  authenticate random ti tv pub c = (Ok u, c') ->
  cl_state c = ClAwaitingAuth /\ cl_state c' = ClAuthenticated
  /\ cl_receiver_domain c' = cl_receiver_domain c
  /\ exists blob r, parse_response blob = Ok r /\ verified_response tv pub r.
Proof.
  unfold authenticate. intros Hm.
  apply st_bind_inv in Hm as (? & ? & [Hst ->]%expect_state_inv & Hm).
  apply st_bind_inv in Hm as (? & ? & [= <- <-] & Hm).
  apply st_bind_inv in Hm as (? & ? & [= <- <-] & Hm).
  apply st_bind_inv in Hm as (? & ? & (s1 & _ & ->)%on_stream_inv & Hm).
  apply st_bind_inv in Hm as (status & ? & (s2 & _ & ->)%on_stream_inv & Hm).
  apply st_bind_inv in Hm as (? & ? & [_ ->]%expect_status_inv & Hm).
  apply st_bind_inv in Hm as (blob & ? & (s3 & _ & ->)%on_stream_inv & Hm).
  apply st_bind_inv in Hm as (r & ? & [Hr ->]%lift_inv & Hm).
  apply st_bind_inv in Hm as ([] & ? & [Hv%map_err_Ok ->]%lift_inv & Hm).
  injection Hm as _ <-. split; [done|]. split; [done|]. split; [done|].
  exists blob, r. split; [done|]. by apply verify_Ok in Hv.
Qed.

Lemma request_address_inv user mode pub c a c' :
  request_address user mode pub c = (Ok a, c') ->
  cl_state c = ClAuthenticated /\ cl_state c' = Addressed
  /\ cl_receiver_domain c' = cl_receiver_domain c
  /\ verified_attestation pub (cl_receiver_domain c) a.
Proof.
  unfold request_address. intros Hm.
  apply st_bind_inv in Hm as (? & ? & [Hst ->]%expect_state_inv & Hm).
  apply st_bind_inv in Hm as (? & ? & (s1 & _ & ->)%on_stream_inv & Hm).
  apply st_bind_inv in Hm as (status & ? & (s2 & _ & ->)%on_stream_inv & Hm).
  apply st_bind_inv in Hm as (? & ? & [_ ->]%expect_status_inv & Hm).
  apply st_bind_inv in Hm as (blob & ? & (s3 & _ & ->)%on_stream_inv & Hm).
  apply st_bind_inv in Hm as (att & ? & [Hr ->]%lift_inv & Hm).
  apply st_bind_inv in Hm as (? & ? & [= <- <-] & Hm).
  apply st_bind_inv in Hm as ([] & ? & [Hv%map_err_Ok ->]%lift_inv & Hm).
  apply st_bind_inv in Hm as (? & ? & [= _ <-] & Hm).
  apply st_bind_inv in Hm as (? & ? & [= _ <-] & Hm).
  injection Hm as <- <-. split; [done|]. split; [done|]. split; [done|].
  by apply att_verify_Ok in Hv.
Qed.

End client_facts.

(** ** Properties *)

Section properties.
Context `{Signing} `{Encodings} `{Json Attestation}.


(** The client keeps the order of the protocol. A method called in any phase
    but its own fails with an order error, writes nothing and reads nothing. *)
Theorem client_in_order random ti tv pub u m su mid p body c :
  (cl_state c <> Connected -> exists msg, hello c = (Err (Order msg), c))
  /\ (cl_state c <> ClAwaitingAuth ->
      exists msg, authenticate random ti tv pub c = (Err (Order msg), c))
  /\ (cl_state c <> ClAuthenticated ->
      exists msg, request_address u m pub c = (Err (Order msg), c))
  /\ (cl_state c <> Addressed ->
      exists msg, send_invoice su mid p body c = (Err (Order msg), c)).
Proof.
  assert (Hx : forall x msg A (f : unit -> cl A), cl_state c <> x ->
    (expect_state x msg ≫= f) c = (Err (Order msg), c)).
  { intros x msg A f Hne. apply st_bind_Err. unfold expect_state.
    by rewrite bool_decide_eq_false_2. }
  repeat split; intros Hne; eexists; by apply Hx.
Qed.

End properties.

Section witness.
Import Toy ToyJson.

Lemma client_in_order_witness :
  exists msg, send_invoice #"alice" #"m-1" Sealed #"x" (mkClient (mkConn [] []) Connected #"a.org" #"b.org" None)
  = (Err (Order msg), mkClient (mkConn [] []) Connected #"a.org" #"b.org" None).
Proof.
  apply (proj2 (proj2 (proj2 (client_in_order [] 0 0 (vkey []) [] Ephemeral #"alice" #"m-1" Sealed #"x"
    (mkClient (mkConn [] []) Connected #"a.org" #"b.org" None))))). discriminate.
Defined.

End witness.
