(* ===== verification/Connect.v ===== *)
(** * Connecting ([talk-protocol/src/client.rs])

    How the sending client reaches a server: Unix sockets, TCP, and TCP with TLS that
    accepts every certificate.  Sockets and rustls are the interface [Network]. *)

From S2P Require Export Client.

(** ** The certificate verifier *)

Inductive SignatureScheme :=
  | ED25519 | RSA_PSS_SHA256 | RSA_PKCS1_SHA256 | ECDSA_NISTP256_SHA256
  (** the other schemes of rustls *)
  | OtherScheme (code : Z).
#[export] Instance SignatureScheme_eq_dec : EqDecision SignatureScheme.
Proof. solve_decision. Defined.

(** [ServerCertVerifier]: the certificate of a name, the signature over the handshake, and
    the schemes that are offered to the server. *)
Record ServerCertVerifier := mkVerifier {
  verify_server_cert : str -> str -> bool;
  verify_tls12_signature : str -> str -> bool;
  verify_tls13_signature : str -> str -> bool;
  supported_verify_schemes : list SignatureScheme;
}.
Definition AcceptAnyCert : ServerCertVerifier :=
  mkVerifier (fun _ _ => true) (fun _ _ => true) (fun _ _ => true)
    [ED25519; RSA_PSS_SHA256; RSA_PKCS1_SHA256; ECDSA_NISTP256_SHA256].

(** A client configuration is its verifier: there is no client certificate. *)
Definition accept_any_cert_client_config : ServerCertVerifier := AcceptAnyCert.

(** A TLS server as a client sees it: its certificate, the schemes its key signs with, its
    signature, and the stream behind the handshake. *)
Record TlsServer := mkServer {
  ts_certificate : str;
  ts_schemes : list SignatureScheme;
  ts_signature : str;
  ts_stream : conn;
}.
Definition common_scheme (v : ServerCertVerifier) (t : TlsServer) : bool :=
  existsb (fun x => bool_decide (x ∈ supported_verify_schemes v)) (ts_schemes t).

Class Network := {
  TcpStream : Type;
  (** [UnixStream::connect], [TcpStream::connect]; the bytes of a connected socket *)
  unix_connect : str -> result str conn;
  tcp_connect : str -> result str TcpStream;
  tcp_bytes : TcpStream -> conn;
  (** [ServerName::try_from], with the text of its error *)
  server_name : str -> result str str;
  (** [TlsConnector::connect] with a configuration of this verifier *)
  tls_connect : ServerCertVerifier -> str -> TcpStream -> result str conn;
}.
(** What rustls documents of a handshake with a server: it needs a common scheme, and
    succeeds when the verifier accepts the certificate and the signature. *)
Class NetworkLaws `{Network} := {
  tls_server : TcpStream -> option TlsServer;
  tls_accepts v name t s : tls_server s = Some t -> common_scheme v t = true ->
    verify_server_cert v (ts_certificate t) name = true ->
    verify_tls12_signature v (ts_certificate t) (ts_signature t) = true ->
    verify_tls13_signature v (ts_certificate t) (ts_signature t) = true ->
    tls_connect v name s = Ok (ts_stream t);
  tls_needs_scheme v name t s : tls_server s = Some t -> common_scheme v t = false -> is_ok (tls_connect v name s) = false;
}.

Section connect.
Context `{Signing} `{Encodings} `{Json Attestation} `{Network}.

Definition connect_unix (path sender_domain : str) : result ClientError ZsmptClient :=
  strm ← map_err ClIo (unix_connect path);
  fst (connect strm sender_domain).
Definition connect_tcp (addr sender_domain : str) : result ClientError ZsmptClient :=
  strm ← map_err ClIo (tcp_connect addr);
  fst (connect (tcp_bytes strm) sender_domain).
(** The part of [connect_tcp_tls] before the greeting. *)
Definition dial_tls (v : ServerCertVerifier) (addr name : str) : result ClientError conn :=
  name ← map_err (fun e => ClAuth (#"invalid server name: " ++ e)) (server_name name);
  strm ← map_err ClIo (tcp_connect addr);
  map_err ClIo (tls_connect v name strm).
Definition connect_tcp_tls (addr name : str) (v : ServerCertVerifier) (sender_domain : str)
    : result ClientError ZsmptClient :=
  strm ← dial_tls v addr name;
  fst (connect strm sender_domain).

(** [SendInvoice::deliver], from the endpoint; [si_deliver] is the part on the stream. *)
Definition send_invoice_deliver (random : str) (t_issue t_verify : Z) (x : SendInvoice) : result ClientError unit :=
  client ← connect_tcp_tls (si_endpoint x) (si_receiver_domain x) accept_any_cert_client_config (si_sender_domain x);
  fst (send_invoice_over random t_issue t_verify (si_sender_username x) (si_recipient_user x) (si_receiver_pub x)
         (si_message_id x) (si_payload x) (si_body x) client).
Lemma send_invoice_deliver_stream random t_issue t_verify x :
  send_invoice_deliver random t_issue t_verify x
  = (strm ← dial_tls AcceptAnyCert (si_endpoint x) (si_receiver_domain x); si_deliver random t_issue t_verify x strm).
Proof.
  unfold send_invoice_deliver, connect_tcp_tls, accept_any_cert_client_config, si_deliver.
  destruct (dial_tls _ _ _) as [strm|e]; [|done]. cbn [mbind result_bind]. by destruct (connect strm _) as [[client|e] c].
Qed.

(** TLS tells nothing about who answers: whatever certificate and signature the server
    shows, the connection is made, as long as its key signs with one of the four schemes;
    a server whose key has another scheme, say ECDSA on P-384, is not reached. *)
Theorem any_certificate_is_accepted `{!NetworkLaws} addr name n s t :
  server_name name = Ok n -> tcp_connect addr = Ok s -> tls_server s = Some t ->
  if common_scheme AcceptAnyCert t then dial_tls AcceptAnyCert addr name = Ok (ts_stream t)
  else forall sender_domain, exists e, connect_tcp_tls addr name AcceptAnyCert sender_domain = Err (ClIo e).
Proof.
  intros Hn Hs Ht. unfold connect_tcp_tls, dial_tls. rewrite Hn, Hs. cbn [mbind result_bind map_err].
  destruct (common_scheme AcceptAnyCert t) eqn:Ec.
  - by rewrite (tls_accepts AcceptAnyCert n t s).
  - intros sender_domain. pose proof (tls_needs_scheme AcceptAnyCert n t s Ht Ec) as He.
    destruct (tls_connect AcceptAnyCert n s) as [c|e]; [done|]. by exists e.
Qed.
End connect.

(** ** A server whose certificate is not its own *)

Module ToyNetwork.
Definition greeting : conn := mkConn (#"ZSMTP 1.0 b.org" ++ crlf) [].
Definition server_at (addr : str) : TlsServer :=
  mkServer #"certificate of another" (if addr ≟ #"p384:465" then [OtherScheme 1283] else [ED25519]) #"forged" greeting.
#[export] Instance network : Network := {|
  TcpStream := str;
  unix_connect := fun _ => Err #"no such file";
  tcp_connect := Ok;
  tcp_bytes := fun _ => greeting;
  server_name := fun n => if n ≟ [] then Err #"empty" else Ok n;
  tls_connect := fun v name s =>
    let t := server_at s in
    if common_scheme v t && verify_server_cert v (ts_certificate t) name
       && verify_tls13_signature v (ts_certificate t) (ts_signature t)
    then Ok (ts_stream t) else Err #"handshake failure" |}.
#[export] Instance network_laws : NetworkLaws.
Proof.
  refine {| tls_server := fun s => Some (server_at s) |}; intros v name t s [= <-]; cbn.
  - by intros -> -> _ ->.
  - by intros ->.
Defined.
Example impostor_is_greeted : is_ok (connect_tcp_tls #"b:465" #"b.org" AcceptAnyCert #"a.org") = true.
Proof. by vm_compute. Qed.
Example p384_is_refused : connect_tcp_tls #"p384:465" #"b.org" AcceptAnyCert #"a.org" = Err (ClIo #"handshake failure").
Proof. by vm_compute. Qed.
Example no_name : connect_tcp_tls #"b:465" [] AcceptAnyCert #"a.org" = Err (ClAuth #"invalid server name: empty").
Proof. by vm_compute. Qed.
Example plain_greeted : is_ok (connect_tcp #"b:2525" #"a.org") = true /\ is_ok (connect_unix #"/run/z" #"a.org") = false.
Proof. by vm_compute. Qed.
End ToyNetwork.
