(* ===== verification/Dialogue.v ===== *)
(** * Client and server together

    The client of [client.rs] talking to the session of [session.rs]: for honest
    parties the two loops fit, the bytes each writes are the bytes the other
    reads, and the sink receives exactly the invoice that was sent. *)

From S2P Require Export Client.

(** ** Lines without a line feed *)

Definition clean (s : str) : bool := utf8_valid s && bool_decide (b_nl ∉ s).

Lemma clean_app s t : clean s = true -> clean t = true -> clean (s ++ t) = true.
Proof.
  unfold clean. rewrite !andb_true_iff, !bool_decide_eq_true, elem_of_app.
  intros [??] [??]. split; [by apply utf8_valid_app | tauto].
Qed.

Lemma clean_utf8 s : clean s = true -> utf8_valid s = true.
Proof. unfold clean. by intros [? _]%andb_true_iff. Qed.

Lemma sendable_clean s : clean s = true -> (zlength s <= MAX_LINE - 2)%Z -> sendable s = true.
Proof.
  unfold clean. rewrite andb_true_iff, bool_decide_eq_true. intros [??] ?.
  by apply sendable_iff.
Qed.

Lemma clean_graphic s : (forall c, c ∈ s -> between 33 126 c = true) -> clean s = true.
Proof.
  intros Hg. apply graphic_no_sp in Hg as (_ & Hn & Ha). unfold clean.
  rewrite utf8_valid_ascii, bool_decide_eq_true_2; done.
Qed.

Lemma clean_hex s : clean (hex s) = true.
Proof. apply clean_graphic. by intros c [? _]%hex_graphic. Qed.

Lemma clean_show z : clean (show_Z z) = true.
Proof.
  unfold clean. rewrite utf8_valid_ascii, bool_decide_eq_true_2; [done | |apply show_Z_ascii].
  by apply show_Z_not_in.
Qed.

Lemma word_clean s : word s = true -> clean s = true.
Proof.
  intros Hw. unfold clean. rewrite bool_decide_eq_true_2 by (by eapply word_no_byte).
  unfold word in Hw. apply andb_true_iff in Hw as [[Hu _]%andb_true_iff _]. by rewrite Hu.
Qed.

Lemma clean_payload p : clean (payload_str p) = true.
Proof. by destruct p. Qed.
Lemma zlength_payload p : (zlength (payload_str p) <= 9)%Z.
Proof. by destruct p. Qed.
Lemma clean_addr_mode a : clean (addr_mode_str a) = true.
Proof. by destruct a. Qed.
Lemma zlength_addr_mode a : (zlength (addr_mode_str a) <= 9)%Z.
Proof. by destruct a. Qed.

#[export] Hint Resolve clean_payload clean_addr_mode clean_app clean_hex clean_show word_clean : talk.
#[export] Hint Extern 2 (clean (lit _) = true) => reflexivity : talk.
#[export] Hint Extern 2 (clean [_] = true) => reflexivity : talk.

Lemma zlength_show_i64 z : in_i64 z -> (zlength (show_Z z) <= 20)%Z.
Proof.
  unfold in_i64, i64_min, i64_max, zlength, show_Z. intros Hz.
  assert (Hs : forall n, (n < 10000000000000000000)%N -> (length (show_N n) <= 19)%nat).
  { intros n Hn. apply show_N_length; [|lia].
    change (10 ^ N.of_nat 19)%N with 10000000000000000000%N. lia. }
  destruct (z <? 0)%Z eqn:E; cbn [length].
  - apply Z.ltb_lt in E. assert (length (show_N (Z.to_N (- z))) <= 19)%nat by (apply Hs; lia). lia.
  - apply Z.ltb_ge in E. assert (length (show_N (Z.to_N z)) <= 19)%nat by (apply Hs; lia). lia.
Qed.

Lemma zlength_hex s : zlength (hex s) = (2 * zlength s)%Z.
Proof. unfold zlength. rewrite hex_length. lia. Qed.

(** Lengths of concatenations with literals. *)
Ltac lens :=
  rewrite ?zlength_app, ?zlength_hex;
  repeat match goal with
  | |- context [zlength (lit ?s)] =>
      let v := eval vm_compute in (zlength (lit s)) in change (zlength (lit s)) with v
  end.

Lemma render_OK m : render (mkStatus OK m) = #"250 " ++ m.
Proof. done. Qed.
Lemma render_OK_QUEUED m : render (mkStatus OK_QUEUED m) = #"250 " ++ m.
Proof. done. Qed.
Lemma render_221 m : render (mkStatus (mkCode 221) m) = #"221 " ++ m.
Proof. done. Qed.

(** *** The success paths of the handlers *)

Section success.
Context `{Signing} `{Encodings} `{Json Attestation} {W : Type}.
Implicit Types (s : ZsmptSession W) (w : W).

Lemma on_hello_ok d s :
  state s = Greeting -> d <> [] ->
  on_hello d s = (reply OK (#"Hello " ++ d), set_state s AwaitingAuth).
Proof. intros Hs Hd. unfold on_hello. by rewrite Hs, (bool_decide_eq_false_2 (d = [])) by done. Qed.

Lemma on_auth_ok ch s c :
  state s = AwaitingAuth -> from_wire (from_utf8_lossy ch) = Some c ->
  on_auth ch s = (Ok (StatusWithBlob (mkStatus OK #"authenticated") (auth_blob s c)),
                  set_peer (set_state s Authenticated) (Some (sender_domain c))).
Proof. intros Hs Hc. unfold on_auth. by rewrite Hs, Hc. Qed.

Lemma on_addr_ok mode u s w w1 w2 d a :
  state s = Authenticated -> u <> [] -> directory s = Some d ->
  user_exists d u w = (true, w1) -> mint (address_provider s) (att_mode_of mode) w1 = (a, w2) ->
  on_addr mode u s w =
  (Ok (StatusWithBlob (mkStatus OK #"address attestation")
         (att_to_json (att_sign (domain s) u (att_mode_of mode) (address a) (pubkey a)
                         (signing (domain_key s))))),
   set_addr_user s (Some u), w2).
Proof.
  intros Hs Hu Hd Hex Hm. unfold on_addr, known_user.
  rewrite Hs, (bool_decide_eq_false_2 (u = [])), Hd, Hex by done. cbn [bool_decide negb].
  cbn [address_provider set_addr_user]. by rewrite Hm.
Qed.

Lemma on_invoice_ok su mid p b s w w1 u peer k mid' :
  state s = Authenticated -> mid <> [] -> addr_user s = Some u -> peer_domain s = Some peer ->
  sink s = Some k ->
  deliver k (su ++ #"@" ++ peer) mid (u ++ #"@" ++ domain s) p b w = (Accepted mid', w1) ->
  on_invoice su mid p b s w =
  (Ok (ReplyStatus (mkStatus OK_QUEUED (#"accepted into inbox (" ++ mid' ++ #")"))), w1).
Proof.
  intros Hs Hm Hu Hp Hk Hd. unfold on_invoice.
  by rewrite Hs, (bool_decide_eq_false_2 (mid = [])), Hu, Hp, Hk, Hd by done.
Qed.

End success.

(** A domain name as the protocol can carry it. *)
Definition domain_name (d : str) : Prop :=
  clean d = true /\ d <> [] /\ (bar ∉ d) /\ (b_sp ∉ d) /\ (zlength d <= 255)%Z.

(** Every exchange but the first read starts the same way: a line out (and a
    blob), a status line in. *)
Lemma talks_status line t pfx (c : ZsmptClient) {A} (f : str -> cl A) out inp x c' :
  (zlength line <= MAX_LINE)%Z -> sendable (pfx ++ t) = true ->
  cl_talks (f (pfx ++ t)) c out inp x c' ->
  cl_talks (_ ← on_stream (write_line line);
            status ← on_stream read_line;
            _ ← expect_status pfx status; f status)
    c (line_bytes line ++ out) (line_bytes (pfx ++ t) ++ inp) x c'.
Proof.
  intros Hl Ht Hf.
  eapply cl_talks_write; [by apply cl_talks_stream, talks_write_line|].
  eapply (cl_talks_bind _ _ _ _ _ []); [by apply cl_talks_stream, talks_read_line|].
  eapply cl_talks_bind_pure; [|exact Hf]. intros. apply expect_status_ok, starts_with_app.
Qed.

Lemma sendable_OK t : clean t = true -> (zlength t <= 4000)%Z -> sendable (#"250 " ++ t) = true.
Proof. intros. apply sendable_clean; [by auto with talk | unfold MAX_LINE; lens; lia]. Qed.


(** *** The AUTH exchange for a reply about any challenge *)

Section auth_reply.
Context `{SigningLaws} `{EncodingsLaws}.

Lemma to_wire_clean c :
  clean (sender_domain c) = true -> clean (receiver_domain c) = true -> clean (to_wire c) = true.
Proof. intros. unfold to_wire. auto 10 with talk. Qed.

Lemma to_wire_length c :
  challenge_typed c -> (zlength (sender_domain c) <= 255)%Z -> (zlength (receiver_domain c) <= 255)%Z ->
  (zlength (to_wire c) <= 565)%Z.
Proof.
  intros [Hn Hi] Hs Hr. pose proof (zlength_show_i64 _ Hi).
  unfold to_wire. lens. unfold zlength in *. lia.
Qed.

Definition signed_blob (c : Challenge) (key : SigningKey) : str :=
  to_wire c ++ #"|" ++ hex (sign_bytes key (digest c)).

Lemma parse_signed_blob c key :
  challenge_typed c -> domain_name (sender_domain c) -> domain_name (receiver_domain c) ->
  parse_response (signed_blob c key) = Ok (respond c key).
Proof.
  intros Hc (Hs & _ & Hsb & _) (Hr & _ & Hrb & _). unfold parse_response, signed_blob.
  rewrite from_utf8_lossy_valid
    by (apply clean_utf8; pose proof (to_wire_clean c Hs Hr); auto 10 with talk).
  change (to_wire c ++ #"|" ++ ?x) with (to_wire c ++ bar :: x).
  rewrite rsplit_once_app by apply hex_no_bar. rewrite from_to_wire by done.
  by rewrite hex_decode_lower.
Qed.

Definition auth_line (random : str) (ti : Z) (c : ZsmptClient) : str :=
  #"AUTH " ++ b64_encode (to_wire (issue random ti (cl_sender_domain c) (cl_receiver_domain c))).

Lemma talks_auth_reply random ti tv key (old : Challenge) c :
  cl_state c = ClAwaitingAuth -> (zlength (auth_line random ti c) <= MAX_LINE)%Z ->
  challenge_typed old -> domain_name (sender_domain old) -> domain_name (receiver_domain old) ->
  (0 <= tv - issued_at old <= MAX_CHALLENGE_AGE)%Z ->
  cl_talks (authenticate random ti tv (verifying_key key)) c (line_bytes (auth_line random ti c))
    (answer_bytes (Ok (StatusWithBlob (mkStatus OK #"authenticated") (signed_blob old key)))) tt
    (set_cl_state ClAuthenticated c).
Proof.
  intros Hst Hline Hc Hs Hr Hage.
  assert (Hb : (zlength (signed_blob old key) <= 694)%Z).
  { unfold signed_blob. destruct Hs as (_&_&_&_&?), Hr as (_&_&_&_&?).
    pose proof (to_wire_length old Hc ltac:(done) ltac:(done)). lens.
    unfold zlength in *. rewrite sign_length. lia. }
  unfold authenticate, answer_bytes. cbn [answer_status]. rewrite render_OK.
  rewrite <- (app_nil_r (line_bytes (auth_line random ti c))).
  eapply cl_talks_bind_pure; [intros; by apply expect_state_ok|].
  do 2 (apply cl_talks_gets; [done|]).
  apply (talks_status _ _ _ _ (fun _ => blob ← on_stream read_blob; _)); [done | by apply sendable_OK |].
  eapply cl_talks_last.
  { apply cl_talks_stream, talks_read_blob. change MAX_BLOB with 1048576%Z. lia. }
  intros strm. unfold mbind, st_bind, lift. rewrite parse_signed_blob by done.
  rewrite verify_respond; [done | apply Hs | apply Hr | done | done].
Qed.

(** *** The ADDR exchange for an attestation of any user *)

Context `{JsonLaws Attestation att_wf}.

Lemma talks_addr_reply user other mode addr pk key c :
  let a := att_sign (cl_receiver_domain c) other mode addr pk key in
  cl_state c = ClAuthenticated ->
  (zlength (#"ADDR " ++ mode_str mode ++ #" " ++ user) <= MAX_LINE)%Z ->
  att_wf a -> (zlength (att_to_json a) <= MAX_BLOB)%Z ->
  cl_talks (request_address user mode (verifying_key key)) c
    (line_bytes (#"ADDR " ++ mode_str mode ++ #" " ++ user))
    (answer_bytes (Ok (StatusWithBlob (mkStatus OK #"address attestation") (att_to_json a)))) a
    (set_cl_state Addressed (set_cl_addr_user (Some user) c)).
Proof.
  intros a Hst Hline Hwf Hlen. unfold request_address, answer_bytes. cbn [answer_status].
  rewrite render_OK. rewrite <- (app_nil_r (line_bytes (#"ADDR " ++ _))).
  eapply cl_talks_bind_pure; [intros; by apply expect_state_ok|].
  apply (talks_status _ _ _ _ (fun _ => blob ← on_stream read_blob; _)); [done | by apply sendable_OK |].
  eapply cl_talks_last; [by apply cl_talks_stream, talks_read_blob|].
  intros strm. unfold mbind, st_bind, lift, att_from_json, att_to_json.
  rewrite from_utf8_lossy_valid by (by apply json_utf8).
  rewrite (json_roundtrip (json_wf := att_wf)) by done.
  cbn [ok_or map_err gets cl_receiver_domain set_stream].
  unfold a at 1. by rewrite att_verify_sign.
Qed.

End auth_reply.

Section dialogue.
Context `{SigningLaws} `{EncodingsLaws} `{JsonLaws Attestation att_wf} {W : Type}.

(** The parties: the server's domain, key and shared objects; the client's
    domain, nonce and clock readings; the invoice. *)
Variables (dom : str) (key : SigningKey)
  (sk : DeliverySink W) (dir : UserDirectory W) (prov : AddressProvider W).
Variables (sender_dom random : str) (t_issue t_verify : Z).
Variables (su ru mid : str) (p : Payload) (body : str).

Definition chal : Challenge := issue random t_issue sender_dom dom.

Definition server : ZsmptSession W :=
  with_address_provider (with_directory (with_sink (with_domain_key prov dom key) sk) dir) prov.

Definition commands : list Command :=
  [Hello sender_dom; Auth (to_wire chal); Addr AmEphemeral ru; Invoice su mid p body; Quit].

Definition attestation_of (m : MintedAddress) : Attestation :=
  att_sign dom ru Ephemeral (address m) (pubkey m) key.

(** The replies of the server, in order. *)
Definition replies (m : MintedAddress) (mid' : str) : list (result SessionError Reply) :=
  [Ok (ReplyStatus (mkStatus OK (#"Hello " ++ sender_dom)));
   Ok (StatusWithBlob (mkStatus OK #"authenticated") (auth_blob server chal));
   Ok (StatusWithBlob (mkStatus OK #"address attestation") (att_to_json (attestation_of m)));
   Ok (ReplyStatus (mkStatus OK_QUEUED (#"accepted into inbox (" ++ mid' ++ #")")));
   Ok (ReplyStatus (mkStatus (mkCode 221) (dom ++ #" closing connection")))].

Definition client_bytes : str := concat (map cmd_bytes commands).
Definition server_bytes (m : MintedAddress) (mid' : str) : str :=
  line_bytes (#"ZSMTP 1.0 " ++ dom) ++ concat (map answer_bytes (replies m mid')).

Definition client0 (strm : conn) : ZsmptClient := mkClient strm Connected sender_dom dom None.

(** The recipient is known, an address is minted, the sink accepts. *)
Definition accepts (w w1 w2 w3 : W) (m : MintedAddress) (mid' : str) : Prop :=
  user_exists dir ru w = (true, w1)
  /\ mint prov Ephemeral w1 = (m, w2)
  /\ deliver sk (su ++ #"@" ++ sender_dom) mid (ru ++ #"@" ++ dom) p body w2 = (Accepted mid', w3).

Record honest (m : MintedAddress) (mid' : str) : Prop := {
  h_dom : domain_name dom;
  h_sender_dom : domain_name sender_dom;
  h_random : length random = 16%nat;
  h_time : in_i64 t_issue /\ (0 <= t_verify - t_issue <= MAX_CHALLENGE_AGE)%Z;
  h_su : word su = true /\ (zlength su <= 255)%Z;
  h_mid : word mid = true /\ (zlength mid <= 255)%Z;
  h_ru : clean ru = true /\ ru <> [] /\ (zlength ru <= 255)%Z;
  h_body : (zlength body <= MAX_BLOB)%Z;
  h_mint : utf8_valid (address m) = true /\ utf8_valid (pubkey m) = true;
  h_json : (zlength (att_to_json (attestation_of m)) <= MAX_BLOB)%Z;
  h_mid' : clean mid' = true /\ (zlength mid' <= 255)%Z;
}.

Context (m : MintedAddress) (mid' : str) (Hh : honest m mid').

Lemma chal_typed : challenge_typed chal.
Proof. split; [apply (h_random _ _ Hh) | apply (h_time _ _ Hh)]. Qed.

Lemma chal_wire_clean : clean (to_wire chal) = true.
Proof. apply to_wire_clean; [apply (h_sender_dom _ _ Hh) | apply (h_dom _ _ Hh)]. Qed.

Lemma chal_wire_length : (zlength (to_wire chal) <= 565)%Z.
Proof.
  apply to_wire_length; [apply chal_typed | apply (h_sender_dom _ _ Hh) | apply (h_dom _ _ Hh)].
Qed.

Lemma from_chal_wire : from_wire (to_wire chal) = Some chal.
Proof.
  apply from_to_wire; [apply chal_typed | |].
  - apply (h_sender_dom _ _ Hh).
  - apply (h_dom _ _ Hh).
Qed.

Lemma b64_clean s : clean (b64_encode s) = true.
Proof. apply clean_graphic, b64_graphic. Qed.

Lemma commands_wire : Forall wire_cmd commands.
Proof.
  destruct Hh as [(?&?&?&?&?) (?&?&?&?&?) ? ? (?&?) (?&?) (?&?&?) ? ? ? ?].
  pose proof (b64_clean (to_wire chal)). pose proof chal_wire_length.
  assert ((zlength (b64_encode (to_wire chal)) <= 2 * zlength (to_wire chal) + 4)%Z)
    by (pose proof (b64_length (to_wire chal)); unfold zlength; lia).
  repeat apply Forall_cons_2; [..|by apply Forall_nil];
    (split; [|split]; [cbn; by split_and? | | done]); unfold line_of;
    cbn [encode_line ok default from_option id];
    (apply sendable_clean; [unfold id; by auto 10 with talk |]); unfold id, MAX_LINE; lens;
    pose proof (zlength_payload p); pose proof (zlength_addr_mode AmEphemeral); lia.
Qed.

(** *** The server side *)

Definition server_done : ZsmptSession W :=
  set_addr_user (set_peer (set_state (set_state server AwaitingAuth) Authenticated)
                   (Some sender_dom)) (Some ru).

Lemma server_handles w w1 w2 w3 :
  accepts w w1 w2 w3 m mid' ->
  handle_all (take 4 commands) server w = (take 4 (replies m mid'), server_done, w3).
Proof.
  intros (Hu & Hm & Hd). unfold commands. cbn [take handle_all handle].
  rewrite on_hello_ok by (done || apply (h_sender_dom _ _ Hh)).
  rewrite (on_auth_ok _ _ chal) by
    (done || (rewrite from_utf8_lossy_valid by apply clean_utf8, chal_wire_clean; apply from_chal_wire)).
  erewrite on_addr_ok by (done || apply (h_ru _ _ Hh)).
  erewrite on_invoice_ok by (done || apply word_nonempty, (h_mid _ _ Hh)).
  done.
Qed.

Lemma auth_blob_length : (zlength (auth_blob server chal) <= 694)%Z.
Proof.
  unfold auth_blob. pose proof chal_wire_length. lens. cbn [signature respond].
  unfold zlength in *. rewrite sign_length. lia.
Qed.

Lemma replies_answerable : Forall answerable (replies m mid').
Proof.
  destruct Hh as [(?&?&?&?&?) (?&?&?&?&?) ? ? ? ? ? ? ? ? (?&?)].
  pose proof auth_blob_length.
  repeat apply Forall_cons_2; [..|by apply Forall_nil];
    (split; [|try done]); cbn [answer_status];
    rewrite ?render_OK, ?render_OK_QUEUED, ?render_221; unfold MAX_LINE; lens; try lia.
  change MAX_BLOB with 1048576%Z. lia.
Qed.

Lemma server_runs w w1 w2 w3 :
  accepts w w1 w2 w3 m mid' ->
  run server w (mkConn client_bytes [])
  = Some (Ok tt, server_done, w3, mkConn [] (server_bytes m mid')).
Proof.
  intros Hacc. unfold run.
  rewrite write_line_ok by (destruct (h_dom _ _ Hh) as (_&_&_&_&?); unfold greeting, MAX_LINE; cbn [domain server with_address_provider with_directory with_sink with_domain_key]; lens; lia).
  cbn [rx tx app].
  assert (Hb : client_bytes = concat (map cmd_bytes (take 4 commands)) ++ cmd_bytes Quit ++ [])
    by (unfold client_bytes, commands; cbn [map concat take]; by rewrite <- !app_assoc).
  pose proof (cmds_length commands) as Hlen. change (length commands) with 5%nat in Hlen.
  fold client_bytes in Hlen.
  replace (S (length client_bytes))
    with (length (take 4 commands) + S (length client_bytes - 4))%nat by (cbn [length take commands]; lia).
  rewrite Hb at 2.
  pose proof commands_wire as Hw. pose proof replies_answerable as Ha.
  rewrite (run_loop_cmds _ _ server w _ _ (take 4 (replies m mid')) server_done w3);
    [| by apply Forall_take | by repeat constructor | by eapply server_handles | by apply Forall_take].
  cbn [run_loop].
  rewrite (run_step_cmd Quit server_done w3 [] _ (nth 4 (replies m mid') (Err (StateError []))) server_done w3);
    [| by split | done | by eapply (Forall_lookup_1 _ _ 4); [exact Ha|]].
  cbn [is_quit]. do 3 f_equal. unfold server_bytes, replies.
  cbn [map concat take nth]. by rewrite !app_nil_r, <- !app_assoc.
Qed.

(** *** The client side *)

Definition reply_of (i : nat) : str :=
  answer_bytes (nth i (replies m mid') (Err (StateError []))).

Definition cl1 : ZsmptClient := set_cl_state ClAwaitingAuth (client0 (mkConn [] [])).
Definition cl2 : ZsmptClient := set_cl_state ClAuthenticated cl1.
Definition cl3 : ZsmptClient := set_cl_state Addressed (set_cl_addr_user (Some ru) cl2).

Lemma talks_hello :
  cl_talks hello (client0 (mkConn [] [])) (cmd_bytes (Hello sender_dom)) (reply_of 0) tt cl1.
Proof.
  destruct (h_sender_dom _ _ Hh) as (?&_&_&_&?).
  unfold hello, cmd_bytes, reply_of, answer_bytes. cbn [nth replies answer_status body_bytes].
  rewrite render_OK.
  eapply cl_talks_bind_pure; [intros; by apply expect_state_ok|].
  apply cl_talks_gets; [done|].
  apply (talks_status _ _ _ _ (fun _ => modify (set_cl_state ClAwaitingAuth))).
  - cbn [client0 cl_sender_domain]. unfold MAX_LINE. lens. lia.
  - apply sendable_OK; [by auto with talk | lens; lia].
  - by apply cl_talks_pure.
Qed.

Lemma talks_authenticate :
  cl_talks (authenticate random t_issue t_verify (verifying_key key)) cl1
    (cmd_bytes (Auth (to_wire chal))) (reply_of 1) tt cl2.
Proof.
  pose proof commands_wire as Hw. unfold commands in Hw. rewrite !Forall_cons in Hw.
  destruct Hw as (_ & (_ & Hs & _) & _). apply sendable_iff in Hs as (Hs & _).
  unfold cmd_bytes. cbn [body_bytes]. rewrite app_nil_r.
  apply (talks_auth_reply _ _ _ _ chal).
  - done.
  - change (zlength (line_of (Auth (to_wire chal))) <= MAX_LINE)%Z. unfold MAX_LINE in *. lia.
  - apply chal_typed.
  - apply (h_sender_dom _ _ Hh).
  - apply (h_dom _ _ Hh).
  - apply (h_time _ _ Hh).
Qed.

Lemma attestation_wf : att_wf (attestation_of m).
Proof.
  apply att_sign_wf.
  - apply clean_utf8, (h_dom _ _ Hh).
  - apply clean_utf8, (h_ru _ _ Hh).
  - apply (h_mint _ _ Hh).
  - apply (h_mint _ _ Hh).
Qed.

Lemma talks_request_address :
  cl_talks (request_address ru Ephemeral (verifying_key key)) cl2
    (cmd_bytes (Addr AmEphemeral ru)) (reply_of 2) (attestation_of m) cl3.
Proof.
  destruct (h_ru _ _ Hh) as (?&_&?). unfold cmd_bytes. cbn [body_bytes]. rewrite app_nil_r.
  apply (talks_addr_reply ru ru Ephemeral); [done | | apply attestation_wf | apply (h_json _ _ Hh)].
  cbn [mode_str]. unfold MAX_LINE. lens. lia.
Qed.

Lemma talks_send_invoice :
  cl_talks (send_invoice su mid p body) cl3 (cmd_bytes (Invoice su mid p body)) (reply_of 3) tt cl3.
Proof.
  pose proof commands_wire as Hw. unfold commands in Hw. rewrite !Forall_cons in Hw.
  destruct Hw as (_ & _ & _ & (_ & Hs & _) & _). apply sendable_iff in Hs as (Hs & _).
  destruct (h_mid' _ _ Hh) as (?&?).
  unfold send_invoice, cmd_bytes, reply_of, answer_bytes.
  cbn [nth replies answer_status body_bytes]. rewrite render_OK_QUEUED, app_nil_r.
  eapply cl_talks_bind_pure; [intros; by apply expect_state_ok|].
  eapply cl_talks_write; [apply cl_talks_stream, talks_write_line|].
  { change (zlength (line_of (Invoice su mid p body)) <= MAX_LINE)%Z. unfold MAX_LINE in *. lia. }
  rewrite <- (app_nil_r (blob_bytes body)).
  eapply cl_talks_write; [apply cl_talks_stream, talks_write_blob, (h_body _ _ Hh)|].
  eapply cl_talks_last; [apply cl_talks_stream, talks_read_line, sendable_OK|].
  - auto 10 with talk.
  - lens. lia.
  - intros. apply expect_status_ok, starts_with_app.
Qed.

Lemma talks_quit : cl_talks quit cl3 (cmd_bytes Quit) (reply_of 4) tt cl3.
Proof.
  destruct (h_dom _ _ Hh) as (?&_&_&_&?).
  unfold quit, cmd_bytes, reply_of, answer_bytes.
  cbn [nth replies answer_status body_bytes]. rewrite render_221, !app_nil_r.
  rewrite <- (app_nil_r (line_bytes (line_of Quit))).
  eapply cl_talks_write; [apply cl_talks_stream, talks_write_line; done|].
  eapply cl_talks_last; [apply cl_talks_stream, talks_read_line|].
  - apply sendable_clean; [by auto with talk | unfold MAX_LINE; lens; lia].
  - intros. apply expect_status_ok, starts_with_app.
Qed.

Lemma cl_talks_ignore {A} (q : cl A) c o i x c' :
  cl_talks q c o i x c' -> cl_talks (ignore q) c o i tt c'.
Proof. intros Hq rest t. unfold ignore, try_with. by rewrite Hq. Qed.

Lemma client_talks :
  cl_talks (send_invoice_over random t_issue t_verify su ru (verifying_key key) mid p body)
    (client0 (mkConn [] [])) client_bytes (concat (map answer_bytes (replies m mid'))) tt cl3.
Proof.
  unfold send_invoice_over, client_bytes, commands, replies. cbn [map concat].
  rewrite !app_nil_r.
  eapply cl_talks_bind; [apply talks_hello|].
  eapply cl_talks_bind; [apply talks_authenticate|].
  eapply cl_talks_bind; [apply talks_request_address|].
  eapply cl_talks_bind; [apply talks_send_invoice|].
  eapply cl_talks_ignore, talks_quit.
Qed.

Lemma client_connects :
  connect (mkConn (server_bytes m mid') []) sender_dom
  = (Ok (client0 (mkConn (concat (map answer_bytes (replies m mid'))) [])),
     mkConn (concat (map answer_bytes (replies m mid'))) []).
Proof.
  destruct (h_dom _ _ Hh) as (?&?&_&_&?). unfold connect, server_bytes.
  rewrite read_line_bytes.
  - rewrite strip_prefix_app. by rewrite bool_decide_eq_false_2.
  - apply sendable_clean; [by auto with talk | unfold MAX_LINE; lens; lia].
Qed.

End dialogue.

(** ** Properties *)

Section properties.
Context `{SigningLaws} `{EncodingsLaws} `{JsonLaws Attestation att_wf} {W : Type}.

(** C2: an invoice sent is the invoice delivered. For honest parties the bytes the
    client writes and the bytes the server writes fit together: fed the client's
    bytes, the server ends normally with the world the sink made of exactly this
    sender, message id, recipient, payload kind and body; fed the server's bytes,
    the client connects, verifies the handshake and the attestation, and returns
    [Ok] having written exactly the bytes the server was fed. *)
Theorem dialogue_delivers (dom : str) key (sk : DeliverySink W) (dir : UserDirectory W)
    (prov : AddressProvider W) sender_dom random t_issue t_verify su ru mid p body m mid' w w1 w2 w3 :
  honest dom key sender_dom random t_issue t_verify su ru mid body m mid' ->
  user_exists dir ru w = (true, w1) -> mint prov Ephemeral w1 = (m, w2) ->
  deliver sk (su ++ #"@" ++ sender_dom) mid (ru ++ #"@" ++ dom) p body w2 = (Accepted mid', w3) ->
  exists from_client from_server s' c0 c',
    run (server dom key sk dir prov) w (mkConn from_client [])
    = Some (Ok tt, s', w3, mkConn [] from_server)
    /\ connect (mkConn from_server []) sender_dom = (Ok c0, stream c0)
    /\ send_invoice_over random t_issue t_verify su ru (verifying_key key) mid p body c0 = (Ok tt, c')
    /\ stream c' = mkConn [] from_client /\ cl_state c' = Addressed.
Proof.
  intros Hh Hu Hm Hd.
  pose proof (server_runs dom key sk dir prov _ _ _ _ su ru mid p body m mid' Hh w w1 w2 w3
                (conj Hu (conj Hm Hd))) as Hrun.
  pose proof (client_connects dom key sk dir prov _ _ _ _ su ru mid body m mid' Hh) as Hconn.
  pose proof (client_talks dom key sk dir prov _ _ _ _ su ru mid p body m mid' Hh [] []) as Htalk.
  do 5 eexists. split; [exact Hrun|]. split; [exact Hconn|].
  rewrite app_nil_r in Htalk. split; [exact Htalk|]. done.
Qed.

(** A recorded handshake is accepted again. [authenticate] does not compare the
    challenge that comes back with the one it sent: whatever nonce it draws, the
    reply to any other challenge of the last five minutes, from any sender and for
    any receiver name, authenticates the connection. *)
Theorem authenticate_accepts_replay random ti tv key (old : Challenge) c :
  cl_state c = ClAwaitingAuth -> (zlength (auth_line random ti c) <= MAX_LINE)%Z ->
  challenge_typed old -> domain_name (sender_domain old) -> domain_name (receiver_domain old) ->
  (0 <= tv - issued_at old <= MAX_CHALLENGE_AGE)%Z ->
  let recorded := answer_bytes (Ok (StatusWithBlob (mkStatus OK #"authenticated")
                    (to_wire old ++ #"|" ++ hex (sign_bytes key (digest old))))) in
  forall rest t, exists t',
    authenticate random ti tv (verifying_key key) (set_stream c (mkConn (recorded ++ rest) t))
    = (Ok tt, set_stream (set_cl_state ClAuthenticated c) (mkConn rest t')).
Proof. intros. eexists. by apply talks_auth_reply. Qed.

(** An attestation for another user is accepted. [request_address] checks the
    attestation's domain and signature but not its user: asked for [user], the
    server may return the signed address of [other], and the client takes it. *)
Theorem address_of_other_user (user other : str) mode addr pk key c :
  cl_state c = ClAuthenticated ->
  (zlength (#"ADDR " ++ mode_str mode ++ #" " ++ user) <= MAX_LINE)%Z ->
  let a := att_sign (cl_receiver_domain c) other mode addr pk key in
  att_wf a -> (zlength (att_to_json a) <= MAX_BLOB)%Z ->
  let answer := answer_bytes (Ok (StatusWithBlob (mkStatus OK #"address attestation")
                  (att_to_json a))) in
  forall rest t, exists t' c',
    request_address user mode (verifying_key key) (set_stream c (mkConn (answer ++ rest) t))
    = (Ok a, c') /\ stream c' = mkConn rest t' /\ att_user a = other.
Proof.
  intros Hst Hline a Hwf Hlen answer rest t. do 2 eexists. split; [|split; [|reflexivity]].
  - by apply talks_addr_reply.
  - done.
Qed.

End properties.

Section witness.
Import Toy ToyJson ToyServer.

Definition minted : MintedAddress :=
  mkMinted (fst (mint_pair (replicate 32 "r"%char) Ephemeral)) (snd (mint_pair (replicate 32 "r"%char) Ephemeral)) None.

Lemma domain_name_a : domain_name #"a.org".
Proof. repeat split; try reflexivity; try (by apply not_in_lit); vm_compute; discriminate. Qed.
Lemma domain_name_b : domain_name #"b.org".
Proof. repeat split; try reflexivity; try (by apply not_in_lit); vm_compute; discriminate. Qed.

Lemma honest_parties :
  honest #"b.org" key #"a.org" #"0123456789abcdef" 1700000000 1700000001 #"alice" #"bob" #"m-1"
    #"sealed bytes" minted #"m-1".
Proof.
  assert (Hl : forall a b : Z, (a <=? b)%Z = true -> (a <= b)%Z) by (intros a b; apply Z.leb_le).
  constructor; [exact domain_name_b | exact domain_name_a | reflexivity | | | | | | | |];
    repeat (split || (vm_compute; reflexivity) || (apply Hl; vm_compute; reflexivity) || discriminate).
Qed.

Lemma dialogue_delivers_witness :
  exists from_client from_server s' c0 c',
    run (server #"b.org" key sink directory provider) [] (mkConn from_client [])
    = Some (Ok tt, s', [mkDelivery #"alice@a.org" #"m-1" #"bob@b.org" Sealed #"sealed bytes"],
            mkConn [] from_server)
    /\ connect (mkConn from_server []) #"a.org" = (Ok c0, stream c0)
    /\ send_invoice_over #"0123456789abcdef" 1700000000 1700000001 #"alice" #"bob"
         (verifying_key key) #"m-1" Sealed #"sealed bytes" c0 = (Ok tt, c')
    /\ stream c' = mkConn [] from_client /\ cl_state c' = Addressed.
Proof.
  apply (dialogue_delivers #"b.org" key sink directory provider #"a.org" #"0123456789abcdef"
           1700000000 1700000001 #"alice" #"bob" #"m-1" Sealed #"sealed bytes" minted #"m-1"
           [] [] []).
  - exact honest_parties.
  - reflexivity.
  - reflexivity.
  - reflexivity.
Defined.

(** A client about to authenticate, and a challenge of another sender. *)
Definition awaiting : ZsmptClient :=
  mkClient (mkConn [] []) ClAwaitingAuth #"a.org" #"b.org" None.
Definition old_challenge : Challenge :=
  mkChallenge #"b.org" #"a.org" #"fedcba9876543210" 1699999900.

Lemma authenticate_accepts_replay_witness :
  exists inp t',
    authenticate #"0123456789abcdef" 1700000000 1700000001 (verifying_key key)
      (set_stream awaiting (mkConn (inp ++ []) []))
    = (Ok tt, set_stream (set_cl_state ClAuthenticated awaiting) (mkConn [] t')).
Proof.
  eexists.
  refine (authenticate_accepts_replay #"0123456789abcdef" 1700000000 1700000001 key old_challenge
            awaiting eq_refl _ _ domain_name_b domain_name_a _ [] []).
  - vm_compute. discriminate.
  - split; [reflexivity|]. vm_compute. split; discriminate.
  - vm_compute. split; discriminate.
Defined.

Definition authenticated : ZsmptClient := set_cl_state ClAuthenticated awaiting.

Lemma address_of_other_user_witness :
  exists inp a t' c',
    request_address #"bob" Ephemeral (verifying_key key) (set_stream authenticated (mkConn (inp ++ []) []))
    = (Ok a, c') /\ stream c' = mkConn [] t' /\ att_user a = #"mallory".
Proof.
  do 2 eexists.
  refine (address_of_other_user #"bob" #"mallory" Ephemeral #"taddr-0" #"00" key authenticated
            eq_refl _ _ _ [] []).
  - vm_compute. discriminate.
  - split; [reflexivity|]. split; [reflexivity|]. split; reflexivity.
  - vm_compute. discriminate.
Defined.


End witness.
