(* ===== verification/MailStore.v ===== *)
(** * The mail store's data and passwords ([talk-mailstore/src/lib.rs], [password.rs]) *)

From S2P Require Export RustStr.

Definition INBOX : str := #"INBOX".
Definition SENT : str := #"Sent".

Record User := mkUser {
  user_id : Z;
  user_username : str;
  user_master_pubkey : str;
  user_ivk_commitment : option str;
  user_registration_attestation : option str;
}.

Record UserSummary := mkUserSummary {
  us_id : Z;
  us_username : str;
  us_created_at : Z;
  us_has_ivk : bool;
  us_has_attestation : bool;
}.

Inductive TxDirection := In | Out.
#[export] Instance TxDirection_eq_dec : EqDecision TxDirection.
Proof. solve_decision. Defined.
Definition dir_as_str (d : TxDirection) : str := match d with In => #"in" | Out => #"out" end.
Definition dir_parse (s : str) : option TxDirection :=
  if s ≟ #"in" then Some In else if s ≟ #"out" then Some Out else None.

Inductive TxState := Opaque | Resolved | Spent | Sent | Failed | Retrying.
#[export] Instance TxState_eq_dec : EqDecision TxState.
Proof. solve_decision. Defined.
Definition txstate_as_str (x : TxState) : str :=
  match x with
  | Opaque => #"opaque" | Resolved => #"resolved" | Spent => #"spent"
  | Sent => #"sent" | Failed => #"failed" | Retrying => #"retrying"
  end.
Definition txstate_parse (s : str) : option TxState :=
  if s ≟ #"opaque" then Some Opaque
  else if s ≟ #"resolved" then Some Resolved
  else if s ≟ #"spent" then Some Spent
  else if s ≟ #"sent" then Some Sent
  else if s ≟ #"failed" then Some Failed
  else if s ≟ #"retrying" then Some Retrying
  else None.

Record NewTransaction := mkNewTx {
  nt_direction : TxDirection;
  nt_state : TxState;
  nt_sender_mailbox : str;
  nt_recipient_mailbox : str;
  nt_amount : str;
  nt_binding : option str;
  nt_message_id : str;
  nt_outbound_body : option str;
  nt_payload : str;
}.

Record Transaction := mkTx {
  tx_id : Z;
  tx_direction : TxDirection;
  tx_state : TxState;
  tx_sender_mailbox : str;
  tx_recipient_mailbox : str;
  tx_amount : str;
  tx_binding : option str;
  tx_message_id : str;
  tx_message_row_id : option Z;
  tx_outbound_body : option str;
  tx_payload : str;
  tx_created_at : Z;
  tx_updated_at : Z;
}.

Record KeyringEntry := mkKeyringEntry {
  ke_sender_mailbox : str;
  ke_sender_pubkey : str;
  ke_state : str;
  ke_first_seen : Z;
}.

Record ShareEntry := mkShareEntry { se_share_id : str; se_wrapped_dk : str; se_revoked : bool }.

(** [MessageFlags], a [u32] bit mask. *)
Definition SEEN : Z := Z.shiftl 1 0.
Definition ANSWERED : Z := Z.shiftl 1 1.
Definition FLAGGED : Z := Z.shiftl 1 2.
Definition DELETED : Z := Z.shiftl 1 3.
Definition flags_contains (bits flag : Z) : bool := negb (Z.land bits flag =? 0)%Z.
Definition flags_insert (bits flag : Z) : Z := Z.lor bits flag.
Definition flags_remove (bits flag : Z) : Z := Z.land bits (Z.lxor u32_max flag).
Definition is_seen (bits : Z) : bool := flags_contains bits SEEN.
Definition is_deleted (bits : Z) : bool := flags_contains bits DELETED.

Record MessageMeta := mkMeta {
  meta_id : Z;
  meta_message_id : str;
  meta_uid : Z;
  meta_uidvalidity : Z;
  meta_internaldate : Z;
  meta_flags : Z;
  meta_subject : str;
  meta_size : Z;
  meta_sender : str;
  meta_trust_state : str;
  meta_tx_state : option str;
  meta_tx_id : option Z;
}.
Record Message := mkMessage { msg_meta : MessageMeta; msg_body : str }.

Record NewMessage := mkNewMessage {
  nm_message_id : str;
  nm_subject : str;
  nm_body : str;
  nm_flags : Z;
  nm_sender : str;
  nm_trust_state : str;
}.
(** [NewMessage::invoice]. *)
Definition new_invoice (message_id subject body : str) : NewMessage :=
  mkNewMessage message_id subject body 0 [] #"unverified".

(** A login name is a bare local part or is qualified with the local domain. *)
Definition local_username (login local_domain : str) : option str :=
  let login := trim login in
  if login ≟ [] then None
  else match split_once b_at login with
       | None => Some login
       | Some (local, dom) =>
           if local ≟ [] then None
           else if eq_ignore_ascii_case dom local_domain then Some local
           else None
       end.

(** What SQLite reports: a violated constraint, or the statement failed. *)
Inductive SqlError := UniqueViolation | ForeignKeyViolation | TransactionState | SqlFailure.
#[export] Instance SqlError_eq_dec : EqDecision SqlError.
Proof. solve_decision. Defined.
Inductive StoreError :=
  | UserNotFound (name : str)
  | UserIdNotFound (id : Z)
  | MailboxNotFound
  | MessageNotFound
  | DuplicateMessage (message_id : str)
  | Storage (e : SqlError)
  | StoreIo
  | Poisoned.
#[export] Instance StoreError_eq_dec : EqDecision StoreError.
Proof. solve_decision. Defined.

(** The texts of the errors of SQLite and of the operating system. *)
Class ErrorTexts := { io_text : str; sql_text : SqlError -> str }.

Definition store_error_str `{ErrorTexts} (e : StoreError) : str :=
  match e with
  | UserNotFound n => #"user " ++ n ++ #" not found"
  | UserIdNotFound i => #"user id " ++ show_Z i ++ #" not found"
  | MailboxNotFound => #"mailbox not found"
  | MessageNotFound => #"message not found"
  | DuplicateMessage m => #"duplicate message id " ++ m
  | Storage e => #"storage: " ++ sql_text e
  | StoreIo => #"io: " ++ io_text
  | Poisoned => #"internal lock poisoned"
  end.

(** ** Lemmas *)

Lemma dir_parse_as_str d : dir_parse (dir_as_str d) = Some d.
Proof. by destruct d. Qed.
Lemma txstate_parse_as_str x : txstate_parse (txstate_as_str x) = Some x.
Proof. by destruct x. Qed.
Lemma dir_as_str_inj d e : dir_as_str d = dir_as_str e -> d = e.
Proof. by destruct d, e. Qed.

(** An accepted login is never qualified with a foreign domain. *)
Lemma local_username_Some login dom u :
  local_username login dom = Some u ->
  u <> [] /\ (b_at ∉ u) /\
  (trim login = u \/ exists d, trim login = u ++ b_at :: d /\ eq_ignore_ascii_case d dom = true).
Proof.
  unfold local_username. case_bool_decide as Hn; [done|].
  destruct (split_once b_at (trim login)) as [[local d]|] eqn:E.
  - case_bool_decide; [done|]. destruct (eq_ignore_ascii_case d dom) eqn:Ed; [|done].
    intros [= <-]. apply split_once_Some in E as [E Hx]. eauto 10.
  - intros [= <-]. split; [done|]. split; [|by left].
    clear Hn. revert E. generalize (trim login). intros s. induction s as [|x s IH]; [intros _; apply not_elem_of_nil|].
    cbn. case_bool_decide; [done|]. destruct (split_once b_at s) as [[??]|]; [done|].
    intros _. apply not_elem_of_cons. split; [naive_solver|]. by apply IH.
Qed.

(** ** Password hashing ([password.rs]) *)

Class Argon2 := {
  (** hash with a salt: the PHC string *)
  argon2_hash : str -> str -> result str str;
  (** [PasswordHash::new] accepts the string *)
  phc_parses : str -> bool;
  (** [verify_password(..).is_ok()] on a string that parses *)
  argon2_verify : str -> str -> bool;
}.
Class Argon2Laws `{Argon2} : Prop := {
  argon2_roundtrip : forall salt pw h, argon2_hash salt pw = Ok h ->
    phc_parses h = true /\ argon2_verify pw h = true;
}.

Section password.
Context `{Argon2}.
Definition hash_password (salt password : str) : result str str := argon2_hash salt password.
Definition verify_password (password hash : str) : result unit bool :=
  if phc_parses hash then Ok (argon2_verify password hash) else Err tt.
End password.
