(* ===== verification/Sqlite.v ===== *)
(** * The SQLite store ([talk-mailstore/src/sqlite.rs])

    The database is a record of tables, a table a list of rows in rowid order.
    Each SQL statement of the source is a function on the database that may fail
    with a constraint violation and then changes nothing.  A store is a
    connection: the database it sees, the snapshot of an open transaction, and
    the statements that are going to fail for a reason outside the database.
    Every method takes the time it reads from the clock as an argument. *)

From S2P Require Export MailStore.

(** ** Tables *)

Record user_row := mkUserRow {
  u_id : Z; u_username : str; u_password_hash : str; u_master_pubkey : str;
  u_created_at : Z; u_ivk_commitment : option str; u_registration_attestation : option str
}.
Record keyring_row := mkKeyringRow {
  k_user_id : Z; k_sender_mailbox : str; k_sender_pubkey : str; k_attestation : str;
  k_state : str; k_first_seen : Z
}.
Record share_row := mkShareRow { s_user_id : Z; s_share_id : str; s_wrapped_dk : str; s_revoked : Z }.
Record mailbox_row := mkMailboxRow {
  mb_id : Z; mb_user_id : Z; mb_name : str; mb_uidvalidity : Z; mb_uidnext : Z
}.
Record message_row := mkMessageRow {
  ms_id : Z; ms_mailbox_id : Z; ms_message_id : str; ms_uid : Z; ms_internaldate : Z;
  ms_flags : Z; ms_subject : str; ms_size : Z; ms_body : str; ms_sender : str; ms_trust_state : str
}.
Record tx_row := mkTxRow {
  t_id : Z; t_direction : str; t_state : str; t_sender_mailbox : str; t_recipient_mailbox : str;
  t_amount : str; t_binding : option str; t_message_id : str; t_message_row_id : option Z;
  t_outbound_body : option str; t_payload : str; t_created_at : Z; t_updated_at : Z
}.

(** The schema of [init_schema]. *)
Record Db := mkDb {
  users : list user_row;
  keyring_entries : list keyring_row;
  shares : list share_row;
  mailboxes : list mailbox_row;
  messages : list message_row;
  settings : list (str * str);
  transactions : list tx_row;
}.
Definition empty_db : Db := mkDb [] [] [] [] [] [] [].

Definition set_users (d : Db) x := mkDb x (keyring_entries d) (shares d) (mailboxes d) (messages d) (settings d) (transactions d).
Definition set_keyring (d : Db) x := mkDb (users d) x (shares d) (mailboxes d) (messages d) (settings d) (transactions d).
Definition set_shares (d : Db) x := mkDb (users d) (keyring_entries d) x (mailboxes d) (messages d) (settings d) (transactions d).
Definition set_mailboxes (d : Db) x := mkDb (users d) (keyring_entries d) (shares d) x (messages d) (settings d) (transactions d).
Definition set_messages (d : Db) x := mkDb (users d) (keyring_entries d) (shares d) (mailboxes d) x (settings d) (transactions d).
Definition set_settings (d : Db) x := mkDb (users d) (keyring_entries d) (shares d) (mailboxes d) (messages d) x (transactions d).
Definition set_transactions (d : Db) x := mkDb (users d) (keyring_entries d) (shares d) (mailboxes d) (messages d) (settings d) x.

(** ** Statements *)

(** The rowid SQLite gives to a new row: some id that is not in use. *)
Class RowIds := { next_rowid : list Z -> Z }.
Class RowIdsLaws `{RowIds} : Prop := { next_rowid_fresh : forall ids, next_rowid ids ∉ ids }.

(** The usual rule: one more than the largest in use. *)
Definition max_rowid (ids : list Z) : Z := (1 + foldr Z.max 0 ids)%Z.

Abbreviation stmt A := (Db -> result SqlError (A * Db)).

(** [UPDATE t SET ... WHERE p]: the rows and how many were changed. *)
Definition update_where {R} (p : R -> bool) (f : R -> R) (rows : list R) : list R :=
  map (fun r => if p r then f r else r) rows.
Definition count_where {R} (p : R -> bool) (rows : list R) : nat := length (filter (fun r => p r = true) rows).
Definition delete_where {R} (p : R -> bool) (rows : list R) : list R :=
  filter (fun r => p r = false) rows.
Definition select {R} (p : R -> bool) (rows : list R) : list R := filter (fun r => p r = true) rows.
Definition exists_row {R} (p : R -> bool) (rows : list R) : bool := existsb p rows.

(** [LIKE]: [%] is any sequence and [_] any one character; ASCII letters match
    without regard to case. *)
Fixpoint like_chars (pat s : list str) : bool :=
  match pat with
  | [] => match s with [] => true | _ => false end
  | p :: ps =>
      if p ≟ #"%" then
        (fix any (s : list str) : bool :=
           like_chars ps s || match s with [] => false | _ :: r => any r end) s
      else
        match s with
        | [] => false
        | c :: cs => ((p ≟ #"_") || eq_ignore_ascii_case p c) && like_chars ps cs
        end
  end.
Definition like (pat s : str) : bool := like_chars (chars pat) (chars s).

(** The order of [ORDER BY] on text: byte by byte. *)
Fixpoint str_le (a b : str) : bool :=
  match a, b with
  | [], _ => true
  | _ :: _, [] => false
  | x :: a', y :: b' => (byte x <? byte y)%Z || ((byte x =? byte y)%Z && str_le a' b')
  end.

(** ** The connection *)

Record Store := mkStore { db : Db; saved : option Db; faults : list bool }.

Abbreviation M A := (st Store StoreError A).

(** One statement: it fails if it is the turn of a fault; a failed statement
    leaves the database alone. *)
Definition exec {A} (q : stmt A) : M A := fun s =>
  match faults s with
  | true :: fs => (Err (Storage SqlFailure), mkStore (db s) (saved s) fs)
  | fs =>
      match q (db s) with
      | Ok (a, d) => (Ok a, mkStore d (saved s) (tail fs))
      | Err e => (Err (Storage e), mkStore (db s) (saved s) (tail fs))
      end
  end.

(** [BEGIN], [COMMIT], [ROLLBACK]. *)
Definition begin_tx : M unit := fun s =>
  match faults s with
  | true :: fs => (Err (Storage SqlFailure), mkStore (db s) (saved s) fs)
  | fs => match saved s with
          | Some _ => (Err (Storage TransactionState), mkStore (db s) (saved s) (tail fs))
          | None => (Ok tt, mkStore (db s) (Some (db s)) (tail fs))
          end
  end.
Definition commit_tx : M unit := fun s =>
  match faults s with
  | true :: fs => (Err (Storage SqlFailure), mkStore (db s) (saved s) fs)
  | fs => match saved s with
          | Some _ => (Ok tt, mkStore (db s) None (tail fs))
          | None => (Err (Storage TransactionState), mkStore (db s) (saved s) (tail fs))
          end
  end.
Definition rollback_tx : M unit := fun s =>
  match faults s with
  | true :: fs => (Err (Storage SqlFailure), mkStore (db s) (saved s) fs)
  | fs => match saved s with
          | Some d => (Ok tt, mkStore d None (tail fs))
          | None => (Err (Storage TransactionState), mkStore (db s) (saved s) (tail fs))
          end
  end.

(** What a crash now would leave on disk. *)
Definition durable (s : Store) : Db := default (db s) (saved s).

Definition query {A} (f : Db -> A) : M A := exec (fun d => Ok (f d, d)).
Definition execute (f : Db -> result SqlError Db) : M unit :=
  exec (fun d => match f d with Ok d' => Ok (tt, d') | Err e => Err e end).
(** An UPDATE or DELETE that reports the number of rows. *)
Definition execute_n (f : Db -> nat * Db) : M nat := exec (fun d => Ok (f d)).

Section store.
Context `{RowIds}.

(** ** Users *)

Definition insert_user (username password_hash master_pubkey : str) (now : Z) : stmt Z := fun d =>
  if exists_row (fun r => u_username r ≟ username) (users d) then Err UniqueViolation
  else
    let id := next_rowid (map u_id (users d)) in
    Ok (id, set_users d (users d ++ [mkUserRow id username password_hash master_pubkey now None None])).

Definition with_ivk (v : option str) (r : user_row) : user_row :=
  mkUserRow (u_id r) (u_username r) (u_password_hash r) (u_master_pubkey r) (u_created_at r)
    v (u_registration_attestation r).
Definition with_registration (v : option str) (r : user_row) : user_row :=
  mkUserRow (u_id r) (u_username r) (u_password_hash r) (u_master_pubkey r) (u_created_at r)
    (u_ivk_commitment r) v.
Definition with_password (v : str) (r : user_row) : user_row :=
  mkUserRow (u_id r) (u_username r) v (u_master_pubkey r) (u_created_at r)
    (u_ivk_commitment r) (u_registration_attestation r).

Definition update_users (p : user_row -> bool) (f : user_row -> user_row) : M nat :=
  execute_n (fun d => (count_where p (users d), set_users d (update_where p f (users d)))).

Definition insert_mailbox (user_id : Z) (name : str) (uidvalidity : Z) : stmt unit := fun d =>
  if exists_row (fun r => (mb_user_id r =? user_id)%Z && (mb_name r ≟ name)) (mailboxes d)
  then Err UniqueViolation
  else if negb (exists_row (fun r => u_id r =? user_id)%Z (users d)) then Err ForeignKeyViolation
  else
    let id := next_rowid (map mb_id (mailboxes d)) in
    Ok (tt, set_mailboxes d (mailboxes d ++ [mkMailboxRow id user_id name uidvalidity 1])).

Definition create_user_full (now : Z) (username password_hash master_pubkey : str)
    (ivk_commitment registration_attestation : option str) : M User :=
  uid ← exec (insert_user username password_hash master_pubkey now);
  _ ← (match ivk_commitment with
       | Some ivk => _ ← update_users (fun r => u_id r =? uid)%Z (with_ivk (Some ivk)); mret tt
       | None => mret tt end);
  _ ← (match registration_attestation with
       | Some r => _ ← update_users (fun x => u_id x =? uid)%Z (with_registration (Some r)); mret tt
       | None => mret tt end);
  let uidvalidity := wrap 32 now in
  _ ← exec (insert_mailbox uid INBOX uidvalidity);
  _ ← exec (insert_mailbox uid SENT uidvalidity);
  mret (mkUser uid username master_pubkey ivk_commitment registration_attestation).

Definition create_user (now : Z) (username password_hash master_pubkey : str) : M User :=
  create_user_full now username password_hash master_pubkey None None.

Definition row_to_user (r : user_row) : User :=
  mkUser (u_id r) (u_username r) (u_master_pubkey r) (u_ivk_commitment r)
    (u_registration_attestation r).

Definition get_user (username : str) : M (option User) :=
  query (fun d => row_to_user <$> head (select (fun r => u_username r ≟ username) (users d))).

Definition password_hash (username : str) : M (option str) :=
  query (fun d => u_password_hash <$> head (select (fun r => u_username r ≟ username) (users d))).

Definition list_users : M (list UserSummary) :=
  query (fun d =>
    map (fun r => mkUserSummary (u_id r) (u_username r) (u_created_at r)
                    (bool_decide (is_Some (u_ivk_commitment r)))
                    (bool_decide (is_Some (u_registration_attestation r))))
      (sort_by (fun a b => str_le (u_username a) (u_username b)) (users d))).

(** An UPDATE or DELETE that must have found a row. *)
Definition found (n : nat) (e : StoreError) : M unit :=
  if n ≟ 0%nat then raise e else mret tt.

Definition set_password (username password_hash : str) : M unit :=
  n ← update_users (fun r => u_username r ≟ username) (with_password password_hash);
  found n (UserNotFound username).

Definition set_ivk (username : str) (ivk_commitment : option str) : M unit :=
  n ← update_users (fun r => u_username r ≟ username) (with_ivk ivk_commitment);
  found n (UserNotFound username).

(** *** Deleting a user *)

Definition owned_mailboxes (uid : Z) (d : Db) : list Z :=
  map mb_id (select (fun r => mb_user_id r =? uid)%Z (mailboxes d)).
Definition owned_messages (uid : Z) (d : Db) : list Z :=
  map ms_id (select (fun r => bool_decide (ms_mailbox_id r ∈ owned_mailboxes uid d)) (messages d)).

Definition delete_keyring (uid : Z) : M unit :=
  execute (fun d => Ok (set_keyring d (delete_where (fun r => k_user_id r =? uid)%Z (keyring_entries d)))).
Definition delete_shares (uid : Z) : M unit :=
  execute (fun d => Ok (set_shares d (delete_where (fun r => s_user_id r =? uid)%Z (shares d)))).
Definition delete_transactions (uid : Z) (pattern : str) : M unit :=
  execute (fun d => Ok (set_transactions d (delete_where (fun r =>
    match t_message_row_id r with
    | Some i => bool_decide (i ∈ owned_messages uid d)
    | None => false
    end || like pattern (t_sender_mailbox r)) (transactions d)))).
Definition delete_messages (uid : Z) : M unit :=
  execute (fun d => Ok (set_messages d (delete_where (fun r =>
    bool_decide (ms_mailbox_id r ∈ owned_mailboxes uid d)) (messages d)))).
(** The rows that refer to a deleted row make the statement fail. *)
Definition delete_mailboxes (uid : Z) : M unit :=
  execute (fun d =>
    let keep := delete_where (fun r => mb_user_id r =? uid)%Z (mailboxes d) in
    if exists_row (fun m => bool_decide (ms_mailbox_id m ∈ owned_mailboxes uid d)) (messages d)
    then Err ForeignKeyViolation else Ok (set_mailboxes d keep)).
Definition delete_users (uid : Z) : M unit :=
  execute (fun d =>
    if exists_row (fun r => k_user_id r =? uid)%Z (keyring_entries d)
       || exists_row (fun r => s_user_id r =? uid)%Z (shares d)
       || exists_row (fun r => mb_user_id r =? uid)%Z (mailboxes d)
    then (if exists_row (fun r => u_id r =? uid)%Z (users d) then Err ForeignKeyViolation else Ok d)
    else Ok (set_users d (delete_where (fun r => u_id r =? uid)%Z (users d)))).

(** The body of the transaction. *)
Definition delete_owned (u : User) : M unit :=
  _ ← delete_keyring (user_id u);
  _ ← delete_shares (user_id u);
  _ ← delete_transactions (user_id u) (user_username u ++ #"@%");
  _ ← delete_messages (user_id u);
  _ ← delete_mailboxes (user_id u);
  delete_users (user_id u).

Definition delete_user (username : str) : M unit :=
  user ← get_user username;
  match user with
  | None => raise (UserNotFound username)
  | Some u =>
      _ ← begin_tx;
      try_with (delete_owned u)
        (fun _ => commit_tx)
        (fun e => try_with rollback_tx (fun _ => raise e) (fun _ => raise e))
  end.

(** ** The transaction ledger *)

Definition row_to_tx (r : tx_row) : Transaction :=
  mkTx (t_id r) (default In (dir_parse (t_direction r))) (default Opaque (txstate_parse (t_state r)))
    (t_sender_mailbox r) (t_recipient_mailbox r) (t_amount r) (t_binding r) (t_message_id r)
    (t_message_row_id r) (t_outbound_body r) (t_payload r) (t_created_at r) (t_updated_at r).

Definition insert_tx (now : Z) (t : NewTransaction) : stmt Z := fun d =>
  if exists_row (fun r => (t_direction r ≟ dir_as_str (nt_direction t))
                          && (t_message_id r ≟ nt_message_id t)) (transactions d)
  then Err UniqueViolation
  else
    let id := next_rowid (map t_id (transactions d)) in
    Ok (id, set_transactions d (transactions d ++
      [mkTxRow id (dir_as_str (nt_direction t)) (txstate_as_str (nt_state t)) (nt_sender_mailbox t)
         (nt_recipient_mailbox t) (nt_amount t) (nt_binding t) (nt_message_id t) None
         (nt_outbound_body t) (nt_payload t) now now])).

Definition tx_create (now : Z) (t : NewTransaction) : M Transaction :=
  id ← exec (insert_tx now t);
  mret (mkTx id (nt_direction t) (nt_state t) (nt_sender_mailbox t) (nt_recipient_mailbox t)
          (nt_amount t) (nt_binding t) (nt_message_id t) None (nt_outbound_body t) (nt_payload t)
          now now).

Definition with_tx (f : tx_row -> tx_row) (id : Z) : M nat :=
  execute_n (fun d => (count_where (fun r => t_id r =? id)%Z (transactions d),
    set_transactions d (update_where (fun r => t_id r =? id)%Z f (transactions d)))).

Definition tx_with_link (row_id now : Z) (r : tx_row) : tx_row :=
  mkTxRow (t_id r) (t_direction r) (t_state r) (t_sender_mailbox r) (t_recipient_mailbox r)
    (t_amount r) (t_binding r) (t_message_id r) (Some row_id) (t_outbound_body r) (t_payload r)
    (t_created_at r) now.
Definition tx_with_state (x : TxState) (now : Z) (r : tx_row) : tx_row :=
  mkTxRow (t_id r) (t_direction r) (txstate_as_str x) (t_sender_mailbox r) (t_recipient_mailbox r)
    (t_amount r) (t_binding r) (t_message_id r) (t_message_row_id r) (t_outbound_body r)
    (t_payload r) (t_created_at r) now.
Definition tx_with_binding (b : option str) (now : Z) (r : tx_row) : tx_row :=
  mkTxRow (t_id r) (t_direction r) (t_state r) (t_sender_mailbox r) (t_recipient_mailbox r)
    (t_amount r) b (t_message_id r) (t_message_row_id r) (t_outbound_body r) (t_payload r)
    (t_created_at r) now.

Definition tx_link_message (now tx_id message_row_id : Z) : M unit :=
  _ ← with_tx (tx_with_link message_row_id now) tx_id; mret tt.

Definition tx_get (id : Z) : M (option Transaction) :=
  query (fun d => row_to_tx <$> head (select (fun r => t_id r =? id)%Z (transactions d))).

Definition tx_by_message_id (direction : TxDirection) (message_id : str) : M (option Transaction) :=
  query (fun d => row_to_tx <$> head (select (fun r =>
    (t_direction r ≟ dir_as_str direction) && (t_message_id r ≟ message_id)) (transactions d))).

Definition tx_list (direction : option TxDirection) (state : option TxState) : M (list Transaction) :=
  query (fun d => map row_to_tx
    (sort_by (fun a b => (t_id b <=? t_id a)%Z)
       (select (fun r =>
          match direction with Some x => t_direction r ≟ dir_as_str x | None => true end
          && match state with Some x => t_state r ≟ txstate_as_str x | None => true end)
          (transactions d)))).

Definition tx_transition (now id : Z) (state : TxState) : M unit :=
  n ← with_tx (tx_with_state state now) id; found n (UserNotFound (show_Z id)).

Definition tx_set_binding (now id : Z) (binding : option str) : M unit :=
  n ← with_tx (tx_with_binding binding now) id; found n (UserNotFound (show_Z id)).

(** ** Keyring *)

Definition keyring_key (uid : Z) (sender : str) (r : keyring_row) : bool :=
  (k_user_id r =? uid)%Z && (k_sender_mailbox r ≟ sender).

(** [INSERT ... ON CONFLICT(user_id, sender_mailbox) DO UPDATE]. *)
Definition upsert_keyring (uid : Z) (sender pubkey att : str) (now : Z) : stmt unit := fun d =>
  if negb (exists_row (fun r => u_id r =? uid)%Z (users d)) then Err ForeignKeyViolation
  else if exists_row (keyring_key uid sender) (keyring_entries d) then
    Ok (tt, set_keyring d (update_where (keyring_key uid sender)
      (fun r => mkKeyringRow uid sender pubkey att #"trusted" (k_first_seen r)) (keyring_entries d)))
  else Ok (tt, set_keyring d (keyring_entries d ++ [mkKeyringRow uid sender pubkey att #"trusted" now])).

Definition keyring_set_trusted (now uid : Z) (sender_mailbox sender_pubkey attestation : str) : M unit :=
  exec (upsert_keyring uid sender_mailbox sender_pubkey attestation now).

Definition keyring_sender_key (uid : Z) (sender_mailbox : str) : M (option str) :=
  query (fun d => k_sender_pubkey <$> head (select (fun r =>
    keyring_key uid sender_mailbox r && (k_state r ≟ #"trusted")) (keyring_entries d))).

Definition list_keyring (uid : Z) : M (list KeyringEntry) :=
  query (fun d => map (fun r => mkKeyringEntry (k_sender_mailbox r) (k_sender_pubkey r) (k_state r) (k_first_seen r))
    (sort_by (fun a b => (k_first_seen a <=? k_first_seen b)%Z)
       (select (fun r => k_user_id r =? uid)%Z (keyring_entries d)))).

Definition unpin_keyring (uid : Z) (sender_mailbox : str) : M unit :=
  n ← execute_n (fun d => (count_where (keyring_key uid sender_mailbox) (keyring_entries d),
        set_keyring d (delete_where (keyring_key uid sender_mailbox) (keyring_entries d))));
  found n (UserNotFound sender_mailbox).

(** ** Messages *)

Definition mailbox_named (uid : Z) (name : str) : M (Z * Z * Z) :=
  r ← query (fun d => head (select (fun r => (mb_user_id r =? uid)%Z && (mb_name r ≟ name)) (mailboxes d)));
  match r with
  | Some r => mret (mb_id r, mb_uidvalidity r, mb_uidnext r)
  | None => raise MailboxNotFound
  end.

Definition message_key (mailbox_id : Z) (message_id : str) (r : message_row) : bool :=
  (ms_mailbox_id r =? mailbox_id)%Z && (ms_message_id r ≟ message_id).

Definition insert_message (mailbox_id uid now : Z) (msg : NewMessage) : stmt Z := fun d =>
  if exists_row (message_key mailbox_id (nm_message_id msg)) (messages d) then Err UniqueViolation
  else if negb (exists_row (fun r => mb_id r =? mailbox_id)%Z (mailboxes d)) then Err ForeignKeyViolation
  else
    let id := next_rowid (map ms_id (messages d)) in
    Ok (id, set_messages d (messages d ++
      [mkMessageRow id mailbox_id (nm_message_id msg) uid now (nm_flags msg) (nm_subject msg)
         (Z.of_nat (length (nm_body msg))) (nm_body msg) (nm_sender msg) (nm_trust_state msg)])).

Definition bump_uidnext (r : mailbox_row) : mailbox_row :=
  mkMailboxRow (mb_id r) (mb_user_id r) (mb_name r) (mb_uidvalidity r) (mb_uidnext r + 1).
Definition bump_mailbox (mailbox_id : Z) (d : Db) : Db :=
  set_mailboxes d (update_where (fun r => mb_id r =? mailbox_id)%Z bump_uidnext (mailboxes d)).

(** What [append_message_to] does once it has looked up the mailbox: the part
    under the second lock. *)
Definition append_locked (now : Z) (box : Z * Z * Z) (msg : NewMessage) : M MessageMeta :=
  let '(mailbox_id, uidvalidity, uid) := box in
  n ← query (fun d => count_where (message_key mailbox_id (nm_message_id msg)) (messages d));
  if (0 <? n)%nat then raise (DuplicateMessage (nm_message_id msg))
  else
    id ← exec (insert_message mailbox_id uid now msg);
    _ ← execute (fun d => Ok (bump_mailbox mailbox_id d));
    mret (mkMeta id (nm_message_id msg) (wrap 32 uid) uidvalidity now (nm_flags msg)
            (nm_subject msg) (Z.of_nat (length (nm_body msg))) (nm_sender msg) (nm_trust_state msg)
            None None).

Definition append_message_to (now uid : Z) (mailbox : str) (msg : NewMessage) : M MessageMeta :=
  box ← mailbox_named uid mailbox; append_locked now box msg.
Definition append_message (now uid : Z) (msg : NewMessage) : M MessageMeta :=
  append_message_to now uid INBOX msg.

(** A message row joined with a transaction that points at it. *)
Definition row_to_meta (uidvalidity : Z) (r : message_row) (t : option tx_row) : MessageMeta :=
  mkMeta (ms_id r) (ms_message_id r) (wrap 32 (ms_uid r)) uidvalidity (wrap 64 (ms_internaldate r))
    (if ((0 <=? ms_flags r) && (ms_flags r <=? u32_max))%Z then ms_flags r else 0%Z)
    (ms_subject r) (wrap 64 (ms_size r)) (ms_sender r) (ms_trust_state r)
    (t_state <$> t) (t_id <$> t).

(** [messages m LEFT JOIN transactions t ON t.message_row_id = m.id]. *)
Definition left_join (d : Db) (r : message_row) : list (message_row * option tx_row) :=
  match select (fun t => t_message_row_id t ≟ Some (ms_id r)) (transactions d) with
  | [] => [(r, None)]
  | ts => map (fun t => (r, Some t)) ts
  end.

Definition list_messages_in (uid : Z) (mailbox : str) : M (list MessageMeta) :=
  box ← mailbox_named uid mailbox;
  let '(mailbox_id, uidvalidity, _) := box in
  query (fun d => map (fun '(r, t) => row_to_meta uidvalidity r t)
    (sort_by (fun a b => (ms_uid (fst b) <=? ms_uid (fst a))%Z)
       (select (fun r => ms_mailbox_id r =? mailbox_id)%Z (messages d) ≫= left_join d))).
Definition list_messages (uid : Z) : M (list MessageMeta) := list_messages_in uid INBOX.

Definition uidnext_in (uid : Z) (mailbox : str) : M Z :=
  box ← mailbox_named uid mailbox; let '(_, _, n) := box in mret (wrap 32 n).
Definition uidnext (uid : Z) : M Z := uidnext_in uid INBOX.

Definition fetch_message_in (uid : Z) (mailbox : str) (message_id : Z) : M Message :=
  box ← mailbox_named uid mailbox;
  let '(mailbox_id, uidvalidity, _) := box in
  r ← query (fun d => head
        (select (fun r => (ms_mailbox_id r =? mailbox_id)%Z && (ms_id r =? message_id)%Z) (messages d)
           ≫= left_join d));
  match r with
  | Some (r, t) => mret (mkMessage (row_to_meta uidvalidity r t) (ms_body r))
  | None => raise MessageNotFound
  end.
Definition fetch_message (uid message_id : Z) : M Message := fetch_message_in uid INBOX message_id.

Definition with_flags (f : Z -> Z) (r : message_row) : message_row :=
  mkMessageRow (ms_id r) (ms_mailbox_id r) (ms_message_id r) (ms_uid r) (ms_internaldate r)
    (f (ms_flags r)) (ms_subject r) (ms_size r) (ms_body r) (ms_sender r) (ms_trust_state r).

Definition set_flags_in (uid : Z) (mailbox : str) (message_id mask : Z) (value : bool) : M unit :=
  box ← mailbox_named uid mailbox;
  let '(mailbox_id, _, _) := box in
  execute (fun d => Ok (set_messages d (update_where
    (fun r => (ms_mailbox_id r =? mailbox_id)%Z && (ms_id r =? message_id)%Z)
    (with_flags (fun f => if value then Z.lor f mask else Z.land f (Z.lnot mask)))
    (messages d)))).
Definition set_flags (uid message_id mask : Z) (value : bool) : M unit :=
  set_flags_in uid INBOX message_id mask value.

Definition deleted_in (mailbox_id : Z) (r : message_row) : bool :=
  (ms_mailbox_id r =? mailbox_id)%Z && negb (Z.land (ms_flags r) DELETED =? 0)%Z.

Definition expunge_in (uid : Z) (mailbox : str) : M (list Z) :=
  box ← mailbox_named uid mailbox;
  let '(mailbox_id, _, _) := box in
  uids ← query (fun d => map (fun r => wrap 32 (ms_uid r))
           (sort_by (fun a b => (ms_uid a <=? ms_uid b)%Z) (select (deleted_in mailbox_id) (messages d))));
  _ ← execute (fun d => Ok (set_messages d (delete_where (deleted_in mailbox_id) (messages d))));
  mret uids.
Definition expunge (uid : Z) : M (list Z) := expunge_in uid INBOX.

(** ** Shares and settings *)

Definition get_shares (uid : Z) : M (list (str * str)) :=
  query (fun d => map (fun r => (s_share_id r, s_wrapped_dk r))
    (select (fun r => (s_user_id r =? uid)%Z && (s_revoked r =? 0)%Z) (shares d))).

Definition share_key (uid : Z) (share_id : str) (r : share_row) : bool :=
  (s_user_id r =? uid)%Z && (s_share_id r ≟ share_id).

Definition insert_share (uid : Z) (share_id wrapped_dk : str) : stmt unit := fun d =>
  if exists_row (share_key uid share_id) (shares d) then Err UniqueViolation
  else if negb (exists_row (fun r => u_id r =? uid)%Z (users d)) then Err ForeignKeyViolation
  else Ok (tt, set_shares d (shares d ++ [mkShareRow uid share_id wrapped_dk 0])).

Definition add_share (uid : Z) (share_id wrapped_dk : str) : M unit :=
  exec (insert_share uid share_id wrapped_dk).

Definition list_shares (uid : Z) : M (list ShareEntry) :=
  query (fun d => map (fun r => mkShareEntry (s_share_id r) (s_wrapped_dk r) (negb (s_revoked r =? 0)%Z))
    (sort_by (fun a b => str_le (s_share_id a) (s_share_id b))
       (select (fun r => s_user_id r =? uid)%Z (shares d)))).

Definition revoke_share (uid : Z) (share_id : str) : M unit :=
  n ← execute_n (fun d => (count_where (share_key uid share_id) (shares d),
        set_shares d (update_where (share_key uid share_id)
          (fun r => mkShareRow (s_user_id r) (s_share_id r) (s_wrapped_dk r) 1) (shares d))));
  found n (UserNotFound share_id).

Definition get_setting (key : str) : M (option str) :=
  query (fun d => snd <$> head (select (fun r => fst r ≟ key) (settings d))).

Definition set_setting (key v : str) : M unit :=
  execute (fun d => Ok (set_settings d
    (if exists_row (fun r => fst r ≟ key) (settings d)
     then update_where (fun r => fst r ≟ key) (fun r => (fst r, v)) (settings d)
     else settings d ++ [(key, v)]))).

Definition list_settings : M (list (str * str)) :=
  query (fun d => sort_by (fun a b => str_le (fst a) (fst b)) (settings d)).

Definition delete_setting (key : str) : M unit :=
  n ← execute_n (fun d => (count_where (fun r => fst r ≟ key) (settings d),
        set_settings d (delete_where (fun r => fst r ≟ key) (settings d))));
  found n (UserNotFound key).

End store.
