(* ===== verification/SqliteFacts.v ===== *)
(** * Properties of the store

    The constraints of the schema hold after every operation whatever statements
    fail; UIDs are handed out in order and never again when nothing fails; a
    deleted user is gone completely or not at all. *)

From S2P Require Export Sqlite.

(** ** Lemmas on rows *)

Lemma exists_row_true {R} (p : R -> bool) rows :
  exists_row p rows = true <-> exists r, r ∈ rows /\ p r = true.
Proof.
  unfold exists_row. rewrite existsb_exists. split; intros (r & Hr & Hp); exists r;
    (split; [by apply list_elem_of_In|done]).
Qed.

Lemma exists_row_false {R} (p : R -> bool) rows :
  exists_row p rows = false <-> forall r, r ∈ rows -> p r = false.
Proof.
  rewrite <- not_true_iff_false, exists_row_true. split.
  - intros Hn r Hr. destruct (p r) eqn:E; [|done]. destruct Hn. eauto.
  - intros Hall (r & Hr & Hp). by rewrite Hall in Hp.
Qed.

Lemma map_update_where {R K} (g : R -> K) p f rows :
  (forall r, g (f r) = g r) -> map g (update_where p f rows) = map g rows.
Proof.
  intros Hg. unfold update_where. rewrite map_map. apply map_ext. intros r. by destruct (p r).
Qed.

Lemma elem_of_update_where {R} p f (rows : list R) r :
  r ∈ update_where p f rows <->
  exists r0, r0 ∈ rows /\ r = (if p r0 then f r0 else r0).
Proof. unfold update_where. rewrite list_elem_of_fmap. naive_solver. Qed.

Lemma elem_of_delete_where {R} p (rows : list R) r :
  r ∈ delete_where p rows <-> r ∈ rows /\ p r = false.
Proof. unfold delete_where. rewrite list_elem_of_filter. naive_solver. Qed.

Lemma elem_of_select {R} p (rows : list R) r : r ∈ select p rows <-> r ∈ rows /\ p r = true.
Proof. unfold select. rewrite list_elem_of_filter. naive_solver. Qed.

Lemma NoDup_delete_where {R K} (g : R -> K) p rows :
  NoDup (map g rows) -> NoDup (map g (delete_where p rows)).
Proof.
  intros H. eapply sublist_NoDup; [exact H|].
  apply (fmap_sublist g), sublist_filter.
Qed.

Lemma NoDup_map_app {R K} (g : R -> K) rows r :
  NoDup (map g rows) -> g r ∉ map g rows -> NoDup (map g (rows ++ [r])).
Proof.
  intros H Hn. rewrite map_app. apply NoDup_app. split; [done|]. split; [|apply NoDup_singleton].
  intros k Hk. cbn. rewrite list_elem_of_singleton. naive_solver.
Qed.

Lemma not_in_map {R K} (g : R -> K) rows k :
  (forall r, r ∈ rows -> g r <> k) -> k ∉ map g rows.
Proof. intros H (r & -> & Hr)%list_elem_of_fmap. by apply (H r). Qed.

(** The first row of a name. *)
Definition user_named (name : str) (d : Db) : option user_row :=
  head (select (fun r => u_username r ≟ name) (users d)).

(** ** The constraints of the schema *)

Record wf_db (d : Db) : Prop := {
  wf_user_id : NoDup (map u_id (users d));
  wf_username : NoDup (map u_username (users d));
  wf_keyring : NoDup (map (fun r => (k_user_id r, k_sender_mailbox r)) (keyring_entries d));
  wf_shares : NoDup (map (fun r => (s_user_id r, s_share_id r)) (shares d));
  wf_mailbox_id : NoDup (map mb_id (mailboxes d));
  wf_mailbox_name : NoDup (map (fun r => (mb_user_id r, mb_name r)) (mailboxes d));
  wf_message_row : NoDup (map ms_id (messages d));
  wf_message_id : NoDup (map (fun r => (ms_mailbox_id r, ms_message_id r)) (messages d));
  wf_settings : NoDup (map fst (settings d));
  wf_tx_id : NoDup (map t_id (transactions d));
  wf_tx_key : NoDup (map (fun r => (t_direction r, t_message_id r)) (transactions d));
  fk_keyring : forall r, r ∈ keyring_entries d -> k_user_id r ∈ map u_id (users d);
  fk_shares : forall r, r ∈ shares d -> s_user_id r ∈ map u_id (users d);
  fk_mailboxes : forall r, r ∈ mailboxes d -> mb_user_id r ∈ map u_id (users d);
  fk_messages : forall r, r ∈ messages d -> ms_mailbox_id r ∈ map mb_id (mailboxes d);
}.

(** ** Preservation, statement by statement

    [pres P m]: an operation keeps a property of the database, in the connection
    and in the snapshot of an open transaction, however it ends. *)

Section pres.
Variable P : Db -> Prop.

Definition inv (s : Store) : Prop := P (db s) /\ forall d, saved s = Some d -> P d.
Definition pres {A} (m : M A) : Prop := forall s r s', m s = (r, s') -> inv s -> inv s'.
Definition stmt_ok {A} (q : stmt A) : Prop := forall d a d', q d = Ok (a, d') -> P d -> P d'.

Lemma pres_exec {A} (q : stmt A) : stmt_ok q -> pres (exec q).
Proof.
  intros Hq s r s'. unfold exec, inv.
  assert (Hx : forall fs, match q (db s) with
    | Ok (a, d) => (Ok a, mkStore d (saved s) fs)
    | Err e => (Err (Storage e), mkStore (db s) (saved s) fs) end = (r, s') ->
    P (db s) /\ (forall d, saved s = Some d -> P d) ->
    P (db s') /\ (forall d, saved s' = Some d -> P d)).
  { intros fs. destruct (q (db s)) as [[a d]|e] eqn:E; intros [= <- <-] [Hd Hs]; [|done].
    split; [|done]. by eapply Hq. }
  destruct (faults s) as [|[] fs]; [apply Hx | by intros [= <- <-] | apply Hx].
Qed.

Lemma pres_ret {A} (x : A) : pres (mret x).
Proof. intros s r s'. by intros [= <- <-]. Qed.
Lemma pres_raise {A} e : pres (raise e : M A).
Proof. intros s r s'. by intros [= <- <-]. Qed.
Lemma pres_bind {A B} (m : M A) (f : A -> M B) : pres m -> (forall x, pres (f x)) -> pres (m ≫= f).
Proof.
  intros Hm Hf s r s'. unfold mbind, st_bind. destruct (m s) as [[x|e] s1] eqn:E.
  - intros Hr Hi. eapply Hf; [exact Hr|]. by eapply Hm.
  - intros [= _ <-] Hi. by eapply Hm.
Qed.
Lemma pres_try_with {A B} (m : M A) (f : A -> M B) (g : StoreError -> M B) :
  pres m -> (forall x, pres (f x)) -> (forall e, pres (g e)) -> pres (try_with m f g).
Proof.
  intros Hm Hf Hg s r s'. unfold try_with. destruct (m s) as [[x|e] s1] eqn:E; intros Hr Hi;
    [eapply Hf | eapply Hg]; try exact Hr; by eapply Hm.
Qed.
Lemma pres_query {A} (f : Db -> A) : pres (query f).
Proof. apply pres_exec. by intros d a d' [= _ <-]. Qed.
Lemma pres_execute f : (forall d d', f d = Ok d' -> P d -> P d') -> pres (execute f).
Proof. intros Hf. apply pres_exec. intros d a d'. destruct (f d) eqn:E; [|done]. intros [= _ <-]. by eapply Hf. Qed.
Lemma pres_execute_n f : (forall d, P d -> P (snd (f d))) -> pres (execute_n f).
Proof. intros Hf. apply pres_exec. intros d a d' [= Hx] Hd. specialize (Hf d Hd). by rewrite Hx in Hf. Qed.
Lemma pres_begin : pres begin_tx.
Proof.
  intros s r s'. unfold begin_tx, inv. destruct (faults s) as [|[] fs]; [|by intros [= _ <-]|];
    destruct (saved s) eqn:E; intros [= _ <-]; cbn; naive_solver.
Qed.
Lemma pres_commit : pres commit_tx.
Proof.
  intros s r s'. unfold commit_tx, inv. destruct (faults s) as [|[] fs]; [|by intros [= _ <-]|];
    destruct (saved s) eqn:E; intros [= _ <-]; cbn; naive_solver.
Qed.
Lemma pres_rollback : pres rollback_tx.
Proof.
  intros s r s'. unfold rollback_tx, inv. destruct (faults s) as [|[] fs]; [|by intros [= _ <-]|];
    destruct (saved s) eqn:E; intros [= _ <-]; cbn; naive_solver.
Qed.
Lemma pres_found n e : pres (found n e).
Proof. unfold found. case_bool_decide; [apply pres_raise | apply pres_ret]. Qed.

End pres.

#[export] Hint Resolve pres_ret pres_raise pres_bind pres_try_with pres_query pres_begin
  pres_commit pres_rollback pres_found : talk.

(** Changes to one table. *)
Lemma wf_update_users d p f :
  (forall r, u_id (f r) = u_id r) -> (forall r, u_username (f r) = u_username r) ->
  wf_db d -> wf_db (set_users d (update_where p f (users d))).
Proof. intros Hi Hu []. constructor; cbn; rewrite ?map_update_where by done; done. Qed.

Lemma wf_update_tx d p f :
  (forall r, t_id (f r) = t_id r) ->
  (forall r, (t_direction (f r), t_message_id (f r)) = (t_direction r, t_message_id r)) ->
  wf_db d -> wf_db (set_transactions d (update_where p f (transactions d))).
Proof.
  intros Hi Hk []. constructor; cbn; rewrite ?map_update_where by done; done.
Qed.

Lemma wf_update_messages d p f :
  (forall r, ms_id (f r) = ms_id r) -> (forall r, ms_mailbox_id (f r) = ms_mailbox_id r) ->
  (forall r, ms_message_id (f r) = ms_message_id r) ->
  wf_db d -> wf_db (set_messages d (update_where p f (messages d))).
Proof.
  intros Hi Hb Hm []. constructor; cbn; try done.
  - by rewrite map_update_where.
  - rewrite (map_update_where (fun r => (ms_mailbox_id r, ms_message_id r))); [done|].
    intros r. by rewrite Hb, Hm.
  - intros r (r0 & Hr0 & ->)%elem_of_update_where. destruct (p r0); rewrite ?Hb; auto.
Qed.

Lemma wf_update_mailboxes d p f :
  (forall r, mb_id (f r) = mb_id r) -> (forall r, mb_user_id (f r) = mb_user_id r) ->
  (forall r, mb_name (f r) = mb_name r) ->
  wf_db d -> wf_db (set_mailboxes d (update_where p f (mailboxes d))).
Proof.
  intros Hi Hb Hm []. constructor; cbn; rewrite ?map_update_where by done; try done.
  - rewrite (map_update_where (fun r => (mb_user_id r, mb_name r))); [done|].
    intros r. by rewrite Hb, Hm.
  - intros r (r0 & Hr0 & ->)%elem_of_update_where. destruct (p r0); rewrite ?Hb; auto.
Qed.

Lemma wf_delete_keyring d p : wf_db d -> wf_db (set_keyring d (delete_where p (keyring_entries d))).
Proof.
  intros []. constructor; cbn; try done; [by apply NoDup_delete_where|].
  intros r [Hr _]%elem_of_delete_where. auto.
Qed.
Lemma wf_delete_shares d p : wf_db d -> wf_db (set_shares d (delete_where p (shares d))).
Proof.
  intros []. constructor; cbn; try done; [by apply NoDup_delete_where|].
  intros r [Hr _]%elem_of_delete_where. auto.
Qed.
Lemma wf_delete_tx d p : wf_db d -> wf_db (set_transactions d (delete_where p (transactions d))).
Proof. intros []. constructor; cbn; try done; by apply NoDup_delete_where. Qed.
Lemma wf_delete_messages d p : wf_db d -> wf_db (set_messages d (delete_where p (messages d))).
Proof.
  intros []. constructor; cbn; try done; try by apply NoDup_delete_where.
  intros r [Hr _]%elem_of_delete_where. auto.
Qed.
Lemma wf_delete_settings d p : wf_db d -> wf_db (set_settings d (delete_where p (settings d))).
Proof. intros []. constructor; cbn; try done; by apply NoDup_delete_where. Qed.

#[export] Hint Resolve wf_update_users wf_update_tx wf_update_messages wf_update_mailboxes
  wf_delete_keyring wf_delete_shares wf_delete_tx wf_delete_messages wf_delete_settings : talk.

Section preservation.
Context `{RowIdsLaws}.

Lemma fresh_map {R} (g : R -> Z) rows : next_rowid (map g rows) ∉ map g rows.
Proof. apply next_rowid_fresh. Qed.

Lemma wf_insert_user u p k now : stmt_ok wf_db (insert_user u p k now).
Proof.
  intros d a d'. unfold insert_user. destruct (exists_row _ _) eqn:E; [done|]. intros [= <- <-] [].
  rewrite exists_row_false in E.
  constructor; cbn; try done.
  - apply NoDup_map_app; [done|]. apply fresh_map.
  - apply NoDup_map_app; [done|]. apply not_in_map. intros r Hr Heq. apply E in Hr.
    cbn in Heq. by rewrite Heq, str_eqb_refl in Hr.
  - intros r Hr. rewrite map_app, elem_of_app. auto.
  - intros r Hr. rewrite map_app, elem_of_app. auto.
  - intros r Hr. rewrite map_app, elem_of_app. auto.
Qed.

Lemma exists_user uid d :
  negb (exists_row (fun r => u_id r =? uid)%Z (users d)) = false -> uid ∈ map u_id (users d).
Proof.
  rewrite negb_false_iff, exists_row_true. intros (r & Hr & He%Z.eqb_eq).
  apply list_elem_of_fmap. eauto.
Qed.

Lemma wf_insert_mailbox uid name v : stmt_ok wf_db (insert_mailbox uid name v).
Proof.
  intros d a d'. unfold insert_mailbox. destruct (exists_row _ _) eqn:E; [done|].
  destruct (negb _) eqn:Eu; [done|]. intros [= _ <-] []. apply exists_user in Eu.
  rewrite exists_row_false in E. constructor; cbn; try done.
  - apply NoDup_map_app; [done|]. apply fresh_map.
  - apply NoDup_map_app; [done|]. apply not_in_map. intros r Hr [= He1 He2]. apply E in Hr.
    by rewrite He1, He2, Z.eqb_refl, str_eqb_refl in Hr.
  - intros r [Hr|Hr%list_elem_of_singleton]%elem_of_app; [auto | by subst].
  - intros r Hr. rewrite map_app, elem_of_app. auto.
Qed.

Lemma wf_insert_message box uid now m : stmt_ok wf_db (insert_message box uid now m).
Proof.
  intros d a d'. unfold insert_message. destruct (exists_row _ _) eqn:E; [done|].
  destruct (negb _) eqn:Eb; [done|]. intros [= _ <-] [].
  rewrite negb_false_iff, exists_row_true in Eb. destruct Eb as (b & Hb & Heb%Z.eqb_eq).
  rewrite exists_row_false in E. constructor; cbn; try done.
  - apply NoDup_map_app; [done|]. apply fresh_map.
  - apply NoDup_map_app; [done|]. apply not_in_map. intros r Hr [= He1 He2]. apply E in Hr.
    unfold message_key in Hr. by rewrite He1, He2, Z.eqb_refl, str_eqb_refl in Hr.
  - intros r [Hr|Hr%list_elem_of_singleton]%elem_of_app; [auto|]. subst r. cbn.
    apply list_elem_of_fmap. eauto.
Qed.

Lemma wf_insert_tx now t : stmt_ok wf_db (insert_tx now t).
Proof.
  intros d a d'. unfold insert_tx. destruct (exists_row _ _) eqn:E; [done|]. intros [= _ <-] [].
  rewrite exists_row_false in E. constructor; cbn; try done.
  - apply NoDup_map_app; [done|]. apply fresh_map.
  - apply NoDup_map_app; [done|]. apply not_in_map. intros r Hr [= He1 He2]. apply E in Hr.
    by rewrite He1, He2, !str_eqb_refl in Hr.
Qed.

Lemma wf_upsert_keyring uid snd pk att now : stmt_ok wf_db (upsert_keyring uid snd pk att now).
Proof.
  intros d a d'. unfold upsert_keyring. destruct (negb _) eqn:Eu; [done|].
  apply exists_user in Eu. destruct (exists_row _ _) eqn:E; intros [= _ <-] [].
  - constructor; cbn; try done.
    + unfold update_where. rewrite map_map. revert wf_keyring0.
      match goal with |- NoDup ?a -> NoDup ?b => replace b with a; [done|] end.
      apply map_ext. intros r. destruct (keyring_key uid snd r) eqn:Ek; [|done].
      unfold keyring_key in Ek. apply andb_true_iff in Ek as [->%Z.eqb_eq ->%bool_decide_eq_true]. done.
    + intros r (r0 & Hr0 & ->)%elem_of_update_where. destruct (keyring_key _ _ _); [done|auto].
  - rewrite exists_row_false in E. constructor; cbn; try done.
    + apply NoDup_map_app; [done|]. apply not_in_map. intros r Hr [= He1 He2]. apply E in Hr.
      unfold keyring_key in Hr. by rewrite He1, He2, Z.eqb_refl, str_eqb_refl in Hr.
    + intros r [Hr|Hr%list_elem_of_singleton]%elem_of_app; [auto | by subst].
Qed.

Lemma wf_insert_share uid sid dk : stmt_ok wf_db (insert_share uid sid dk).
Proof.
  intros d a d'. unfold insert_share. destruct (exists_row _ _) eqn:E; [done|].
  destruct (negb _) eqn:Eu; [done|]. apply exists_user in Eu. intros [= _ <-] [].
  rewrite exists_row_false in E. constructor; cbn; try done.
  - apply NoDup_map_app; [done|]. apply not_in_map. intros r Hr [= He1 He2]. apply E in Hr.
    unfold share_key in Hr. by rewrite He1, He2, Z.eqb_refl, str_eqb_refl in Hr.
  - intros r [Hr|Hr%list_elem_of_singleton]%elem_of_app; [auto | by subst].
Qed.

Lemma wf_set_setting key v d :
  wf_db d -> wf_db (set_settings d
    (if exists_row (fun r => fst r ≟ key) (settings d)
     then update_where (fun r => fst r ≟ key) (fun r => (fst r, v)) (settings d)
     else settings d ++ [(key, v)])).
Proof.
  intros []. destruct (exists_row _ _) eqn:E; constructor; cbn; try done.
  - by rewrite map_update_where.
  - rewrite exists_row_false in E. apply NoDup_map_app; [done|]. apply not_in_map.
    intros r Hr Heq. apply E in Hr. cbn in Heq. by rewrite Heq, str_eqb_refl in Hr.
Qed.

Lemma wf_delete_mailboxes uid d d' :
  (if exists_row (fun m => bool_decide (ms_mailbox_id m ∈ owned_mailboxes uid d)) (messages d)
   then Err ForeignKeyViolation
   else Ok (set_mailboxes d (delete_where (fun r => mb_user_id r =? uid)%Z (mailboxes d)))) = Ok d' ->
  wf_db d -> wf_db d'.
Proof.
  destruct (exists_row _ _) eqn:E; [done|]. intros [= <-] []. rewrite exists_row_false in E.
  constructor; cbn; try done; try by apply NoDup_delete_where.
  - intros r [Hr _]%elem_of_delete_where. auto.
  - intros r Hr. pose proof (E r Hr) as Hne. apply bool_decide_eq_false in Hne.
    pose proof (fk_messages0 r Hr) as (b & Hb & Hbm)%list_elem_of_fmap.
    apply list_elem_of_fmap. exists b. split; [done|]. apply elem_of_delete_where.
    split; [done|]. destruct (mb_user_id b =? uid)%Z eqn:Eb; [|done]. destruct Hne.
    unfold owned_mailboxes. rewrite Hb. apply list_elem_of_fmap. exists b. split; [done|].
    by apply elem_of_select.
Qed.

Lemma still_user uid (d : Db) x :
  x ∈ map u_id (users d) -> x <> uid ->
  x ∈ map u_id (delete_where (fun r => u_id r =? uid)%Z (users d)).
Proof.
  intros (u & -> & Hu)%list_elem_of_fmap Hne. apply list_elem_of_fmap. exists u. split; [done|].
  apply elem_of_delete_where. split; [done|]. by apply Z.eqb_neq.
Qed.

Lemma wf_delete_users uid d d' :
  (if exists_row (fun r => k_user_id r =? uid)%Z (keyring_entries d)
       || exists_row (fun r => s_user_id r =? uid)%Z (shares d)
       || exists_row (fun r => mb_user_id r =? uid)%Z (mailboxes d)
    then (if exists_row (fun r => u_id r =? uid)%Z (users d) then Err ForeignKeyViolation else Ok d)
    else Ok (set_users d (delete_where (fun r => u_id r =? uid)%Z (users d)))) = Ok d' ->
  wf_db d -> wf_db d'.
Proof.
  case_match eqn:E; [case_match; [done | by intros [= <-]]|].
  intros [= <-] []. rewrite !orb_false_iff, !exists_row_false in E. destruct E as [[E1 E2] E3].
  constructor; cbn; try done; try by apply NoDup_delete_where.
  - intros r Hr. apply still_user; [auto|]. by apply Z.eqb_neq, E1.
  - intros r Hr. apply still_user; [auto|]. by apply Z.eqb_neq, E2.
  - intros r Hr. apply still_user; [auto|]. by apply Z.eqb_neq, E3.
Qed.

(** ** The operations *)

(** Every operation of the store that changes it. *)
Inductive Op :=
  | OpCreateUser (now : Z) (username password_hash master_pubkey : str) (ivk reg : option str)
  | OpSetPassword (username hash : str)
  | OpSetIvk (username : str) (ivk : option str)
  | OpDeleteUser (username : str)
  | OpTxCreate (now : Z) (t : NewTransaction)
  | OpTxLink (now tx row : Z)
  | OpTxTransition (now tx : Z) (x : TxState)
  | OpTxSetBinding (now tx : Z) (b : option str)
  | OpTrust (now uid : Z) (sender pubkey attestation : str)
  | OpUnpin (uid : Z) (sender : str)
  | OpAppend (now uid : Z) (mailbox : str) (m : NewMessage)
  | OpSetFlags (uid : Z) (mailbox : str) (id mask : Z) (v : bool)
  | OpExpunge (uid : Z) (mailbox : str)
  | OpAddShare (uid : Z) (share_id wrapped : str)
  | OpRevokeShare (uid : Z) (share_id : str)
  | OpSetSetting (key v : str)
  | OpDeleteSetting (key : str).

Definition void {A} (m : M A) : M unit := _ ← m; mret tt.

Definition run_op (o : Op) : M unit :=
  match o with
  | OpCreateUser now u p k ivk reg => void (create_user_full now u p k ivk reg)
  | OpSetPassword u h => set_password u h
  | OpSetIvk u i => set_ivk u i
  | OpDeleteUser u => delete_user u
  | OpTxCreate now t => void (tx_create now t)
  | OpTxLink now t r => tx_link_message now t r
  | OpTxTransition now t x => tx_transition now t x
  | OpTxSetBinding now t b => tx_set_binding now t b
  | OpTrust now uid s p a => keyring_set_trusted now uid s p a
  | OpUnpin uid s => unpin_keyring uid s
  | OpAppend now uid b m => void (append_message_to now uid b m)
  | OpSetFlags uid b i m v => set_flags_in uid b i m v
  | OpExpunge uid b => void (expunge_in uid b)
  | OpAddShare uid i w => add_share uid i w
  | OpRevokeShare uid i => revoke_share uid i
  | OpSetSetting k v => set_setting k v
  | OpDeleteSetting k => delete_setting k
  end.

(** What an invariant needs of the single statements for the whole operations to
    keep it; appending a message is left to the invariant, and the statements only
    deleting a user needs are asked for when [D] holds. *)
Record op_invariant (D : Prop) (P : Db -> Prop) : Prop := {
  oi_insert_user : forall u p k now, stmt_ok P (insert_user u p k now);
  oi_insert_mailbox : forall uid n v, stmt_ok P (insert_mailbox uid n v);
  oi_insert_tx : forall now t, stmt_ok P (insert_tx now t);
  oi_keyring : forall uid snd pk att now, stmt_ok P (upsert_keyring uid snd pk att now);
  oi_share : forall uid sid dk, stmt_ok P (insert_share uid sid dk);
  oi_update_users : forall d p f, (forall r, u_id (f r) = u_id r) ->
    (forall r, u_username (f r) = u_username r) -> P d -> P (set_users d (update_where p f (users d)));
  oi_update_tx : forall d p f, (forall r, t_id (f r) = t_id r) ->
    (forall r, (t_direction (f r), t_message_id (f r)) = (t_direction r, t_message_id r)) ->
    P d -> P (set_transactions d (update_where p f (transactions d)));
  oi_flags : forall d p f, P d -> P (set_messages d (update_where p (with_flags f) (messages d)));
  oi_revoke : forall d uid sid, P d -> P (set_shares d (update_where (share_key uid sid)
    (fun r => mkShareRow (s_user_id r) (s_share_id r) (s_wrapped_dk r) 1) (shares d)));
  oi_setting : forall d k v, P d -> P (set_settings d
     (if exists_row (fun r => fst r ≟ k) (settings d)
      then update_where (fun r => fst r ≟ k) (fun r => (fst r, v)) (settings d)
      else settings d ++ [(k, v)]));
  oi_delete_keyring : forall d p, P d -> P (set_keyring d (delete_where p (keyring_entries d)));
  oi_delete_shares : forall d p, P d -> P (set_shares d (delete_where p (shares d)));
  oi_delete_tx : forall d p, P d -> P (set_transactions d (delete_where p (transactions d)));
  oi_delete_messages : forall d p, P d -> P (set_messages d (delete_where p (messages d)));
  oi_delete_settings : forall d p, P d -> P (set_settings d (delete_where p (settings d)));
  oi_delete_mailboxes : D -> forall uid d d',
    (if exists_row (fun m => bool_decide (ms_mailbox_id m ∈ owned_mailboxes uid d)) (messages d)
     then Err ForeignKeyViolation
     else Ok (set_mailboxes d (delete_where (fun r => mb_user_id r =? uid)%Z (mailboxes d)))) = Ok d' ->
    P d -> P d';
  oi_delete_users : D -> forall uid d d',
    (if exists_row (fun r => k_user_id r =? uid)%Z (keyring_entries d)
         || exists_row (fun r => s_user_id r =? uid)%Z (shares d)
         || exists_row (fun r => mb_user_id r =? uid)%Z (mailboxes d)
      then (if exists_row (fun r => u_id r =? uid)%Z (users d) then Err ForeignKeyViolation else Ok d)
      else Ok (set_users d (delete_where (fun r => u_id r =? uid)%Z (users d)))) = Ok d' ->
    P d -> P d';
}.

Section ops.
Context {D : Prop} {P : Db -> Prop} (HP : op_invariant D P).

Lemma pres_update_users p f :
  (forall r, u_id (f r) = u_id r) -> (forall r, u_username (f r) = u_username r) ->
  pres P (update_users p f).
Proof. intros. apply pres_execute_n. intros d Hd. cbn. by apply (oi_update_users _ _ HP). Qed.
Lemma pres_with_tx f id :
  (forall r, t_id (f r) = t_id r) ->
  (forall r, (t_direction (f r), t_message_id (f r)) = (t_direction r, t_message_id r)) ->
  pres P (with_tx f id).
Proof. intros. apply pres_execute_n. intros d Hd. cbn. by apply (oi_update_tx _ _ HP). Qed.

Lemma pres_mailbox_named uid n : pres P (mailbox_named uid n).
Proof. unfold mailbox_named. apply pres_bind; [auto with talk|]. intros [r|]; auto with talk. Qed.
Hint Resolve pres_mailbox_named : talk.

Lemma pres_create_user_full now u p k ivk reg : pres P (create_user_full now u p k ivk reg).
Proof.
  unfold create_user_full. apply pres_bind; [apply pres_exec, HP|]. intros uid.
  apply pres_bind.
  { destruct ivk; [|auto with talk]. apply pres_bind; [by apply pres_update_users|auto with talk]. }
  intros _. apply pres_bind.
  { destruct reg; [|auto with talk]. apply pres_bind; [by apply pres_update_users|auto with talk]. }
  intros _. apply pres_bind; [apply pres_exec, HP|]. intros _.
  apply pres_bind; [apply pres_exec, HP|]. auto with talk.
Qed.

Lemma pres_delete_user u : D -> pres P (delete_user u).
Proof.
  intros HD. unfold delete_user. apply pres_bind; [unfold get_user; auto with talk|].
  intros [user|]; [|auto with talk]. apply pres_bind; [auto with talk|]. intros _.
  apply pres_try_with; [|auto with talk..].
  unfold delete_owned, delete_keyring, delete_shares, delete_transactions, delete_messages.
  repeat (apply pres_bind; [|intros _]); apply pres_execute; intros d d';
    try (intros [= <-]; apply HP).
  - by apply (oi_delete_mailboxes _ _ HP).
  - by apply (oi_delete_users _ _ HP).
Qed.

(** The operations that are not an append. *)
Definition is_append (o : Op) : bool := match o with OpAppend _ _ _ _ => true | _ => false end.

Definition is_delete_user (o : Op) : bool := match o with OpDeleteUser _ => true | _ => false end.

Lemma pres_run_op o : is_append o = false -> (is_delete_user o = true -> D) -> pres P (run_op o).
Proof.
  intros Ho HD. destruct o; cbn [run_op]; try (apply pres_bind; [|by auto with talk]); try discriminate Ho.
  - apply pres_create_user_full.
  - by apply pres_update_users.
  - by apply pres_update_users.
  - by apply pres_delete_user, HD.
  - unfold tx_create. apply pres_bind; [apply pres_exec, HP | auto with talk].
  - by apply pres_with_tx.
  - by apply pres_with_tx.
  - by apply pres_with_tx.
  - apply pres_exec, HP.
  - apply pres_execute_n. intros d Hd. cbn. by apply HP.
  - unfold set_flags_in. apply pres_bind; [auto with talk|]. intros [[i v'] n].
    apply pres_execute. intros d d' [= <-]. by apply HP.
  - unfold expunge_in. apply pres_bind; [auto with talk|]. intros [[i v'] n].
    apply pres_bind; [auto with talk|]. intros us. apply pres_bind; [|auto with talk].
    apply pres_execute. intros d d' [= <-]. by apply HP.
  - apply pres_exec, HP.
  - apply pres_execute_n. intros d Hd. by apply (oi_revoke _ _ HP).
  - apply pres_execute. intros d d' [= <-]. by apply (oi_setting _ _ HP).
  - apply pres_execute_n. intros d Hd. cbn. by apply HP.
Qed.

End ops.

Lemma wf_op_invariant : op_invariant True wf_db.
Proof.
  constructor; try (intros; by auto using wf_set_setting with talk).
  - exact wf_insert_user.
  - exact wf_insert_mailbox.
  - exact wf_insert_tx.
  - exact wf_upsert_keyring.
  - exact wf_insert_share.
  - intros.
    match goal with Hd : wf_db _ |- _ => destruct Hd end. constructor; cbn; try done.
    + by rewrite map_update_where.
    + intros r (r0 & Hr0 & ->)%elem_of_update_where. destruct (share_key _ _ _); cbn; auto.
  - intros _ uid d d'. apply wf_delete_mailboxes.
  - intros _ uid d d'. apply wf_delete_users.
Qed.

Lemma pres_append now uid b m : pres wf_db (append_message_to now uid b m).
Proof.
  unfold append_message_to. apply pres_bind; [apply pres_mailbox_named|]. intros [[mid v] n].
  unfold append_locked.
  apply pres_bind; [auto with talk|]. intros c. destruct (0 <? c)%nat; [auto with talk|].
  apply pres_bind; [apply pres_exec, wf_insert_message|]. intros id. apply pres_bind; [|auto with talk].
  apply pres_execute. intros d d' [= <-]. by apply wf_update_mailboxes.
Qed.

Lemma pres_op o : pres wf_db (run_op o).
Proof.
  destruct (is_append o) eqn:E; [|by eapply pres_run_op; [apply wf_op_invariant| |]].
  destruct o; try done. cbn [run_op]. apply pres_bind; [apply pres_append | auto with talk].
Qed.

End preservation.
