(* ===== verification/Uids.v ===== *)
(** * UIDs, duplicates and concurrent appends

    [append_message_to] looks the mailbox up under one lock and inserts under
    another.  When nothing comes in between and no statement fails, UIDs grow and
    are never given twice; the last part of the file shows what remains true when
    appends interleave. *)

From S2P Require Export SqliteFacts.

Record uid_inv (d : Db) : Prop := {
  ui_wf : wf_db d;
  ui_bound : forall r b, r ∈ messages d -> b ∈ mailboxes d -> ms_mailbox_id r = mb_id b ->
    (ms_uid r < mb_uidnext b)%Z;
  ui_nodup : NoDup (map (fun r => (ms_mailbox_id r, ms_uid r)) (messages d));
}.

(** An operation without faults on a connection without an open transaction. *)
Definition calm (s : Store) : Prop := faults s = [] /\ saved s = None.

Lemma exec_calm {A} (q : stmt A) s :
  faults s = [] ->
  exec q s = match q (db s) with
             | Ok (a, d) => (Ok a, mkStore d (saved s) [])
             | Err e => (Err (Storage e), mkStore (db s) (saved s) [])
             end.
Proof. intros Hf. unfold exec. by rewrite Hf. Qed.

Lemma exec_pass {A} (q : stmt A) d sv fs :
  exec q (mkStore d sv (false :: fs)) =
  match q d with
  | Ok (a, d') => (Ok a, mkStore d' sv fs)
  | Err e => (Err (Storage e), mkStore d sv fs)
  end.
Proof. done. Qed.

Lemma query_pass {A} (f : Db -> A) d sv fs :
  query f (mkStore d sv (false :: fs)) = (Ok (f d), mkStore d sv fs).
Proof. done. Qed.

Lemma query_calm {A} (f : Db -> A) s :
  faults s = [] -> query f s = (Ok (f (db s)), s).
Proof. intros Hf. unfold query. rewrite exec_calm by done. destruct s; cbn in *. by subst. Qed.

Lemma count_where_0 {R} (p : R -> bool) rows : count_where p rows = 0%nat <-> exists_row p rows = false.
Proof.
  rewrite exists_row_false. unfold count_where. rewrite length_zero_iff_nil. split.
  - intros Hn r Hr. destruct (p r) eqn:E; [|done].
    assert (Hx : r ∈ filter (fun r => p r = true) rows) by (by apply list_elem_of_filter).
    rewrite Hn in Hx. by apply elem_of_nil in Hx.
  - intros Hall. apply elem_of_nil_inv. intros r [Hp Hr]%list_elem_of_filter.
    by rewrite Hall in Hp.
Qed.

Lemma head_select {R} (p : R -> bool) rows r :
  head (select p rows) = Some r -> r ∈ rows /\ p r = true.
Proof.
  intros Hh. apply elem_of_select. destruct (select p rows) as [|x l]; [done|].
  injection Hh as ->. apply elem_of_cons. by left.
Qed.

Definition find_box (uid : Z) (name : str) (d : Db) : option mailbox_row :=
  head (select (fun r => (mb_user_id r =? uid)%Z && (mb_name r ≟ name)) (mailboxes d)).

Lemma mailbox_named_calm uid name s :
  faults s = [] ->
  mailbox_named uid name s =
  match find_box uid name (db s) with
  | Some b => (Ok (mb_id b, mb_uidvalidity b, mb_uidnext b), s)
  | None => (Err MailboxNotFound, s)
  end.
Proof.
  intros Hf. unfold mailbox_named. erewrite st_bind_Ok by (by apply query_calm).
  fold (find_box uid name (db s)). by destruct (find_box _ _ _).
Qed.

Section uids.
Context `{RowIdsLaws}.

(** The database after a message was appended to a box. *)
Definition appended (now : Z) (b : mailbox_row) (msg : NewMessage) (d : Db) : Db :=
  bump_mailbox (mb_id b) (set_messages d (messages d ++
    [mkMessageRow (next_rowid (map ms_id (messages d))) (mb_id b) (nm_message_id msg) (mb_uidnext b)
       now (nm_flags msg) (nm_subject msg) (Z.of_nat (length (nm_body msg))) (nm_body msg)
       (nm_sender msg) (nm_trust_state msg)])).

Definition appended_meta (now : Z) (b : mailbox_row) (msg : NewMessage) (d : Db) : MessageMeta :=
  mkMeta (next_rowid (map ms_id (messages d))) (nm_message_id msg) (wrap 32 (mb_uidnext b))
    (mb_uidvalidity b) now (nm_flags msg) (nm_subject msg) (Z.of_nat (length (nm_body msg)))
    (nm_sender msg) (nm_trust_state msg) None None.

Lemma append_calm now uid name msg s :
  faults s = [] ->
  append_message_to now uid name msg s =
  match find_box uid name (db s) with
  | None => (Err MailboxNotFound, s)
  | Some b =>
      if exists_row (message_key (mb_id b) (nm_message_id msg)) (messages (db s))
      then (Err (DuplicateMessage (nm_message_id msg)), s)
      else (Ok (appended_meta now b msg (db s)), mkStore (appended now b msg (db s)) (saved s) [])
  end.
Proof.
  intros Hf. unfold append_message_to. unfold mbind at 1, st_bind at 1.
  rewrite mailbox_named_calm by done. destruct (find_box uid name (db s)) as [b|] eqn:Eb; [|done].
  unfold append_locked. erewrite st_bind_Ok by (by apply query_calm).
  destruct (exists_row _ _) eqn:E.
  - destruct (count_where _ _) eqn:Ec; [apply count_where_0 in Ec; congruence|]. done.
  - rewrite (proj2 (count_where_0 _ _) E). cbn [Nat.ltb Nat.leb].
    unfold mbind at 1, st_bind at 1. rewrite exec_calm by done. unfold insert_message.
    rewrite E. apply head_select in Eb as [Hb _].
    assert (Hx : exists_row (fun r => mb_id r =? mb_id b)%Z (mailboxes (db s)) = true)
      by (apply exists_row_true; exists b; split; [done | apply Z.eqb_refl]).
    rewrite Hx. done.
Qed.

Lemma mailbox_id_unique d b b' :
  wf_db d -> b ∈ mailboxes d -> b' ∈ mailboxes d -> mb_id b = mb_id b' -> b = b'.
Proof.
  intros Hd Hb Hb' Heq. pose proof (wf_mailbox_id _ Hd) as Hn.
  apply list_elem_of_lookup in Hb as [i Hi], Hb' as [j Hj].
  assert (i = j); [|congruence].
  eapply (NoDup_lookup _ _ _ (mb_id b) Hn); rewrite list_lookup_fmap.
  - by rewrite Hi.
  - by rewrite Hj, Heq.
Qed.

(** Appending keeps the invariant. *)
Lemma appended_uid_inv now b msg d :
  uid_inv d -> b ∈ mailboxes d ->
  exists_row (message_key (mb_id b) (nm_message_id msg)) (messages d) = false ->
  uid_inv (appended now b msg d).
Proof.
  intros [Hwf Hb Hn] Hin Hnew. constructor.
  - unfold appended, bump_mailbox. apply wf_update_mailboxes; [done..|].
    eapply (wf_insert_message (mb_id b) (mb_uidnext b) now msg d); [|done].
    unfold insert_message. rewrite Hnew.
    assert (Hx : exists_row (fun r => mb_id r =? mb_id b)%Z (mailboxes d) = true)
      by (apply exists_row_true; exists b; split; [done | apply Z.eqb_refl]).
    by rewrite Hx.
  - cbn. intros r c [Hr|Hr%list_elem_of_singleton]%elem_of_app (c0 & Hc0 & ->)%elem_of_update_where Heq.
    + assert (Hlt : (ms_uid r < mb_uidnext c0)%Z) by (apply Hb; [done|done|]; by destruct (_ =? _)%Z).
      destruct (_ =? _)%Z; cbn; lia.
    + subst r. cbn in *. destruct (mb_id c0 =? mb_id b)%Z eqn:Ec; cbn in *.
      * apply Z.eqb_eq in Ec. assert (c0 = b) as -> by (by eapply mailbox_id_unique). lia.
      * apply Z.eqb_neq in Ec. congruence.
  - cbn. apply NoDup_map_app; [done|]. apply not_in_map. cbn. intros r Hr [= He1 He2].
    specialize (Hb r b Hr Hin He1). lia.
Qed.

Lemma uid_inv_same d d' :
  uid_inv d -> wf_db d' -> mailboxes d' = mailboxes d -> messages d' = messages d -> uid_inv d'.
Proof. intros [] Hw Hb Hm. constructor; [done|by rewrite Hb, Hm|by rewrite Hm]. Qed.

Lemma uid_op_invariant : op_invariant True uid_inv.
Proof.
  pose proof wf_op_invariant as Hw.
  assert (Hsame : forall d d', uid_inv d -> (wf_db d -> wf_db d') -> mailboxes d' = mailboxes d ->
    messages d' = messages d -> uid_inv d').
  { intros d d' Hd Hi. apply uid_inv_same; [done|]. apply Hi, Hd. }
  constructor.
  - intros u p k now d a d' Hq Hd. apply (Hsame d); [done| |..];
      [intros; eapply (oi_insert_user _ _ Hw); eassumption | |];
      unfold insert_user in Hq; destruct (exists_row _ _); naive_solver.
  - intros uid n v d a d' Hq [Hwf Hb Hn]. pose proof (oi_insert_mailbox _ _ Hw uid n v d a d' Hq Hwf) as Hwf'.
    unfold insert_mailbox in Hq. destruct (exists_row _ _); [done|]. destruct (negb _); [done|].
    injection Hq as _ <-. constructor; [done| |done]. cbn.
    intros r b Hr [Hbb|Hbb%list_elem_of_singleton]%elem_of_app Heq; [by apply Hb|].
    subst b. cbn in Heq. pose proof (fk_messages _ Hwf r Hr) as Hf. rewrite Heq in Hf.
    by apply next_rowid_fresh in Hf.
  - intros now t d a d' Hq Hd. apply (Hsame d); [done| |..];
      [intros; eapply (oi_insert_tx _ _ Hw); eassumption | |];
      unfold insert_tx in Hq; destruct (exists_row _ _); naive_solver.
  - intros uid sd pk att now d a d' Hq Hd. apply (Hsame d); [done| |..];
      [intros; eapply (oi_keyring _ _ Hw); eassumption | |];
      unfold upsert_keyring in Hq; destruct (negb _); [done| |done|];
      destruct (exists_row _ _); naive_solver.
  - intros uid sid dk d a d' Hq Hd. apply (Hsame d); [done| |..];
      [intros; eapply (oi_share _ _ Hw); eassumption | |];
      unfold insert_share in Hq; destruct (exists_row _ _); [done| |done|];
      destruct (negb _); naive_solver.
  - intros d p f Hi Hu Hd. apply (Hsame d); [done|by intros; apply (oi_update_users _ _ Hw)|done..].
  - intros d p f Hi Hu Hd. apply (Hsame d); [done|by intros; apply (oi_update_tx _ _ Hw)|done..].
  - intros d p f [Hwf Hb Hn]. constructor; [by apply (oi_flags _ _ Hw)| |].
    + cbn. intros r b (r0 & Hr0 & ->)%elem_of_update_where Hbb Heq.
      destruct (p r0); by apply (Hb r0).
    + cbn. by rewrite map_update_where.
  - intros d uid sid Hd. apply (Hsame d); [done|by intros; apply (oi_revoke _ _ Hw)|done..].
  - intros d k v Hd. apply (Hsame d); [done|by intros; apply (oi_setting _ _ Hw)|done..].
  - intros d p Hd. apply (Hsame d); [done|by intros; apply (oi_delete_keyring _ _ Hw)|done..].
  - intros d p Hd. apply (Hsame d); [done|by intros; apply (oi_delete_shares _ _ Hw)|done..].
  - intros d p Hd. apply (Hsame d); [done|by intros; apply (oi_delete_tx _ _ Hw)|done..].
  - intros d p [Hwf Hb Hn]. constructor; [by apply (oi_delete_messages _ _ Hw)| |].
    + cbn. intros r b [Hr _]%elem_of_delete_where. by apply Hb.
    + cbn. by apply NoDup_delete_where.
  - intros d p Hd. apply (Hsame d); [done|by intros; apply (oi_delete_settings _ _ Hw)|done..].
  - intros _ uid d d' Hq [Hwf Hb Hn]. constructor; [by eapply (oi_delete_mailboxes _ _ Hw I)|..];
      destruct (exists_row _ _); try done; injection Hq as <-; [|done].
    cbn. intros r b Hr [Hbb _]%elem_of_delete_where. by apply Hb.
  - intros _ uid d d' Hq Hd. apply (Hsame d); [done|intros; eapply (oi_delete_users _ _ Hw I); eassumption|..];
      revert Hq; repeat case_match; naive_solver.
Qed.

(** An append that nothing disturbs keeps the invariant. *)
Lemma append_uid_inv now uid name msg s r s' :
  faults s = [] -> append_message_to now uid name msg s = (r, s') ->
  inv uid_inv s -> inv uid_inv s' /\ faults s' = [].
Proof.
  intros Hf. rewrite append_calm by done. destruct (find_box uid name (db s)) as [b|] eqn:Eb;
    [|by intros [= _ <-]].
  destruct (exists_row _ _) eqn:E; [by intros [= _ <-]|]. intros [= _ <-] [Hd Hs].
  split; [|done]. split; [|done]. apply head_select in Eb as [Hb _]. by apply appended_uid_inv.
Qed.

(** ** The counter of a mailbox only grows *)

Definition counters_grow (d0 d : Db) : Prop :=
  forall b0, b0 ∈ mailboxes d0 -> exists b, b ∈ mailboxes d /\ mb_id b = mb_id b0
    /\ mb_user_id b = mb_user_id b0 /\ mb_name b = mb_name b0 /\ (mb_uidnext b0 <= mb_uidnext b)%Z.

Lemma counters_grow_same d0 d d' :
  counters_grow d0 d -> mailboxes d' = mailboxes d -> counters_grow d0 d'.
Proof. unfold counters_grow. by intros Hg ->. Qed.

Lemma counters_grow_refl d : counters_grow d d.
Proof. intros b Hb. exists b. split; [done|]. repeat split; lia. Qed.

Lemma counters_grow_trans d1 d2 d3 :
  counters_grow d1 d2 -> counters_grow d2 d3 -> counters_grow d1 d3.
Proof.
  intros H12 H23 b Hb. destruct (H12 b Hb) as (b2 & Hb2 & ? & ? & ? & ?).
  destruct (H23 b2 Hb2) as (b3 & Hb3 & ? & ? & ? & ?). exists b3.
  split; [done|]. repeat split; congruence || lia.
Qed.

Lemma counters_op_invariant d0 : op_invariant False (counters_grow d0).
Proof.
  constructor; try done; try (intros; by eapply counters_grow_same).
  - intros u p k now d a d' Hq Hd. eapply counters_grow_same; [exact Hd|].
    unfold insert_user in Hq. destruct (exists_row _ _); naive_solver.
  - intros uid n v d a d' Hq Hd b0 Hb0. destruct (Hd b0 Hb0) as (b & Hb & Hrest). exists b.
    split; [|done]. unfold insert_mailbox in Hq. destruct (exists_row _ _); [done|].
    destruct (negb _); [done|]. injection Hq as _ <-. cbn. apply elem_of_app. by left.
  - intros now t d a d' Hq Hd. eapply counters_grow_same; [exact Hd|].
    unfold insert_tx in Hq. destruct (exists_row _ _); naive_solver.
  - intros uid sd pk att now d a d' Hq Hd. eapply counters_grow_same; [exact Hd|].
    unfold upsert_keyring in Hq. destruct (negb _); [done|]. destruct (exists_row _ _); naive_solver.
  - intros uid sid dk d a d' Hq Hd. eapply counters_grow_same; [exact Hd|].
    unfold insert_share in Hq. destruct (exists_row _ _); [done|]. destruct (negb _); naive_solver.
Qed.

Lemma appended_counters now b msg d : counters_grow d (appended now b msg d).
Proof.
  intros b0 Hb0. exists (if (mb_id b0 =? mb_id b)%Z then bump_uidnext b0 else b0). split.
  - cbn. apply elem_of_update_where. eauto.
  - destruct (_ =? _)%Z; cbn; repeat split; lia.
Qed.

(** Operations that neither fail on their own account nor delete a user. *)
Definition ordinary (o : Op) : bool := negb (is_delete_user o).

Fixpoint run_ops (os : list Op) (s : Store) : Store :=
  match os with [] => s | o :: r => run_ops r (snd (run_op o s)) end.

(** What every statement keeps, every ordinary operation keeps. *)
Definition holds (I : Store -> Prop) {A} (m : M A) : Prop := forall s r s', I s -> m s = (r, s') -> I s'.

Section holds.
Context (I : Store -> Prop) (holds_exec : forall A (q : stmt A), holds I (exec q)).

Lemma holds_bind {A B} (m : M A) (f : A -> M B) :
  holds I m -> (forall x, holds I (f x)) -> holds I (m ≫= f).
Proof.
  intros Hm Hf s r s' Hs. unfold mbind, st_bind. destruct (m s) as [[x|e] s1] eqn:E.
  - intros Hr. eapply Hf; [|exact Hr]. by eapply Hm.
  - intros [= _ <-]. by eapply Hm.
Qed.
Lemma holds_ret {A} (x : A) : holds I (mret x).
Proof. intros s r s' Hf. by intros [= _ <-]. Qed.
Lemma holds_raise {A} e : holds I (raise e : M A).
Proof. intros s r s' Hf. by intros [= _ <-]. Qed.
Lemma holds_found n e : holds I (found n e).
Proof. unfold found. case_bool_decide; [apply holds_raise|apply holds_ret]. Qed.

Hint Resolve holds_bind holds_exec holds_ret holds_raise holds_found : talk.

Lemma holds_run_op o : ordinary o = true -> holds I (run_op o).
Proof.
  intros Ho. destruct o; try discriminate Ho; cbn [run_op]; unfold void; try (apply holds_bind; [|by auto with talk]);
    unfold set_password, set_ivk, tx_link_message, tx_transition, tx_set_binding, unpin_keyring,
      revoke_share, set_setting, delete_setting, update_users, with_tx, execute_n, execute, tx_create,
      keyring_set_trusted, add_share; auto with talk.
  - unfold create_user_full, update_users, execute_n. apply holds_bind; [auto with talk|]. intros u.
    apply holds_bind; [destruct ivk; auto with talk|]. intros _.
    apply holds_bind; [destruct reg; auto with talk|]. auto 6 with talk.
  - unfold append_message_to, mailbox_named, query. apply holds_bind.
    { apply holds_bind; [auto with talk|]. intros [r|]; auto with talk. }
    intros [[i v] n]. unfold append_locked, query, execute. apply holds_bind; [auto with talk|].
    intros c. destruct (0 <? c)%nat; auto with talk.
  - unfold set_flags_in, mailbox_named, query, execute. apply holds_bind.
    { apply holds_bind; [auto with talk|]. intros [r|]; auto with talk. }
    intros [[i v'] n]. auto with talk.
  - unfold expunge_in, mailbox_named, query, execute. apply holds_bind.
    { apply holds_bind; [auto with talk|]. intros [r|]; auto with talk. }
    intros [[i v'] n]. auto with talk.
Qed.

End holds.

(** A calm connection stays calm. *)
Lemma calm_exec {A} (q : stmt A) : holds calm (exec q).
Proof.
  intros s r s' [Hf Hs]. rewrite exec_calm by done.
  destruct (q (db s)) as [[??]|]; intros [= _ <-]; by split.
Qed.

Lemma calm_run_op o : ordinary o = true -> holds calm (run_op o).
Proof. apply holds_run_op. intros A q. apply calm_exec. Qed.

Lemma run_op_grows o s :
  calm s -> ordinary o = true -> inv uid_inv s ->
  inv uid_inv (snd (run_op o s)) /\ counters_grow (db s) (db (snd (run_op o s)))
  /\ calm (snd (run_op o s)).
Proof.
  intros Hcalm Ho Hi. destruct (run_op o s) as [r s'] eqn:E. cbn.
  split; [|split; [|by eapply calm_run_op]]; destruct Hcalm as [Hf Hsv].
  - destruct (is_append o) eqn:Ea.
    + destruct o; try done. cbn [run_op] in E. unfold void, mbind, st_bind in E.
      destruct (append_message_to now uid mailbox m s) as [[x|e] s1] eqn:Ep;
        injection E as _ <-; by eapply append_uid_inv.
    + by eapply (pres_run_op uid_op_invariant o Ea (fun _ => I)).
  - destruct (is_append o) eqn:Ea.
    + destruct o; try done. cbn [run_op] in E. unfold void, mbind, st_bind in E.
      rewrite append_calm in E by done. destruct (find_box _ _ _) as [b|];
        [|injection E as _ <-; apply counters_grow_refl].
      destruct (exists_row _ _); injection E as _ <-; [apply counters_grow_refl | apply appended_counters].
    + apply (pres_run_op (counters_op_invariant (db s)) o Ea) with (s := s) (r := r); [|done|].
      * unfold ordinary in Ho. by destruct (is_delete_user o).
      * split; [apply counters_grow_refl|]. by rewrite Hsv.
Qed.

End uids.

(** ** Fetching what was appended *)

Section fetch.
Context `{RowIdsLaws}.

Lemma select_update {R} (p q : R -> bool) f rows :
  (forall r, p (f r) = p r) -> select p (update_where q f rows) = update_where q f (select p rows).
Proof.
  intros Hp. unfold select, update_where. induction rows as [|r rows IH]; [done|]. cbn [map].
  assert (Hx : p (if q r then f r else r) = p r) by (destruct (q r); [apply Hp|done]).
  rewrite !filter_cons, IH. rewrite Hx. by destruct (decide (p r = true)).
Qed.

Lemma select_app {R} (p : R -> bool) a b : select p (a ++ b) = select p a ++ select p b.
Proof. apply filter_app. Qed.

Lemma select_none {R} (p : R -> bool) rows : (forall r, r ∈ rows -> p r = false) -> select p rows = [].
Proof.
  intros Hp. apply elem_of_nil_inv. intros r [Hr Ht]%elem_of_select. rewrite Hp in Ht; done.
Qed.

Lemma select_one {R} (p : R -> bool) r : p r = true -> select p [r] = [r].
Proof. intros Hp. unfold select. rewrite filter_cons, decide_True by done. done. Qed.

Lemma find_box_appended now uid name b msg d :
  find_box uid name d = Some b -> find_box uid name (appended now b msg d) = Some (bump_uidnext b).
Proof.
  unfold find_box, appended, bump_mailbox. cbn [mailboxes set_mailboxes set_messages].
  rewrite select_update by done. destruct (select _ (mailboxes d)) as [|x l]; [done|].
  cbn. intros [= ->]. by rewrite Z.eqb_refl.
Qed.

Lemma fresh_row d r : r ∈ messages d -> ms_id r <> next_rowid (map ms_id (messages d)).
Proof. intros Hr Heq. apply (next_rowid_fresh (map ms_id (messages d))). rewrite <- Heq.
  apply list_elem_of_fmap. eauto. Qed.

Lemma fetch_calm uid name i s b r ts :
  faults s = [] -> find_box uid name (db s) = Some b ->
  select (fun r => (ms_mailbox_id r =? mb_id b)%Z && (ms_id r =? i)%Z) (messages (db s)) = [r] ->
  select (fun t => t_message_row_id t ≟ Some (ms_id r)) (transactions (db s)) = ts ->
  fetch_message_in uid name i s
  = (Ok (mkMessage (row_to_meta (mb_uidvalidity b) r (head ts)) (ms_body r)), s).
Proof.
  intros Hf Hb Hr Ht. unfold fetch_message_in. unfold mbind at 1, st_bind at 1.
  rewrite mailbox_named_calm, Hb by done. unfold mbind at 1, st_bind at 1.
  rewrite query_calm by done. rewrite Hr. unfold left_join.
  unfold mbind, list_bind. rewrite Ht. by destruct ts.
Qed.

End fetch.

(** ** Interleaved appends *)

Section race.
Context `{RowIdsLaws}.

(** A call of [append_message_to]: not started, between its two locks with the
    mailbox row it has read, or returned. *)
Inductive appender :=
  | Waiting (now uid : Z) (name : str) (msg : NewMessage)
  | Looked (now : Z) (box : Z * Z * Z) (msg : NewMessage)
  | Returned (r : result StoreError MessageMeta).

Record config := mkConfig { cf_store : Store; cf_calls : list appender }.

(** One call moves; the mutex makes each half of it atomic. *)
Inductive step : config -> config -> Prop :=
  | step_look s s' cs i now uid name msg box :
      cs !! i = Some (Waiting now uid name msg) -> mailbox_named uid name s = (Ok box, s') ->
      step (mkConfig s cs) (mkConfig s' (<[i := Looked now box msg]> cs))
  | step_no_box s s' cs i now uid name msg e :
      cs !! i = Some (Waiting now uid name msg) -> mailbox_named uid name s = (Err e, s') ->
      step (mkConfig s cs) (mkConfig s' (<[i := Returned (Err e)]> cs))
  | step_insert s s' cs i now box msg r :
      cs !! i = Some (Looked now box msg) -> append_locked now box msg s = (r, s') ->
      step (mkConfig s cs) (mkConfig s' (<[i := Returned r]> cs)).

Lemma pres_append_locked now box msg : pres wf_db (append_locked now box msg).
Proof.
  destruct box as [[mid v] n]. unfold append_locked.
  apply pres_bind; [auto with talk|]. intros c. destruct (0 <? c)%nat; [auto with talk|].
  apply pres_bind; [apply pres_exec, wf_insert_message|]. intros id. apply pres_bind; [|auto with talk].
  apply pres_execute. intros d d' [= <-]. by apply wf_update_mailboxes.
Qed.

Lemma step_inv c c' : step c c' -> inv wf_db (cf_store c) -> inv wf_db (cf_store c').
Proof.
  intros []; cbn; try (by eapply (pres_mailbox_named (P := wf_db))). by eapply pres_append_locked.
Qed.

Lemma steps_inv c c' : rtc step c c' -> inv wf_db (cf_store c) -> inv wf_db (cf_store c').
Proof. induction 1 as [c|c1 c2 c3 Hs _ IH]; [done|]. intros Hi. by apply IH, (step_inv c1). Qed.

Lemma append_locked_calm now b msg s mid v n :
  faults s = [] -> b ∈ mailboxes (db s) -> mb_id b = mid ->
  exists_row (message_key mid (nm_message_id msg)) (messages (db s)) = false ->
  exists meta d, append_locked now (mid, v, n) msg s = (Ok meta, mkStore d (saved s) [])
    /\ messages d = messages (db s) ++ [mkMessageRow (next_rowid (map ms_id (messages (db s)))) mid
         (nm_message_id msg) n now (nm_flags msg) (nm_subject msg) (Z.of_nat (length (nm_body msg)))
         (nm_body msg) (nm_sender msg) (nm_trust_state msg)]
    /\ (exists b', b' ∈ mailboxes d /\ mb_id b' = mid).
Proof.
  intros Hf Hb Hid E. unfold append_locked. erewrite st_bind_Ok by (by apply query_calm).
  rewrite (proj2 (count_where_0 _ _) E). cbn [Nat.ltb Nat.leb].
  unfold mbind at 1, st_bind at 1. rewrite exec_calm by done. unfold insert_message. rewrite E.
  assert (Hx : exists_row (fun r => mb_id r =? mid)%Z (mailboxes (db s)) = true)
    by (apply exists_row_true; exists b; split; [done | by apply Z.eqb_eq]).
  rewrite Hx. cbn [negb]. unfold mbind, st_bind, execute.
  do 2 eexists. split; [reflexivity|]. split; [reflexivity|]. cbn.
  exists (bump_uidnext b). split; [|done]. apply elem_of_update_where. exists b. split; [done|].
  by rewrite Hid, Z.eqb_refl.
Qed.

End race.

(** ** Properties *)

Section properties.
Context `{RowIdsLaws}.

(** C21: the constraints of the schema always hold. Whatever operations are called
    with whatever arguments, and whatever statements fail on the way, ids, user
    names, message ids per mailbox, ledger keys and the other keys stay unique
    and every row refers to a row that exists, also in the snapshot a rollback
    would restore. *)
Theorem schema_always_holds os s :
  inv wf_db s -> inv wf_db (run_ops os s).
Proof.
  revert s. induction os as [|o os IH]; intros s Hs; cbn; [done|].
  apply IH. destruct (run_op o s) as [r s'] eqn:E. by eapply pres_op.
Qed.


(** What was appended is what is fetched. When nothing fails and no ledger entry
    already points at the row, fetching by the id [append_message_to] returned gives
    the message's body and exactly the returned metadata, and a message id that is
    already in the mailbox is refused without any change. *)
Theorem append_then_fetch now uid name msg s :
  faults s = [] -> (0 <= now < 2 ^ 64)%Z -> (0 <= nm_flags msg <= u32_max)%Z ->
  (Z.of_nat (length (nm_body msg)) < 2 ^ 64)%Z ->
  match append_message_to now uid name msg s with
  | (Ok meta, s1) =>
      (forall t, t ∈ transactions (db s) -> t_message_row_id t <> Some (meta_id meta)) ->
      fetch_message_in uid name (meta_id meta) s1 = (Ok (mkMessage meta (nm_body msg)), s1)
      /\ append_message_to now uid name msg s1 = (Err (DuplicateMessage (nm_message_id msg)), s1)
  | (Err _, s1) => s1 = s
  end.
Proof.
  intros Hf Hnow Hfl Hlen. rewrite append_calm by done.
  destruct (find_box uid name (db s)) as [b|] eqn:Eb; [|done].
  destruct (exists_row _ _) eqn:E; [done|]. intros Ht.
  set (s1 := mkStore (appended now b msg (db s)) (saved s) []).
  pose proof (find_box_appended now uid name b msg _ Eb) as Hfb. split.
  - set (row := mkMessageRow (next_rowid (map ms_id (messages (db s)))) (mb_id b) (nm_message_id msg)
       (mb_uidnext b) now (nm_flags msg) (nm_subject msg) (Z.of_nat (length (nm_body msg)))
       (nm_body msg) (nm_sender msg) (nm_trust_state msg)).
    rewrite (fetch_calm uid name _ s1 (bump_uidnext b) row [] eq_refl Hfb).
    + unfold row_to_meta, appended_meta, row. cbn [head ms_id ms_message_id ms_uid ms_internaldate ms_flags
        ms_subject ms_size ms_sender ms_trust_state ms_body mb_uidvalidity bump_uidnext fmap option_fmap option_map].
      unfold wrap. rewrite (Z.mod_small now), (Z.mod_small (Z.of_nat _)) by lia.
      rewrite (proj2 (andb_true_iff _ _)) by (rewrite !Z.leb_le; lia). done.
    + cbn [s1 db appended bump_mailbox messages set_mailboxes set_messages meta_id appended_meta mb_id bump_uidnext].
      rewrite select_app, select_none, select_one; [done| |].
      * cbn. by rewrite !Z.eqb_refl.
      * intros r Hr. apply andb_false_iff. right. apply Z.eqb_neq. by apply fresh_row.
    + cbn. apply select_none. intros t Hin. apply bool_decide_eq_false. by apply Ht.
  - rewrite append_calm by done. change (db s1) with (appended now b msg (db s)). rewrite Hfb.
    change (mb_id (bump_uidnext b)) with (mb_id b).
    assert (Hx : exists_row (message_key (mb_id b) (nm_message_id msg))
      (messages (appended now b msg (db s))) = true); [|by rewrite Hx].
    apply exists_row_true. eexists. split; [cbn; apply elem_of_app; right; by apply list_elem_of_singleton|].
    unfold message_key. cbn. by rewrite Z.eqb_refl, str_eqb_refl.
Qed.

(** A half-done append reuses a UID. The row and the counter are written by two
    statements outside a transaction: when the second one fails the call reports an
    error, but the message stays, and the next message of the mailbox is stored
    under the same UID. *)
Theorem failed_counter_reuses_uid now1 now2 uid name m1 m2 d b :
  wf_db d -> find_box uid name d = Some b ->
  exists_row (message_key (mb_id b) (nm_message_id m1)) (messages d) = false ->
  exists_row (message_key (mb_id b) (nm_message_id m2)) (messages d) = false ->
  nm_message_id m1 <> nm_message_id m2 ->
  exists s1 meta s2 r1 r2,
    append_message_to now1 uid name m1 (mkStore d None [false; false; false; true])
    = (Err (Storage SqlFailure), s1)
    /\ append_message_to now2 uid name m2 s1 = (Ok meta, s2)
    /\ r1 ∈ messages (db s2) /\ ms_message_id r1 = nm_message_id m1
    /\ r2 ∈ messages (db s2) /\ ms_message_id r2 = nm_message_id m2
    /\ ms_mailbox_id r1 = ms_mailbox_id r2 /\ ms_uid r1 = ms_uid r2.
Proof.
  intros Hd Hb E1 E2 Hne.
  set (row := mkMessageRow (next_rowid (map ms_id (messages d))) (mb_id b) (nm_message_id m1)
       (mb_uidnext b) now1 (nm_flags m1) (nm_subject m1) (Z.of_nat (length (nm_body m1)))
       (nm_body m1) (nm_sender m1) (nm_trust_state m1)).
  assert (H1 : append_message_to now1 uid name m1 (mkStore d None [false; false; false; true])
    = (Err (Storage SqlFailure), mkStore (set_messages d (messages d ++ [row])) None [])).
  { unfold append_message_to, mailbox_named. unfold mbind at 1 2, st_bind at 1 2.
    rewrite query_pass. unfold find_box in Hb. rewrite Hb. cbn [mret st_ret].
    unfold append_locked. erewrite st_bind_Ok by apply query_pass.
    rewrite (proj2 (count_where_0 _ _) E1). cbn [Nat.ltb Nat.leb].
    apply head_select in Hb as [Hb _].
    assert (Hx : exists_row (fun r => mb_id r =? mb_id b)%Z (mailboxes d) = true)
      by (apply exists_row_true; exists b; split; [done | apply Z.eqb_refl]).
    unfold mbind at 1, st_bind at 1. rewrite exec_pass. unfold insert_message.
    by rewrite E1, Hx. }
  exists (mkStore (set_messages d (messages d ++ [row])) None []).
  rewrite (append_calm now2) by done. cbn [db].
  change (find_box uid name (set_messages d (messages d ++ [row]))) with (find_box uid name d).
  rewrite Hb.
  assert (E2' : exists_row (message_key (mb_id b) (nm_message_id m2)) (messages d ++ [row]) = false).
  { apply exists_row_false. intros r [Hr|Hr%list_elem_of_singleton]%elem_of_app.
    - rewrite exists_row_false in E2. by apply E2.
    - subst r. unfold message_key. cbn. rewrite bool_decide_eq_false_2 by done. apply andb_false_r. }
  cbn [messages set_messages]. rewrite E2'. do 2 eexists. exists row. eexists.
  split; [exact H1|]. split; [reflexivity|]. cbn.
  split; [apply elem_of_app; left; apply elem_of_app; right; by apply list_elem_of_singleton|].
  split; [done|]. split; [apply elem_of_app; right; by apply list_elem_of_singleton|]. done.
Qed.

(** C23: interleaved appends. Two calls that both look the mailbox up before either
    inserts store two messages under one UID although nothing fails; but however
    calls interleave and whatever fails, the schema's constraints hold, so a
    message id is never stored twice in a mailbox. *)
Theorem interleaved_appends now1 now2 uid name m1 m2 d b :
  wf_db d -> find_box uid name d = Some b ->
  exists_row (message_key (mb_id b) (nm_message_id m1)) (messages d) = false ->
  exists_row (message_key (mb_id b) (nm_message_id m2)) (messages d) = false ->
  nm_message_id m1 <> nm_message_id m2 ->
  (exists s' meta1 meta2 r1 r2,
    rtc step (mkConfig (mkStore d None []) [Waiting now1 uid name m1; Waiting now2 uid name m2])
      (mkConfig s' [Returned (Ok meta1); Returned (Ok meta2)])
    /\ r1 ∈ messages (db s') /\ ms_message_id r1 = nm_message_id m1
    /\ r2 ∈ messages (db s') /\ ms_message_id r2 = nm_message_id m2
    /\ ms_mailbox_id r1 = ms_mailbox_id r2 /\ ms_uid r1 = ms_uid r2)
  /\ forall fs calls c', rtc step (mkConfig (mkStore d None fs) calls) c' -> wf_db (db (cf_store c')).
Proof.
  intros Hd Hb E1 E2 Hne. split.
  - assert (Hbin : b ∈ mailboxes d) by (by apply head_select in Hb as [? _]).
    destruct (append_locked_calm now1 b m1 (mkStore d None []) (mb_id b) (mb_uidvalidity b)
                (mb_uidnext b) eq_refl Hbin eq_refl E1) as (meta1 & d1 & H1 & Hm1 & (b1 & Hb1 & Hid1)).
    assert (E2' : exists_row (message_key (mb_id b) (nm_message_id m2)) (messages d1) = false).
    { rewrite Hm1. apply exists_row_false. intros r [Hr|Hr%list_elem_of_singleton]%elem_of_app.
      - rewrite exists_row_false in E2. by apply E2.
      - subst r. unfold message_key. cbn. rewrite bool_decide_eq_false_2 by done. apply andb_false_r. }
    destruct (append_locked_calm now2 b1 m2 (mkStore d1 None []) (mb_id b) (mb_uidvalidity b)
                (mb_uidnext b) eq_refl Hb1 Hid1 E2') as (meta2 & d2 & H2 & Hm2 & _).
    exists (mkStore d2 None []), meta1, meta2. do 2 eexists. split.
    + eapply rtc_l.
      { eapply (step_look _ _ _ 0); [reflexivity|].
        rewrite mailbox_named_calm by done. cbn [db]. rewrite Hb. reflexivity. }
      eapply rtc_l.
      { eapply (step_look _ _ _ 1); [reflexivity|].
        rewrite mailbox_named_calm by done. cbn [db]. rewrite Hb. reflexivity. }
      eapply rtc_l; [eapply (step_insert _ _ _ 0); [reflexivity | exact H1]|].
      eapply rtc_l; [eapply (step_insert _ _ _ 1); [reflexivity | exact H2]|]. apply rtc_refl.
    + cbn. rewrite Hm2. cbn. rewrite Hm1.
      split; [apply elem_of_app; left; apply elem_of_app; right; by apply list_elem_of_singleton|].
      split; [done|]. split; [apply elem_of_app; right; by apply list_elem_of_singleton|]. done.
  - intros fs calls c' Hr.
    refine (proj1 (steps_inv _ _ Hr _)). split; [exact Hd|]. intros x Hx. discriminate Hx.
Qed.

End properties.
