(* ===== verification/UserLife.v ===== *)
(** * Creating and deleting users

    [delete_user] runs in a SQL transaction and is all or nothing; creating a user
    is a sequence of statements without one.  The last part shows what deleting a
    user and expunging messages does to the ledger. *)

From S2P Require Export Uids.

#[local] Arguments delete_where : simpl never.
#[local] Arguments exists_row : simpl never.
#[local] Arguments owned_mailboxes : simpl never.
#[local] Arguments owned_messages : simpl never.
Lemma exec_saved {A} (q : stmt A) s r s' : exec q s = (r, s') -> saved s' = saved s.
Proof.
  unfold exec. destruct (faults s) as [|[] fs]; [|by intros [= _ <-]|];
    destruct (q (db s)) as [[??]|]; by intros [= _ <-].
Qed.

Lemma exec_Err {A} (q : stmt A) s e s' : exec q s = (Err e, s') -> db s' = db s.
Proof.
  unfold exec. destruct (faults s) as [|[] fs]; [|by intros [= _ <-]|];
    destruct (q (db s)) as [[??]|]; intros ?; by simplify_eq.
Qed.

Lemma execute_Ok f s u s' :
  execute f s = (Ok u, s') -> f (db s) = Ok (db s') /\ saved s' = saved s.
Proof.
  unfold execute, exec. destruct (faults s) as [|[] fs]; [|done|];
    destruct (f (db s)) eqn:E; intros ?; by simplify_eq.
Qed.

(** What is left of the database when a user has been erased. *)
Definition erase (uid : Z) (name : str) (d : Db) : Db :=
  mkDb (delete_where (fun r => u_id r =? uid)%Z (users d))
    (delete_where (fun r => k_user_id r =? uid)%Z (keyring_entries d))
    (delete_where (fun r => s_user_id r =? uid)%Z (shares d))
    (delete_where (fun r => mb_user_id r =? uid)%Z (mailboxes d))
    (delete_where (fun r => bool_decide (ms_mailbox_id r ∈ owned_mailboxes uid d)) (messages d))
    (settings d)
    (delete_where (fun r =>
       match t_message_row_id r with
       | Some i => bool_decide (i ∈ owned_messages uid d)
       | None => false
       end || like (name ++ #"@%") (t_sender_mailbox r)) (transactions d)).

Lemma exists_deleted {R} (p : R -> bool) rows : exists_row p (delete_where p rows) = false.
Proof. apply exists_row_false. by intros r [_ Hr]%elem_of_delete_where. Qed.

Lemma exists_deleted_messages uid d :
  exists_row (fun m => bool_decide (ms_mailbox_id m ∈ owned_mailboxes uid d))
    (delete_where (fun r => bool_decide (ms_mailbox_id r ∈ owned_mailboxes uid d)) (messages d)) = false.
Proof. apply exists_deleted. Qed.

(** The six statements in a row. *)
Lemma delete_owned_Ok u s r s' :
  delete_owned u s = (r, s') ->
  saved s' = saved s /\ forall x, r = Ok x -> db s' = erase (user_id u) (user_username u) (db s).
Proof.
  unfold delete_owned. intros Hm.
  assert (Hsaved : saved s' = saved s).
  { revert Hm. unfold delete_keyring, delete_shares, delete_transactions, delete_messages,
      delete_mailboxes, delete_users, execute, mbind, st_bind.
    repeat match goal with
    | |- context [exec ?q ?s] =>
        let E := fresh in destruct (exec q s) as [[?|?] ?] eqn:E; apply exec_saved in E
    end; intros ?; simplify_eq; congruence. }
  split; [done|]. intros x ->.
  apply st_bind_inv in Hm as (? & s1 & [H1 _]%execute_Ok & Hm).
  apply st_bind_inv in Hm as (? & s2 & [H2 _]%execute_Ok & Hm).
  apply st_bind_inv in Hm as (? & s3 & [H3 _]%execute_Ok & Hm).
  apply st_bind_inv in Hm as (? & s4 & [H4 _]%execute_Ok & Hm).
  apply st_bind_inv in Hm as (? & s5 & [H5 _]%execute_Ok & Hm).
  apply execute_Ok in Hm as [H6 _].
  apply Ok_inj in H1, H2, H3, H4. rewrite <- H4, <- H3, <- H2, <- H1 in H5. cbn in H5.
  match type of H5 with (if ?b then _ else _) = _ => destruct b end; [discriminate H5|].
  apply Ok_inj in H5. rewrite <- H5 in H6. cbn in H6.
  rewrite !exists_deleted in H6. by apply Ok_inj in H6.
Qed.

(** Without faults they all succeed. *)
Lemma delete_owned_calm u s :
  faults s = [] ->
  delete_owned u s = (Ok tt, mkStore (erase (user_id u) (user_username u) (db s)) (saved s) []).
Proof.
  intros Hf. destruct s as [d sv fs]. cbn in Hf. subst fs.
  unfold delete_owned, delete_keyring, delete_shares, delete_transactions, delete_messages,
    delete_mailboxes, delete_users, execute.
  do 4 (erewrite st_bind_Ok by (rewrite exec_calm by done; reflexivity)).
  erewrite st_bind_Ok.
  2: { rewrite exec_calm by done. cbn [db saved messages set_messages].
       repeat match goal with |- context [owned_mailboxes ?i ?x] =>
         progress change (owned_mailboxes i x) with (owned_mailboxes i d) end.
       cbn [messages set_transactions set_shares set_keyring].
       rewrite exists_deleted_messages. reflexivity. }
  rewrite exec_calm by done. cbn [db saved keyring_entries shares mailboxes users set_mailboxes set_messages
    set_transactions set_shares set_keyring]. rewrite !exists_deleted. done.
Qed.

Lemma begin_Ok s r s' :
  begin_tx s = (r, s') -> saved s = None ->
  db s' = db s /\ ((r = Ok tt /\ saved s' = Some (db s)) \/ ((exists e, r = Err e) /\ saved s' = None)).
Proof.
  unfold begin_tx. intros Hb Hs. destruct (faults s) as [|[] fs]; rewrite ?Hs in Hb;
    injection Hb as <- <-; cbn; eauto 6.
Qed.

Section user_life.
Context `{RowIdsLaws}.

(** The row of a user. *)
Lemma get_user_calm name s :
  faults s = [] ->
  get_user name s = (Ok (row_to_user <$> head (select (fun r => u_username r ≟ name) (users (db s)))), s).
Proof. intros Hf. unfold get_user. by rewrite query_calm. Qed.

Lemma get_user_Ok name s o s' :
  get_user name s = (Ok o, s') ->
  db s' = db s /\ saved s' = saved s
  /\ o = (row_to_user <$> head (select (fun r => u_username r ≟ name) (users (db s)))).
Proof.
  unfold get_user, query, exec. destruct (faults s) as [|[] fs]; [|done|];
    intros [= <- <-]; done.
Qed.

Lemma row_of_name name d :
  (exists u, u ∈ users d /\ u_username u = name) ->
  exists u, head (select (fun r => u_username r ≟ name) (users d)) = Some u
            /\ u ∈ users d /\ u_username u = name.
Proof.
  intros (u & Hu & Hn). destruct (select (fun r => u_username r ≟ name) (users d)) as [|x l] eqn:E.
  - assert (Hx : u ∈ select (fun r => u_username r ≟ name) (users d))
      by (apply elem_of_select; split; [done | by apply bool_decide_eq_true]).
    rewrite E in Hx. by apply elem_of_nil in Hx.
  - exists x. split; [done|]. assert (Hx : x ∈ select (fun r => u_username r ≟ name) (users d))
      by (rewrite E; apply elem_of_cons; by left).
    apply elem_of_select in Hx as [? ?%bool_decide_eq_true]. done.
Qed.

(** Deleting without faults. *)
Lemma delete_user_calm name s u :
  calm s -> head (select (fun r => u_username r ≟ name) (users (db s))) = Some u ->
  delete_user name s = (Ok tt, mkStore (erase (u_id u) name (db s)) None []).
Proof.
  intros [Hf Hs] Hu. unfold delete_user. erewrite st_bind_Ok by (by apply get_user_calm).
  rewrite Hu. cbn [fmap option_fmap option_map]. unfold mbind, st_bind, begin_tx. rewrite Hf, Hs.
  cbn [tail]. unfold try_with. rewrite delete_owned_calm by done. cbn.
  apply head_select in Hu as [_ ->%bool_decide_eq_true]. done.
Qed.

(** Deleting with faults. *)
Lemma delete_user_steps name s r s' :
  saved s = None -> delete_user name s = (r, s') ->
  (durable s' = db s /\ exists e, r = Err e)
  \/ (r = Ok tt /\ saved s' = None /\ exists u, u ∈ users (db s) /\ u_username u = name
      /\ db s' = erase (u_id u) name (db s)).
Proof.
  intros Hs Hm. unfold delete_user in Hm. unfold mbind at 1, st_bind at 1 in Hm.
  destruct (get_user name s) as [[o|e0] s1] eqn:Eg.
  2: { injection Hm as <- <-. left. split; [|eauto]. unfold durable. unfold get_user, query in Eg.
       rewrite (exec_saved _ _ _ _ Eg), Hs. cbn. by apply exec_Err in Eg. }
  pose proof (get_user_Ok _ _ _ _ Eg) as (Hd1 & Hs1 & Ho).
  destruct o as [u|].
  2: { injection Hm as <- <-. left. split; [|eauto]. unfold durable. by rewrite Hs1, Hs, Hd1. }
  destruct (head (select _ _)) as [ur|] eqn:Eh; [|done]. injection Ho as ->.
  apply head_select in Eh as [Hur Hname%bool_decide_eq_true].
  unfold mbind at 1, st_bind at 1 in Hm. destruct (begin_tx s1) as [rb s2] eqn:Eb.
  destruct (begin_Ok _ _ _ Eb ltac:(congruence)) as (Hd2 & [[-> Hs2]|[[eb ->] Hs2]]).
  2: { injection Hm as <- <-. left. split; [|eauto]. unfold durable. rewrite Hs2. cbn. congruence. }
  unfold try_with in Hm. destruct (delete_owned (row_to_user ur) s2) as [[[]|e1] s3] eqn:Ed;
    destruct (delete_owned_Ok _ _ _ _ Ed) as [Hs3 Hd3].
  - specialize (Hd3 tt eq_refl). unfold commit_tx in Hm. cbn in Hd3. rewrite Hname, Hd2, Hd1 in Hd3.
    destruct (faults s3) as [|[] fs] eqn:Ef3; rewrite ?Hs3, ?Hs2 in Hm; injection Hm as <- <-; cbn; eauto 10.
  - left. unfold rollback_tx, raise in Hm.
    destruct (faults s3) as [|[] fs]; rewrite ?Hs3, ?Hs2 in Hm; injection Hm as <- <-;
      (split; [unfold durable; cbn; congruence | eauto]).
Qed.

Lemma delete_user_Err name s e s' :
  saved s = None -> delete_user name s = (Err e, s') -> durable s' = db s.
Proof. intros Hs [[]|[]]%delete_user_steps; done. Qed.

Lemma delete_user_Ok name s s' :
  saved s = None -> delete_user name s = (Ok tt, s') ->
  saved s' = None /\ exists u, u ∈ users (db s) /\ u_username u = name /\ db s' = erase (u_id u) name (db s).
Proof. intros Hs [[_ [??]]|[_ ?]]%delete_user_steps; done. Qed.

(** The pattern [name@%]. *)
Lemma like_rest cs : like_chars [ #"%" ] cs = true.
Proof. cbn [like_chars]. rewrite str_eqb_refl. induction cs as [|c cs IH]; [done|]. by rewrite IH, orb_true_r. Qed.

Definition plain (s : str) : bool := forallb (fun c => is_ascii c && negb (c ≟ "%"%char) && negb (c ≟ "_"%char)) s.

Lemma plain_ascii s : plain s = true -> forallb is_ascii s = true.
Proof.
  unfold plain. induction s as [|c s IH]; [done|]. cbn. rewrite !andb_true_iff. naive_solver.
Qed.

Lemma like_cons_lit p ps c cs :
  p <> #"%" -> p <> #"_" ->
  like_chars (p :: ps) (c :: cs) = eq_ignore_ascii_case p c && like_chars ps cs.
Proof. intros H1 H2. cbn. by rewrite !bool_decide_eq_false_2. Qed.

Lemma like_plain_app p q ps cs :
  plain p = true ->
  like_chars (map (fun c => [c]) p ++ q) (ps ++ cs) = true ->
  length ps = length p ->
  Forall2 (fun c ch => eq_ignore_ascii_case [c] ch = true) p ps /\ like_chars q cs = true.
Proof.
  revert ps. induction p as [|c p IH]; intros [|ch ps] Hp Hl Hlen; try done.
  unfold plain in Hp. cbn [forallb] in Hp. rewrite !andb_true_iff, !negb_true_iff, !bool_decide_eq_false in Hp.
  destruct Hp as [[[_ H1] H2] Hp]. cbn [map app] in Hl.
  rewrite like_cons_lit in Hl by (intros Heq; injection Heq; done).
  apply andb_true_iff in Hl as [He Hl]. injection Hlen as Hlen.
  destruct (IH ps Hp Hl Hlen). eauto.
Qed.

Lemma like_length p q cs :
  plain p = true -> like_chars (map (fun c => [c]) p ++ q) cs = true ->
  exists ps rest, cs = ps ++ rest /\ length ps = length p.
Proof.
  revert cs. induction p as [|c p IH]; intros cs Hp Hl; [by exists [], cs|].
  unfold plain in Hp. cbn [forallb] in Hp. rewrite !andb_true_iff, !negb_true_iff, !bool_decide_eq_false in Hp.
  destruct Hp as [[[_ H1] H2] Hp]. destruct cs as [|ch cs].
  - cbn in Hl. rewrite bool_decide_eq_false_2 in Hl by (intros Heq; injection Heq; done). done.
  - cbn [map app] in Hl. rewrite like_cons_lit in Hl by (intros Heq; injection Heq; done).
    apply andb_true_iff in Hl as [_ Hl]. destruct (IH cs Hp Hl) as (ps & rest & -> & Hn).
    exists (ch :: ps), rest. split; [done|]. cbn. by rewrite Hn.
Qed.

Lemma eq_ignore_cons c d s t :
  eq_ignore_ascii_case (c :: s) (d :: t) = eq_ignore_ascii_case [c] [d] && eq_ignore_ascii_case s t.
Proof.
  apply eq_true_iff_eq. unfold eq_ignore_ascii_case. rewrite andb_true_iff, !bool_decide_eq_true. cbn.
  unfold to_ascii_lowercase. split; [intros Hx; injection Hx as -> ->; done|].
  intros [Hx ->]. injection Hx as ->. done.
Qed.

Lemma like_self p a q cs :
  plain p = true -> eq_ignore_ascii_case p a = true ->
  like_chars (map (fun c => [c]) p ++ q) (map (fun c => [c]) a ++ cs) = like_chars q cs.
Proof.
  revert a. induction p as [|c p IH]; intros [|d a] Hp He; try done.
  unfold plain in Hp. cbn [forallb] in Hp. rewrite !andb_true_iff, !negb_true_iff, !bool_decide_eq_false in Hp.
  destruct Hp as [[[_ H1] H2] Hp]. rewrite eq_ignore_cons, andb_true_iff in He. destruct He as [He1 He].
  cbn [map app]. rewrite like_cons_lit by (intros Heq; injection Heq; done). rewrite He1. by apply IH.
Qed.

Lemma lower_is_ascii c : is_ascii (to_ascii_lower_byte c) = is_ascii c.
Proof. by destruct c as [[] [] [] [] [] [] [] []]. Qed.
Lemma lower_ascii c d :
  to_ascii_lower_byte c = to_ascii_lower_byte d -> is_ascii c = true -> is_ascii d = true.
Proof. intros Hcd. by rewrite <- lower_is_ascii, Hcd, lower_is_ascii. Qed.

Lemma same_case_ascii a b :
  eq_ignore_ascii_case a b = true -> forallb is_ascii a = true -> forallb is_ascii b = true.
Proof.
  unfold eq_ignore_ascii_case, to_ascii_lowercase. rewrite bool_decide_eq_true. revert b.
  induction a as [|c a IH]; intros [|d b] He; try done. injection He as H1 H2. cbn.
  rewrite !andb_true_iff. intros [Hc Ha]. split; [by eapply lower_ascii | by apply IH].
Qed.

Lemma chars_ascii s : forallb is_ascii s = true -> chars s = map (fun c => [c]) s.
Proof. intros Hs. unfold chars. rewrite chunks_ascii by done. by rewrite map_map. Qed.

Lemma same_case_concat p ps :
  Forall2 (fun c ch => eq_ignore_ascii_case [c] ch = true) p ps ->
  eq_ignore_ascii_case p (concat ps) = true.
Proof.
  induction 1 as [|c ch p ps Hc _ IH]; [done|]. cbn.
  destruct ch as [|d [|? ?]]; try by (unfold eq_ignore_ascii_case in Hc; apply bool_decide_eq_true in Hc).
  cbn. by rewrite eq_ignore_cons, Hc, IH.
Qed.

Lemma same_case_app a b :
  eq_ignore_ascii_case (a ++ [b_at]) b = true ->
  b = take (length a) b ++ [b_at] /\ eq_ignore_ascii_case a (take (length a) b) = true.
Proof.
  revert b. induction a as [|c a IH]; intros [|d b] Hb.
  - done.
  - cbn [app] in Hb. rewrite eq_ignore_cons, andb_true_iff in Hb. destruct Hb as [Hd Hb].
    destruct b; [|done]. split; [|done]. cbn. f_equal.
    by destruct d as [[] [] [] [] [] [] [] []].
  - by destruct a.
  - cbn [app] in Hb. rewrite eq_ignore_cons, andb_true_iff in Hb. destruct Hb as [Hd Hb].
    destruct (IH b Hb) as (Hx & Hy). cbn. split; [by f_equal|].
    by rewrite eq_ignore_cons, Hd.
Qed.

(** For a name without wildcards the pattern finds the senders whose local part is
    the name, up to the case of ASCII letters. *)
Lemma like_name name sender :
  plain name = true ->
  like (name ++ #"@%") sender = true <->
  exists a dom, sender = a ++ b_at :: dom /\ eq_ignore_ascii_case name a = true.
Proof.
  intros Hp. assert (Hpa : plain (name ++ [b_at]) = true)
    by (unfold plain; by rewrite forallb_app, andb_true_iff).
  assert (Hpat : chars (name ++ #"@%") = map (fun c => [c]) (name ++ [b_at]) ++ [ #"%" ]).
  { rewrite chars_app by (by apply utf8_valid_ascii, plain_ascii).
    rewrite (chars_ascii name), map_app by (by apply plain_ascii). by rewrite <- app_assoc. }
  unfold like. rewrite Hpat. split.
  - intros Hl. destruct (like_length _ _ _ Hpa Hl) as (ps & rest & Hcs & Hlen). rewrite Hcs in Hl.
    destruct (like_plain_app _ _ _ _ Hpa Hl Hlen) as [HF _]. apply same_case_concat in HF.
    destruct (same_case_app _ _ HF) as (Heq & Hc).
    exists (take (length name) (concat ps)), (concat rest). split; [|done].
    rewrite <- (chars_concat sender), Hcs, concat_app, Heq at 1. by rewrite <- app_assoc.
  - intros (a & dom & -> & Hc). assert (Ha : forallb is_ascii a = true)
      by (eapply same_case_ascii; [exact Hc | by apply plain_ascii]).
    replace (a ++ b_at :: dom) with ((a ++ [b_at]) ++ dom) by (by rewrite <- app_assoc).
    assert (Haa : forallb is_ascii (a ++ [b_at]) = true) by (by rewrite forallb_app, Ha).
    rewrite chars_app, (chars_ascii (a ++ _)) by (done || by apply utf8_valid_ascii).
    rewrite like_self; [apply like_rest | done |]. clear - Hc. revert a Hc.
    induction name as [|c n IH]; intros [|d a] Hc; try done.
    cbn [app]. rewrite eq_ignore_cons, andb_true_iff in Hc |- *. destruct Hc. split; [done|by apply IH].
Qed.

(** A connection in an open transaction stays in it, whatever is called. *)
Lemma exec_open d {A} (q : stmt A) : holds (fun s => saved s = Some d) (exec q).
Proof. intros s r s' Hs Hx. by rewrite (exec_saved _ _ _ _ Hx). Qed.

Lemma open_run_ops d os s : saved s = Some d -> saved (run_ops os s) = Some d.
Proof.
  revert s. induction os as [|o os IH]; intros s Hs; cbn; [done|]. apply IH.
  destruct (run_op o s) as [r s1] eqn:E. cbn. destruct (ordinary o) eqn:Ho.
  - eapply (holds_run_op _ (fun A q => exec_open d q)); [exact Ho | exact Hs | exact E].
  - destruct o; try discriminate Ho. cbn [run_op] in E. revert E. unfold delete_user, mbind, st_bind.
    destruct (get_user username s) as [[[u|]|e] s0] eqn:Eg.
    + unfold get_user, query in Eg. apply exec_saved in Eg. unfold begin_tx.
      destruct (faults s0) as [|[] fs]; rewrite ?Eg, ?Hs; intros [= _ <-]; cbn; congruence.
    + unfold get_user, query in Eg. apply exec_saved in Eg. intros [= _ <-]. congruence.
    + unfold get_user, query in Eg. apply exec_saved in Eg. intros [= _ <-]. congruence.
Qed.

(** *** Creating a user *)

Lemma update_fresh {R} (p : R -> bool) f rows r :
  (forall x, x ∈ rows -> p x = false) -> p r = true ->
  update_where p f (rows ++ [r]) = rows ++ [f r].
Proof.
  intros Hn Hr. unfold update_where. rewrite map_app. cbn. rewrite Hr. f_equal.
  induction rows as [|x l IH]; [done|]. cbn. rewrite Hn by (by apply elem_of_cons; left).
  f_equal. apply IH. intros y Hy. apply Hn, elem_of_cons. by right.
Qed.

(** The rows a new user gets. *)
Definition new_uid (d : Db) : Z := next_rowid (map u_id (users d)).
Definition new_user_row (now : Z) (name hash pk : str) (ivk reg : option str) (d : Db) : user_row :=
  mkUserRow (new_uid d) name hash pk now ivk reg.
Definition new_box (now : Z) (name : str) (uid : Z) (boxes : list mailbox_row) : mailbox_row :=
  mkMailboxRow (next_rowid (map mb_id boxes)) uid name (wrap 32 now) 1.
Definition created (now : Z) (name hash pk : str) (ivk reg : option str) (d : Db) : Db :=
  let boxes := mailboxes d ++ [new_box now INBOX (new_uid d) (mailboxes d)] in
  set_mailboxes (set_users d (users d ++ [new_user_row now name hash pk ivk reg d]))
    (boxes ++ [new_box now SENT (new_uid d) boxes]).

Lemma new_uid_fresh d r : r ∈ users d -> (u_id r =? new_uid d)%Z = false.
Proof.
  intros Hr. apply Z.eqb_neq. intros Heq. apply (next_rowid_fresh (map u_id (users d))).
  fold (new_uid d). rewrite <- Heq. by apply (list_elem_of_fmap_2 u_id).
Qed.

Lemma new_uid_no_box d r : wf_db d -> r ∈ mailboxes d -> (mb_user_id r =? new_uid d)%Z = false.
Proof.
  intros Hd Hr. pose proof (fk_mailboxes _ Hd r Hr) as (u & Heq & Hu)%list_elem_of_fmap.
  rewrite Heq. by apply new_uid_fresh.
Qed.

Lemma insert_mailbox_Ok uid name v d :
  (forall r, r ∈ mailboxes d -> (mb_user_id r =? uid)%Z && (mb_name r ≟ name) = false) ->
  uid ∈ map u_id (users d) ->
  insert_mailbox uid name v d = Ok (tt, set_mailboxes d (mailboxes d ++
    [mkMailboxRow (next_rowid (map mb_id (mailboxes d))) uid name v 1])).
Proof.
  intros Hb Hu. unfold insert_mailbox. rewrite (proj2 (exists_row_false _ _) Hb).
  assert (Hx : exists_row (fun r => u_id r =? uid)%Z (users d) = true).
  { apply list_elem_of_fmap in Hu as (u & -> & Hu). apply exists_row_true. exists u. by rewrite Z.eqb_refl. }
  by rewrite Hx.
Qed.

Lemma create_calm now name hash pk ivk reg d sv :
  wf_db d -> exists_row (fun r => u_username r ≟ name) (users d) = false ->
  create_user_full now name hash pk ivk reg (mkStore d sv []) =
  (Ok (mkUser (new_uid d) name pk ivk reg), mkStore (created now name hash pk ivk reg d) sv []).
Proof.
  intros Hd He. unfold create_user_full. unfold mbind at 1, st_bind at 1. rewrite exec_calm by done.
  cbn [db]. unfold insert_user at 1. rewrite He. cbn [saved]. fold (new_uid d).
  set (d1 := fun i r => set_users d (users d ++ [new_user_row now name hash pk i r d])).
  fold (new_user_row now name hash pk None None d). change (set_users d _) with (d1 None None).
  assert (Hup : forall f i r i' r', f (new_user_row now name hash pk i r d) = new_user_row now name hash pk i' r' d ->
    exists n, update_users (fun r => u_id r =? new_uid d)%Z f (mkStore (d1 i r) sv []) = (Ok n, mkStore (d1 i' r') sv [])).
  { intros f i r i' r' Hf. unfold update_users, execute_n. rewrite exec_calm by done. cbn [db saved d1 users set_users].
    rewrite update_fresh; [|by intros; apply new_uid_fresh|apply Z.eqb_refl]. rewrite Hf. by eexists. }
  erewrite (st_bind_Ok _ _ _ tt (mkStore (d1 ivk None) sv [])).
  2: { destruct ivk as [i|]; [|done].
       destruct (Hup (with_ivk (Some i)) None None (Some i) None eq_refl) as [n Hn].
       by erewrite st_bind_Ok by exact Hn. }
  erewrite (st_bind_Ok _ _ _ tt (mkStore (d1 ivk reg) sv [])).
  2: { destruct reg as [i|]; [|done].
       destruct (Hup (with_registration (Some i)) ivk None ivk (Some i) eq_refl) as [n Hn].
       by erewrite st_bind_Ok by exact Hn. }
  assert (Huid : new_uid d ∈ map u_id (users (d1 ivk reg)))
    by (cbn; rewrite map_app; apply elem_of_app; right; by apply list_elem_of_singleton).
  cbn zeta. erewrite st_bind_Ok.
  2: { rewrite exec_calm by done. cbn [db]. rewrite insert_mailbox_Ok; [reflexivity| |done].
       intros r Hr. apply andb_false_iff. left. by apply new_uid_no_box. }
  erewrite st_bind_Ok.
  2: { rewrite exec_calm by done. cbn [db]. rewrite insert_mailbox_Ok; [reflexivity| |done].
       cbn [mailboxes set_mailboxes]. intros r [Hr|Hr%list_elem_of_singleton]%elem_of_app.
       - apply andb_false_iff. left. by apply new_uid_no_box.
       - subst r. cbn [mb_name]. apply andb_false_iff. right. by apply bool_decide_eq_false. }
  done.
Qed.

Lemma select_fresh {R} (p : R -> bool) rows r :
  (forall x, x ∈ rows -> p x = false) -> p r = true -> select p (rows ++ [r]) = [r].
Proof. intros Hn Hr. rewrite select_app, select_none, select_one by done. done. Qed.

Lemma created_box now name hash pk ivk reg d box :
  wf_db d -> box ∈ [INBOX; SENT] ->
  exists b, find_box (new_uid d) box (created now name hash pk ivk reg d) = Some b
    /\ mb_uidnext b = 1%Z /\ mb_id b ∉ map mb_id (mailboxes d).
Proof.
  intros Hd Hbox. unfold find_box. cbn [created mailboxes set_mailboxes].
  set (bs := mailboxes d ++ _). set (b1 := new_box now INBOX _ _) in *. set (b2 := new_box now SENT _ _).
  assert (Hold : forall n r, r ∈ mailboxes d -> (mb_user_id r =? new_uid d)%Z && (mb_name r ≟ n) = false)
    by (intros n r Hr; apply andb_false_iff; left; by apply new_uid_no_box).
  apply elem_of_cons in Hbox as [->|Hbox%list_elem_of_singleton].
  - exists b1. rewrite select_app. unfold bs. rewrite (select_fresh _ _ b1); [|by apply Hold|].
    2: { cbn. by rewrite Z.eqb_refl, str_eqb_refl. }
    split; [done|]. split; [done|]. apply next_rowid_fresh.
  - subst box. exists b2. rewrite (select_fresh _ bs b2).
    + split; [done|]. split; [done|]. cbn. intros Hin. apply (next_rowid_fresh (map mb_id bs)).
      unfold bs at 2. rewrite map_app. apply elem_of_app. by left.
    + intros r [Hr|Hr%list_elem_of_singleton]%elem_of_app; [by apply Hold|]. subst r.
      apply andb_false_iff. right. by apply bool_decide_eq_false.
    + cbn. by rewrite Z.eqb_refl, str_eqb_refl.
Qed.

(** ** Properties *)


(** Which ledger rows a deletion takes. For a name without wildcard characters
    they are the rows of the user's own messages and those whose sender's local part
    is the name, up to the case of ASCII letters. But the name goes into a LIKE
    pattern unescaped: deleting a user whose name has an underscore also erases the
    rows of every sender whose name has any other ASCII character in its place. *)
Theorem delete_user_ledger name u s :
  calm s -> head (select (fun r => u_username r ≟ name) (users (db s))) = Some u ->
  exists s', delete_user name s = (Ok tt, s')
  /\ (plain name = true -> forall t, t ∈ transactions (db s') <->
       t ∈ transactions (db s)
       /\ (forall i, t_message_row_id t = Some i -> i ∉ owned_messages (u_id u) (db s))
       /\ ~ exists a dom, t_sender_mailbox t = a ++ b_at :: dom /\ eq_ignore_ascii_case name a = true)
  /\ forall pre c post, name = pre ++ #"_" ++ post -> plain pre = true -> plain post = true ->
       is_ascii c = true ->
       forall t dom, t_sender_mailbox t = pre ++ [c] ++ post ++ [b_at] ++ dom -> t ∉ transactions (db s').
Proof.
  intros Hc Hu. rewrite (delete_user_calm _ _ _ Hc Hu). eexists. split; [done|]. cbn [db erase transactions].
  split.
  - intros Hp t. rewrite elem_of_delete_where, orb_false_iff, <- (like_name name _ Hp), not_true_iff_false.
    destruct (t_message_row_id t) as [i|]; [rewrite bool_decide_eq_false|]; naive_solver.
  - intros pre c post -> Hp1 Hp2 Hasc t dom Ht [_ Hd]%elem_of_delete_where.
    apply orb_false_iff in Hd as [_ Hd]. unfold like in Hd.
    assert (Hpp : plain (post ++ [b_at]) = true)
      by (unfold plain; rewrite forallb_app; by apply andb_true_iff).
    replace ((pre ++ #"_" ++ post) ++ #"@%") with (pre ++ #"_" ++ (post ++ [b_at]) ++ #"%") in Hd
      by (by rewrite <- !app_assoc).
    replace (t_sender_mailbox t) with (pre ++ [c] ++ (post ++ [b_at]) ++ dom) in Hd
      by (by rewrite Ht, <- !app_assoc).
    assert (Hch : forall a b, forallb is_ascii a = true -> chars (a ++ b) = map (fun c => [c]) a ++ chars b).
    { intros a b Ha. rewrite chars_app by (by apply utf8_valid_ascii). by rewrite chars_ascii. }
    rewrite !(Hch pre), (Hch #"_"), (Hch [c]), !(Hch (post ++ _)) in Hd
      by first [by apply plain_ascii | reflexivity | by apply andb_true_iff].
    rewrite like_self in Hd by (done || apply str_eqb_refl).
    change (map (fun c => [c]) #"_" ++ ?x) with (#"_" :: x) in Hd. cbn [map app] in Hd.
    assert (Hx : forall ps ch cs, like_chars (#"_" :: ps) (ch :: cs) = like_chars ps cs).
    { intros. cbn [like_chars]. rewrite str_eqb_refl.
      rewrite bool_decide_eq_false_2 by (intros Heq; vm_compute in Heq; discriminate Heq). done. }
    rewrite Hx, like_self in Hd by (done || apply str_eqb_refl).
    by rewrite like_rest in Hd.
Qed.

(** A COMMIT that fails loses what comes after it. If all statements of a deletion
    succeed and only COMMIT fails, the error is reported with the transaction still
    open: every later operation on the connection works inside it, none of their
    writes reach the disk, and no other deletion can begin. *)
Theorem failed_commit_loses_writes name s u :
  saved s = None -> faults s = replicate 8 false ++ [true] ->
  head (select (fun r => u_username r ≟ name) (users (db s))) = Some u ->
  exists s', delete_user name s = (Err (Storage SqlFailure), s')
  /\ db s' = erase (u_id u) name (db s)
  /\ (forall os, durable (run_ops os s') = db s)
  /\ (forall k v s2 s3, set_setting k v s' = (Ok tt, s2) -> get_setting k s2 = (Ok (Some v), s3) ->
        durable s3 = db s)
  /\ (forall other x, head (select (fun r => u_username r ≟ other) (users (db s'))) = Some x ->
        fst (delete_user other s') = Err (Storage TransactionState)).
Proof.
  intros Hs Hf Hu. destruct s as [d sv fs]. cbn in Hs, Hf, Hu. subst sv fs.
  exists (mkStore (erase (u_id u) name d) (Some d) []).
  assert (Hdel : delete_user name (mkStore d None (replicate 8 false ++ [true]))
    = (Err (Storage SqlFailure), mkStore (erase (u_id u) name d) (Some d) [])).
  { pose proof Hu as [_ Hn%bool_decide_eq_true]%head_select.
    unfold delete_user. erewrite st_bind_Ok by apply query_pass. rewrite Hu.
    cbn [fmap option_fmap option_map]. unfold mbind at 1, st_bind at 1. cbn [begin_tx faults saved tail db replicate app].
    unfold try_with.
    assert (Hown : delete_owned (row_to_user u) (mkStore d (Some d) (replicate 6 false ++ [true]))
      = (Ok tt, mkStore (erase (u_id u) name d) (Some d) [true])).
    { unfold delete_owned, delete_keyring, delete_shares, delete_transactions, delete_messages,
        delete_mailboxes, delete_users, execute. cbn [replicate app].
      do 4 (erewrite st_bind_Ok by (rewrite exec_pass; reflexivity)).
      erewrite st_bind_Ok.
      2: { rewrite exec_pass. cbn [messages set_messages].
           repeat match goal with |- context [owned_mailboxes ?i ?x] =>
             progress change (owned_mailboxes i x) with (owned_mailboxes i d) end.
           cbn [messages set_transactions set_shares set_keyring].
           rewrite exists_deleted_messages. reflexivity. }
      rewrite exec_pass. cbn [keyring_entries shares mailboxes users set_mailboxes set_messages
        set_transactions set_shares set_keyring]. rewrite !exists_deleted. cbn. by rewrite Hn. }
    change [false; false; false; false; false; false; true] with (replicate 6 false ++ [true]).
    by rewrite Hown. }
  split; [exact Hdel|]. split; [done|]. split; [|split].
  - intros os. unfold durable. by rewrite (open_run_ops d).
  - intros k v s2 s3 H2 H3. unfold set_setting, execute in H2. unfold get_setting, query in H3.
    apply exec_saved in H2, H3. unfold durable. by rewrite H3, H2.
  - intros other x Hx. unfold delete_user. erewrite st_bind_Ok by (by apply get_user_calm).
    by rewrite Hx.
Qed.

(** Creating a user. When nothing fails a new name gets a row that [get_user]
    finds with the given data and the mailboxes INBOX and Sent, both empty with the
    first UID to give out 1 and the creation time as validity; a taken name is
    refused without any change. The statements are not in a transaction: when the
    one for INBOX fails the user row stays, the name can not be registered again
    and its mail is refused. *)
Theorem create_user_spec now name hash pk ivk reg d :
  wf_db d ->
  (forall s', create_user_full now name hash pk ivk reg (mkStore d None []) = (Err (Storage UniqueViolation), s')
     <-> s' = mkStore d None [] /\ exists_row (fun r => u_username r ≟ name) (users d) = true)
  /\ (exists_row (fun r => u_username r ≟ name) (users d) = false ->
     (exists u s', create_user_full now name hash pk ivk reg (mkStore d None []) = (Ok u, s')
       /\ get_user name s' = (Ok (Some u), s')
       /\ u = mkUser (user_id u) name pk ivk reg
       /\ password_hash name s' = (Ok (Some hash), s')
       /\ forall box, box ∈ [INBOX; SENT] ->
            uidnext_in (user_id u) box s' = (Ok 1%Z, s') /\ list_messages_in (user_id u) box s' = (Ok [], s'))
     /\ exists s', create_user_full now name hash pk None None (mkStore d None [false; true])
                    = (Err (Storage SqlFailure), s')
       /\ (exists u, get_user name s' = (Ok (Some u), s')
            /\ forall t m, append_message t (user_id u) m s' = (Err MailboxNotFound, s'))
       /\ fst (create_user_full now name hash pk ivk reg s') = Err (Storage UniqueViolation)).
Proof.
  intros Hd. destruct (exists_row _ (users d)) eqn:He.
  - assert (Hx : create_user_full now name hash pk ivk reg (mkStore d None [])
      = (Err (Storage UniqueViolation), mkStore d None [])).
    { unfold create_user_full. unfold mbind at 1, st_bind at 1. rewrite exec_calm by done.
      cbn [db]. unfold insert_user. by rewrite He. }
    split; [|done]. intros s'. rewrite Hx. naive_solver.
  - rewrite create_calm by done. split; [naive_solver|]. intros _. rewrite exists_row_false in He. split.
    + do 2 eexists. split; [reflexivity|].
      assert (Hsel : select (fun r => u_username r ≟ name) (users (created now name hash pk ivk reg d))
        = [new_user_row now name hash pk ivk reg d]) by (by apply select_fresh; [|apply str_eqb_refl]).
      rewrite get_user_calm by done. cbn [db]. rewrite Hsel. split; [done|]. split; [done|].
      unfold password_hash. rewrite query_calm by done. cbn [db]. rewrite Hsel. split; [done|].
      intros box Hbox. destruct (created_box now name hash pk ivk reg d box Hd Hbox) as (b & Hb & Hn & Hid).
      unfold uidnext_in, list_messages_in, mbind, st_bind. rewrite mailbox_named_calm by done.
      cbn [db user_id]. rewrite Hb. rewrite Hn. split; [done|]. rewrite query_calm by done. cbn [db].
      rewrite select_none; [done|]. intros m Hm. apply Z.eqb_neq. intros Heq.
      pose proof (fk_messages _ Hd m Hm) as Hf. by rewrite Heq in Hf.
    + exists (mkStore (set_users d (users d ++ [new_user_row now name hash pk None None d])) None []).
      split.
      { unfold create_user_full. unfold mbind at 1, st_bind at 1. rewrite exec_pass.
        unfold insert_user. by rewrite (proj2 (exists_row_false _ _) He). }
      assert (Hsel : select (fun r => u_username r ≟ name) (users d ++ [new_user_row now name hash pk None None d])
        = [new_user_row now name hash pk None None d]) by (by apply select_fresh; [|apply str_eqb_refl]).
      split.
      * eexists. rewrite get_user_calm by done. cbn [db users set_users]. rewrite Hsel. split; [reflexivity|].
        intros t m. unfold append_message. rewrite append_calm by done. unfold find_box.
        cbn [db mailboxes set_users row_to_user user_id u_id new_user_row].
        rewrite select_none; [done|]. intros r Hr. by rewrite new_uid_no_box.
      * unfold create_user_full. unfold mbind at 1, st_bind at 1. rewrite exec_calm by done.
        cbn [db]. unfold insert_user.
        assert (Hx : exists_row (fun r => u_username r ≟ name)
          (users (set_users d (users d ++ [new_user_row now name hash pk None None d]))) = true); [|by rewrite Hx].
        apply exists_row_true. eexists. split; [apply elem_of_app; right; by apply list_elem_of_singleton|].
        apply str_eqb_refl.
Qed.

End user_life.
