(* ===== verification/ToyStore.v ===== *)
(** * A small concrete store

    Row ids one above the largest, two users, some messages: the inputs on which
    the theorems about the store are applied. *)

From S2P Require Export UserLife.

Module ToyStore.

#[export] Instance rowids : RowIds := {| next_rowid := max_rowid |}.

Lemma le_max_rowid ids x : x ∈ ids -> (x < max_rowid ids)%Z.
Proof.
  unfold max_rowid. induction ids as [|y ids IH]; [by intros ?%elem_of_nil|].
  cbn. intros [->|Hx]%elem_of_cons; [lia|]. specialize (IH Hx). lia.
Qed.

#[export] Instance rowids_laws : RowIdsLaws.
Proof. constructor. intros ids Hin%le_max_rowid. cbn in Hin. lia. Qed.

Definition start : Store := mkStore empty_db None [].
Definition alice : str := #"alice".
Definition under : str := #"b_b".

(** Two users; [under] has a wildcard in the name, and "bob" has sent an invoice. *)
Definition ops0 : list Op :=
  [OpCreateUser 1000 alice #"h1" #"k1" None None;
   OpCreateUser 1001 under #"h2" #"k2" (Some #"ivk") None;
   OpTxCreate 1002 (mkNewTx Out Sent #"bob@a.org" #"x@y.org" #"5" None #"m-out" None #"sealed")].
Definition store0 : Store := run_ops ops0 start.
Definition m1 : NewMessage := new_invoice #"m1" #"s1" #"body one".
Definition m2 : NewMessage := new_invoice #"m2" #"s2" #"body two".

Lemma start_inv : inv wf_db start.
Proof.
  split; [|done].
  constructor; first [exact (NoDup_nil_2 (A := _)) | intros r Hr; by apply elem_of_nil in Hr].
Qed.

Lemma start_uid_inv : uid_inv (db start).
Proof.
  constructor; [exact (proj1 start_inv)| |exact (NoDup_nil_2 (A := _))].
  intros r b Hr. by apply elem_of_nil in Hr.
Qed.

Lemma store0_inv : inv wf_db store0.
Proof.
  unfold store0. generalize ops0. intros os. generalize start_inv. generalize start.
  induction os as [|o os IH]; intros s Hs; cbn; [done|].
  apply IH. destruct (run_op o s) as [r s'] eqn:E. by eapply pres_op.
Qed.

Lemma run_ops_uid os s :
  calm s -> Forall (fun o => ordinary o = true) os -> inv uid_inv s -> inv uid_inv (run_ops os s).
Proof.
  revert s. induction os as [|o os IH]; intros s Hc Hos Hi; cbn; [done|].
  apply Forall_cons in Hos as [Ho Hos]. destruct (run_op_grows o s Hc Ho Hi) as (Hi' & _ & Hc').
  by apply IH.
Qed.

Lemma store0_uid_inv : uid_inv (db store0).
Proof.
  refine (proj1 (run_ops_uid ops0 start _ _ _)); [done|by repeat constructor|].
  split; [apply start_uid_inv|done].
Qed.

Lemma store0_shape : faults store0 = [] /\ saved store0 = None.
Proof. by vm_compute. Qed.

Lemma counters_bounded d :
  forallb (fun b => (0 <=? mb_uidnext b)%Z && (mb_uidnext b <=? u32_max)%Z) (mailboxes d) = true ->
  forall b, b ∈ mailboxes d -> (0 <= mb_uidnext b <= u32_max)%Z.
Proof.
  intros Hall b Hb. apply (forallb_all _ _ Hall) in Hb.
  apply andb_true_iff in Hb as [?%Z.leb_le ?%Z.leb_le]. done.
Qed.

(** ** The theorems at work *)

Lemma schema_always_holds_witness : inv wf_db (run_ops [OpAppend 5 1 INBOX m1; OpDeleteUser alice] store0).
Proof. apply schema_always_holds. exact store0_inv. Defined.

Definition s1 : Store := snd (append_message_to 2000 1 INBOX m1 store0).
Definition between_ops : list Op := [OpSetFlags 1 INBOX 1 DELETED true; OpExpunge 1 INBOX].
Definition s3 : Store := snd (append_message_to 2001 1 INBOX m2 (run_ops between_ops s1)).
Definition meta_1 : MessageMeta := mkMeta 1 #"m1" 1 1000 2000 0 #"s1" 8 [] #"unverified" None None.
Definition meta_2 : MessageMeta := mkMeta 1 #"m2" 2 1000 2001 0 #"s2" 8 [] #"unverified" None None.


Lemma append_then_fetch_witness :
  fetch_message_in 1 INBOX 1 s1 = (Ok (mkMessage meta_1 #"body one"), s1)
  /\ append_message_to 2000 1 INBOX m1 s1 = (Err (DuplicateMessage #"m1"), s1).
Proof.
  pose proof (append_then_fetch 2000 1 INBOX m1 store0) as Hx.
  destruct store0_shape as [Hf _].
  assert (Ha : append_message_to 2000 1 INBOX m1 store0 = (Ok meta_1, s1)) by (by vm_compute).
  rewrite Ha in Hx. apply Hx; [exact Hf | lia | by vm_compute | by vm_compute |].
  intros t Ht. assert (Hall : forallb (fun t => t_message_row_id t ≟ None) (transactions (db store0)) = true)
    by (by vm_compute).
  apply (forallb_all _ _ Hall), bool_decide_eq_true in Ht. by rewrite Ht.
Defined.

Definition box1 : mailbox_row := mkMailboxRow 1 1 INBOX 1000 1.

Lemma failed_counter_reuses_uid_witness :
  exists s1 meta s2 r1 r2,
    append_message_to 1 1 INBOX m1 (mkStore (db store0) None [false; false; false; true])
    = (Err (Storage SqlFailure), s1)
    /\ append_message_to 2 1 INBOX m2 s1 = (Ok meta, s2)
    /\ r1 ∈ messages (db s2) /\ ms_message_id r1 = nm_message_id m1
    /\ r2 ∈ messages (db s2) /\ ms_message_id r2 = nm_message_id m2
    /\ ms_mailbox_id r1 = ms_mailbox_id r2 /\ ms_uid r1 = ms_uid r2.
Proof.
  apply (failed_counter_reuses_uid 1 2 1 INBOX m1 m2 (db store0) box1);
    [exact (proj1 store0_inv) | by vm_compute | by vm_compute | by vm_compute | done].
Defined.

Lemma interleaved_appends_witness :
  (exists s' meta1 meta2 r1 r2,
    rtc step (mkConfig (mkStore (db store0) None []) [Waiting 1 1 INBOX m1; Waiting 2 1 INBOX m2])
      (mkConfig s' [Returned (Ok meta1); Returned (Ok meta2)])
    /\ r1 ∈ messages (db s') /\ ms_message_id r1 = nm_message_id m1
    /\ r2 ∈ messages (db s') /\ ms_message_id r2 = nm_message_id m2
    /\ ms_mailbox_id r1 = ms_mailbox_id r2 /\ ms_uid r1 = ms_uid r2)
  /\ forall fs calls c', rtc step (mkConfig (mkStore (db store0) None fs) calls) c' -> wf_db (db (cf_store c')).
Proof.
  apply (interleaved_appends 1 2 1 INBOX m1 m2 (db store0) box1);
    [exact (proj1 store0_inv) | by vm_compute | by vm_compute | by vm_compute | done].
Defined.


Definition bob_tx : tx_row :=
  mkTxRow 1 #"out" #"sent" #"bob@a.org" #"x@y.org" #"5" None #"m-out" None None #"sealed" 1002 1002.

Lemma delete_user_ledger_witness :
  bob_tx ∈ transactions (db store0)
  /\ exists s', delete_user under store0 = (Ok tt, s') /\ bob_tx ∉ transactions (db s').
Proof.
  split; [by apply list_elem_of_singleton|].
  destruct (delete_user_ledger under (mkUserRow 2 under #"h2" #"k2" 1001 (Some #"ivk") None) store0
    store0_shape ltac:(by vm_compute)) as (s' & Hs' & _ & Hw).
  exists s'. split; [exact Hs'|].
  apply (Hw #"b" "o"%char #"b" eq_refl eq_refl eq_refl eq_refl bob_tx #"a.org" eq_refl).
Defined.

Lemma failed_commit_loses_writes_witness :
  exists s', delete_user alice (mkStore (db store0) None (replicate 8 false ++ [true]))
             = (Err (Storage SqlFailure), s')
  /\ durable (run_ops [OpSetSetting #"k" #"v"] s') = db store0.
Proof.
  destruct (failed_commit_loses_writes alice (mkStore (db store0) None (replicate 8 false ++ [true]))
    (mkUserRow 1 alice #"h1" #"k1" 1000 None None) eq_refl eq_refl ltac:(by vm_compute))
    as (s' & Hs' & _ & Hd & _).
  exists s'. split; [exact Hs' | apply Hd].
Defined.

Lemma create_user_spec_witness :
  exists u s', create_user_full 7 #"carol" #"h" #"k" None None (mkStore (db store0) None []) = (Ok u, s')
    /\ get_user #"carol" s' = (Ok (Some u), s').
Proof.
  destruct (create_user_spec 7 #"carol" #"h" #"k" None None (db store0)
    (proj1 store0_inv)) as [_ Hx].
  destruct (Hx ltac:(by vm_compute)) as [(u & s' & H1 & H2 & _) _]. eauto.
Defined.

End ToyStore.
