(* ===== verification/ImapResponse.v ===== *)
(** * IMAP responses ([talk-imap/src/response.rs])

    The serialisation of untagged, tagged and continuation lines, and the quoting
    of strings. *)

From S2P Require Export RustStr.

(** [ParseError] of [parse.rs], which the responses render. *)
Inductive ParseError := InvalidCommand | Unterminated | BadLiteral | UnclosedQuote.
#[export] Instance ParseError_eq_dec : EqDecision ParseError.
Proof. solve_decision. Defined.
Definition parse_error_str (e : ParseError) : str :=
  match e with
  | InvalidCommand => #"InvalidCommand"
  | Unterminated => #"Unterminated"
  | BadLiteral => #"BadLiteral"
  | UnclosedQuote => #"UnclosedQuote"
  end.

Inductive ImapStatus := StOk | StNo | StBad.
#[export] Instance ImapStatus_eq_dec : EqDecision ImapStatus.
Proof. solve_decision. Defined.
Definition status_as_str (x : ImapStatus) : str :=
  match x with StOk => #"OK" | StNo => #"NO" | StBad => #"BAD" end.

Definition untagged (body : str) : str := #"* " ++ body ++ crlf.
Definition tagged (tag : str) (x : ImapStatus) (text : str) : str :=
  tag ++ #" " ++ status_as_str x ++ #" " ++ text ++ crlf.
Definition continuation (text : str) : str := #"+ " ++ text ++ crlf.

Definition imap_greeting (hostname : str) : str :=
  #"* OK [CAPABILITY IMAP4rev1 IDLE NAMESPACE AUTH=PLAIN] " ++ hostname ++ #" Talk IMAP ready" ++ crlf.

Definition status_from_parse_error (tag : str) (e : ParseError) : str :=
  tagged tag StBad (#"Invalid command: " ++ parse_error_str e).

Definition select_responses (exists_ unseen uidvalidity uidnext : Z) : str :=
  untagged (show_Z exists_ ++ #" EXISTS")
  ++ untagged #"0 RECENT"
  ++ untagged #"FLAGS (\Seen \Answered \Flagged \Deleted)"
  ++ untagged (#"OK [UNSEEN " ++ show_Z unseen ++ #"]")
  ++ untagged (#"OK [UIDVALIDITY " ++ show_Z uidvalidity ++ #"]")
  ++ untagged (#"OK [UIDNEXT " ++ show_Z uidnext ++ #"]").

(** A quoted string; the quote and the backslash are escaped. *)
Definition b_bs : ascii := "\"%char.
Definition quote (s : str) : str :=
  [b_dq] ++ concat (map (fun c => if (c ≟ [b_bs]) || (c ≟ [b_dq]) then b_bs :: c else c) (chars s)) ++ [b_dq].
