(* ===== verification/ImapParse.v ===== *)
(** * IMAP command parsing ([talk-imap/src/parse.rs])

    The tokenizer, the literal marker, the command line and the incremental
    reader.  The tokenizer is a loop that need not end: it is defined with fuel,
    [None] standing for a run that has not ended, and [tokenize_fuel] shows that
    one turn more than there are characters decides whether it ever ends. *)

From S2P Require Export ImapResponse.

Record ParsedCommand := mkParsed { pc_tag : str; pc_name : str; pc_args : list str }.

Definition ch_open : str := ["("%char].
Definition ch_close : str := [")"%char].
Definition ch_dq : str := [b_dq].
Definition ch_bs : str := [b_bs].

(** ** [tokenize] *)

(** The rest of a parenthesised list, up to the matching parenthesis, and what
    follows it; [None] when the line ends first. *)
Fixpoint close_paren (depth : nat) (cs : list str) : option (str * list str) :=
  match cs with
  | [] => None
  | c :: r =>
      let depth := if c ≟ ch_open then S depth else if c ≟ ch_close then pred depth else depth in
      match depth with
      | O => Some (c, r)
      | _ => match close_paren depth r with Some (t, rest) => Some (c ++ t, rest) | None => None end
      end
  end.

(** The rest of a quoted string and what follows its closing quote. *)
Fixpoint close_quote (cs : list str) : option (str * list str) :=
  match cs with
  | [] => None
  | c :: r =>
      if c ≟ ch_bs then
        match r with
        | [] => None
        | d :: r' => match close_quote r' with Some (t, rest) => Some (d ++ t, rest) | None => None end
        end
      else if c ≟ ch_dq then Some ([], r)
      else match close_quote r with Some (t, rest) => Some (c ++ t, rest) | None => None end
  end.

Definition atom_char (c : str) : bool :=
  negb (is_whitespace c) && negb (c ≟ ch_open) && negb (c ≟ ch_close) && negb (c ≟ ch_dq).
Fixpoint atom (cs : list str) : str * list str :=
  match cs with
  | c :: r => if atom_char c then let '(t, rest) := atom r in (c ++ t, rest) else ([], cs)
  | [] => ([], [])
  end.

(** One turn of the loop at the character [c]: the token it pushes, if any, and
    the characters left. *)
Definition token_step (c : str) (r : list str) : result ParseError (option str * list str) :=
  if is_whitespace c then Ok (None, r)
  else if c ≟ ch_open then
    match close_paren 1 r with
    | None => Err UnclosedQuote
    | Some (t, rest) => Ok (Some (c ++ t), rest)
    end
  else if c ≟ ch_dq then
    match close_quote r with
    | None => Err UnclosedQuote
    | Some (t, rest) => Ok (Some t, rest)
    end
  else let '(t, rest) := atom (c :: r) in Ok (Some t, rest).

Fixpoint tokenize_loop (fuel : nat) (cs : list str) : option (result ParseError (list str)) :=
  match fuel with
  | O => None
  | S f =>
      match cs with
      | [] => Some (Ok [])
      | c :: r =>
          match token_step c r with
          | Err e => Some (Err e)
          | Ok (t, rest) =>
              match tokenize_loop f rest with
              | Some (Ok ts) => Some (Ok (match t with Some t => t :: ts | None => ts end))
              | x => x
              end
          end
      end
  end.

Definition tokenize (line : str) : option (result ParseError (list str)) :=
  let cs := chars (from_utf8_lossy line) in tokenize_loop (S (length cs)) cs.

(** ** Command lines *)

Definition parse_line (line : str) : option (result ParseError ParsedCommand) :=
  match tokenize line with
  | None => None
  | Some (Err e) => Some (Err e)
  | Some (Ok []) => Some (Err InvalidCommand)
  | Some (Ok [t]) => Some (Ok (mkParsed [] (to_ascii_uppercase t) []))
  | Some (Ok (tag :: name :: args)) => Some (Ok (mkParsed tag (to_ascii_uppercase name) args))
  end.

(** The count of a literal marker at the end of the line, and its length. *)
Definition literal_count (line : str) : option (Z * nat) :=
  '(_, rest) ← rsplit_once "{"%char (from_utf8_lossy line);
  inner ← strip_suffix ["}"%char] rest;
  n ← parse_usize (trim inner);
  if (Z.shiftl 1 20 <? n)%Z then None else Some (n, (2 + length inner)%nat).

(** ** [CommandReader] *)

Record CommandReader := mkReader {
  rd_buf : str;
  rd_pending_line : str;
  rd_literal_remaining : option Z;
}.
Definition reader_default : CommandReader := mkReader [] [] None.

Definition needs_continuation (r : CommandReader) : bool := bool_decide (is_Some (rd_literal_remaining r)).

(** The first line of the buffer without its end, the carriage return checked. *)
Definition take_line (line : str) : result ParseError str :=
  match last line with
  | None => Ok line
  | Some c => if c ≟ b_cr then Ok (removelast line) else Err Unterminated
  end.

(** The loop of [feed]: what it returns and the reader it leaves. *)
Fixpoint feed_loop (fuel : nat) (rd : CommandReader) (commands : list ParsedCommand)
    : option (result ParseError (list ParsedCommand) * CommandReader) :=
  match fuel with
  | O => None
  | S f =>
      match rd_literal_remaining rd with
      | Some n =>
          let k := Z.to_nat (Z.min n (Z.of_nat (length (rd_buf rd)))) in
          let buf := drop k (rd_buf rd) in
          let pending := rd_pending_line rd ++ take k (rd_buf rd) in
          let remaining := (n - Z.of_nat k)%Z in
          if (remaining =? 0)%Z then feed_loop f (mkReader buf pending None) commands
          else Some (Ok commands, mkReader buf pending (Some remaining))
      | None =>
          match split_once b_nl (rd_buf rd) with
          | None => Some (Ok commands, rd)
          | Some (line, buf) =>
              match take_line line with
              | Err e => Some (Err e, mkReader [] (rd_pending_line rd) None)
              | Ok line =>
                  match literal_count line with
                  | Some (count, marker_len) =>
                      Some (Ok commands,
                        mkReader buf (rd_pending_line rd ++ take (length line - marker_len) line) (Some count))
                  | None =>
                      match parse_line (rd_pending_line rd ++ line) with
                      | None => None
                      | Some (Err e) => Some (Err e, mkReader buf [] None)
                      | Some (Ok cmd) => feed_loop f (mkReader buf [] None) (commands ++ [cmd])
                      end
                  end
              end
          end
      end
  end.

(** A literal is finished at most once and every further turn takes a line, so two
    turns more than there are bytes suffice. *)
Definition feed (rd : CommandReader) (data : str)
    : option (result ParseError (list ParsedCommand) * CommandReader) :=
  let buf := rd_buf rd ++ data in
  feed_loop (2 + length buf) (mkReader buf (rd_pending_line rd) (rd_literal_remaining rd)) [].
