(* ===== verification/ImapParseFacts.v ===== *)
(** * Facts about the IMAP command reader

    When the tokenizer ends, the round trip of quoted arguments, the reader under
    any split of the input, and literals. *)

From S2P Require Export ImapParse.

(** ** The tokenizer's loop *)

Lemma close_paren_app d r x t rest :
  close_paren d r = Some (t, rest) -> close_paren d (r ++ x) = Some (t, rest ++ x).
Proof.
  revert d t rest. induction r as [|c r IH]; intros d t rest; cbn; [done|].
  set (d' := if c ≟ ch_open then S d else if c ≟ ch_close then pred d else d).
  destruct d'; [by intros [= <- <-]|].
  destruct (close_paren (S d') r) as [[t' rest']|] eqn:E; [|done]. intros [= <- <-].
  by rewrite (IH _ _ _ E).
Qed.

Lemma close_paren_cut d r t p q :
  close_paren d r = Some (t, p ++ q) -> exists r', r = r' ++ q /\ close_paren d r' = Some (t, p).
Proof.
  revert d t. induction r as [|c r IH]; intros d t; cbn; [done|].
  set (d' := if c ≟ ch_open then S d else if c ≟ ch_close then pred d else d).
  destruct d' eqn:Ed; [intros [= <- ->]; exists (c :: p) | ].
  - split; [done|]. cbn. fold d'. by rewrite Ed.
  - destruct (close_paren (S n) r) as [[t' rest']|] eqn:E; [|done]. intros [= <- ->].
    destruct (IH _ _ E) as (r' & -> & Hr'). exists (c :: r'). split; [done|].
    cbn. fold d'. by rewrite Ed, Hr'.
Qed.

Lemma close_paren_shrinks d r t rest : close_paren d r = Some (t, rest) -> (length rest < length r)%nat.
Proof.
  revert d t rest. induction r as [|c r IH]; intros d t rest; cbn; [done|].
  case_match; [intros [= _ <-]; lia|].
  destruct (close_paren _ r) as [[t' rest']|] eqn:E; [|done]. intros [= _ <-]. apply IH in E. lia.
Qed.

(** Induction over a quoted string: one or two characters at a time. *)
Lemma pairs_ind {A} (P : list A -> Prop) :
  P [] -> (forall x l, (forall y k, l = y :: k -> P k) -> P l -> P (x :: l)) -> forall l, P l.
Proof.
  intros H0 H1 l. enough (P l /\ forall y k, l = y :: k -> P k) as [? _] by done.
  induction l as [|x l [IH1 IH2]]; [done|]. split; [by apply H1|]. by intros y k [= -> ->].
Qed.

Lemma close_quote_app r x t rest :
  close_quote r = Some (t, rest) -> close_quote (r ++ x) = Some (t, rest ++ x).
Proof.
  revert t rest. induction r as [|c r IH2 IH] using pairs_ind; intros t rest; cbn; [done|].
  case_bool_decide.
  - destruct r as [|d r']; cbn; [done|]. specialize (IH2 d r' eq_refl).
    destruct (close_quote r') as [[t' rest']|]; [|done]. intros [= <- <-]. by rewrite (IH2 _ _ eq_refl).
  - case_bool_decide; [by intros [= <- <-]|].
    destruct (close_quote r) as [[t' rest']|]; [|done]. intros [= <- <-]. by rewrite (IH _ _ eq_refl).
Qed.

Lemma close_quote_cut r t p q :
  close_quote r = Some (t, p ++ q) -> exists r', r = r' ++ q /\ close_quote r' = Some (t, p).
Proof.
  revert t. induction r as [|c r IH2 IH] using pairs_ind; intros t; cbn; [done|].
  case_bool_decide as Hb.
  - destruct r as [|d r']; cbn; [done|]. specialize (IH2 d r' eq_refl).
    destruct (close_quote r') as [[t' rest']|]; [|done]. intros [= <- ->].
    destruct (IH2 _ eq_refl) as (r1 & -> & H1). exists (c :: d :: r1). split; [done|]. cbn.
    rewrite bool_decide_eq_true_2 by done. by rewrite H1.
  - case_bool_decide as Hd.
    + intros [= <- ->]. exists (c :: p). split; [done|]. cbn.
      rewrite bool_decide_eq_false_2 by done. by rewrite bool_decide_eq_true_2.
    + destruct (close_quote r) as [[t' rest']|]; [|done]. intros [= <- ->].
      destruct (IH _ eq_refl) as (r1 & -> & H1). exists (c :: r1). split; [done|]. cbn.
      rewrite !bool_decide_eq_false_2 by done. by rewrite H1.
Qed.

Lemma close_quote_shrinks r t rest : close_quote r = Some (t, rest) -> (length rest < length r)%nat.
Proof.
  revert t rest. induction r as [|c r IH2 IH] using pairs_ind; intros t rest; cbn; [done|].
  case_bool_decide; [|case_bool_decide; [intros [= _ <-]; lia|]].
  - destruct r as [|d r']; [done|]. specialize (IH2 d r' eq_refl).
    destruct (close_quote r') as [[t' rest']|]; [|done]. intros [= _ <-].
    specialize (IH2 _ _ eq_refl). cbn. lia.
  - destruct (close_quote r) as [[t' rest']|]; [|done]. intros [= _ <-].
    specialize (IH _ _ eq_refl). lia.
Qed.

Lemma atom_char_close : atom_char ch_close = false.
Proof. by vm_compute. Qed.

(** An atom that ends before the end of the input also ends before a parenthesis. *)
Lemma atom_close cs x t rest :
  atom cs = (t, rest) -> atom (cs ++ ch_close :: x) = (t, rest ++ ch_close :: x).
Proof.
  revert t rest. induction cs as [|c r IH]; intros t rest; cbn.
  - intros [= <- <-]. done.
  - destruct (atom_char c); [|by intros [= <- <-]].
    destruct (atom r) as [t' rest']. intros [= <- <-]. by rewrite (IH _ _ eq_refl).
Qed.

Lemma atom_cut cs t p q :
  atom cs = (t, p ++ q) -> exists r', cs = r' ++ q /\ atom r' = (t, p).
Proof.
  revert t. induction cs as [|c r IH]; intros t; cbn.
  - intros [= <- [-> ->]%eq_sym%app_nil]. by exists [].
  - destruct (atom_char c) eqn:Ec.
    + destruct (atom r) as [t' rest']. intros [= <- ->].
      destruct (IH _ eq_refl) as (r1 & -> & H1). exists (c :: r1). split; [done|]. cbn. by rewrite Ec, H1.
    + intros [= <- Hq]. exists p. split; [done|]. destruct p as [|c' p]; [done|].
      injection Hq as <- _. cbn. by rewrite Ec.
Qed.

Lemma atom_len cs : (length (snd (atom cs)) <= length cs)%nat.
Proof.
  induction cs as [|c r IH]; cbn; [lia|]. destruct (atom_char c); [|cbn; lia].
  destruct (atom r). cbn in *. lia.
Qed.

(** A turn takes at least one character, except at a closing parenthesis. *)
Lemma token_step_cases c r t rest :
  token_step c r = Ok (t, rest) ->
  (c = ch_close /\ rest = c :: r) \/ (c <> ch_close /\ (length rest <= length r)%nat).
Proof.
  unfold token_step. destruct (is_whitespace c) eqn:Ew.
  { intros [= <- <-]. right. split; [|lia]. intros ->. by vm_compute in Ew. }
  case_bool_decide as Ho.
  { destruct (close_paren 1 r) as [[? ?]|] eqn:E; [|done]. intros [= <- <-].
    apply close_paren_shrinks in E. right. split; [intros ->; by vm_compute in Ho|lia]. }
  case_bool_decide as Hd.
  { destruct (close_quote r) as [[? ?]|] eqn:E; [|done]. intros [= <- <-].
    apply close_quote_shrinks in E. right. split; [intros ->; by vm_compute in Hd|lia]. }
  cbn. destruct (atom_char c) eqn:Ea.
  - pose proof (atom_len r). destruct (atom r) as [t' r']. intros [= <- <-]. right.
    split; [|done]. intros ->. by rewrite atom_char_close in Ea.
  - intros [= <- <-]. left. split; [|done]. unfold atom_char in Ea. rewrite Ew in Ea.
    rewrite (bool_decide_eq_false_2 (c = ch_open)), (bool_decide_eq_false_2 (c = ch_dq)) in Ea by done.
    by case_bool_decide.
Qed.

Lemma token_step_close c r t rest x :
  c <> ch_close -> token_step c r = Ok (t, rest) ->
  token_step c (r ++ ch_close :: x) = Ok (t, rest ++ ch_close :: x).
Proof.
  intros Hc. unfold token_step. destruct (is_whitespace c); [by intros [= <- <-]|].
  case_bool_decide.
  { destruct (close_paren 1 r) as [[t' rest']|] eqn:E; [|done]. intros [= <- <-].
    by rewrite (close_paren_app _ _ _ _ _ E). }
  case_bool_decide.
  { destruct (close_quote r) as [[t' rest']|] eqn:E; [|done]. intros [= <- <-].
    by rewrite (close_quote_app _ _ _ _ E). }
  destruct (atom (c :: r)) as [t' rest'] eqn:E. intros [= <- <-].
  change (c :: r ++ ch_close :: x) with ((c :: r) ++ ch_close :: x). by rewrite (atom_close _ _ _ _ E).
Qed.

Lemma token_step_cut c r t p q :
  c <> ch_close -> token_step c r = Ok (t, p ++ q) ->
  exists r', r = r' ++ q /\ token_step c r' = Ok (t, p).
Proof.
  intros Hc Hs. pose proof (token_step_cases _ _ _ _ Hs) as [[? _]|[_ Hl]]; [done|].
  revert Hs. unfold token_step. destruct (is_whitespace c); [intros [= <- ->]; eauto|].
  case_bool_decide.
  { destruct (close_paren 1 r) as [[t' rest']|] eqn:E; [|done]. intros [= <- ->].
    apply close_paren_cut in E as (r' & -> & E). exists r'. by rewrite E. }
  case_bool_decide.
  { destruct (close_quote r) as [[t' rest']|] eqn:E; [|done]. intros [= <- ->].
    apply close_quote_cut in E as (r' & -> & E). exists r'. by rewrite E. }
  destruct (atom (c :: r)) as [t' rest'] eqn:E. intros [= <- ->].
  apply atom_cut in E as ([|c' r'] & Hr & E).
  - exfalso. cbn in Hr. rewrite <- Hr, length_app in Hl. cbn in Hl. lia.
  - injection Hr as <- ->. exists r'. by rewrite E.
Qed.

(** At a closing parenthesis the loop makes no progress. *)
Lemma token_step_stuck r : token_step ch_close r = Ok (Some [], ch_close :: r).
Proof. done. Qed.

Lemma tokenize_stuck fuel r : tokenize_loop fuel (ch_close :: r) = None.
Proof. induction fuel as [|f IH]; [done|]. cbn [tokenize_loop]. by rewrite token_step_stuck, IH. Qed.

(** Enough fuel decides: more of it changes nothing. *)
Lemma tokenize_fuel cs f g :
  (length cs < f)%nat -> (length cs < g)%nat -> tokenize_loop f cs = tokenize_loop g cs.
Proof.
  revert f g. induction cs as [cs IH] using (induction_ltof1 _ (@length str)). unfold ltof in IH.
  intros [|f] [|g] Hf Hg; try lia. destruct cs as [|c r]; [done|].
  destruct (decide (c = ch_close)) as [->|Hc]; [by rewrite !tokenize_stuck|]. cbn.
  destruct (token_step c r) as [[t rest]|e] eqn:E; [|done].
  destruct (token_step_cases _ _ _ _ E) as [[? _]|[_ Hl]]; [done|]. cbn in *.
  by rewrite (IH rest ltac:(lia) f g) by lia.
Qed.

Lemma tokenize_close_after f pre ts rest g :
  tokenize_loop f pre = Some (Ok ts) -> tokenize_loop g (pre ++ ch_close :: rest) = None.
Proof.
  revert pre ts g. induction f as [|f IH]; intros pre ts g; [done|].
  destruct pre as [|c r]; [intros _; apply tokenize_stuck|]. destruct g as [|g]; [done|].
  destruct (decide (c = ch_close)) as [->|Hc]; [intros _; apply tokenize_stuck|]. cbn.
  destruct (token_step c r) as [[t rest']|e] eqn:E; [|done].
  rewrite (token_step_close _ _ _ _ _ Hc E).
  destruct (tokenize_loop f rest') as [[ts'|]|] eqn:Et; try done. intros _.
  by rewrite (IH _ _ g Et).
Qed.

Lemma tokenize_stuck_at cs :
  tokenize_loop (S (length cs)) cs = None ->
  exists pre rest ts, cs = pre ++ ch_close :: rest /\ tokenize_loop (S (length pre)) pre = Some (Ok ts).
Proof.
  induction cs as [cs IH] using (induction_ltof1 _ (@length str)). unfold ltof in IH.
  destruct cs as [|c r]; [done|].
  destruct (decide (c = ch_close)) as [->|Hc]; [intros _; by exists [], r, []|].
  cbn [tokenize_loop]. destruct (token_step c r) as [[t rest]|e] eqn:E; [|done].
  destruct (token_step_cases _ _ _ _ E) as [[? _]|[_ Hl]]; [done|].
  intros Hn. destruct (IH rest) as (pre & rest' & ts & -> & Hp).
  { cbn. lia. }
  { rewrite (tokenize_fuel rest (S (length rest)) (length (c :: r))) by (cbn; lia).
    by destruct (tokenize_loop (length (c :: r)) rest) as [[]|]. }
  apply token_step_cut in E as (r' & -> & E); [|done].
  exists (c :: r'), rest', (match t with Some t => t :: ts | None => ts end). split; [done|].
  cbn [tokenize_loop]. rewrite E. destruct (token_step_cases _ _ _ _ E) as [[? _]|[_ Hl']]; [done|].
  rewrite (tokenize_fuel pre _ (S (length pre))) by (cbn; lia). by rewrite Hp.
Qed.

(** ** The tokens of a printed command *)

(** The characters tokenize, with some fuel. *)
Definition tokens (cs ts : list str) : Prop := exists f, tokenize_loop f cs = Some (Ok ts).

Lemma tokenize_more f g cs x : (f <= g)%nat -> tokenize_loop f cs = Some x -> tokenize_loop g cs = Some x.
Proof.
  revert g cs x. induction f as [|f IH]; intros [|g] cs x Hg; try (done || lia).
  cbn. destruct cs as [|c r]; [done|]. destruct (token_step c r) as [[t rest]|]; [|done].
  destruct (tokenize_loop f rest) as [[ts|e]|] eqn:E; [..|done];
    by rewrite (IH g _ _ ltac:(lia) E).
Qed.

Lemma tokens_tokenize cs ts : tokens cs ts -> tokenize_loop (S (length cs)) cs = Some (Ok ts).
Proof.
  intros [f Hf]. rewrite (tokenize_fuel _ _ (f + S (length cs))) by lia.
  by apply (tokenize_more f); [lia|].
Qed.

Lemma tokens_nil : tokens [] [].
Proof. by exists 1%nat. Qed.

Lemma tokens_step c r t rest ts :
  token_step c r = Ok (t, rest) -> tokens rest ts ->
  tokens (c :: r) (match t with Some t => t :: ts | None => ts end).
Proof. intros Hs [f Hf]. exists (S f). cbn. by rewrite Hs, Hf. Qed.

Lemma tokens_sp cs ts : tokens cs ts -> tokens ([b_sp] :: cs) ts.
Proof. by apply (tokens_step _ _ None). Qed.

Definition ends_atom (cs : list str) : Prop := match cs with [] => True | c :: _ => atom_char c = false end.

Lemma atom_app a rest :
  forallb atom_char a = true -> ends_atom rest -> atom (a ++ rest) = (concat a, rest).
Proof.
  intros Ha Hr. induction a as [|c a IH]; cbn in *.
  - destruct rest as [|c r]; [done|]. cbn. by rewrite Hr.
  - apply andb_true_iff in Ha as [Hc Ha]. by rewrite Hc, IH.
Qed.

Lemma tokens_atom a rest ts :
  forallb atom_char a = true -> a <> [] -> ends_atom rest -> tokens rest ts ->
  tokens (a ++ rest) (concat a :: ts).
Proof.
  intros Ha Hne Hr Ht. destruct a as [|c a]; [done|].
  apply (tokens_step c (a ++ rest) (Some (concat (c :: a))) rest); [|done].
  unfold token_step. pose proof Ha as Hc. cbn in Hc. apply andb_true_iff in Hc as [Hc _].
  unfold atom_char in Hc. rewrite !andb_true_iff, !negb_true_iff in Hc. destruct Hc as [[[-> ->] _] ->].
  change (c :: a ++ rest) with ((c :: a) ++ rest). by rewrite atom_app.
Qed.

(** *** Quoting *)

Definition esc (c : str) : list str := if (c ≟ ch_bs) || (c ≟ ch_dq) then [ch_bs; c] else [c].

Lemma chars_concat_chars l : Forall is_char l -> chars (concat l) = l.
Proof. intros Hl. unfold chars. rewrite chunks_concat, map_map by done. apply map_id. Qed.

Lemma esc_is_char l : Forall is_char l -> Forall is_char (concat (map esc l)).
Proof.
  induction 1 as [|c l Hc _ IH]; cbn; [constructor|]. unfold esc at 1. case_match; repeat constructor; done.
Qed.

Lemma quote_concat s : quote s = concat (ch_dq :: concat (map esc (chars s)) ++ [ch_dq]).
Proof.
  unfold quote. cbn [concat]. rewrite concat_app. cbn [concat]. rewrite app_nil_r. do 2 f_equal.
  induction (chars s) as [|c l IH]; [done|]. cbn. rewrite concat_app, <- IH. f_equal.
  unfold esc, ch_bs, ch_dq. case_match; cbn; by rewrite app_nil_r.
Qed.

Lemma chars_quote s :
  utf8_valid s = true -> chars (quote s) = ch_dq :: concat (map esc (chars s)) ++ [ch_dq].
Proof.
  intros Hs. rewrite quote_concat. apply chars_concat_chars. constructor; [done|].
  apply Forall_app. split; [by apply esc_is_char, chars_is_char | by repeat constructor].
Qed.

Lemma utf8_valid_chars l : Forall is_char l -> utf8_valid (concat l) = true.
Proof.
  intros Hl. unfold utf8_valid. rewrite chunks_concat by done. apply forallb_elem.
  by intros x (y & -> & _)%list_elem_of_fmap.
Qed.

Lemma utf8_valid_quote s : utf8_valid s = true -> utf8_valid (quote s) = true.
Proof.
  intros Hs. rewrite quote_concat. apply utf8_valid_chars. constructor; [done|].
  apply Forall_app. split; [by apply esc_is_char, chars_is_char | by repeat constructor].
Qed.

Lemma close_quote_esc l rest :
  close_quote (concat (map esc l) ++ ch_dq :: rest) = Some (concat l, rest).
Proof.
  induction l as [|c l IH]; [done|]. cbn [map concat]. unfold esc at 1.
  destruct (bool_decide_reflect (c = ch_bs)) as [->|Hb]; cbn [orb app].
  { cbn [close_quote]. rewrite str_eqb_refl. by rewrite IH. }
  destruct (bool_decide_reflect (c = ch_dq)) as [->|Hd]; cbn [orb app close_quote].
  { rewrite str_eqb_refl. by rewrite IH. }
  rewrite !bool_decide_eq_false_2 by done. by rewrite IH.
Qed.

(** A quoted string is one token, the string itself. *)
Lemma tokens_quote s rest ts :
  utf8_valid s = true -> tokens rest ts -> tokens (chars (quote s) ++ rest) (s :: ts).
Proof.
  intros Hs Ht. rewrite chars_quote by done. cbn [app].
  apply (tokens_step ch_dq _ (Some s) rest); [|done].
  unfold token_step. change (is_whitespace ch_dq) with false. change (ch_dq ≟ ch_open) with false.
  rewrite str_eqb_refl, <- app_assoc. cbn [app]. by rewrite close_quote_esc, chars_concat.
Qed.

(** ** Printed commands *)

(** How a client writes a command whose arguments are quoted strings. *)
Definition cmd_text (c : ParsedCommand) : str :=
  pc_tag c ++ [b_sp] ++ pc_name c ++ concat (map (fun a => b_sp :: quote a) (pc_args c)).
Definition cmd_line (c : ParsedCommand) : str := cmd_text c ++ crlf.

Definition is_atom (s : str) : bool :=
  utf8_valid s && negb (s ≟ []) && forallb atom_char (chars s).
Definition is_nl_free (s : str) : bool := bool_decide (b_nl ∉ s).

(** Tag and name are atoms, the name has no brace (a line ending in one could read
    as a literal marker), the arguments are any strings on one line. *)
Definition printable_cmd (c : ParsedCommand) : bool :=
  is_atom (pc_tag c) && is_atom (pc_name c) && bool_decide ("}"%char ∉ pc_name c)
  && forallb (fun a => utf8_valid a && is_nl_free a) (pc_args c).
Definition read_cmd (c : ParsedCommand) : ParsedCommand :=
  mkParsed (pc_tag c) (to_ascii_uppercase (pc_name c)) (pc_args c).

Lemma printable_inv c :
  printable_cmd c = true ->
  is_atom (pc_tag c) = true /\ is_atom (pc_name c) = true /\ ("}"%char ∉ pc_name c)
  /\ Forall (fun a => utf8_valid a = true /\ b_nl ∉ a) (pc_args c).
Proof.
  unfold printable_cmd. rewrite !andb_true_iff, bool_decide_eq_true.
  intros [[[H1 H2] H3] H4]. repeat split; try done. apply Forall_forall. intros a Ha.
  apply (forallb_all _ _ H4) in Ha. rewrite andb_true_iff in Ha. unfold is_nl_free in Ha.
  by rewrite bool_decide_eq_true in Ha.
Qed.

Lemma is_atom_inv s :
  is_atom s = true -> utf8_valid s = true /\ s <> [] /\ forallb atom_char (chars s) = true.
Proof.
  unfold is_atom. rewrite !andb_true_iff, negb_true_iff, bool_decide_eq_false. tauto.
Qed.

Lemma chars_ne s : s <> [] -> chars s <> [].
Proof. intros Hs Hc. apply Hs. rewrite <- (chars_concat s), Hc. done. Qed.

Lemma tokens_word s rest ts :
  is_atom s = true -> ends_atom rest -> tokens rest ts -> tokens (chars s ++ rest) (s :: ts).
Proof.
  intros (Hv & Hne & Ha)%is_atom_inv Hr Ht. rewrite <- (chars_concat s) at 2.
  apply tokens_atom; [done | by apply chars_ne | done | done].
Qed.

Lemma args_tokens args :
  Forall (fun a => utf8_valid a = true /\ b_nl ∉ a) args ->
  utf8_valid (concat (map (fun a => b_sp :: quote a) args)) = true
  /\ ends_atom (chars (concat (map (fun a => b_sp :: quote a) args)))
  /\ tokens (chars (concat (map (fun a => b_sp :: quote a) args))) args.
Proof.
  induction 1 as [|a args [Hv _] _ (IHv & _ & IHt)]; [by repeat split; try apply tokens_nil|].
  cbn [map concat]. assert (Hq : utf8_valid (b_sp :: quote a) = true).
  { apply (utf8_valid_app [b_sp]); [done|]. by apply utf8_valid_quote. }
  split; [by apply utf8_valid_app|]. rewrite chars_app by done. rewrite chars_sp. cbn [app].
  split; [done|]. apply tokens_sp. by apply tokens_quote.
Qed.

Lemma cmd_text_tokens c :
  printable_cmd c = true ->
  utf8_valid (cmd_text c) = true /\ tokens (chars (cmd_text c)) (pc_tag c :: pc_name c :: pc_args c).
Proof.
  intros (Ht & Hn & _ & Ha)%printable_inv. destruct (args_tokens _ Ha) as (Hv & He & Hk).
  pose proof (is_atom_inv _ Ht) as (Htv & _ & _). pose proof (is_atom_inv _ Hn) as (Hnv & _ & _).
  unfold cmd_text. split.
  - apply utf8_valid_app; [done|]. apply (utf8_valid_app [b_sp]); [done|]. by apply utf8_valid_app.
  - rewrite chars_app by done. apply tokens_word; [done| |].
    + cbn [app]. rewrite chars_sp. done.
    + cbn [app]. rewrite chars_sp. apply tokens_sp. rewrite chars_app by done. by apply tokens_word.
Qed.

Lemma parse_line_cmd c : printable_cmd c = true -> parse_line (cmd_text c) = Some (Ok (read_cmd c)).
Proof.
  intros (Hv & Ht)%cmd_text_tokens. unfold parse_line, tokenize.
  rewrite from_utf8_lossy_valid by done. by rewrite (tokens_tokenize _ _ Ht).
Qed.

Lemma is_atom_no_nl s : is_atom s = true -> b_nl ∉ s.
Proof.
  intros (Hv & Hne & Ha)%is_atom_inv. apply word_no_byte; [done|done|].
  unfold word. rewrite Hv, bool_decide_eq_false_2 by done. cbn. apply forallb_elem. intros ch Hch.
  apply (forallb_all _ _ Ha) in Hch. unfold atom_char in Hch. rewrite !andb_true_iff in Hch. tauto.
Qed.

Lemma quote_no_nl s : b_nl ∉ s -> b_nl ∉ quote s.
Proof.
  intros Hs. unfold quote. rewrite !elem_of_app. intros [H|[H|H]]; try (by apply list_elem_of_singleton in H).
  apply Hs. rewrite <- (chars_concat s). apply elem_of_concat.
  apply elem_of_concat in H as (l & (c & -> & Hc)%list_elem_of_fmap & Hl).
  exists c. split; [done|]. revert Hl. case_match; [|done]. by intros [?|?]%elem_of_cons.
Qed.

Lemma cmd_text_no_nl c : printable_cmd c = true -> b_nl ∉ cmd_text c.
Proof.
  intros (Ht & Hn & _ & Ha)%printable_inv. unfold cmd_text. rewrite !elem_of_app.
  intros [H|[H|[H|H]]]; [by apply is_atom_no_nl in Ht | by apply list_elem_of_singleton in H
    | by apply is_atom_no_nl in Hn |].
  apply elem_of_concat in H as (l & (a & -> & Hin)%list_elem_of_fmap & Hl).
  rewrite Forall_forall in Ha. apply elem_of_cons in Hl as [?|Hl]; [done|].
  apply quote_no_nl in Hl; [done|]. by apply Ha.
Qed.

Lemma quote_last s : last (quote s) = Some b_dq.
Proof. unfold quote. by rewrite app_assoc, last_snoc. Qed.

Lemma cmd_text_last c : printable_cmd c = true -> last (cmd_text c) <> Some "}"%char.
Proof.
  intros (_ & (_ & Hne & _)%is_atom_inv & Hb & _)%printable_inv. unfold cmd_text.
  induction (pc_args c) as [|a l _] using rev_ind.
  - cbn [map concat]. rewrite app_nil_r, app_assoc, last_app.
    destruct (last (pc_name c)) eqn:E; [|by apply last_None in E].
    intros [= ->]. by apply Hb, last_Some_elem_of.
  - rewrite map_app, concat_app. cbn [map concat]. rewrite app_nil_r, !app_assoc, last_app, last_cons.
    by rewrite quote_last.
Qed.

Lemma literal_count_last line :
  utf8_valid line = true -> last line <> Some "}"%char -> literal_count line = None.
Proof.
  intros Hv Hl. unfold literal_count. rewrite from_utf8_lossy_valid by done.
  destruct (rsplit_once "{"%char line) as [[pre rest]|] eqn:E; [|done].
  cbn -[strip_suffix trim parse_usize]. destruct (strip_suffix ["}"%char] rest) as [inner|] eqn:Es; [|done].
  apply strip_suffix_Some in Es as ->. apply rsplit_once_Some in E as [-> _].
  by rewrite app_comm_cons, app_assoc, last_snoc in Hl.
Qed.

Lemma take_line_cr line : take_line (line ++ [b_cr]) = Ok line.
Proof. unfold take_line. rewrite last_snoc, str_eqb_refl. by rewrite removelast_last. Qed.

(** ** The reader *)

Lemma cmd_line_cons c buf : cmd_line c ++ buf = (cmd_text c ++ [b_cr]) ++ b_nl :: buf.
Proof. unfold cmd_line, crlf. by rewrite <- !app_assoc. Qed.

Lemma feed_loop_cmd c fuel buf acc :
  printable_cmd c = true ->
  feed_loop (S fuel) (mkReader (cmd_line c ++ buf) [] None) acc
  = feed_loop fuel (mkReader buf [] None) (acc ++ [read_cmd c]).
Proof.
  intros Hc. cbn [feed_loop rd_literal_remaining rd_buf rd_pending_line].
  rewrite cmd_line_cons, split_once_app.
  - rewrite take_line_cr, literal_count_last by (by apply cmd_text_tokens || by apply cmd_text_last).
    cbn [app]. by rewrite parse_line_cmd.
  - rewrite elem_of_app. intros [H|H]; [by apply cmd_text_no_nl in H | by apply list_elem_of_singleton in H].
Qed.

(** What has arrived of a sequence of printed commands: the commands complete so far
    come out, the start of the next one stays in the buffer. *)
Lemma feed_loop_prefix cmds buf more fuel acc :
  Forall (fun c => printable_cmd c = true) cmds ->
  buf ++ more = concat (map cmd_line cmds) -> (length buf < fuel)%nat ->
  exists heard rest buf', cmds = heard ++ rest
    /\ feed_loop fuel (mkReader buf [] None) acc = Some (Ok (acc ++ map read_cmd heard), mkReader buf' [] None)
    /\ buf' ++ more = concat (map cmd_line rest) /\ (b_nl ∉ buf').
Proof.
  intros Hc. revert buf fuel acc. induction Hc as [|c cmds Hc _ IH]; intros buf fuel acc Hb Hf;
    (destruct fuel as [|fuel]; [lia|]).
  - apply app_nil in Hb as [-> ->]. exists [], [], []. cbn. rewrite app_nil_r.
    repeat split. apply not_elem_of_nil.
  - destruct (decide (b_nl ∈ buf)) as [Hin|Hnin].
    + apply list_elem_of_split_l in Hin as (l & b1 & -> & Hl).
      assert (l = cmd_text c ++ [b_cr] /\ b1 ++ more = concat (map cmd_line cmds)) as [-> Hb1].
      { cbn [map concat] in Hb. rewrite cmd_line_cons, <- app_assoc in Hb. cbn [app] in Hb.
        apply app_sep_inj in Hb; [done|done|].
        rewrite elem_of_app. intros [H|H]; [by apply cmd_text_no_nl in H | by apply list_elem_of_singleton in H]. }
      replace ((cmd_text c ++ [b_cr]) ++ b_nl :: b1) with (cmd_line c ++ b1)
        by apply cmd_line_cons.
      rewrite feed_loop_cmd by done.
      destruct (IH b1 fuel (acc ++ [read_cmd c]) Hb1) as (heard & rest & buf' & -> & Hfl & Hr & Hn).
      { rewrite !length_app in Hf. cbn in Hf. lia. }
      exists (c :: heard), rest, buf'. cbn. rewrite Hfl, <- app_assoc. done.
    + exists [], (c :: cmds), buf. cbn [feed_loop rd_literal_remaining rd_buf].
      rewrite split_once_None by done. cbn [map]. by rewrite app_nil_r.
Qed.

(** ** Literal markers

    The marker's length is counted on the line after lossy conversion and cut off
    the line before it; the marker holds no replaced character, so the two agree. *)

Definition last_repl : ascii := of_byte 189.

Lemma lossy_chunks_suffix (l : list (bool * str)) pre suffix :
  concat (map (fun '(v, ch) => if v : bool then ch else replacement) l) = pre ++ suffix ->
  (last_repl ∉ suffix) -> exists pre', concat (map snd l) = pre' ++ suffix.
Proof.
  revert suffix. induction l as [|[v ch] l IH] using rev_ind; intros suffix.
  - intros [-> ->]%eq_sym%app_nil _. by exists [].
  - rewrite !map_app, !concat_app. cbn [map concat snd]. rewrite !app_nil_r. intros He Hs.
    destruct v.
    + apply app_eq_inv in He as [(k & He & ->)|(k & -> & ->)].
      * destruct (IH k He) as [pre' ->]; [by apply not_elem_of_app in Hs as []|]. exists pre'. by rewrite app_assoc.
      * exists (concat (map snd l) ++ k). by rewrite app_assoc.
    + induction suffix as [|c suffix _] using rev_ind; [by exists (concat (map snd l) ++ ch); rewrite app_nil_r|].
      exfalso. unfold replacement in He. rewrite app_assoc in He.
      change [of_byte 239; of_byte 191; of_byte 189] with ([of_byte 239; of_byte 191] ++ [last_repl]) in He.
      rewrite app_assoc in He. apply app_inj_tail in He as [_ <-]. apply Hs, elem_of_app. right. left.
Qed.

Lemma lossy_suffix line pre suffix :
  from_utf8_lossy line = pre ++ suffix -> (last_repl ∉ suffix) -> exists pre', line = pre' ++ suffix.
Proof.
  intros He Hs. destruct (lossy_chunks_suffix _ _ _ He Hs) as [pre' Hp].
  exists pre'. rewrite <- Hp. symmetry. apply chars_concat.
Qed.

Lemma whitespace_bytes ch : is_whitespace ch = true -> last_repl ∉ ch.
Proof.
  unfold is_whitespace. rewrite bool_decide_eq_true. intros Hin.
  assert (Hall : forallb (fun ch => bool_decide (last_repl ∉ ch)) whitespace_chars = true) by (vm_compute; reflexivity).
  apply (forallb_all _ _ Hall) in Hin. by apply bool_decide_eq_true in Hin.
Qed.

Lemma drop_while_split {A} (p : A -> bool) l :
  exists k, l = k ++ drop_while p l /\ forall x, x ∈ k -> p x = true.
Proof.
  induction l as [|x l (k & Hl & Hk)]; [exists []; split; [done|intros x Hx; by apply not_elem_of_nil in Hx]|].
  cbn. destruct (p x) eqn:E.
  - exists (x :: k). split; [cbn; by f_equal|]. intros y [->|Hy]%elem_of_cons; [done|by apply Hk].
  - exists []. split; [done|]. intros y Hy. by apply not_elem_of_nil in Hy.
Qed.

Lemma drop_while_end_split {A} (p : A -> bool) l :
  exists k, l = drop_while_end p l ++ k /\ forall x, x ∈ k -> p x = true.
Proof.
  unfold drop_while_end. destruct (drop_while_split p (reverse l)) as (k & Hl & Hk). exists (reverse k). split.
  - by rewrite <- reverse_app, <- Hl, reverse_involutive.
  - intros x Hx. by apply Hk, elem_of_reverse.
Qed.

(** What trimming takes off is white space. *)
Lemma trim_split s : exists a b, s = a ++ trim s ++ b /\ forall c, c ∈ a ++ b -> exists ch, is_whitespace ch = true /\ c ∈ ch.
Proof.
  pose proof (chars_concat s) as Hs. unfold trim.
  destruct (drop_while_split is_whitespace (chars s)) as (k & Hk & Hws).
  destruct (drop_while_end_split is_whitespace (drop_while is_whitespace (chars s))) as (k' & Hk' & Hws').
  exists (concat k), (concat k'). split.
  - rewrite <- Hs at 1. by rewrite <- !concat_app, <- Hk', <- Hk.
  - intros c [(ch & Hch & Hc)%elem_of_concat|(ch & Hch & Hc)%elem_of_concat]%elem_of_app; eauto.
Qed.

Lemma parse_digits_bytes acc s n : parse_digits acc s = Some n -> Forall (fun c => is_ascii c = true) s.
Proof.
  revert acc. induction s as [|c s IH]; intros acc; [constructor|]. cbn.
  destruct (digit_val c) as [d|] eqn:E; [|done]. cbn. intros H. constructor; [|by eapply IH].
  apply digit_ascii. unfold digit_val in E. by destruct (is_ascii_digit c).
Qed.

Lemma parse_int_bytes lo hi s n : parse_int lo hi s = Some n -> Forall (fun c => is_ascii c = true) s.
Proof.
  unfold parse_int. destruct s as [|c r]; [done|].
  case_bool_decide as Hp; [|case_bool_decide as Hm; [destruct (lo <? 0)%Z|]]; cbn [andb].
  all: intros H; match type of H with context [parse_digits 0 ?l] => destruct (parse_digits 0 l) eqn:E end.
  all: try (destruct r; done).
  all: apply parse_digits_bytes in E; first [exact E | subst; by constructor].
Qed.

(** The marker [{inner}] stands at the end of the line as it was received. *)
Lemma literal_count_Some line n k :
  literal_count line = Some (n, k) ->
  (0 <= n <= 1048576)%Z /\ exists head inner,
    line = head ++ "{"%char :: inner ++ ["}"%char] /\ k = (2 + length inner)%nat
    /\ take (length line - k) line = head.
Proof.
  unfold literal_count. destruct (rsplit_once "{"%char (from_utf8_lossy line)) as [[pre rest]|] eqn:E; [|done].
  cbn -[strip_suffix trim parse_usize]. destruct (strip_suffix ["}"%char] rest) as [inner|] eqn:Es; [|done].
  cbn -[trim parse_usize]. destruct (parse_usize (trim inner)) as [m|] eqn:En; [|done].
  cbn -[Z.shiftl]. destruct (Z.ltb_spec (Z.shiftl 1 20) m) as [|Hm]; [done|]. intros [= <- <-].
  change (Z.shiftl 1 20) with 1048576%Z in Hm. apply strip_suffix_Some in Es as ->.
  apply rsplit_once_Some in E as [E _]. split; [by apply parse_int_range in En as [? _]|].
  destruct (lossy_suffix line pre ("{"%char :: inner ++ ["}"%char]) E) as [head ->].
  - destruct (trim_split inner) as (a & b & Hi & Hab).
    assert (Ht : last_repl ∉ trim inner).
    { intros Hin. apply parse_int_bytes in En. rewrite Forall_forall in En. by apply En in Hin. }
    assert (Hw : last_repl ∉ a ++ b).
    { intros (ch & Hch & Hin)%Hab. by apply whitespace_bytes in Hin. }
    rewrite Hi. rewrite !elem_of_cons, !elem_of_app. rewrite elem_of_app in Hw.
    intros [?|[[?|[?|?]]|?%list_elem_of_singleton]]; try done; naive_solver.
  - exists head, inner. do 2 (split; [done|]).
    rewrite !length_app. cbn. rewrite length_app. cbn.
    replace (length head + S (length inner + 1) - S (S (length inner)))%nat with (length head) by lia.
    by rewrite take_app_length.
Qed.

(** ** Properties *)

(** C28: when tokenizing ends. The tokenizer runs forever exactly on the lines that
    have a closing parenthesis behind characters that tokenize; on every other line
    it returns, within one turn more than the line has characters. *)
Theorem tokenize_ends line :
  (tokenize line = None <-> exists pre rest ts,
     chars (from_utf8_lossy line) = pre ++ ch_close :: rest
     /\ tokenize_loop (S (length pre)) pre = Some (Ok ts))
  /\ (tokenize line = None -> forall fuel, tokenize_loop fuel (chars (from_utf8_lossy line)) = None).
Proof.
  unfold tokenize. generalize (chars (from_utf8_lossy line)). intros cs.
  assert (Hd : forall pre rest ts g, tokenize_loop (S (length pre)) pre = Some (Ok ts) ->
                 tokenize_loop g (pre ++ ch_close :: rest) = None)
    by (intros ?????; by eapply tokenize_close_after).
  repeat split.
  - apply tokenize_stuck_at.
  - intros (pre & rest & ts & -> & Ht). by eapply Hd.
  - intros (pre & rest & ts & -> & Ht)%tokenize_stuck_at fuel. by eapply Hd.
Qed.

(** Feeding pieces one after the other. *)
Fixpoint feed_all (rd : CommandReader) (pieces : list str)
    : option (result ParseError (list ParsedCommand) * CommandReader) :=
  match pieces with
  | [] => Some (Ok [], rd)
  | d :: r =>
      match feed rd d with
      | Some (Ok cs, rd) =>
          match feed_all rd r with
          | Some (Ok cs', rd) => Some (Ok (cs ++ cs'), rd)
          | x => x
          end
      | x => x
      end
  end.

Lemma feed_all_prefix cmds buf pieces :
  Forall (fun c => printable_cmd c = true) cmds ->
  buf ++ concat pieces = concat (map cmd_line cmds) -> (b_nl ∉ buf) ->
  feed_all (mkReader buf [] None) pieces = Some (Ok (map read_cmd cmds), reader_default).
Proof.
  intros Hc. revert cmds buf Hc. induction pieces as [|d pieces IH]; intros cmds buf Hc Hb Hn.
  - cbn in *. rewrite app_nil_r in Hb. destruct cmds as [|c cmds]; [by subst|].
    exfalso. apply Hn. rewrite Hb. cbn [map concat]. rewrite cmd_line_cons. apply elem_of_app. right. left.
  - cbn [concat] in Hb. rewrite app_assoc in Hb. cbn [feed_all]. unfold feed. cbn [rd_buf rd_pending_line rd_literal_remaining].
    destruct (feed_loop_prefix cmds (buf ++ d) (concat pieces) (2 + length (buf ++ d)) [] Hc Hb ltac:(lia))
      as (heard & rest & buf' & -> & -> & Hr & Hn').
    apply Forall_app in Hc as [_ Hc]. rewrite (IH rest buf' Hc Hr Hn'). cbn [app]. by rewrite map_app.
Qed.

(** C29: the reader is independent of how the bytes arrive, and undoes quoting. A
    sequence of commands written with quoted arguments, cut into pieces anywhere,
    is read back as these commands, once and in order, with their arguments
    unchanged and nothing left over. *)
Theorem reader_any_split cmds pieces :
  Forall (fun c => printable_cmd c = true) cmds ->
  concat pieces = concat (map cmd_line cmds) ->
  feed_all reader_default pieces = Some (Ok (map read_cmd cmds), reader_default).
Proof. intros Hc Hp. apply feed_all_prefix; [done|done|apply not_elem_of_nil]. Qed.

(** Literals. A marker announces at most 1 MiB and its length never exceeds the
    line, so the slice before it is in bounds; after it the reader asks for a
    continuation. The announced bytes are then spliced into the command line as they
    are and tokenized with it, so a literal is not one argument: its blanks, quotes
    and parentheses are read as syntax. *)
Theorem literal_spliced line n k body tail :
  literal_count line = Some (n, k) -> (b_nl ∉ line) ->
  Z.of_nat (length body) = n -> literal_count tail = None -> (b_nl ∉ tail) ->
  let head := take (length line - k) line in
  (0 <= n <= 1048576)%Z /\ exists inner rd,
    line = head ++ "{"%char :: inner ++ ["}"%char] /\ k = (2 + length inner)%nat
    /\ feed reader_default (line ++ crlf) = Some (Ok [], rd) /\ needs_continuation rd = true
    /\ feed rd (body ++ tail ++ crlf)
       = match parse_line (head ++ body ++ tail) with
         | None => None
         | Some (Err e) => Some (Err e, reader_default)
         | Some (Ok cmd) => Some (Ok [cmd], reader_default)
         end.
Proof.
  intros Hl Hn Hb Ht Htn. pose proof Hl as (Hr & head & inner & Hline & Hk & Htake)%literal_count_Some.
  rewrite Htake. split; [done|]. exists inner, (mkReader [] head (Some n)).
  assert (Hnl : forall l, (b_nl ∉ l) -> l ++ crlf = (l ++ [b_cr]) ++ b_nl :: [] /\ (b_nl ∉ l ++ [b_cr])).
  { intros l Hnin. split; [unfold crlf; by rewrite <- app_assoc|].
    rewrite elem_of_app. intros [?|?%list_elem_of_singleton]; done. }
  repeat split; [done|done| |].
  - unfold feed. destruct (Hnl line Hn) as [-> Hcr]. cbn -[split_once].
    rewrite split_once_app by done. rewrite take_line_cr, Hl. by rewrite Htake.
  - unfold feed. cbn [rd_buf rd_pending_line rd_literal_remaining app].
    destruct (length (body ++ tail ++ crlf)) as [|m] eqn:Hm; [rewrite !length_app in Hm; cbn in Hm; lia|].
    cbn [Nat.add feed_loop rd_buf rd_pending_line rd_literal_remaining].
    rewrite Hm, Z.min_l by (rewrite <- Hm, length_app; lia).
    rewrite <- Hb, Nat2Z.id, take_app_length, drop_app_length, Z.sub_diag.
    cbn [Z.eqb]. destruct (Hnl tail Htn) as [-> Hcr]. rewrite split_once_app by done.
    rewrite take_line_cr, Ht, <- app_assoc.
    by destruct (parse_line (head ++ body ++ tail)) as [[cmd|e]|].
Qed.

Module ToyReader.

Definition login : ParsedCommand := mkParsed #"A1" #"login" [ #"alice"; dq "p~w )"].
Definition noop : ParsedCommand := mkParsed #"A2" #"NOOP" [].
Definition bytes : str := cmd_line login ++ cmd_line noop.

Lemma reader_any_split_witness :
  feed_all reader_default [take 5 bytes; drop 5 (take 30 bytes); drop 30 bytes]
  = Some (Ok [mkParsed #"A1" #"LOGIN" [ #"alice"; dq "p~w )"]; noop], reader_default).
Proof.
  apply (reader_any_split [login; noop]); [repeat constructor; vm_compute; reflexivity | vm_compute; reflexivity].
Defined.

(** A literal of two words becomes two arguments. *)
Lemma literal_spliced_witness :
  exists rd, feed rd (#"alice hunter2" ++ crlf) = Some (Ok [mkParsed #"X" #"LOGIN" [ #"alice"; #"hunter2"]], reader_default).
Proof.
  destruct (literal_spliced #"X LOGIN {13}" 13 4 #"alice hunter2" []) as (_ & i & rd & _ & _ & _ & _ & Hf);
    [vm_compute; reflexivity | apply not_in_lit; vm_compute; reflexivity | reflexivity | reflexivity | apply not_elem_of_nil |].
  exists rd. cbn [app] in Hf. rewrite Hf. vm_compute. reflexivity.
Defined.

(** A closing parenthesis after a complete command. *)
Example tokenize_hangs : tokenize #"A1 NOOP )" = None.
Proof. vm_compute. reflexivity. Qed.

End ToyReader.
