(* ===== verification/ImapFetch.v ===== *)
(** * FETCH: items, sections and their rendering ([talk-imap/src/session.rs])

    Sequence sets and flag lists, the parser of FETCH items and body sections, the
    synthesised headers and the FETCH response.  The [time] crate is the interface
    [TimeFormat]. *)

From S2P Require Export ImapParse MailStore.

Class TimeFormat := {
  (** [OffsetDateTime::from_unix_timestamp(secs)] under the two formats of the
      source; [None] when the date or its formatting fails *)
  internaldate_format : Z -> option str;
  rfc2822_format : Z -> option str;
}.

(** ** Sequence sets and flags *)

Definition seq_num (s : str) (count : Z) : Z :=
  if s ≟ #"*" then Z.max count 1 else Z.max (default 1%Z (parse_u32 s)) 1.

Definition part_in_range (uid count : Z) (part : str) : bool :=
  match split_once ":"%char part with
  | Some (a, b) =>
      let a := seq_num a count in
      let b := seq_num b count in
      let lo := Z.min a b in
      let hi := Z.max a b in
      (lo <=? uid)%Z && (uid <=? hi)%Z
  | None => (uid =? seq_num part count)%Z
  end.
Definition in_range (range : str) (uid count : Z) : bool :=
  existsb (part_in_range uid count) (split ","%char range).

Definition flag_of_name (f : str) : Z :=
  let f := to_ascii_uppercase f in
  if f ≟ #"SEEN" then SEEN
  else if f ≟ #"ANSWERED" then ANSWERED
  else if f ≟ #"FLAGGED" then FLAGGED
  else if f ≟ #"DELETED" then DELETED
  else 0.
Definition flag_punctuation (c : ascii) : bool :=
  (c ≟ "("%char) || (c ≟ ")"%char) || (c ≟ b_bs) || (c ≟ ";"%char).
Definition trim_flag (f : str) : str := drop_while_end flag_punctuation (drop_while flag_punctuation f).
Definition parse_flags (s : str) : Z :=
  foldl (fun mask f => Z.lor mask (flag_of_name (trim_flag f))) 0%Z (split_whitespace s).

Definition flags_display (flags : Z) : str :=
  join #" "
    ((if flags_contains flags SEEN then [ #"\Seen"] else [])
     ++ (if flags_contains flags ANSWERED then [ #"\Answered"] else [])
     ++ (if flags_contains flags FLAGGED then [ #"\Flagged"] else [])
     ++ (if flags_contains flags DELETED then [ #"\Deleted"] else [])).
Definition join_uids (uids : list Z) : str := join #" " (map show_Z uids).

(** ** Body sections *)

Inductive BodySection :=
  | BsNone
  | BsFull
  | BsHeader
  | BsHeaderFields (fields : list str)
  | BsHeaderFieldsNot (fields : list str)
  | BsText
  | BsMime
  | BsOther (s : str).

Definition needs_stored_body (b : BodySection) : bool :=
  match b with BsFull | BsText | BsMime | BsOther _ => true | _ => false end.
Definition is_none_section (b : BodySection) : bool := match b with BsNone => true | _ => false end.

Definition label (b : BodySection) : str :=
  match b with
  | BsNone | BsFull => #"BODY[]"
  | BsHeader => #"BODY[HEADER]"
  | BsText => #"BODY[TEXT]"
  | BsMime => #"BODY[MIME]"
  | BsHeaderFields fields => #"BODY[HEADER.FIELDS (" ++ join #" " fields ++ #")]"
  | BsHeaderFieldsNot fields => #"BODY[HEADER.FIELDS.NOT (" ++ join #" " fields ++ #")]"
  | BsOther s => #"BODY[" ++ s ++ #"]"
  end.

(** [str::contains]. *)
Fixpoint contains (p s : str) : bool :=
  starts_with p s || match s with [] => false | _ :: r => contains p r end.

(** The text between the first [(] and the last [)]. *)
Definition extract_field_list (s : str) : option str :=
  '(before, _) ← split_once "("%char s;
  '(upto, _) ← rsplit_once ")"%char s;
  let open := length before in
  let close := length upto in
  if (close <=? open)%nat then None else Some (take (close - S open) (drop (S open) s)).

Definition parse_body_section (section : str) : BodySection :=
  let s := trim section in
  if s ≟ [] then BsFull
  else
    let upper := to_ascii_uppercase s in
    if upper ≟ #"HEADER" then BsHeader
    else if upper ≟ #"TEXT" then BsText
    else if upper ≟ #"MIME" then BsMime
    else
      match (if starts_with #"HEADER.FIELDS" upper then extract_field_list s else None) with
      | Some l =>
          let fields := split_whitespace l in
          if contains #".NOT" upper then BsHeaderFieldsNot fields else BsHeaderFields fields
      | None => BsOther s
      end.

(** The bytes up to the bracket that closes the one already read, and those behind it. *)
Fixpoint close_bracket (depth : nat) (s : str) : option (str * str) :=
  match s with
  | [] => None
  | c :: r =>
      let depth := if c ≟ "["%char then S depth else if c ≟ "]"%char then pred depth else depth in
      match depth with
      | O => Some ([], r)
      | _ => match close_bracket depth r with Some (t, rest) => Some (c :: t, rest) | None => None end
      end
  end.

(** [u8::is_ascii_whitespace]. *)
Definition is_ascii_whitespace (c : ascii) : bool :=
  between 32 32 c || between 9 10 c || between 12 13 c.
Definition at_boundary (pre : str) : bool :=
  match last pre with
  | None => true
  | Some c => is_ascii_whitespace c || (c ≟ "("%char) || (c ≟ "["%char)
  end.

(** The scan at byte [length pre] of the items [pre ++ s]. *)
Fixpoint scan_body (pre s : str) : option (str * str) :=
  match s with
  | [] => None
  | c :: r =>
      let here :=
        if at_boundary pre && starts_with #"BODY" (to_ascii_uppercase s) then
          '(_, inner) ← split_once "["%char (drop 4 s);
          '(section, after) ← close_bracket 1 inner;
          Some (pre ++ after, section)
        else None in
      match here with
      | Some x => Some x
      | None => scan_body (pre ++ [c]) r
      end
  end.
Definition extract_body_section (items : str) : str * option str :=
  match scan_body [] items with
  | Some (rest, section) => (rest, Some section)
  | None => (items, None)
  end.

(** ** FETCH items *)

Record FetchRequest := mkFetch {
  rq_flags : bool;
  rq_uid : bool;
  rq_size : bool;
  rq_internaldate : bool;
  rq_envelope : bool;
  rq_bodystructure : bool;
  rq_body : BodySection;
}.

Definition add_item (q : FetchRequest) (item : str) : FetchRequest :=
  let '(mkFetch fl ui si da en bs bo) := q in
  let item := to_ascii_uppercase item in
  if item ≟ #"FLAGS" then mkFetch true ui si da en bs bo
  else if item ≟ #"UID" then mkFetch fl true si da en bs bo
  else if item ≟ #"RFC822.SIZE" then mkFetch fl ui true da en bs bo
  else if item ≟ #"INTERNALDATE" then mkFetch fl ui si true en bs bo
  else if item ≟ #"ENVELOPE" then mkFetch fl ui si da true bs bo
  else if item ≟ #"BODYSTRUCTURE" then mkFetch fl ui si da en true bo
  else q.

(** A requested body brings FLAGS, UID and RFC822.SIZE along. *)
Definition with_trio (q : FetchRequest) : FetchRequest :=
  if is_none_section (rq_body q) then q
  else mkFetch true true true (rq_internaldate q) (rq_envelope q) (rq_bodystructure q) (rq_body q).
Definition with_uid (q : FetchRequest) : FetchRequest :=
  mkFetch (rq_flags q) true (rq_size q) (rq_internaldate q) (rq_envelope q) (rq_bodystructure q) (rq_body q).

Definition unparen (s : str) : str :=
  if starts_with #"(" s && ends_with #")" s then take (length s - 2) (drop 1 s) else s.

Definition parse_fetch_items (items : str) : FetchRequest :=
  let inner := unparen (trim items) in
  let upper := to_ascii_uppercase inner in
  if (upper ≟ []) || (upper ≟ #"*") then mkFetch true true true true true true BsFull
  else if (upper ≟ #"ALL") || (upper ≟ #"FULL") then mkFetch true false true true true false BsFull
  else if upper ≟ #"FAST" then mkFetch true false true true false false BsNone
  else
    let '(rest, section) := extract_body_section inner in
    let body := match section with Some s => parse_body_section s | None => BsNone end in
    with_trio (foldl add_item (mkFetch false false false false false false body) (split_whitespace rest)).

(** ** Rendering *)

Record MessageIdentity := mkIdentity { id_from : str; id_to : str }.

Section render.
Context `{TimeFormat}.

(** [duration_since(UNIX_EPOCH)] of a stored date, its seconds [as i64]. *)
Definition unix_secs (internaldate : Z) : Z := wrap_i64 (Z.max internaldate 0).
Definition format_internaldate (t : Z) : str :=
  default #"01-Jan-1970 00:00:00 +0000" (internaldate_format (unix_secs t)).
Definition format_rfc2822 (t : Z) : str :=
  default #"Mon, 01 Jan 1970 00:00:00 +0000" (rfc2822_format (unix_secs t)).

Definition or_unknown (s what : str) : str := if s ≟ [] then what else s.

(** The headers synthesised for a message, by name. *)
Definition headers (meta : MessageMeta) (identity : MessageIdentity) : list (str * str) :=
  let from := or_unknown (id_from identity) #"(unknown sender)" in
  let to := or_unknown (id_to identity) #"(unknown recipient)" in
  [( #"Content-Type", #"text/html; charset=utf-8"); ( #"From", from); ( #"To", to); ( #"Reply-To", from)]
  ++ (if meta_subject meta ≟ [] then [] else [( #"Subject", meta_subject meta)])
  ++ [( #"Date", format_rfc2822 (meta_internaldate meta));
      ( #"Message-ID", #"<" ++ meta_message_id meta ++ #">")]
  ++ match meta_tx_state meta with
     | None => []
     | Some x =>
         ( #"X-Talk-Txn-Status", x)
         :: match meta_tx_id meta with Some i => [( #"X-Talk-Txn-Id", show_Z i)] | None => [] end
     end.

Definition keep_header (filter : option (list str * bool)) (name : str) : bool :=
  match filter with
  | None => true
  | Some (fields, negate) =>
      let listed := existsb (fun f => eq_ignore_ascii_case f name) fields in
      if negate then negb listed else listed
  end.

Definition header_lines (meta : MessageMeta) (filter : option (list str * bool)) (identity : MessageIdentity) : str :=
  concat (map (fun '(name, value) =>
                 if keep_header filter name then name ++ #": " ++ value ++ crlf else [])
            (headers meta identity))
  ++ [b_nl].

Definition content (b : BodySection) (meta : MessageMeta) (body : str) (identity : MessageIdentity) : str :=
  match b with
  | BsNone => []
  | BsFull | BsText | BsOther _ => body
  | BsMime => #"Content-Type: text/plain" ++ crlf
  | BsHeader => header_lines meta None identity
  | BsHeaderFields fields => header_lines meta (Some (fields, false)) identity
  | BsHeaderFieldsNot fields => header_lines meta (Some (fields, true)) identity
  end.

Definition address_group (s : str) : str :=
  if (s ≟ []) || (s ≟ #"(unknown sender)") || (s ≟ #"(unknown recipient)") then #"NIL"
  else
    match rsplit_once b_at s with
    | Some (local, host) =>
        #"((" ++ quote local ++ #" NIL " ++ quote local ++ #" " ++ quote host ++ #"))"
    | None => #"((" ++ quote s ++ #" NIL NIL NIL))"
    end.

Definition envelope_response (meta : MessageMeta) (identity : MessageIdentity) : str :=
  let from := address_group (id_from identity) in
  format_rfc2822 (meta_internaldate meta) ++ #" " ++ quote (meta_subject meta) ++ #" "
  ++ from ++ #" " ++ from ++ #" " ++ from ++ #" " ++ address_group (id_to identity)
  ++ #" NIL NIL NIL " ++ quote (meta_message_id meta).

Definition body_lines (body : str) : Z :=
  if body ≟ [] then 1 else (Z.of_nat (length (filter (fun c => c = b_nl) body)) + 1)%Z.

(** The data items of a FETCH response, the body literal apart. *)
Definition fetch_parts (meta : MessageMeta) (q : FetchRequest) (body : str) (identity : MessageIdentity) : list str :=
  (if rq_flags q then [ #"FLAGS (" ++ flags_display (meta_flags meta) ++ #")"] else [])
  ++ (if rq_uid q then [ #"UID " ++ show_Z (meta_uid meta)] else [])
  ++ (if rq_size q then [ #"RFC822.SIZE " ++ show_Z (meta_size meta)] else [])
  ++ (if rq_internaldate q then [ #"INTERNALDATE " ++ [b_dq] ++ format_internaldate (meta_internaldate meta) ++ [b_dq]] else [])
  ++ (if rq_envelope q then [ #"ENVELOPE (" ++ envelope_response meta identity ++ #")"] else [])
  ++ (if rq_bodystructure q
      then [dq "BODYSTRUCTURE (~text~ ~html~ NIL NIL NIL NIL " ++ show_Z (meta_size meta) ++ #" "
            ++ show_Z (body_lines body) ++ #")"]
      else []).

Definition fetch_response (meta : MessageMeta) (q : FetchRequest) (body : str) (identity : MessageIdentity) : str :=
  let parts := join #" " (fetch_parts meta q body identity) in
  if is_none_section (rq_body q) then untagged (show_Z (meta_uid meta) ++ #" FETCH (" ++ parts ++ #")")
  else
    let c := content (rq_body q) meta body identity in
    untagged (show_Z (meta_uid meta) ++ #" FETCH (" ++ parts ++ #" " ++ label (rq_body q)
              ++ #" {" ++ show_nat (length c) ++ #"}")
    ++ from_utf8_lossy c ++ #")" ++ crlf.

End render.
