(* ===== verification/ImapSession.v ===== *)
(** * The IMAP session ([talk-imap/src/session.rs])

    The state machine of RFC 3501 over one mail store: a handler for each command,
    dispatched by [imap_handle].  A handler runs on the session and the store; its
    early returns are errors that carry the reply. *)

From S2P Require Export Externals Keys Sqlite ImapFetch.

(** The members of an operating-system group ([getgrnam]); [None] when there is no
    such group or no member list. *)
Class OsGroups := { getgrnam : str -> option (list str) }.

Inductive ImapState := NotAuthenticated | ImAuthenticated | Selected.
#[export] Instance ImapState_eq_dec : EqDecision ImapState.
Proof. solve_decision. Defined.
Inductive AuthMode := Database | LocalAuth.

Record ImapSession := mkImap {
  im_state : ImapState;
  im_username : str;
  im_user_id : Z;
  im_auth_mode : AuthMode;
  im_domain : str;
  im_selected : str;
}.
Definition set_im_state (x : ImapState) (s : ImapSession) : ImapSession :=
  mkImap x (im_username s) (im_user_id s) (im_auth_mode s) (im_domain s) (im_selected s).
Definition set_user (id : Z) (name : str) (s : ImapSession) : ImapSession :=
  mkImap ImAuthenticated name id (im_auth_mode s) (im_domain s) (im_selected s).
Definition select_mailbox (m : str) (s : ImapSession) : ImapSession :=
  mkImap Selected (im_username s) (im_user_id s) (im_auth_mode s) (im_domain s) m.

Definition MAILBOXES : list str := [INBOX; SENT].
Definition canonical_mailbox (name : str) : option str :=
  head (filter (fun m => eq_ignore_ascii_case m name = true) MAILBOXES).

(** A handler with result [A]; [Err r] returns the reply [r] at once. *)
Abbreviation H A := (st (ImapSession * Store) str A).
Definition the_session : H ImapSession := gets fst.
Definition update (f : ImapSession -> ImapSession) : H unit := modify (fun '(s, w) => (f s, w)).
(** A store method: its result, and its success alone ([.ok()]). *)
Definition attempt {A} (m : M A) : H (result StoreError A) := fun '(s, w) =>
  let '(r, w) := m w in (Ok r, (s, w)).
Definition attempt_ok {A} (m : M A) : H (option A) := r ← attempt m; mret (ok r).

(** The reply a handler ends with. *)
Definition reply_of (m : H str) (x : ImapSession * Store) : str * (ImapSession * Store) :=
  let '(r, x) := m x in (match r with Ok t | Err t => t end, x).

Section session.
Context `{ErrorTexts} `{Encodings} `{KeyCrypto} `{Argon2} `{OsGroups} `{TimeFormat}.

Definition store_err (tag : str) (e : StoreError) : str :=
  tagged tag StNo (#"Storage error: " ++ store_error_str e).
Definition use_store {A} (tag : str) (m : M A) : H A :=
  r ← attempt m; lift (map_err (store_err tag) r).

Definition bad {A} (tag text : str) : H A := raise (tagged tag StBad text).
Definition no {A} (tag text : str) : H A := raise (tagged tag StNo text).
(** The guards on the session state. *)
Definition require_login (tag : str) : H ImapSession :=
  s ← the_session;
  if im_state s ≟ NotAuthenticated then bad tag #"Not authenticated" else mret s.
Definition require_selected (tag : str) : H ImapSession :=
  s ← the_session;
  if im_state s ≟ Selected then mret s else bad tag #"No mailbox selected".

Definition done_ok (tag text : str) : str := tagged tag StOk text.

Definition cmd_capability (tag : str) : str :=
  untagged #"CAPABILITY IMAP4rev1 IDLE NAMESPACE AUTH=PLAIN" ++ done_ok tag #"CAPABILITY completed".
Definition cmd_logout (tag : str) : str :=
  untagged #"BYE Talk IMAP server logging out" ++ done_ok tag #"LOGOUT completed".

(** *** Login *)

Definition is_in_zsmtp_group (username : str) : bool :=
  match getgrnam #"zsmtp" with
  | None => false
  | Some members => existsb (fun m => m ≟ username) members
  end.

Definition zero_id : str := replicate 16 b_nul.
Definition wrapper_of (row : str * str) : WrappedByShare :=
  let id := match hex_decode (fst row) with
            | Some b => if length b ≟ 16%nat then b else zero_id
            | None => zero_id
            end in
  mkWrapped id (snd row).

(** An app password is a share in hexadecimal. *)
Definition parse_share (password : str) : option Share :=
  bytes ← hex_decode password;
  if length bytes ≟ 32%nat then Some bytes else None.

Definition share_opens (rows : list (str * str)) (share : Share) : bool :=
  is_ok (share_resolver_unwrap PerShareWrapper (mkDkSet (map wrapper_of rows)) (ByShare share)).

Definition login_app (tag : str) (user : User) (password : str) : H str :=
  match parse_share password with
  | None => no tag #"Authentication failed"
  | Some share =>
      rows ← attempt_ok (get_shares (user_id user));
      match rows with
      | None => no tag #"Authentication failed"
      | Some rows =>
          if share_opens rows share then
            _ ← update (set_user (user_id user) (user_username user));
            mret (done_ok tag #"LOGIN completed (app password)")
          else no tag #"Authentication failed"
      end
  end.

Definition password_ok (local password : str) (mode : AuthMode) : H (option bool) :=
  match mode with
  | Database =>
      hash ← attempt_ok (password_hash local);
      mret match mjoin hash with
           | None => None
           | Some h => Some (default false (ok (verify_password password h)))
           end
  | LocalAuth => mret (Some (is_in_zsmtp_group local))
  end.

Definition login_plain (tag : str) (user : User) (local password : str) : H str :=
  s ← the_session;
  good ← password_ok local password (im_auth_mode s);
  match good with
  | Some true =>
      _ ← update (set_user (user_id user) (user_username user));
      mret (done_ok tag #"LOGIN completed")
  | _ => no tag #"Authentication failed"
  end.

Definition login (tag username password : str) : H str :=
  let '(base, is_app) := match strip_suffix #":app" username with
                         | Some b => (b, true)
                         | None => (username, false)
                         end in
  s ← the_session;
  match local_username base (im_domain s) with
  | None => no tag #"Authentication failed"
  | Some local =>
      user ← attempt_ok (get_user local);
      match mjoin user with
      | None => no tag #"Authentication failed"
      | Some user => if is_app : bool then login_app tag user password else login_plain tag user local password
      end
  end.

Definition cmd_auth (tag : str) (cmd : ParsedCommand) : H str :=
  s ← the_session;
  if negb (im_state s ≟ NotAuthenticated) then bad tag #"Already authenticated"
  else if pc_name cmd ≟ #"AUTHENTICATE" then
    match pc_args cmd with
    | [mech; token64] =>
        if negb (eq_ignore_ascii_case mech #"PLAIN") then bad tag #"Only AUTHENTICATE PLAIN <token> supported"
        else
          match b64_decode token64 with
          | None => bad tag #"Invalid base64"
          | Some token =>
              match split b_nul token with
              | [_; username; password] => login tag (from_utf8_lossy username) (from_utf8_lossy password)
              | _ => bad tag #"Invalid SASL PLAIN payload"
              end
          end
    | _ => bad tag #"Only AUTHENTICATE PLAIN <token> supported"
    end
  else
    match pc_args cmd with
    | [username; password] => login tag username password
    | _ => bad tag #"LOGIN requires username and password"
    end.

(** *** Mailboxes *)

Definition named_mailbox (tag : str) (cmd : ParsedCommand) : H str :=
  match head (pc_args cmd) ≫= canonical_mailbox with
  | Some m => mret m
  | None => no tag #"Mailbox does not exist"
  end.

Definition unseen_count (messages : list MessageMeta) : Z :=
  Z.of_nat (length (filter (fun m => is_seen (meta_flags m) = false) messages)).
Definition count32 (messages : list MessageMeta) : Z := wrap 32 (Z.of_nat (length messages)).
Definition first_uidvalidity (messages : list MessageMeta) : Z :=
  default 1%Z (meta_uidvalidity <$> head messages).

Definition cmd_select (tag : str) (cmd : ParsedCommand) : H str :=
  s ← require_login tag;
  mailbox ← named_mailbox tag cmd;
  let read_only := pc_name cmd ≟ #"EXAMINE" in
  messages ← use_store tag (list_messages_in (im_user_id s) mailbox);
  next ← attempt_ok (uidnext_in (im_user_id s) mailbox);
  let uidnext := default (default 1%Z ((fun m => wrap 32 (meta_uid m + 1)) <$> head messages)) next in
  let out := select_responses (count32 messages) (wrap 32 (unseen_count messages)) (first_uidvalidity messages) uidnext in
  let mode := if read_only then #"READ-ONLY" else #"READ-WRITE" in
  let verb := if read_only then #"EXAMINE" else #"SELECT" in
  _ ← update (select_mailbox mailbox);
  mret (out ++ done_ok tag (#"[" ++ mode ++ #"] " ++ verb ++ #" completed")).

Definition cmd_list (tag : str) (cmd : ParsedCommand) : H str :=
  _ ← require_login tag;
  let pattern := default [] (nth_error (pc_args cmd) 1) in
  let shown name := (pattern ≟ []) || (pattern ≟ #"*") || eq_ignore_ascii_case pattern name in
  mret ((if shown INBOX then untagged (dq "LIST (\HasNoChildren) ~/~ ~INBOX~") else [])
        ++ (if shown SENT then untagged (dq "LIST (\HasNoChildren) ~/~ ~Sent~") else [])
        ++ done_ok tag #"LIST completed").

Definition cmd_namespace (tag : str) : H str :=
  _ ← require_login tag;
  mret (untagged (dq "NAMESPACE ((~~ ~/~)) NIL NIL") ++ done_ok tag #"NAMESPACE completed").

Definition cmd_status (tag : str) (cmd : ParsedCommand) : H str :=
  s ← require_login tag;
  mailbox ← named_mailbox tag cmd;
  messages ← use_store tag (list_messages_in (im_user_id s) mailbox);
  next ← attempt_ok (uidnext_in (im_user_id s) mailbox);
  let uidnext := default (wrap 32 (count32 messages + 1)) next in
  mret (untagged (#"STATUS " ++ [b_dq] ++ mailbox ++ [b_dq] ++ #" (MESSAGES "
                  ++ show_Z (Z.of_nat (length messages)) ++ #" RECENT 0 UNSEEN " ++ show_Z (unseen_count messages)
                  ++ #" UIDNEXT " ++ show_Z uidnext ++ #" UIDVALIDITY "
                  ++ show_Z (first_uidvalidity messages) ++ #")")
        ++ done_ok tag #"STATUS completed").

(** *** Messages *)

(** The From and To of a message: in Sent the local user is the sender. *)
Definition message_identity (s : ImapSession) (meta : MessageMeta) : MessageIdentity :=
  let local := im_username s ++ #"@" ++ im_domain s in
  if im_selected s ≟ SENT then mkIdentity local (meta_sender meta)
  else mkIdentity (meta_sender meta) local.

(** Whether the command is the UID form of [sub]. *)
Definition uid_form (sub : str) (cmd : ParsedCommand) : bool :=
  (pc_name cmd ≟ #"UID")
  && match head (pc_args cmd) with Some a => to_ascii_uppercase a ≟ sub | None => false end.

Definition fetch_args (tag : str) (cmd : ParsedCommand) : H (str * str) :=
  if uid_form #"FETCH" cmd then
    match pc_args cmd with
    | _ :: range :: item :: items => mret (range, join #" " (item :: items))
    | _ => bad tag #"UID FETCH requires arguments"
    end
  else
    match pc_args cmd with
    | [] => bad tag #"FETCH requires a sequence set"
    | [range] => mret (range, #"BODY[]")
    | range :: items => mret (range, join #" " items)
    end.

(** The loop over the messages of the mailbox. *)
Fixpoint fetch_loop (tag range : str) (count : Z) (q : FetchRequest) (l : list MessageMeta) : H str :=
  match l with
  | [] => mret []
  | meta :: rest =>
      if negb (in_range range (meta_uid meta) count) then fetch_loop tag range count q rest
      else
        s ← the_session;
        body ← (if needs_stored_body (rq_body q)
                then msg ← use_store tag (fetch_message_in (im_user_id s) (im_selected s) (meta_id meta));
                     mret (msg_body msg)
                else mret []);
        out ← fetch_loop tag range count q rest;
        mret (fetch_response meta q body (message_identity s meta) ++ out)
  end.

Definition cmd_fetch (tag : str) (cmd : ParsedCommand) : H str :=
  s ← require_selected tag;
  ri ← fetch_args tag cmd;
  messages ← use_store tag (list_messages_in (im_user_id s) (im_selected s));
  let q := parse_fetch_items (snd ri) in
  let q := if pc_name cmd ≟ #"UID" then with_uid q else q in
  out ← fetch_loop tag (fst ri) (count32 messages) q messages;
  mret (out ++ done_ok tag #"FETCH completed").

Definition store_args (tag : str) (cmd : ParsedCommand) : H (str * str * str) :=
  if uid_form #"STORE" cmd then
    match pc_args cmd with
    | _ :: range :: mode :: flagspec :: _ => mret (range, mode, flagspec)
    | _ => bad tag #"UID STORE requires arguments"
    end
  else
    match pc_args cmd with
    | range :: mode :: flagspec :: _ => mret (range, mode, flagspec)
    | _ => bad tag #"STORE requires arguments"
    end.

Definition new_flags (mask : Z) (value : bool) (flags : Z) : Z :=
  if value then flags_insert flags mask else flags_remove flags mask.
Definition store_line (mask : Z) (value : bool) (meta : MessageMeta) : str :=
  untagged (show_Z (meta_uid meta) ++ #" FETCH (FLAGS ("
            ++ flags_display (new_flags mask value (meta_flags meta)) ++ #"))").

Fixpoint store_loop (tag range : str) (count mask : Z) (value : bool) (l : list MessageMeta) : H str :=
  match l with
  | [] => mret []
  | meta :: rest =>
      if negb (in_range range (meta_uid meta) count) then store_loop tag range count mask value rest
      else
        s ← the_session;
        _ ← use_store tag (set_flags_in (im_user_id s) (im_selected s) (meta_id meta) mask value);
        out ← store_loop tag range count mask value rest;
        mret (store_line mask value meta ++ out)
  end.

Definition cmd_store (tag : str) (cmd : ParsedCommand) : H str :=
  s ← require_selected tag;
  args ← store_args tag cmd;
  let '(range, mode, flagspec) := args in
  messages ← use_store tag (list_messages_in (im_user_id s) (im_selected s));
  let mask := parse_flags flagspec in
  if (mask =? 0)%Z then bad tag #"No supported flags in flag list"
  else
    let value := negb (starts_with #"-" (trim_start mode)) in
    out ← store_loop tag range (count32 messages) mask value messages;
    mret (out ++ done_ok tag #"STORE completed").

(** The criteria: whether all messages match, and whether unseen ones do. *)
Definition search_step (x : bool * bool) (a : str) : bool * bool :=
  let a := to_ascii_uppercase a in
  if a ≟ #"ALL" then (true, snd x)
  else if a ≟ #"UNSEEN" then (fst x, true)
  else (false, snd x).
Definition search_criteria (args : list str) : bool * bool :=
  foldl search_step (bool_decide (args = []), false) args.
Definition search_args (cmd : ParsedCommand) : list str :=
  match pc_args cmd with
  | a :: r => if (pc_name cmd ≟ #"UID") && eq_ignore_ascii_case a #"SEARCH" then r else a :: r
  | [] => []
  end.
Definition search_matches (criteria : bool * bool) (m : MessageMeta) : bool :=
  fst criteria || (snd criteria && negb (is_seen (meta_flags m))).

Definition cmd_search (tag : str) (cmd : ParsedCommand) : H str :=
  s ← require_selected tag;
  messages ← use_store tag (list_messages_in (im_user_id s) (im_selected s));
  let criteria := search_criteria (search_args cmd) in
  let matched := map meta_uid (filter (fun m => search_matches criteria m = true) messages) in
  mret (untagged (#"SEARCH " ++ join_uids matched) ++ done_ok tag #"SEARCH completed").

Definition cmd_uid (tag : str) (cmd : ParsedCommand) : H str :=
  _ ← require_selected tag;
  match pc_args cmd with
  | [] => bad tag #"UID requires a subcommand"
  | sub :: _ =>
      let sub := to_ascii_uppercase sub in
      if sub ≟ #"FETCH" then cmd_fetch tag cmd
      else if sub ≟ #"STORE" then cmd_store tag cmd
      else if sub ≟ #"SEARCH" then cmd_search tag cmd
      else bad tag #"Unsupported UID subcommand"
  end.

Definition cmd_expunge (tag : str) : H str :=
  s ← require_selected tag;
  uids ← use_store tag (expunge_in (im_user_id s) (im_selected s));
  mret (concat (map (fun u => untagged (show_Z u ++ #" EXPUNGE")) uids) ++ done_ok tag #"EXPUNGE completed").

Definition cmd_close (tag : str) : H str :=
  s ← require_selected tag;
  _ ← use_store tag (expunge (im_user_id s));
  _ ← update (set_im_state ImAuthenticated);
  mret (done_ok tag #"CLOSE completed").

Definition cmd_idle (tag : str) : H str :=
  _ ← require_selected tag;
  mret (continuation #"idle").

(** ** Dispatch *)

Definition unsupported : list str :=
  [ #"APPEND"; #"COPY"; #"MOVE"; #"SORT"; #"THREAD"; #"CREATE"; #"DELETE"; #"RENAME";
    #"SUBSCRIBE"; #"UNSUBSCRIBE"; #"LSUB"; #"CHECK"; #"LANGUAGE"].

Definition dispatch (cmd : ParsedCommand) : H str :=
  let tag := pc_tag cmd in
  let name := pc_name cmd in
  if name ≟ #"CAPABILITY" then mret (cmd_capability tag)
  else if name ≟ #"NOOP" then mret (done_ok tag #"NOOP completed")
  else if name ≟ #"LOGOUT" then mret (cmd_logout tag)
  else if (name ≟ #"LOGIN") || (name ≟ #"AUTHENTICATE") then cmd_auth tag cmd
  else if (name ≟ #"SELECT") || (name ≟ #"EXAMINE") then cmd_select tag cmd
  else if name ≟ #"LIST" then cmd_list tag cmd
  else if name ≟ #"NAMESPACE" then cmd_namespace tag
  else if name ≟ #"STATUS" then cmd_status tag cmd
  else if name ≟ #"FETCH" then cmd_fetch tag cmd
  else if name ≟ #"UID" then cmd_uid tag cmd
  else if name ≟ #"STORE" then cmd_store tag cmd
  else if name ≟ #"SEARCH" then cmd_search tag cmd
  else if name ≟ #"EXPUNGE" then cmd_expunge tag
  else if name ≟ #"CLOSE" then cmd_close tag
  else if name ≟ #"IDLE" then cmd_idle tag
  else if bool_decide (name ∈ unsupported) then no tag #"command not supported"
  else bad tag #"Unknown command".

(** [Session::handle]. *)
Definition imap_handle (cmd : ParsedCommand) (x : ImapSession * Store) : str * (ImapSession * Store) :=
  reply_of (dispatch cmd) x.

End session.
