(* ===== verification/ImapSessionFacts.v ===== *)
(** * Facts about the IMAP session

    Over any commands, and whatever statements fail, a session reads nothing and
    changes nothing of other users, its user is fixed by the login, and a login
    succeeds exactly with the right credentials. *)

From S2P Require Export ImapSession SqliteFacts.

(** ** What a session may change in the database *)

Definition not_owned (uid : Z) (d : Db) (r : message_row) : Prop :=
  ms_mailbox_id r ∉ owned_mailboxes uid d.

(** Messages of other users stay as they are; of the user's own, some are gone and
    flags may differ; every other table is the same, and the schema is kept. *)
Record confined (uid : Z) (d d' : Db) : Prop := {
  cf_users : users d' = users d;
  cf_keyring : keyring_entries d' = keyring_entries d;
  cf_shares : shares d' = shares d;
  cf_mailboxes : mailboxes d' = mailboxes d;
  cf_settings : settings d' = settings d;
  cf_transactions : transactions d' = transactions d;
  cf_others : filter (not_owned uid d) (messages d') = filter (not_owned uid d) (messages d);
  cf_own : forall r', r' ∈ messages d' -> exists r f, r ∈ messages d /\ r' = with_flags (fun _ => f) r;
  cf_schema : wf_db d -> wf_db d';
}.

Lemma with_flags_same r : with_flags (fun _ => ms_flags r) r = r.
Proof. by destruct r. Qed.

Lemma owned_mailboxes_same uid d d' : mailboxes d' = mailboxes d -> owned_mailboxes uid d' = owned_mailboxes uid d.
Proof. unfold owned_mailboxes. by intros ->. Qed.

#[export] Instance confined_preorder uid : PreOrder (confined uid).
Proof.
  split.
  - intros d. constructor; try done. intros r Hr. exists r, (ms_flags r). by rewrite with_flags_same.
  - intros d1 d2 d3 [] []. constructor; try congruence.
    + unfold not_owned in *. rewrite (owned_mailboxes_same uid d1 d2) in cf_others1 by done. congruence.
    + intros r3 (r2 & f & Hr2 & ->)%cf_own1. destruct (cf_own0 r2 Hr2) as (r1 & g & Hr1 & ->).
      exists r1, f. by split.
    + auto.
Qed.

Lemma filter_update_where {R} (Q : R -> Prop) `{!forall r, Decision (Q r)} (p : R -> bool) f rows :
  (forall r, p r = true -> ~ Q r /\ ~ Q (f r)) -> filter Q (update_where p f rows) = filter Q rows.
Proof.
  intros H. induction rows as [|r rows IH]; [done|]. change (update_where p f (r :: rows))
    with ((if p r then f r else r) :: update_where p f rows).
  destruct (p r) eqn:E.
  - destruct (H r E) as [H1 H2]. by rewrite !filter_cons_False by done.
  - rewrite !filter_cons. by rewrite IH.
Qed.

Lemma filter_delete_where {R} (Q : R -> Prop) `{!forall r, Decision (Q r)} (p : R -> bool) rows :
  (forall r, p r = true -> ~ Q r) -> filter Q (delete_where p rows) = filter Q rows.
Proof.
  intros H. unfold delete_where. rewrite list_filter_filter. apply list_filter_iff. intros r.
  destruct (p r) eqn:E; naive_solver.
Qed.

Lemma confined_update uid d p f :
  (forall r, p r = true -> ms_mailbox_id r ∈ owned_mailboxes uid d) ->
  confined uid d (set_messages d (update_where p (with_flags f) (messages d))).
Proof.
  intros Hp. constructor; cbn; try done.
  - apply filter_update_where. intros r Hr%Hp. unfold not_owned. cbn. naive_solver.
  - intros r' (r & Hr & ->)%elem_of_update_where. destruct (p r).
    + by exists r, (f (ms_flags r)).
    + exists r, (ms_flags r). by rewrite with_flags_same.
  - by apply wf_update_messages.
Qed.

Lemma confined_delete uid d p :
  (forall r, p r = true -> ms_mailbox_id r ∈ owned_mailboxes uid d) ->
  confined uid d (set_messages d (delete_where p (messages d))).
Proof.
  intros Hp. constructor; cbn; try done.
  - apply filter_delete_where. intros r Hr%Hp. unfold not_owned. naive_solver.
  - intros r [Hr _]%elem_of_delete_where. exists r, (ms_flags r). by rewrite with_flags_same.
  - apply wf_delete_messages.
Qed.

(** ** Store methods *)

Definition stepR (R : Db -> Db -> Prop) (w w' : Store) : Prop := saved w' = saved w /\ R (db w) (db w').
#[export] Instance stepR_preorder R : PreOrder R -> PreOrder (stepR R).
Proof.
  intros HR. split; [split; reflexivity|]. intros w1 w2 w3 [E1 R1] [E2 R2].
  split; [congruence|]. by etransitivity.
Qed.

Definition steps_by (R : Db -> Db -> Prop) {A} (m : M A) : Prop :=
  forall w r w', m w = (r, w') -> stepR R w w'.

Section store_steps.
Context (R : Db -> Db -> Prop) `{!PreOrder R}.

Lemma steps_ret {A} (x : A) : steps_by R (mret x).
Proof. intros w r w' [= <- <-]. reflexivity. Qed.
Lemma steps_raise {A} e : steps_by R (raise e : M A).
Proof. intros w r w' [= <- <-]. reflexivity. Qed.
Lemma steps_bind {A B} (m : M A) (f : A -> M B) :
  steps_by R m -> (forall x, steps_by R (f x)) -> steps_by R (m ≫= f).
Proof.
  intros Hm Hf w r w'. unfold mbind, st_bind. destruct (m w) as [[x|e] w1] eqn:E.
  - intros H. etransitivity; [by eapply Hm | by eapply Hf].
  - intros [= <- <-]. by eapply Hm.
Qed.
Lemma steps_query_eq {A} (f : Db -> A) w r w' : query f w = (r, w') -> saved w' = saved w /\ db w' = db w.
Proof. unfold query, exec. destruct (faults w) as [|[] ?]; by intros [= _ <-]. Qed.
Lemma steps_query {A} (f : Db -> A) : steps_by R (query f).
Proof. intros w r w'. unfold query, exec. destruct (faults w) as [|[] ?]; intros [= _ <-]; split; reflexivity. Qed.
Lemma steps_execute_with w r w' (f : Db -> Db) :
  R (db w) (f (db w)) -> execute (fun d => Ok (f d)) w = (r, w') -> stepR R w w'.
Proof. intros Hf. unfold execute, exec. destruct (faults w) as [|[] ?]; intros [= _ <-]; by split. Qed.
Lemma steps_query_bind {A B} (f : Db -> A) (g : A -> M B) w r w' :
  (forall x w1, db w1 = db w -> g x w1 = (r, w') -> stepR R w1 w') ->
  (query f ≫= g) w = (r, w') -> stepR R w w'.
Proof.
  intros Hg. unfold mbind, st_bind. destruct (query f w) as [[x|e] w1] eqn:E; pose proof (steps_query_eq _ _ _ _ E) as [Hs Hd].
  - intros H. destruct (Hg x w1 Hd H) as [Hs' HR]. split; [congruence|]. by rewrite <- Hd.
  - intros [= <- <-]. split; [done|]. by rewrite Hd.
Qed.
Lemma steps_execute_bind {B} (f : Db -> Db) (g : unit -> M B) w r w' :
  R (db w) (f (db w)) -> (forall u, steps_by R (g u)) ->
  (execute (fun d => Ok (f d)) ≫= g) w = (r, w') -> stepR R w w'.
Proof.
  intros Hf Hg. unfold mbind, st_bind. destruct (execute _ w) as [[x|e] w1] eqn:E.
  - intros H. etransitivity; [by eapply steps_execute_with | by eapply Hg].
  - intros [= <- <-]. by eapply steps_execute_with.
Qed.
End store_steps.

#[export] Hint Resolve steps_ret steps_raise steps_bind steps_query : talk.

Lemma steps_mailbox R `{!PreOrder R} uid name : steps_by R (mailbox_named uid name).
Proof. apply steps_bind; [done|auto with talk|]. intros [b|]; auto with talk. Qed.
#[export] Hint Resolve steps_mailbox : talk.

(** The mailbox a name resolves to belongs to the user. *)
Lemma mailbox_named_owned uid name w id v n w' :
  mailbox_named uid name w = (Ok (id, v, n), w') -> db w' = db w /\ id ∈ owned_mailboxes uid (db w).
Proof.
  unfold mailbox_named. intros (b & w1 & Hq & Hr)%st_bind_inv.
  assert (db w1 = db w /\ b = head (select (fun r => (mb_user_id r =? uid)%Z && (mb_name r ≟ name)) (mailboxes (db w)))) as [Hd Hb].
  { revert Hq. unfold query, exec. destruct (faults w) as [|[] ?]; by intros [= <- <-]. }
  destruct b as [b|]; [|done]. injection Hr as <- <- <- <-. split; [done|].
  symmetry in Hb. apply head_Some_elem_of, elem_of_select in Hb as [Hb Hp].
  apply andb_true_iff in Hp as [Hp _]. apply list_elem_of_fmap. exists b. split; [done|].
  apply elem_of_select. by split.
Qed.

(** A method that looks up a mailbox first. *)
Lemma steps_in_mailbox R `{!PreOrder R} uid name {A} (f : Z * Z * Z -> M A) :
  (forall w id v n, id ∈ owned_mailboxes uid (db w) -> forall r w', f (id, v, n) w = (r, w') -> stepR R w w') ->
  steps_by R (mailbox_named uid name ≫= f).
Proof.
  intros Hf w r w'. destruct (mailbox_named uid name w) as [[[[id v] n]|e] w1] eqn:E.
  - rewrite (st_bind_Ok _ _ _ _ _ E). intros H. etransitivity; [by eapply steps_mailbox|].
    apply mailbox_named_owned in E as [Hd Ho]. eapply Hf; [|exact H]. by rewrite Hd.
  - rewrite (st_bind_Err _ _ _ _ _ E). intros [= _ <-]. by eapply steps_mailbox.
Qed.

Section methods.
Context (R : Db -> Db -> Prop) `{!PreOrder R}.

Lemma steps_list uid name : steps_by R (list_messages_in uid name).
Proof. apply steps_bind; [done|auto with talk|]. intros [[? ?] ?]. auto with talk. Qed.
Lemma steps_uidnext uid name : steps_by R (uidnext_in uid name).
Proof. apply steps_bind; [done|auto with talk|]. intros [[? ?] ?]. auto with talk. Qed.
Lemma steps_fetch uid name i : steps_by R (fetch_message_in uid name i).
Proof.
  apply steps_bind; [done|auto with talk|]. intros [[? ?] ?]. apply steps_bind; [done|auto with talk|].
  intros [[? ?]|]; auto with talk.
Qed.
Lemma steps_get_user name : steps_by R (get_user name).
Proof. unfold get_user. auto with talk. Qed.
Lemma steps_password_hash name : steps_by R (password_hash name).
Proof. unfold password_hash. auto with talk. Qed.
Lemma steps_get_shares uid : steps_by R (get_shares uid).
Proof. unfold get_shares. auto with talk. Qed.
End methods.

Lemma steps_set_flags uid name i mask v : steps_by (confined uid) (set_flags_in uid name i mask v).
Proof.
  apply steps_in_mailbox; [apply _|]. intros w id ? ? Ho r w'. apply steps_execute_with; [apply _|].
  apply confined_update. intros m [Hm%Z.eqb_eq _]%andb_true_iff. by rewrite Hm.
Qed.

Lemma steps_expunge uid name : steps_by (confined uid) (expunge_in uid name).
Proof.
  apply steps_in_mailbox; [apply _|]. intros w id ? ? Ho r w'.
  apply steps_query_bind; [apply _|]. intros us w1 Hd. apply steps_execute_bind; [apply _| |intros u; apply steps_ret, _].
  apply confined_delete. intros m [Hm%Z.eqb_eq _]%andb_true_iff. by rewrite Hm, Hd.
Qed.

#[export] Hint Resolve steps_list steps_uidnext steps_fetch steps_get_user steps_password_hash
  steps_get_shares steps_set_flags steps_expunge : talk.

(** ** Handlers

    [J] is kept by the session, [R] relates the databases before and after. *)

Definition hsteps (J : ImapSession -> Prop) (R : Db -> Db -> Prop) {A} (m : H A) : Prop :=
  forall s w r s' w', J s -> m (s, w) = (r, (s', w')) -> J s' /\ stepR R w w'.

Section handler_steps.
Context (J : ImapSession -> Prop) (R : Db -> Db -> Prop) `{!PreOrder R}.

Lemma hsteps_ret {A} (x : A) : hsteps J R (mret x).
Proof. intros s w r s' w' HJ [= _ <- <-]. split; [done|reflexivity]. Qed.
Lemma hsteps_raise {A} e : hsteps J R (raise e : H A).
Proof. intros s w r s' w' HJ [= _ <- <-]. split; [done|reflexivity]. Qed.
Lemma hsteps_bind {A B} (m : H A) (f : A -> H B) :
  hsteps J R m -> (forall x, hsteps J R (f x)) -> hsteps J R (m ≫= f).
Proof.
  intros Hm Hf s w r s' w' HJ. unfold mbind, st_bind. destruct (m (s, w)) as [[x|e] [s1 w1]] eqn:E.
  - intros H. destruct (Hm _ _ _ _ _ HJ E) as [HJ1 H1]. destruct (Hf _ _ _ _ _ _ HJ1 H) as [HJ2 H2].
    split; [done|]. by etransitivity.
  - intros [= _ <- <-]. by eapply Hm.
Qed.
Lemma hsteps_session {B} (f : ImapSession -> H B) :
  (forall s, J s -> hsteps J R (f s)) -> hsteps J R (the_session ≫= f).
Proof. intros Hf s w r s' w' HJ H. by eapply (Hf s HJ). Qed.
Lemma hsteps_update f : (forall s, J s -> J (f s)) -> hsteps J R (update f).
Proof. intros Hf s w r s' w' HJ [= _ <- <-]. split; [auto|reflexivity]. Qed.
Lemma hsteps_attempt {A} (m : M A) : steps_by R m -> hsteps J R (attempt m).
Proof.
  intros Hm s w r s' w' HJ. unfold attempt. destruct (m w) as [x w1] eqn:E. intros [= _ <- <-].
  split; [done|]. by eapply Hm.
Qed.
Lemma hsteps_attempt_ok {A} (m : M A) : steps_by R m -> hsteps J R (attempt_ok m).
Proof. intros Hm. apply hsteps_bind; [by apply hsteps_attempt|]. intros r. apply hsteps_ret. Qed.
Lemma hsteps_lift {A} (r : result str A) : hsteps J R (lift r).
Proof. intros s w r' s' w' HJ [= _ <- <-]. split; [done|reflexivity]. Qed.
End handler_steps.

#[export] Hint Resolve hsteps_ret hsteps_raise hsteps_bind hsteps_update hsteps_attempt hsteps_attempt_ok hsteps_lift : talk.

Section commands.
Context `{ErrorTexts} `{Encodings} `{KeyCrypto} `{Argon2} `{OsGroups} `{TimeFormat}.

Section with_relation.
Context (J : ImapSession -> Prop) (R : Db -> Db -> Prop) `{!PreOrder R}.

Lemma hsteps_use_store {A} tag (m : M A) : steps_by R m -> hsteps J R (use_store tag m).
Proof. intros Hm. apply hsteps_bind; auto with talk. Qed.
Lemma hsteps_login {B} tag (f : ImapSession -> H B) :
  (forall s, J s -> hsteps J R (f s)) -> hsteps J R (require_login tag ≫= f).
Proof.
  intros Hf s w r s' w' HJ. unfold require_login, mbind, st_bind, the_session, gets. cbn.
  case_bool_decide; cbn; [intros [= _ <- <-]; split; [done|reflexivity]|]. by apply Hf.
Qed.
Lemma hsteps_selected {B} tag (f : ImapSession -> H B) :
  (forall s, J s -> im_state s = Selected -> hsteps J R (f s)) -> hsteps J R (require_selected tag ≫= f).
Proof.
  intros Hf s w r s' w' HJ. unfold require_selected, mbind, st_bind, the_session, gets. cbn.
  case_bool_decide; cbn; [by apply Hf|]. intros [= _ <- <-]; split; [done|reflexivity].
Qed.
Lemma hsteps_named tag cmd : hsteps J R (named_mailbox tag cmd).
Proof. unfold named_mailbox, no. case_match; auto with talk. Qed.

(** The commands that only read. *)
Lemma hsteps_select tag cmd :
  (forall s m, J s -> J (select_mailbox m s)) -> hsteps J R (cmd_select tag cmd).
Proof.
  intros HJ. apply hsteps_login. intros s Hs. apply hsteps_bind; [done|apply hsteps_named|].
  intros m. apply hsteps_bind; [done|apply hsteps_use_store; auto with talk|]. intros l.
  apply hsteps_bind; [done|auto with talk|]. intros n. auto with talk.
Qed.
Lemma hsteps_list tag cmd : hsteps J R (cmd_list tag cmd).
Proof. apply hsteps_login. auto with talk. Qed.
Lemma hsteps_namespace tag : hsteps J R (cmd_namespace tag).
Proof. apply hsteps_login. auto with talk. Qed.
Lemma hsteps_status tag cmd : hsteps J R (cmd_status tag cmd).
Proof.
  apply hsteps_login. intros s Hs. apply hsteps_bind; [done|apply hsteps_named|].
  intros m. apply hsteps_bind; [done|apply hsteps_use_store; auto with talk|]. auto with talk.
Qed.
Lemma hsteps_fetch_loop tag range count q l : hsteps J R (fetch_loop tag range count q l).
Proof.
  induction l as [|m l IH]; cbn; [auto with talk|]. destruct (negb _); [done|].
  apply hsteps_session. intros s Hs. apply hsteps_bind; [done| |auto with talk].
  destruct (needs_stored_body _); [|auto with talk].
  apply hsteps_bind; [done|apply hsteps_use_store; auto with talk|auto with talk].
Qed.
Lemma hsteps_fetch tag cmd : hsteps J R (cmd_fetch tag cmd).
Proof.
  apply hsteps_selected. intros s Hs _. apply hsteps_bind; [done|unfold fetch_args, bad; repeat case_match; auto with talk|].
  intros ri. apply hsteps_bind; [done|apply hsteps_use_store; auto with talk|]. intros l.
  apply hsteps_bind; [done|apply hsteps_fetch_loop|auto with talk].
Qed.
Lemma hsteps_search tag cmd : hsteps J R (cmd_search tag cmd).
Proof.
  apply hsteps_selected. intros s Hs _. apply hsteps_bind; [done|apply hsteps_use_store; auto with talk|auto with talk].
Qed.
Lemma hsteps_idle tag : hsteps J R (cmd_idle tag).
Proof. apply hsteps_selected. auto with talk. Qed.

Lemma hsteps_login_cmd tag u p :
  (forall s id n, J s -> J (set_user id n s)) -> hsteps J R (login tag u p).
Proof.
  intros HJ. unfold login. destruct (match strip_suffix _ u with Some b => _ | None => _ end) as [base is_app].
  apply hsteps_session. intros s Hs. destruct (local_username _ _); [|unfold no; auto with talk].
  apply hsteps_bind; [done|auto with talk|]. intros o. destruct (mjoin o) as [user|]; [|unfold no; auto with talk].
  destruct is_app.
  - unfold login_app, no. destruct (parse_share p); [|auto with talk].
    apply hsteps_bind; [done|auto with talk|]. intros [rows|]; [|auto with talk]. destruct (share_opens _ _); auto with talk.
  - apply hsteps_session. intros s' Hs'. apply hsteps_bind; [done| |].
    + unfold password_ok. destruct (im_auth_mode s'); auto with talk.
    + intros [[]|]; unfold no; auto with talk.
Qed.
Lemma hsteps_auth tag cmd :
  (forall s id n, J s -> J (set_user id n s)) -> hsteps J R (cmd_auth tag cmd).
Proof.
  intros HJ. apply hsteps_session. intros s Hs. unfold bad.
  repeat case_match; try (by apply hsteps_login_cmd); auto with talk.
Qed.
End with_relation.

(** *** The commands that change the mailbox *)

Section with_user.
Context (J : ImapSession -> Prop) (uid : Z) (HJ : forall s, J s -> im_user_id s = uid).

Lemma hsteps_store_loop tag range count mask v l :
  hsteps J (confined uid) (store_loop tag range count mask v l).
Proof.
  induction l as [|m l IH]; cbn; [apply hsteps_ret, _|]. destruct (negb _); [done|].
  apply hsteps_session. intros s <-%HJ. apply hsteps_bind; [apply _|apply hsteps_use_store; auto with talk; apply _|].
  intros _. apply hsteps_bind; [apply _|done|]. intros x. apply hsteps_ret, _.
Qed.
Lemma hsteps_store tag cmd : hsteps J (confined uid) (cmd_store tag cmd).
Proof.
  apply hsteps_selected; [apply _|]. intros s Hs _.
  apply hsteps_bind; [apply _|unfold store_args, bad; repeat case_match; (apply hsteps_ret, _ || apply hsteps_raise, _)|].
  intros [[range mode] spec]. apply hsteps_bind; [apply _|apply hsteps_use_store, steps_list; apply _|]. intros l.
  cbv zeta. destruct (parse_flags spec =? 0)%Z; [apply hsteps_raise, _|].
  apply hsteps_bind; [apply _|apply hsteps_store_loop|]. intros x. apply hsteps_ret, _.
Qed.
Lemma hsteps_expunge tag : hsteps J (confined uid) (cmd_expunge tag).
Proof.
  apply hsteps_selected; [apply _|]. intros s <-%HJ _.
  apply hsteps_bind; [apply _|apply hsteps_use_store, steps_expunge; apply _|]. intros x. apply hsteps_ret, _.
Qed.
Lemma hsteps_close tag :
  (forall s, J s -> J (set_im_state ImAuthenticated s)) -> hsteps J (confined uid) (cmd_close tag).
Proof.
  intros HJs. apply hsteps_selected; [apply _|]. intros s <-%HJ _.
  apply hsteps_bind; [apply _|apply hsteps_use_store, steps_expunge; apply _|]. intros x.
  apply hsteps_bind; [apply _|by apply hsteps_update; [apply _|]|]. intros _. apply hsteps_ret, _.
Qed.
End with_user.

(** *** The dispatcher *)

(** The session of a user who stays logged in. *)
Definition logged_in (s0 s : ImapSession) : Prop :=
  im_user_id s = im_user_id s0 /\ im_username s = im_username s0 /\ im_auth_mode s = im_auth_mode s0
  /\ im_domain s = im_domain s0 /\ im_state s <> NotAuthenticated.

Ltac by_name := unfold dispatch; cbv zeta; repeat case_match.

Lemma dispatch_logged_in s0 cmd : hsteps (logged_in s0) (confined (im_user_id s0)) (dispatch cmd).
Proof.
  assert (Hu : forall s, logged_in s0 s -> im_user_id s = im_user_id s0) by (by intros s []).
  assert (Hm : forall s m, logged_in s0 s -> logged_in s0 (select_mailbox m s)) by (intros s m (?&?&?&?&?); by repeat split).
  by_name; try (by apply hsteps_ret, _); try (by apply hsteps_raise, _).
  - unfold cmd_auth. apply hsteps_session. intros s (_ & _ & _ & _ & Hn).
    rewrite bool_decide_eq_false_2 by done. apply hsteps_raise, _.
  - by apply hsteps_select; [apply _|].
  - apply hsteps_list, _.
  - apply hsteps_namespace, _.
  - apply hsteps_status, _.
  - apply hsteps_fetch, _.
  - apply hsteps_selected; [apply _|]. intros s Hs _. destruct (pc_args cmd); cbv zeta; repeat case_match;
      [apply hsteps_raise, _ | apply hsteps_fetch, _ | by apply hsteps_store | apply hsteps_search, _ | apply hsteps_raise, _].
  - by apply hsteps_store.
  - apply hsteps_search, _.
  - by apply hsteps_expunge.
  - apply hsteps_close; [done|]. intros s (?&?&?&?&?). by repeat split.
  - apply hsteps_idle, _.
Qed.

Lemma unselected {B} tag (f : ImapSession -> H B) s w :
  im_state s <> Selected ->
  (require_selected tag ≫= f) (s, w) = (Err (tagged tag StBad #"No mailbox selected"), (s, w)).
Proof.
  intros Hs. unfold require_selected, mbind, st_bind, the_session, gets. cbn. by rewrite bool_decide_eq_false_2.
Qed.
Lemma unauthenticated {B} tag (f : ImapSession -> H B) s w :
  im_state s = NotAuthenticated ->
  (require_login tag ≫= f) (s, w) = (Err (tagged tag StBad #"Not authenticated"), (s, w)).
Proof.
  intros Hs. unfold require_login, mbind, st_bind, the_session, gets. cbn. by rewrite bool_decide_eq_true_2.
Qed.

(** Before a mailbox is selected no command changes the store. *)
Lemma dispatch_unselected cmd s w r s' w' :
  im_state s <> Selected -> dispatch cmd (s, w) = (r, (s', w')) -> saved w' = saved w /\ db w' = db w.
Proof.
  intros Hs Hd. assert (He : forall (m : H str), hsteps (fun _ => True) eq m -> m (s, w) = (r, (s', w')) -> saved w' = saved w /\ db w' = db w).
  { intros m Hm Hr. by destruct (Hm _ _ _ _ _ I Hr) as [_ [? <-]]. }
  revert Hd. by_name; try (by intros [= _ _ <-]);
    try (unfold cmd_fetch, cmd_uid, cmd_store, cmd_search, cmd_expunge, cmd_close, cmd_idle;
         rewrite unselected by done; by intros [= _ _ <-]).
  all: apply He.
  - by apply hsteps_auth; [apply _|].
  - by apply hsteps_select; [apply _|].
  - apply hsteps_list, _.
  - apply hsteps_namespace, _.
  - apply hsteps_status, _.
Qed.

(** Before the login the only change to the session is the login. *)
Lemma dispatch_unauthenticated cmd s w r s' w' :
  im_state s = NotAuthenticated -> dispatch cmd (s, w) = (r, (s', w')) ->
  s' = s \/ exists id n, s' = set_user id n s.
Proof.
  intros Hs. assert (Hns : im_state s <> Selected) by congruence.
  by_name; try (by intros [= _ <- _]; left);
    try (unfold cmd_fetch, cmd_uid, cmd_store, cmd_search, cmd_expunge, cmd_close, cmd_idle;
         rewrite unselected by done; by intros [= _ <- _]; left);
    try (unfold cmd_select, cmd_list, cmd_namespace, cmd_status;
         rewrite unauthenticated by done; by intros [= _ <- _]; left).
  intros Hd. eapply (hsteps_auth (fun x => x = s \/ exists id n, x = set_user id n s) eq); [| |exact Hd].
  - intros x id n [->|(i & m & ->)]; right; by exists id, n.
  - by left.
Qed.
End commands.

(** ** Login: the abstract specification

    Whom a user name and a password authenticate, as a function of the database. *)

Section login_spec.
Context `{ErrorTexts} `{Encodings} `{KeyCrypto} `{Argon2} `{OsGroups} `{TimeFormat}.

(** An app password opens one of the user's wrappers that are not revoked. *)
Definition share_accepted (d : Db) (uid : Z) (password : str) : bool :=
  match parse_share password with
  | None => false
  | Some share =>
      existsb (fun r => (s_user_id r =? uid)%Z && (s_revoked r =? 0)%Z
                        && is_ok (share_unwrap share (mkWrapped [] (s_wrapped_dk r)))) (shares d)
  end.

Definition password_accepted (mode : AuthMode) (row : user_row) (password : str) : bool :=
  match mode with
  | Database => match verify_password password (u_password_hash row) with Ok b => b | Err _ => false end
  | LocalAuth => is_in_zsmtp_group (u_username row)
  end.

Definition authenticates (mode : AuthMode) (dom : str) (d : Db) (username password : str) : option user_row :=
  let '(base, is_app) := match strip_suffix #":app" username with
                         | Some b => (b, true)
                         | None => (username, false)
                         end in
  local ← local_username base dom;
  row ← user_named local d;
  if (if is_app : bool then share_accepted d (u_id row) password else password_accepted mode row password)
  then Some row else None.

Lemma try_wrappers_is_ok scheme share e l :
  is_ok (try_wrappers scheme share e l) = existsb (fun w => is_ok (scheme_unwrap share w)) l.
Proof.
  revert e. induction l as [|w l IH]; intros e; [done|]. cbn.
  destruct (scheme_unwrap share w); [done|]. apply IH.
Qed.

Lemma existsb_select {R K} (f : K -> bool) (g : R -> K) p rows :
  existsb f (map g (select p rows)) = existsb (fun r => p r && f (g r)) rows.
Proof.
  unfold select. induction rows as [|r rows IH]; [done|]. rewrite filter_cons. cbn [existsb].
  destruct (p r) eqn:E; [rewrite decide_True by done; cbn [map existsb]; by rewrite IH|].
  by rewrite decide_False.
Qed.

Lemma share_opens_rows d uid share :
  share_opens (map (fun r => (s_share_id r, s_wrapped_dk r))
                 (select (fun r => (s_user_id r =? uid)%Z && (s_revoked r =? 0)%Z) (shares d))) share
  = existsb (fun r => (s_user_id r =? uid)%Z && (s_revoked r =? 0)%Z
                      && is_ok (share_unwrap share (mkWrapped [] (s_wrapped_dk r)))) (shares d).
Proof.
  unfold share_opens. cbn [share_resolver_unwrap wrappers]. rewrite try_wrappers_is_ok, map_map.
  etransitivity; [apply existsb_select|reflexivity].
Qed.

Lemma user_named_name name d row : user_named name d = Some row -> u_username row = name.
Proof. intros Hr. apply head_Some_elem_of, elem_of_select in Hr as [_ Hn]. by apply bool_decide_eq_true in Hn. Qed.

(** The store after queries: the database is the same, and nothing has happened
    at all when no statement fails. *)
Definition queried (w w' : Store) : Prop :=
  db w' = db w /\ saved w' = saved w /\ (faults w = [] -> faults w' = []).

Lemma queried_trans w1 w2 w3 : queried w1 w2 -> queried w2 w3 -> queried w1 w3.
Proof. intros (?&?&?) (?&?&?). repeat split; [congruence|congruence|auto]. Qed.

Lemma attempt_ok_query {A} (f : Db -> A) s w :
  exists w', queried w w'
    /\ (attempt_ok (query f) (s, w) = (Ok (Some (f (db w))), (s, w'))
        \/ (faults w <> [] /\ attempt_ok (query f) (s, w) = (Ok None, (s, w')))).
Proof.
  unfold attempt_ok, attempt, mbind, st_bind, query, exec.
  destruct (faults w) as [|b fs] eqn:E.
  - exists (mkStore (db w) (saved w) []). split; [done|by left].
  - exists (mkStore (db w) (saved w) fs). unfold queried. rewrite E. split; [done|]. destruct b; [by right|by left].
Qed.

(** What a login attempt comes to: the reply, the session, and a store that has only
    been read. *)
Definition login_outcome (tag : str) (s : ImapSession) (w : Store) (row : option user_row)
    (x : result str str * (ImapSession * Store)) : Prop :=
  exists w', queried w w'
  /\ ((exists text row', row = Some row'
        /\ x = (Ok (tagged tag StOk text), (set_user (u_id row') (u_username row') s, w')))
      \/ ((row = None \/ faults w <> []) /\ x = (Err (tagged tag StNo #"Authentication failed"), (s, w')))).

Lemma login_refused tag s w w' row :
  queried w w' -> row = None \/ faults w <> [] ->
  login_outcome tag s w row (Err (tagged tag StNo #"Authentication failed"), (s, w')).
Proof. intros. exists w'. split; [done|]. right. by split. Qed.

Lemma login_granted tag text s w w' row :
  queried w w' ->
  login_outcome tag s w (Some row) (Ok (tagged tag StOk text), (set_user (u_id row) (u_username row) s, w')).
Proof. intros. exists w'. split; [done|]. left. by exists text, row. Qed.

Lemma queried_faults w w' : queried w w' -> faults w' <> [] -> faults w <> [].
Proof. intros (_ & _ & Hf) Hn He. by apply Hn, Hf. Qed.

Lemma login_app_spec tag s w w1 row password :
  queried w w1 ->
  login_outcome tag s w (if share_accepted (db w) (u_id row) password then Some row else None)
    (login_app tag (row_to_user row) password (s, w1)).
Proof.
  intros Hq. unfold login_app, share_accepted, no. destruct (parse_share password) as [share|];
    [|apply login_refused; auto].
  unfold get_shares. unfold mbind at 1, st_bind at 1. cbn [user_id row_to_user].
  destruct (attempt_ok_query (fun d => map (fun r => (s_share_id r, s_wrapped_dk r))
     (select (fun r => (s_user_id r =? u_id row)%Z && (s_revoked r =? 0)%Z) (shares d))) s w1)
    as (w2 & Hq2 & [->|[Hf ->]]); pose proof (queried_trans _ _ _ Hq Hq2) as Hq'.
  - rewrite share_opens_rows. destruct Hq as (-> & _ & _).
    destruct (existsb _ (shares (db w))); [by apply login_granted | apply login_refused; auto].
  - apply login_refused; [done|]. right. by apply (queried_faults _ _ Hq).
Qed.

Lemma login_plain_spec tag s w w1 row local password :
  queried w w1 -> user_named local (db w) = Some row ->
  login_outcome tag s w (if password_accepted (im_auth_mode s) row password then Some row else None)
    (login_plain tag (row_to_user row) local password (s, w1)).
Proof.
  intros Hq Hrow. unfold login_plain, no, mbind, st_bind. cbn [the_session gets fst].
  unfold password_ok, password_accepted. destruct (im_auth_mode s).
  - unfold password_hash, mbind, st_bind.
    destruct (attempt_ok_query (fun d => u_password_hash <$> head (select (fun r => u_username r ≟ local) (users d))) s w1)
      as (w2 & Hq2 & [->|[Hf ->]]); pose proof (queried_trans _ _ _ Hq Hq2) as Hq'; cbn.
    + destruct Hq as (-> & _ & _). fold (user_named local (db w)). rewrite Hrow. cbn.
      destruct (verify_password _ _) as [[]|]; cbn;
        [by apply (login_granted _ _ _ _ _ row) | apply login_refused; auto | apply login_refused; auto].
    + apply login_refused; [done|]. right. by apply (queried_faults _ _ Hq).
  - rewrite (user_named_name _ _ _ Hrow). cbn.
    destruct (is_in_zsmtp_group local); [by apply (login_granted _ _ _ _ _ row) | apply login_refused; auto].
Qed.

Lemma login_spec tag s w username password :
  login_outcome tag s w (authenticates (im_auth_mode s) (im_domain s) (db w) username password)
    (login tag username password (s, w)).
Proof.
  assert (Hq0 : queried w w) by done. unfold login, authenticates, no.
  destruct (match strip_suffix #":app" username with Some b => (b, true) | None => (username, false) end) as [base is_app].
  rewrite (st_bind_Ok the_session _ _ s (s, w)) by done.
  destruct (local_username base (im_domain s)) as [local|]; cbn [mbind option_bind]; [|apply login_refused; auto].
  destruct (attempt_ok_query (fun d => row_to_user <$> head (select (fun r => u_username r ≟ local) (users d))) s w)
    as (w1 & Hq & [Hx|[Hf Hx]]); unfold get_user; rewrite (st_bind_Ok _ _ _ _ _ Hx).
  - fold (user_named local (db w)).
    destruct (user_named local (db w)) as [row|] eqn:Hrow; cbn [mjoin option_join fmap option_fmap option_map].
    + destruct is_app; [by apply login_app_spec | by apply login_plain_spec].
    + apply login_refused; auto.
  - apply login_refused; auto.
Qed.

End login_spec.

(** ** Properties *)

Section properties.
Context `{ErrorTexts} `{Encodings} `{KeyCrypto} `{Argon2} `{OsGroups} `{TimeFormat}.

(** The user name and the password a command presents. *)
Definition login_request (cmd : ParsedCommand) : option (str * str) :=
  if pc_name cmd ≟ #"LOGIN" then
    match pc_args cmd with [u; p] => Some (u, p) | _ => None end
  else if pc_name cmd ≟ #"AUTHENTICATE" then
    match pc_args cmd with
    | [mech; token64] =>
        if eq_ignore_ascii_case mech #"PLAIN" then
          match split b_nul <$> b64_decode token64 with
          | Some [_; u; p] => Some (from_utf8_lossy u, from_utf8_lossy p)
          | _ => None
          end
        else None
    | _ => None
    end
  else None.

(** The two commands that log in, on a session that is not authenticated. *)
Lemma cmd_auth_unauthenticated cmd s w :
  im_state s = NotAuthenticated ->
  cmd_auth (pc_tag cmd) cmd (s, w) =
    (if pc_name cmd ≟ #"AUTHENTICATE" then
       match pc_args cmd with
       | [mech; token64] =>
           if negb (eq_ignore_ascii_case mech #"PLAIN") then bad (pc_tag cmd) #"Only AUTHENTICATE PLAIN <token> supported"
           else
             match b64_decode token64 with
             | None => bad (pc_tag cmd) #"Invalid base64"
             | Some token =>
                 match split b_nul token with
                 | [_; username; password] => login (pc_tag cmd) (from_utf8_lossy username) (from_utf8_lossy password)
                 | _ => bad (pc_tag cmd) #"Invalid SASL PLAIN payload"
                 end
             end
       | _ => bad (pc_tag cmd) #"Only AUTHENTICATE PLAIN <token> supported"
       end
     else
       match pc_args cmd with
       | [username; password] => login (pc_tag cmd) username password
       | _ => bad (pc_tag cmd) #"LOGIN requires username and password"
       end) (s, w).
Proof. intros Hs. unfold cmd_auth. rewrite (st_bind_Ok the_session _ _ s (s, w)) by done. by rewrite bool_decide_eq_true_2 by done. Qed.

Lemma dispatch_login cmd s w :
  im_state s = NotAuthenticated ->
  match login_request cmd with
  | Some (u, p) => dispatch cmd (s, w) = login (pc_tag cmd) u p (s, w)
  | None => forall r s' w', dispatch cmd (s, w) = (r, (s', w')) -> s' = s
  end.
Proof.
  intros Hs. assert (Hns : im_state s <> Selected) by congruence.
  assert (Ha : forall name, pc_name cmd = name -> name = #"LOGIN" \/ name = #"AUTHENTICATE" ->
                 dispatch cmd (s, w) = cmd_auth (pc_tag cmd) cmd (s, w)).
  { intros name Hn [->| ->]; unfold dispatch; cbv zeta; rewrite Hn; decide_lits; done. }
  pose proof (cmd_auth_unauthenticated cmd s w Hs) as Hauth.
  unfold login_request. destruct (bool_decide_reflect (pc_name cmd = #"LOGIN")) as [Hl|Hl].
  { rewrite (Ha _ Hl) by auto. rewrite Hauth. rewrite (bool_decide_eq_false_2 (pc_name cmd = #"AUTHENTICATE")) by by rewrite Hl.
    repeat case_match; try done; by intros r s' w' [= _ <- _]. }
  destruct (bool_decide_reflect (pc_name cmd = #"AUTHENTICATE")) as [Hau|Hau].
  { rewrite (Ha _ Hau) by auto. rewrite Hauth.
    destruct (pc_args cmd) as [|mech [|token64 [|? ?]]]; try by intros r s' w' [= _ <- _].
    destruct (eq_ignore_ascii_case mech #"PLAIN"); [|by intros r s' w' [= _ <- _]]. cbn [negb].
    destruct (b64_decode token64) as [token|]; cbn [fmap option_fmap option_map]; [|by intros r s' w' [= _ <- _]].
    destruct (split b_nul token) as [|? [|? [|? [|? ?]]]]; done || by intros r s' w' [= _ <- _]. }
  intros r s' w'. unfold dispatch; cbv zeta.
  rewrite (bool_decide_eq_false_2 _ Hl), (bool_decide_eq_false_2 _ Hau). cbn [orb].
  repeat case_match; try (by intros [= _ <- _]);
    try (unfold cmd_fetch, cmd_uid, cmd_store, cmd_search, cmd_expunge, cmd_close, cmd_idle;
         rewrite unselected by done; by intros [= _ <- _]).
  all: unfold cmd_select, cmd_list, cmd_namespace, cmd_status;
    rewrite unauthenticated by done; by intros [= _ <- _].
Qed.

(** C11: who may log in. On a session that is not authenticated, whatever statements
    fail, a command changes the session only if it presents a user name and a
    password that authenticate a user of the local domain: the name resolves to a
    stored user, and the password verifies against the stored hash, or the name is
    in the group of local users, or as an app password it opens one of the wrappers
    that are not revoked. Then, unless a statement fails, the session belongs to
    that user; in every other case the reply to the attempt is the same, the session
    is unchanged, and the store never changes. In the local mode the password plays
    no role. *)
Theorem login_exact cmd s w out s' w' :
  im_state s = NotAuthenticated -> imap_handle cmd (s, w) = (out, (s', w')) ->
  db w' = db w /\ saved w' = saved w
  /\ match login_request cmd with
     | None => s' = s
     | Some (u, p) =>
         let refused := s' = s /\ out = tagged (pc_tag cmd) StNo #"Authentication failed" in
         match authenticates (im_auth_mode s) (im_domain s) (db w) u p with
         | Some row =>
             (s' = set_user (u_id row) (u_username row) s /\ (exists text, out = tagged (pc_tag cmd) StOk text))
             \/ (faults w <> [] /\ refused)
         | None => refused
         end
         /\ (im_auth_mode s = LocalAuth -> strip_suffix #":app" u = None ->
             forall p', authenticates LocalAuth (im_domain s) (db w) u p'
                        = authenticates LocalAuth (im_domain s) (db w) u p)
     end.
Proof.
  intros Hs Hh. unfold imap_handle, reply_of in Hh.
  destruct (dispatch cmd (s, w)) as [r [s1 w1]] eqn:Hd. injection Hh as Hout <- <-.
  destruct (dispatch_unselected cmd s w r s1 w1 ltac:(congruence) Hd) as [Hsv Hdb].
  do 2 (split; [done|]). pose proof (dispatch_login cmd s w Hs) as Hl.
  destruct (login_request cmd) as [[u p]|]; [|by eapply Hl]. rewrite Hd in Hl. split.
  - destruct (login_spec (pc_tag cmd) s w u p) as (w2 & _ & Hcase). rewrite <- Hl in Hcase.
    destruct Hcase as [(text & row & -> & [= -> -> ->])|[Hf [= -> -> ->]]].
    + left. split; [done|]. by exists text.
    + cbv zeta. destruct (authenticates _ _ _ _ _); [right; destruct Hf; done | done].
  - intros _ Ha p'. unfold authenticates. by rewrite Ha.
Qed.

(** ** What one command may do to a connection *)

(** From a session and a store to later ones: the store is confined to the user of
    the later session; a user who is logged in stays logged in; as long as nobody
    is, nothing changes; and whoever has been logged in was authenticated on the
    store as it was before. *)
Record safe (x y : ImapSession * Store) : Prop := {
  safe_store : stepR (confined (im_user_id (fst y))) (snd x) (snd y);
  safe_login : im_state (fst x) <> NotAuthenticated -> logged_in (fst x) (fst y);
  safe_nobody : im_state (fst y) = NotAuthenticated -> fst y = fst x /\ db (snd y) = db (snd x);
  safe_auth : im_state (fst x) = NotAuthenticated -> im_state (fst y) <> NotAuthenticated ->
    exists u p row, authenticates (im_auth_mode (fst x)) (im_domain (fst x)) (db (snd x)) u p = Some row
      /\ im_user_id (fst y) = u_id row /\ im_username (fst y) = u_username row;
  safe_config : im_auth_mode (fst y) = im_auth_mode (fst x) /\ im_domain (fst y) = im_domain (fst x);
}.

Lemma safe_same_session s w w' : saved w' = saved w -> db w' = db w -> safe (s, w) (s, w').
Proof.
  intros Hs Hd. constructor; cbn; try done.
  - split; [done|]. by rewrite Hd.
Qed.

#[export] Instance safe_preorder : PreOrder safe.
Proof.
  split.
  - intros [s w]. by apply safe_same_session.
  - intros [s1 w1] [s2 w2] [s3 w3] [St1 Lg1 No1 Au1 [Cm1 Cd1]] [St2 Lg2 No2 Au2 [Cm2 Cd2]]; cbn in *.
    constructor; cbn.
    + destruct (decide (im_state s2 = NotAuthenticated)) as [Hn|Hn].
      * destruct (No1 Hn) as [_ Hd]. destruct St1 as [Hs1 _], St2 as [Hs2 Hc]. split; [congruence|]. by rewrite <- Hd.
      * destruct (Lg2 Hn) as (Hi & _). etransitivity; [|exact St2]. by rewrite Hi.
    + intros Hn. destruct (Lg1 Hn) as (?&?&?&?&Hn2). destruct (Lg2 Hn2) as (?&?&?&?&?).
      repeat split; congruence.
    + intros Hn. destruct (No2 Hn) as [-> ->]. auto.
    + intros Hn Hn3. destruct (decide (im_state s2 = NotAuthenticated)) as [Hn2|Hn2].
      * destruct (No1 Hn2) as [-> <-]. by apply Au2.
      * destruct (Au1 Hn Hn2) as (u & p & row & Ha & Hi & Hu). destruct (Lg2 Hn2) as (?&?&_).
        exists u, p, row. repeat split; congruence.
    + split; congruence.
Qed.

Lemma handle_safe cmd x out y : imap_handle cmd x = (out, y) -> safe x y.
Proof.
  destruct x as [s w], y as [s' w']. unfold imap_handle, reply_of.
  destruct (dispatch cmd (s, w)) as [r [s1 w1]] eqn:Hd. intros [= _ -> ->].
  destruct (decide (im_state s = NotAuthenticated)) as [Hs|Hs].
  - destruct (dispatch_unselected cmd s w r s' w' ltac:(congruence) Hd) as [Hsv Hdb].
    pose proof (dispatch_login cmd s w Hs) as Hl. destruct (login_request cmd) as [[u p]|].
    + rewrite Hd in Hl. destruct (login_spec (pc_tag cmd) s w u p) as (w2 & _ & Hcase). rewrite <- Hl in Hcase.
      destruct Hcase as [(text & row & Ha & [= _ -> ->])|[_ [= _ -> ->]]]; [|by apply safe_same_session].
      constructor; cbn; try done.
      * split; [done|]. by rewrite Hdb.
      * intros _ _. by exists u, p, row.
    + rewrite (Hl _ _ _ Hd). by apply safe_same_session.
  - destruct (dispatch_logged_in s cmd s w r s' w') as [Hl Hw]; [by repeat split|done|].
    pose proof Hl as (Hi & _ & Hm & Hdm & Hn). constructor; cbn; try done. by rewrite Hi.
Qed.

End properties.
