(* ===== verification/ImapMailFacts.v ===== *)
(** * What the IMAP mailbox commands do

    On a store without failing statements: which messages FETCH and STORE touch,
    what they answer, and what EXPUNGE and CLOSE remove. *)

From S2P Require Export ImapSessionFacts Uids.

(** ** Store methods without faults *)

Definition listing (b : mailbox_row) (d : Db) : list (message_row * option tx_row) :=
  sort_by (fun a b => (ms_uid (fst b) <=? ms_uid (fst a))%Z)
    (select (fun r => ms_mailbox_id r =? mb_id b)%Z (messages d) ≫= left_join d).
Definition metas (b : mailbox_row) (d : Db) : list MessageMeta :=
  map (fun '(r, t) => row_to_meta (mb_uidvalidity b) r t) (listing b d).

Lemma box_calm uid name w b :
  faults w = [] -> find_box uid name (db w) = Some b ->
  mailbox_named uid name w = (Ok (mb_id b, mb_uidvalidity b, mb_uidnext b), w).
Proof. intros Hf Hb. by rewrite mailbox_named_calm, Hb by done. Qed.

Lemma list_calm uid name w b :
  faults w = [] -> find_box uid name (db w) = Some b ->
  list_messages_in uid name w = (Ok (metas b (db w)), w).
Proof.
  intros Hf Hb. unfold list_messages_in. rewrite (st_bind_Ok _ _ _ _ _ (box_calm _ _ _ _ Hf Hb)).
  by rewrite query_calm.
Qed.

Lemma left_join_fst d r p : p ∈ left_join d r -> fst p = r.
Proof.
  unfold left_join. destruct (select _ _); [by intros ->%list_elem_of_singleton|].
  by intros (x & -> & _)%list_elem_of_fmap.
Qed.
Lemma left_join_ne d r : left_join d r <> [].
Proof. unfold left_join. by destruct (select _ _). Qed.

Lemma elem_of_listing b d p :
  p ∈ listing b d -> fst p ∈ messages d /\ ms_mailbox_id (fst p) = mb_id b.
Proof.
  intros Hp%sort_by_elem. apply list_elem_of_bind in Hp as (r & Hj & Hr).
  apply left_join_fst in Hj as ->. apply elem_of_select in Hr as [Hr Hm%Z.eqb_eq]. by split.
Qed.
Lemma listing_complete b d r :
  r ∈ messages d -> ms_mailbox_id r = mb_id b -> exists t, (r, t) ∈ listing b d.
Proof.
  intros Hr Hm. destruct (left_join d r) as [|[r' t] l] eqn:E; [by apply left_join_ne in E|].
  assert (r' = r) as -> by (apply (left_join_fst d r (r', t)); rewrite E; left).
  exists t. apply sort_by_elem, list_elem_of_bind. exists r. split; [rewrite E; left|].
  apply elem_of_select. split; [done|]. by apply Z.eqb_eq.
Qed.

(** Rows of a well-formed database are their ids. *)
Lemma row_by_id d r r' : wf_db d -> r ∈ messages d -> r' ∈ messages d -> ms_id r = ms_id r' -> r = r'.
Proof.
  intros Hd Hr Hr' He. pose proof (wf_message_row _ Hd) as Hn.
  apply list_elem_of_lookup in Hr as [i Hi], Hr' as [j Hj].
  assert (i = j) as ->; [|congruence].
  apply (NoDup_lookup _ i j (ms_id r) Hn); rewrite list_lookup_fmap; [by rewrite Hi|by rewrite Hj, He].
Qed.

Lemma fetch_row_calm uid name w b r :
  faults w = [] -> wf_db (db w) -> find_box uid name (db w) = Some b ->
  r ∈ messages (db w) -> ms_mailbox_id r = mb_id b ->
  exists msg, fetch_message_in uid name (ms_id r) w = (Ok msg, w) /\ msg_body msg = ms_body r.
Proof.
  intros Hf Hd Hb Hr Hm. unfold fetch_message_in. rewrite (st_bind_Ok _ _ _ _ _ (box_calm _ _ _ _ Hf Hb)).
  erewrite st_bind_Ok by (by apply query_calm).
  set (hits := select (fun r0 => (ms_mailbox_id r0 =? mb_id b)%Z && (ms_id r0 =? ms_id r)%Z) (messages (db w)) ≫= left_join (db w)).
  destruct hits as [|[r' t] l] eqn:E; subst hits.
  - exfalso. destruct (left_join (db w) r) as [|p l] eqn:Ej; [by apply left_join_ne in Ej|].
    assert (Hin : p ∈ (select (fun r0 => (ms_mailbox_id r0 =? mb_id b)%Z && (ms_id r0 =? ms_id r)%Z) (messages (db w)) ≫= left_join (db w))).
    { apply list_elem_of_bind. exists r. split; [rewrite Ej; left|]. apply elem_of_select.
      split; [done|]. by rewrite Hm, !Z.eqb_refl. }
    rewrite E in Hin. by apply elem_of_nil in Hin.
  - assert (Hin : (r', t) ∈ (select (fun r0 => (ms_mailbox_id r0 =? mb_id b)%Z && (ms_id r0 =? ms_id r)%Z) (messages (db w)) ≫= left_join (db w)))
      by (rewrite E; left).
    apply list_elem_of_bind in Hin as (r0 & Hj & Hs). apply left_join_fst in Hj. cbn in Hj. subst r0.
    apply elem_of_select in Hs as [Hr' [_ Hi%Z.eqb_eq]%andb_true_iff].
    assert (r' = r) as -> by (by eapply row_by_id). eexists. by split.
Qed.

(** ** Handlers on a selected mailbox *)

Lemma use_store_Ok {A} `{ErrorTexts} tag (m : M A) s w x w' :
  m w = (Ok x, w') -> use_store tag m (s, w) = (Ok x, (s, w')).
Proof. intros Hm. unfold use_store, mbind, st_bind, attempt. by rewrite Hm. Qed.

Lemma require_selected_Ok tag s w :
  im_state s = Selected -> require_selected tag (s, w) = (Ok s, (s, w)).
Proof. intros Hs. unfold require_selected, mbind, st_bind, the_session, gets. cbn. by rewrite bool_decide_eq_true_2. Qed.

Section mail.
Context `{ErrorTexts} `{Encodings} `{KeyCrypto} `{Argon2} `{OsGroups} `{TimeFormat}.

(** The selected mailbox of the session's user. *)
Definition selected_box (s : ImapSession) (w : Store) (b : mailbox_row) : Prop :=
  im_state s = Selected /\ faults w = [] /\ wf_db (db w)
  /\ find_box (im_user_id s) (im_selected s) (db w) = Some b.

(** The response to a FETCH for one message of the listing. *)
Definition fetched (s : ImapSession) (b : mailbox_row) (q : FetchRequest) (p : message_row * option tx_row) : str :=
  let meta := row_to_meta (mb_uidvalidity b) (fst p) (snd p) in
  fetch_response meta q (if needs_stored_body (rq_body q) then ms_body (fst p) else [])
    (message_identity s meta).

Definition listed_in (range : str) (count : Z) (p : message_row * option tx_row) : bool :=
  in_range range (wrap 32 (ms_uid (fst p))) count.

Lemma fetch_loop_calm tag range count q s w b l :
  selected_box s w b -> (forall p, p ∈ l -> p ∈ listing b (db w)) ->
  fetch_loop tag range count q (map (fun '(r, t) => row_to_meta (mb_uidvalidity b) r t) l) (s, w)
  = (Ok (concat (map (fetched s b q) (filter (fun p => listed_in range count p = true) l))), (s, w)).
Proof.
  intros (Hsel & Hf & Hd & Hb). induction l as [|[r t] l IH]; intros Hl; [done|].
  assert (IH' := IH (fun p Hp => Hl p (list_elem_of_further _ _ _ Hp))). clear IH.
  destruct (listed_in range count (r, t)) eqn:Er;
    [rewrite filter_cons_True by done | rewrite filter_cons_False by (by rewrite Er)];
    unfold listed_in in Er; cbn [map fetch_loop fst meta_uid row_to_meta] in Er |- *; rewrite Er; cbn [negb]; [|done].
  rewrite (st_bind_Ok the_session _ _ s (s, w)) by done.
  destruct (elem_of_listing b (db w) (r, t)) as [Hr Hm]; [apply Hl; left|]. cbn [fst] in Hr, Hm.
  destruct (needs_stored_body (rq_body q)) eqn:En.
  - destruct (fetch_row_calm _ _ _ _ _ Hf Hd Hb Hr Hm) as (msg & Hfm & Hbody).
    erewrite st_bind_Ok; [|erewrite st_bind_Ok by (by apply use_store_Ok); reflexivity].
    erewrite st_bind_Ok by exact IH'. cbn [map concat]. unfold fetched at 2. by rewrite En, Hbody.
  - erewrite st_bind_Ok by reflexivity. erewrite st_bind_Ok by exact IH'.
    cbn [map concat]. unfold fetched at 2. by rewrite En.
Qed.

Lemma cmd_fetch_calm tag cmd range items s w b :
  selected_box s w b -> fetch_args tag cmd (s, w) = (Ok (range, items), (s, w)) ->
  let q := parse_fetch_items items in
  let q := if pc_name cmd ≟ #"UID" then with_uid q else q in
  cmd_fetch tag cmd (s, w)
  = (Ok (concat (map (fetched s b q) (filter (fun p => listed_in range (count32 (metas b (db w))) p = true) (listing b (db w))))
         ++ done_ok tag #"FETCH completed"), (s, w)).
Proof.
  intros Hbox Ha q q'. pose proof Hbox as (Hsel & Hf & Hd & Hb). unfold cmd_fetch.
  rewrite (st_bind_Ok _ _ _ _ _ (require_selected_Ok tag s w Hsel)).
  rewrite (st_bind_Ok _ _ _ _ _ Ha).
  rewrite (st_bind_Ok _ _ _ _ _ (use_store_Ok tag _ s w _ _ (list_calm _ _ _ _ Hf Hb))).
  cbv zeta. unfold metas at 2. erewrite st_bind_Ok by (apply fetch_loop_calm; done). done.
Qed.

(** *** STORE *)

Definition flag_change (mask : Z) (value : bool) (x : Z) : Z :=
  if value then Z.lor x mask else Z.land x (Z.lnot mask).
Lemma flag_change_idem mask value x : flag_change mask value (flag_change mask value x) = flag_change mask value x.
Proof.
  unfold flag_change. destruct value; apply Z.bits_inj'; intros n Hn;
    rewrite ?Z.lor_spec, ?Z.land_spec, ?Z.lor_spec, ?Z.land_spec;
    destruct (Z.testbit x n), (Z.testbit mask n), (Z.testbit (Z.lnot mask) n); done.
Qed.

(** The database with the flags of some rows of a mailbox changed. *)
Definition flag_rows (b : mailbox_row) (p : message_row -> bool) (mask : Z) (value : bool) (d : Db) : Db :=
  set_messages d (update_where (fun r => (ms_mailbox_id r =? mb_id b)%Z && p r)
    (with_flags (flag_change mask value)) (messages d)).

Lemma update_where_ext {R} (p p' : R -> bool) f rows :
  (forall r, r ∈ rows -> p r = p' r) -> update_where p f rows = update_where p' f rows.
Proof.
  intros Hp. unfold update_where. apply map_ext_in. intros r Hr%list_elem_of_In. by rewrite Hp.
Qed.

Lemma set_flags_calm uid name i mask value w b :
  faults w = [] -> find_box uid name (db w) = Some b ->
  set_flags_in uid name i mask value w
  = (Ok tt, mkStore (flag_rows b (fun r => ms_id r =? i)%Z mask value (db w)) (saved w) []).
Proof.
  intros Hf Hb. unfold set_flags_in. rewrite (st_bind_Ok _ _ _ _ _ (box_calm _ _ _ _ Hf Hb)).
  unfold execute. by rewrite exec_calm.
Qed.

Lemma flag_rows_twice b i ids mask value d :
  flag_rows b (fun r => bool_decide (ms_id r ∈ ids)) mask value (flag_rows b (fun r => ms_id r =? i)%Z mask value d)
  = flag_rows b (fun r => bool_decide (ms_id r ∈ i :: ids)) mask value d.
Proof.
  unfold flag_rows. cbn. f_equal. unfold update_where. rewrite map_map. apply map_ext. intros r.
  assert (Hc : bool_decide (ms_id r ∈ i :: ids) = (ms_id r =? i)%Z || bool_decide (ms_id r ∈ ids)).
  { rewrite (bool_decide_ext _ (ms_id r = i \/ ms_id r ∈ ids)) by apply elem_of_cons.
    rewrite bool_decide_or. f_equal. by destruct (Z.eqb_spec (ms_id r) i); case_bool_decide. }
  rewrite Hc. destruct (ms_mailbox_id r =? mb_id b)%Z eqn:Em, (ms_id r =? i)%Z eqn:Ei; cbn; rewrite ?Em, ?Ei; cbn; try done.
  destruct (bool_decide (ms_id r ∈ ids)); [|done]. unfold with_flags. cbn. by rewrite flag_change_idem.
Qed.

Lemma flag_rows_none b mask value d : flag_rows b (fun r => bool_decide (ms_id r ∈ [])) mask value d = d.
Proof.
  unfold flag_rows, update_where. rewrite (map_ext _ (fun r => r)); [rewrite map_id; by destruct d|].
  intros r. rewrite bool_decide_eq_false_2 by apply not_elem_of_nil. by rewrite andb_false_r.
Qed.

Lemma store_loop_calm tag range count mask value s b l w :
  faults w = [] -> find_box (im_user_id s) (im_selected s) (db w) = Some b ->
  let hit := filter (fun p => listed_in range count p = true) l in
  store_loop tag range count mask value (map (fun '(r, t) => row_to_meta (mb_uidvalidity b) r t) l) (s, w)
  = (Ok (concat (map (fun p => store_line mask value (row_to_meta (mb_uidvalidity b) (fst p) (snd p))) hit)),
     (s, mkStore (flag_rows b (fun r => bool_decide (ms_id r ∈ map (fun p => ms_id (fst p)) hit)) mask value (db w)) (saved w) [])).
Proof.
  cbv zeta. revert w. induction l as [|[r t] l IH]; intros w Hf Hb.
  { cbn [filter list_filter map concat store_loop]. rewrite flag_rows_none. destruct w; cbn in *; by subst. }
  destruct (listed_in range count (r, t)) eqn:Er;
    [rewrite filter_cons_True by done | rewrite filter_cons_False by (by rewrite Er)];
    unfold listed_in in Er; cbn [map store_loop fst snd meta_uid row_to_meta] in Er |- *; rewrite Er; cbn [negb]; [|by apply IH].
  rewrite (st_bind_Ok the_session _ _ s (s, w)) by done.
  erewrite st_bind_Ok by (apply use_store_Ok; by apply set_flags_calm).
  erewrite st_bind_Ok by (apply IH; done). cbn [concat meta_id row_to_meta db saved].
  by rewrite flag_rows_twice.
Qed.

Lemma flag_rows_listed b range count mask value d :
  wf_db d ->
  flag_rows b (fun r => bool_decide (ms_id r ∈ map (fun p => ms_id (fst p))
                 (filter (fun p => listed_in range count p = true) (listing b d)))) mask value d
  = flag_rows b (fun r => in_range range (wrap 32 (ms_uid r)) count) mask value d.
Proof.
  intros Hd. unfold flag_rows. f_equal. apply update_where_ext. intros r Hr.
  destruct (Z.eqb_spec (ms_mailbox_id r) (mb_id b)) as [Hm|]; [|done]. cbn [andb].
  destruct (in_range range (wrap 32 (ms_uid r)) count) eqn:Er.
  - apply bool_decide_eq_true. destruct (listing_complete _ _ _ Hr Hm) as [t Ht].
    apply list_elem_of_fmap. exists (r, t). split; [done|]. by apply list_elem_of_filter.
  - apply bool_decide_eq_false. intros ([r' t] & Hi & [Hl Hp]%list_elem_of_filter)%list_elem_of_fmap. cbn in Hi.
    apply elem_of_listing in Hp as [Hr' _]. cbn in Hr'.
    assert (r' = r) as -> by (by apply (row_by_id d)). unfold listed_in in Hl. cbn in Hl. by rewrite Er in Hl.
Qed.

Lemma cmd_store_calm tag cmd range mode spec s w b :
  selected_box s w b -> store_args tag cmd (s, w) = (Ok (range, mode, spec), (s, w)) -> parse_flags spec <> 0%Z ->
  let value := negb (starts_with #"-" (trim_start mode)) in
  let count := count32 (metas b (db w)) in
  cmd_store tag cmd (s, w)
  = (Ok (concat (map (fun p => store_line (parse_flags spec) value (row_to_meta (mb_uidvalidity b) (fst p) (snd p)))
                   (filter (fun p => listed_in range count p = true) (listing b (db w))))
         ++ done_ok tag #"STORE completed"),
     (s, mkStore (flag_rows b (fun r => in_range range (wrap 32 (ms_uid r)) count) (parse_flags spec) value (db w)) (saved w) [])).
Proof.
  intros (Hsel & Hf & Hd & Hb) Ha Hm value count. unfold cmd_store.
  rewrite (st_bind_Ok _ _ _ _ _ (require_selected_Ok tag s w Hsel)).
  rewrite (st_bind_Ok _ _ _ _ _ Ha).
  rewrite (st_bind_Ok _ _ _ _ _ (use_store_Ok tag _ s w _ _ (list_calm _ _ _ _ Hf Hb))).
  cbv zeta. destruct (Z.eqb_spec (parse_flags spec) 0); [done|]. fold value count. unfold metas.
  erewrite st_bind_Ok by (by apply store_loop_calm). by rewrite flag_rows_listed.
Qed.

(** *** EXPUNGE and CLOSE *)

Definition expunged (b : mailbox_row) (d : Db) : Db :=
  set_messages d (delete_where (deleted_in (mb_id b)) (messages d)).
Definition expunged_uids (b : mailbox_row) (d : Db) : list Z :=
  map (fun r => wrap 32 (ms_uid r))
    (sort_by (fun a b => (ms_uid a <=? ms_uid b)%Z) (select (deleted_in (mb_id b)) (messages d))).

Lemma expunge_calm uid name w b :
  faults w = [] -> find_box uid name (db w) = Some b ->
  expunge_in uid name w = (Ok (expunged_uids b (db w)), mkStore (expunged b (db w)) (saved w) []).
Proof.
  intros Hf Hb. unfold expunge_in. rewrite (st_bind_Ok _ _ _ _ _ (box_calm _ _ _ _ Hf Hb)).
  erewrite st_bind_Ok by (by apply query_calm). unfold execute.
  erewrite st_bind_Ok by (rewrite exec_calm by done; reflexivity). done.
Qed.

Lemma handle_Ok cmd x t y : dispatch cmd x = (Ok t, y) -> imap_handle cmd x = (t, y).
Proof. intros Hd. unfold imap_handle, reply_of. by rewrite Hd. Qed.

Lemma fetch_args_pure tag cmd x : exists r, fetch_args tag cmd x = (r, x).
Proof. unfold fetch_args, bad. repeat case_match; eexists; reflexivity. Qed.
End mail.

(** Reduce the dispatcher on a command with a known name. *)
Ltac dispatch_to := unfold dispatch; cbn [pc_name pc_tag pc_args]; cbv zeta; decide_lits; cbn [orb].

(** ** Properties *)

Section properties.
Context `{ErrorTexts} `{Encodings} `{KeyCrypto} `{Argon2} `{OsGroups} `{TimeFormat}.

(** FETCH and UID FETCH of a range, and their answer. *)
Definition fetches (cmd : ParsedCommand) (range item : str) (items : list str) : Prop :=
  (pc_name cmd = #"FETCH" /\ pc_args cmd = range :: item :: items)
  \/ (pc_name cmd = #"UID" /\ exists sub, to_ascii_uppercase sub = #"FETCH"
      /\ pc_args cmd = sub :: range :: item :: items).
Lemma fetch_handled cmd range item items s w b :
  selected_box s w b -> fetches cmd range item items ->
  let q := parse_fetch_items (join #" " (item :: items)) in
  let q := if pc_name cmd ≟ #"UID" then with_uid q else q in
  let count := wrap 32 (Z.of_nat (length (listing b (db w)))) in
  imap_handle cmd (s, w)
  = (concat (map (fetched s b q)
       (filter (fun p => in_range range (wrap 32 (ms_uid (fst p))) count = true) (listing b (db w))))
     ++ tagged (pc_tag cmd) StOk #"FETCH completed", (s, w)).
Proof.
  intros Hbox Hc q q' count.
  assert (Hlen : count32 (metas b (db w)) = count) by (unfold count32, metas; by rewrite length_map).
  apply handle_Ok. pose proof Hbox as (Hsel & _).
  assert (Hd : dispatch cmd (s, w) = cmd_fetch (pc_tag cmd) cmd (s, w)
      /\ fetch_args (pc_tag cmd) cmd (s, w) = (Ok (range, join #" " (item :: items)), (s, w))).
  { destruct Hc as [[Hn Ha]|(Hn & sub & Hsub & Ha)]; unfold dispatch, fetch_args, uid_form; cbv zeta; rewrite Hn, Ha; decide_lits.
    - split; reflexivity.
    - cbn [head andb orb]. rewrite Hsub. split; [|reflexivity]. unfold cmd_uid.
      rewrite (st_bind_Ok _ _ _ _ _ (require_selected_Ok _ s w Hsel)). cbv zeta. by rewrite Ha, Hsub. }
  destruct Hd as [-> Ha]. rewrite (cmd_fetch_calm _ _ _ _ _ _ _ Hbox Ha). cbv zeta. rewrite Hlen. done.
Qed.



Lemma literal_shape (u f p sp l o n e d : str) :
  #"* " ++ (u ++ f ++ p ++ sp ++ l ++ o ++ n ++ e) ++ d = (#"* " ++ u ++ f ++ p ++ sp ++ l) ++ o ++ n ++ e ++ d.
Proof. by rewrite <- !app_assoc. Qed.

(** The body literal of a FETCH response. Its announced length is that of the
    content, and what follows the announcement is the content after lossy
    conversion: for content that is UTF-8 exactly the announced bytes, then the
    closing parenthesis; for a single byte that is not, three bytes where one was
    announced. *)
Theorem fetch_literal meta q body identity :
  is_none_section (rq_body q) = false ->
  let c := content (rq_body q) meta body identity in
  exists head, fetch_response meta q body identity
    = head ++ #" {" ++ show_nat (length c) ++ #"}" ++ crlf ++ from_utf8_lossy c ++ #")" ++ crlf
  /\ (utf8_valid c = true -> from_utf8_lossy c = c)
  /\ (forall x, c = [x] -> utf8_valid c = false -> length (from_utf8_lossy c) = 3%nat).
Proof.
  intros Hq c. unfold fetch_response. rewrite Hq. fold c.
  exists (#"* " ++ show_Z (meta_uid meta) ++ #" FETCH (" ++ join #" " (fetch_parts meta q body identity) ++ #" "
          ++ label (rq_body q)). split; [|split].
  - unfold untagged. generalize (from_utf8_lossy c) (show_nat (length c)) (join #" " (fetch_parts meta q body identity)).
    generalize (show_Z (meta_uid meta)) (label (rq_body q)). clear. intros u l d n p.
    rewrite <- app_assoc, <- app_assoc, literal_shape. reflexivity.
  - apply from_utf8_lossy_valid.
  - intros x ->. unfold utf8_valid, from_utf8_lossy, chunks. cbn [length chunks_aux].
    destruct (utf8_step x []) as [[] n]; [done|]. done.
Qed.

End properties.
