(* ===== verification/ImapWire.v ===== *)
(** * Replies that a mail client can read

    The reference reader is a mail client's: lines ended by CRLF, a literal behind a
    line that announces its length.  Every reply of the session reads back as untagged
    responses followed by one line with the tag of the command. *)

From S2P Require Export ImapMailFacts.

(** ** The reading client *)

Record Response := mkResponse { rs_line : str; rs_literal : option (str * str) }.

(** The length a line announces: [{n}] at its end. *)
Definition announced (line : str) : option nat :=
  before ← strip_suffix #"}" line;
  '(_, n) ← rsplit_once "{"%char before;
  Z.to_nat <$> (if n ≟ [] then None else parse_digits 0 n).

(** A line is what comes before CRLF; a line feed alone is an error. *)
Definition read_crlf (s : str) : option (str * str) :=
  '(l, r) ← split_once b_nl s;
  x ← strip_suffix [b_cr] l;
  Some (x, r).

(** A line, and when it announces one, the literal with the line that goes on behind it. *)
Definition read_response (s : str) : option (Response * str) :=
  '(x, r) ← read_crlf s;
  match announced x with
  | None => Some (mkResponse x None, r)
  | Some n =>
      '(y, r') ← read_crlf (drop n r);
      if (n <=? length r)%nat && (announced y ≟ None) then Some (mkResponse x (Some (take n r, y)), r') else None
  end.

Fixpoint read_replies (fuel : nat) (s : str) : option (list Response) :=
  match s, fuel with
  | [], _ => Some []
  | _, O => None
  | _, S fuel => '(x, r) ← read_response s; cons x <$> read_replies fuel r
  end.

(** [s] reads as the responses [l]; each takes at least one byte. *)
Definition reads (s : str) (l : list Response) : Prop :=
  forall fuel, (length s <= fuel)%nat -> read_replies fuel s = Some l.

(** ** Texts without line ends *)

Definition plain (s : str) : bool := forallb (fun c => negb (c ≟ b_cr) && negb (c ≟ b_nl)) s.
Definition text (s : str) : bool := plain s && utf8_valid s.

Lemma plain_app s t : plain (s ++ t) = plain s && plain t.
Proof. apply forallb_app. Qed.
Lemma plain_incl s t : s ⊆ t -> plain t = true -> plain s = true.
Proof. intros Hs Ht. apply forallb_elem. intros c Hc. by apply (forallb_all _ _ Ht), Hs. Qed.
Lemma plain_concat l : (forall x, x ∈ l -> plain x = true) -> plain (concat l) = true.
Proof.
  induction l as [|x l IH]; intros Hl; [done|]. cbn. rewrite plain_app, Hl by left.
  apply IH. intros y Hy. apply Hl. by right.
Qed.
Lemma plain_join sep l : plain sep = true -> (forall x, x ∈ l -> plain x = true) -> plain (join sep l) = true.
Proof.
  intros Hs. induction l as [|x [|y l] IH]; intros Hl; [done|apply Hl; left|].
  change (join sep (x :: y :: l)) with (x ++ sep ++ join sep (y :: l)).
  rewrite !plain_app, Hs, Hl, IH; [done| |left]. intros z Hz. apply Hl. by right.
Qed.
Lemma plain_show_Z z : plain (show_Z z) = true.
Proof.
  apply forallb_elem. intros c Hc.
  destruct (c ≟ b_cr) eqn:E1; [apply bool_decide_eq_true_1 in E1 as ->; by apply show_Z_not_in in Hc|].
  destruct (c ≟ b_nl) eqn:E2; [apply bool_decide_eq_true_1 in E2 as ->; by apply show_Z_not_in in Hc|done].
Qed.
Lemma plain_show_nat n : plain (show_nat n) = true.
Proof.
  pose proof (plain_show_Z (Z.of_nat n)) as H. unfold show_Z in H.
  destruct (Z.of_nat n <? 0)%Z eqn:E; [apply Z.ltb_lt in E; lia|].
  unfold show_nat. by replace (N.of_nat n) with (Z.to_N (Z.of_nat n)) by lia.
Qed.
Lemma plain_no_nl s : plain s = true -> b_nl ∉ s.
Proof. intros Hs Hc. by apply (forallb_all _ _ Hs) in Hc. Qed.
Lemma text_plain s : text s = true -> plain s = true.
Proof. by intros [??]%andb_true_iff. Qed.
Lemma text_utf8 s : text s = true -> utf8_valid s = true.
Proof. by intros [??]%andb_true_iff. Qed.
Lemma text_app s t : text s = true -> text t = true -> text (s ++ t) = true.
Proof.
  intros [Hs1 Hs2]%andb_true_iff [Ht1 Ht2]%andb_true_iff. unfold text.
  rewrite plain_app, Hs1, Ht1. by apply utf8_valid_app.
Qed.

(** ** Reading what is written *)

Lemma read_crlf_app x r : plain x = true -> read_crlf (x ++ crlf ++ r) = Some (x, r).
Proof.
  intros Hx. unfold read_crlf. change (crlf ++ r) with ([b_cr] ++ b_nl :: r). rewrite app_assoc.
  rewrite split_once_app; cbn [mbind option_bind].
  - by rewrite (proj2 (strip_suffix_Some [b_cr] (x ++ [b_cr]) x) eq_refl).
  - intros [Hc|Hc]%elem_of_app; [by apply plain_no_nl in Hc|]. by apply list_elem_of_singleton in Hc.
Qed.

Lemma reads_nil : reads [] [].
Proof. intros fuel _. by destruct fuel. Qed.

Lemma reads_cons s x r l :
  read_response s = Some (x, r) -> (length r < length s)%nat -> reads r l -> reads s (x :: l).
Proof.
  intros Hx Hr Hl [|fuel] Hf; [lia|]. destruct s as [|c s]; [cbn in Hr; lia|].
  change (read_replies (S fuel) (c :: s)) with ('(x, r) ← read_response (c :: s); cons x <$> read_replies fuel r).
  rewrite Hx. cbn [mbind option_bind]. by rewrite (Hl fuel) by lia.
Qed.

Lemma reads_line x r l :
  plain x = true -> announced x = None -> reads r l -> reads (x ++ crlf ++ r) (mkResponse x None :: l).
Proof.
  intros Hx Ha. apply reads_cons.
  - unfold read_response. rewrite read_crlf_app by done. cbn [mbind option_bind]. by rewrite Ha.
  - rewrite !length_app. cbn. lia.
Qed.

Lemma reads_literal x b y r l :
  plain x = true -> announced x = Some (length b) -> plain y = true -> announced y = None -> reads r l ->
  reads (x ++ crlf ++ b ++ y ++ crlf ++ r) (mkResponse x (Some (b, y)) :: l).
Proof.
  intros Hx Ha Hy Hn. apply reads_cons.
  - unfold read_response. rewrite read_crlf_app by done. cbn [mbind option_bind]. rewrite Ha.
    rewrite drop_app_length, read_crlf_app by done. cbn [mbind option_bind]. rewrite Hn, take_app_length.
    rewrite (proj2 (Nat.leb_le _ _)) by (rewrite length_app; lia). done.
  - rewrite !length_app. cbn. lia.
Qed.

(** [s] in front of any replies reads as [l] in front of them. *)
Definition writes (s : str) (l : list Response) : Prop :=
  forall r l', reads r l' -> reads (s ++ r) (l ++ l').

Lemma writes_nil : writes [] [].
Proof. by intros r l'. Qed.
Lemma writes_app s l t l' : writes s l -> writes t l' -> writes (s ++ t) (l ++ l').
Proof. intros Hs Ht r l'' Hr. rewrite <- !app_assoc. by apply Hs, Ht. Qed.
Lemma writes_reads s l : writes s l -> reads s l.
Proof. intros H. rewrite <- (app_nil_r s), <- (app_nil_r l). apply H, reads_nil. Qed.

(** A line that announces nothing; it may follow any text on its line. *)
Definition ends_line (x : str) : Prop := x <> [] /\ last x <> Some "}"%char.

Lemma ends_line_app x y : ends_line y -> ends_line (x ++ y).
Proof.
  intros [Hn Hl]. split; [by destruct x|]. destruct (exists_last Hn) as (z & c & ->).
  rewrite app_assoc, last_snoc. by rewrite last_snoc in Hl.
Qed.
Lemma announced_ends x : ends_line x -> announced x = None.
Proof.
  intros [_ Hl]. unfold announced. destruct (strip_suffix #"}" x) as [b|] eqn:E; [|done].
  apply strip_suffix_Some in E as ->. change #"}" with ["}"%char] in Hl. by rewrite last_snoc in Hl.
Qed.
Lemma announced_literal x n : announced (x ++ #" {" ++ show_nat n ++ #"}") = Some n.
Proof.
  unfold announced. rewrite (proj2 (strip_suffix_Some #"}" _ (x ++ #" {" ++ show_nat n))) by (by rewrite <- !app_assoc).
  cbn [mbind option_bind]. change (x ++ #" {" ++ show_nat n) with (x ++ #" " ++ "{"%char :: show_nat n).
  rewrite app_assoc, rsplit_once_app.
  - cbn [mbind option_bind]. rewrite bool_decide_eq_false_2 by apply show_N_ne.
    unfold show_nat. rewrite parse_digits_show. cbn. f_equal. lia.
  - intros Hc. apply (forallb_all _ _ (show_N_digits _)) in Hc. by vm_compute in Hc.
Qed.

Lemma ends_line_decide x : bool_decide (x = []) || bool_decide (last x = Some "}"%char) = false -> ends_line x.
Proof. by intros [?%bool_decide_eq_false_1 ?%bool_decide_eq_false_1]%orb_false_iff. Qed.

Ltac ends := first [apply ends_line_decide; reflexivity | apply ends_line_app; ends].
(** A line of fixed text and numbers: it has no line ends and announces nothing. *)
Ltac by_line := first [rewrite ?plain_app, ?plain_show_Z, ?plain_show_nat; done | ends].

Lemma writes_untagged body :
  plain body = true -> ends_line body -> writes (untagged body) [mkResponse ( #"* " ++ body) None].
Proof.
  intros Hp He r l' Hr. unfold untagged. rewrite <- !app_assoc, (app_assoc #"* " body).
  apply reads_line; [by rewrite plain_app, Hp | by apply announced_ends, ends_line_app | done].
Qed.

Definition tagged_line (tag : str) (x : ImapStatus) (t : str) : str := tag ++ #" " ++ status_as_str x ++ #" " ++ t.
Lemma writes_tagged tag x t :
  plain tag = true -> plain t = true -> ends_line t -> writes (tagged tag x t) [mkResponse (tagged_line tag x t) None].
Proof.
  intros Hg Hp He r l' Hr. unfold tagged.
  replace ((tag ++ #" " ++ status_as_str x ++ #" " ++ t ++ crlf) ++ r) with (tagged_line tag x t ++ crlf ++ r)
    by (unfold tagged_line; by rewrite <- !app_assoc).
  apply reads_line; [|by apply announced_ends, ends_line_app, ends_line_app, ends_line_app, ends_line_app|done].
  unfold tagged_line. rewrite !plain_app, Hg, Hp. by destruct x.
Qed.

(** ** Replies *)

Definition is_untagged (x : Response) : Prop := exists t, rs_line x = #"* " ++ t.

(** Untagged responses, and one line with the tag behind them. *)
Definition answers (tag out : str) : Prop :=
  exists l x t, writes out (l ++ [mkResponse (tagged_line tag x t) None]) /\ Forall is_untagged l.
(** Untagged responses alone. *)
Definition tells (out : str) : Prop := exists l, writes out l /\ Forall is_untagged l.

Lemma tells_nil : tells [].
Proof. exists []. split; [apply writes_nil|done]. Qed.
Lemma tells_app s t : tells s -> tells t -> tells (s ++ t).
Proof.
  intros (l & Hl & Hu) (l' & Hl' & Hu'). exists (l ++ l'). split; [by apply writes_app|by apply Forall_app].
Qed.
Lemma tells_untagged body : plain body = true -> ends_line body -> tells (untagged body).
Proof.
  intros Hp He. eexists. split; [by apply writes_untagged|]. apply Forall_singleton. by exists body.
Qed.
Lemma tells_concat l : (forall x, x ∈ l -> tells x) -> tells (concat l).
Proof.
  induction l as [|x l IH]; intros Hl; [apply tells_nil|]. apply tells_app; [apply Hl; left|].
  apply IH. intros y Hy. apply Hl. by right.
Qed.
Lemma answers_tagged tag x t : plain tag = true -> plain t = true -> ends_line t -> answers tag (tagged tag x t).
Proof. intros ???. exists [], x, t. split; [by apply writes_tagged|done]. Qed.
Lemma answers_app tag s t : tells s -> answers tag t -> answers tag (s ++ t).
Proof.
  intros (l & Hl & Hu) (l' & x & y & Hl' & Hu'). exists (l ++ l'), x, y. rewrite <- app_assoc.
  split; [by apply writes_app|by apply Forall_app].
Qed.

(** ** The bytes of a text come from what it was made of *)

Lemma incl_concat_chars (l : list str) s : l ⊆ chars s -> concat l ⊆ s.
Proof.
  intros Hl c Hc. rewrite <- (chars_concat s). apply list_elem_of_In, in_concat.
  apply list_elem_of_In, in_concat in Hc as (x & Hx & Hc). exists x.
  split; [by apply list_elem_of_In, Hl, list_elem_of_In|done].
Qed.
Lemma incl_drop_while {A} (p : A -> bool) l : drop_while p l ⊆ l.
Proof. induction l as [|x l IH]; [done|]. cbn. destruct (p x); [|done]. intros y Hy. right. by apply IH. Qed.
Lemma incl_drop_while_end {A} (p : A -> bool) l : drop_while_end p l ⊆ l.
Proof. unfold drop_while_end. intros y. rewrite elem_of_reverse. intros Hy%incl_drop_while. by apply elem_of_reverse. Qed.
Lemma incl_trim s : trim s ⊆ s.
Proof. apply incl_concat_chars. intros y Hy%incl_drop_while_end. by apply incl_drop_while in Hy. Qed.
Lemma incl_take {A} n (l : list A) : take n l ⊆ l.
Proof. intros x Hx. rewrite <- (take_drop n l). apply elem_of_app. by left. Qed.
Lemma incl_drop {A} n (l : list A) : drop n l ⊆ l.
Proof. intros x Hx. rewrite <- (take_drop n l). apply elem_of_app. by right. Qed.

Lemma incl_split_ws l cur w s : w ∈ split_ws cur l -> cur ⊆ s -> concat l ⊆ s -> w ⊆ s.
Proof.
  revert cur. induction l as [|ch l IH]; intros cur; cbn.
  - destruct cur; [by intros ?%elem_of_nil|]. by intros ->%list_elem_of_singleton.
  - intros Hw Hc Hl. assert (concat l ⊆ s) as Hl' by (intros c ?; apply Hl, elem_of_app; by right).
    assert ([] ⊆ s) as Hn by (intros ? ?%elem_of_nil; done).
    destruct (is_whitespace ch).
    + destruct cur; [by eapply IH|]. apply elem_of_cons in Hw as [->|Hw]; [done|by eapply IH].
    + eapply IH; [done| |done]. intros c [Hcc|Hcc]%elem_of_app; [by apply Hc|]. apply Hl, elem_of_app. by left.
Qed.
Lemma incl_split_whitespace w s : w ∈ split_whitespace s -> w ⊆ s.
Proof.
  intros Hw. eapply incl_split_ws; [done|by intros ? ?%elem_of_nil|]. by rewrite chars_concat.
Qed.

Lemma incl_close_bracket d s a b : close_bracket d s = Some (a, b) -> a ⊆ s.
Proof.
  revert d a. induction s as [|c s IH]; intros d a; [done|]. cbn.
  destruct (if c ≟ "["%char then _ else _); [by intros [= <- <-] ? ?%elem_of_nil|].
  destruct (close_bracket _ s) as [[t u]|] eqn:E; [|done]. intros [= <- <-] x [->|Hx]%elem_of_cons; [left|right].
  by eapply IH.
Qed.
Lemma incl_split_once c s a b : split_once c s = Some (a, b) -> b ⊆ s.
Proof. intros [-> _]%split_once_Some x Hx. apply elem_of_app. right. by right. Qed.
Lemma incl_scan_body pre s a b : scan_body pre s = Some (a, b) -> b ⊆ s.
Proof.
  revert pre. induction s as [|c s IH]; intros pre; [done|]. cbn [scan_body].
  destruct (if at_boundary pre && _ then _ else _) as [x|] eqn:E.
  - intros [= ->]. destruct (at_boundary pre && _); [|done].
    apply bind_Some in E as ([? inner] & Hi & E). apply bind_Some in E as ([sec after] & Hb & [= _ <-]).
    intros x Hx. apply (incl_close_bracket _ _ _ _ Hb), (incl_split_once _ _ _ _ Hi), incl_drop in Hx. done.
  - intros Hs x Hx. right. by eapply IH.
Qed.
Lemma incl_extract_field_list s l : extract_field_list s = Some l -> l ⊆ s.
Proof.
  unfold extract_field_list. intros ([? ?] & _ & H)%bind_Some. apply bind_Some in H as ([? ?] & _ & H).
  destruct (_ <=? _)%nat; [done|]. injection H as <-. intros x Hx%incl_take. by apply incl_drop in Hx.
Qed.
Lemma incl_unparen s : unparen s ⊆ s.
Proof. unfold unparen. destruct (_ && _); [|done]. intros x Hx%incl_take. by apply incl_drop in Hx. Qed.

(** *** The label of a body section *)

Lemma plain_label_parse s : plain s = true -> plain (label (parse_body_section s)) = true.
Proof.
  intros Hs. pose proof (plain_incl _ _ (incl_trim s) Hs) as Ht.
  assert (forall l, extract_field_list (trim s) = Some l -> plain (join #" " (split_whitespace l)) = true) as Hf.
  { intros l Hl. apply plain_join; [done|]. intros x Hx. apply (plain_incl _ (trim s)); [|done].
    intros c Hc. by apply (incl_extract_field_list _ _ Hl), (incl_split_whitespace _ _ Hx). }
  unfold parse_body_section. repeat (case_bool_decide; [done|]).
  destruct (if starts_with _ _ then _ else _) as [l|] eqn:E.
  - destruct (starts_with _ _); [|done]. destruct (contains _ _); cbn [label]; by rewrite !plain_app, Hf.
  - cbn [label]. by rewrite !plain_app, Ht.
Qed.

Lemma add_items_body q l : rq_body (foldl add_item q l) = rq_body q.
Proof.
  revert q. induction l as [|x l IH]; intros q; [done|]. cbn [foldl]. rewrite IH. destruct q; cbn.
  by repeat case_bool_decide.
Qed.
Lemma with_trio_body q : rq_body (with_trio q) = rq_body q.
Proof. unfold with_trio. by destruct (is_none_section _). Qed.
Lemma plain_label items : plain items = true -> plain (label (rq_body (parse_fetch_items items))) = true.
Proof.
  intros Hi. unfold parse_fetch_items. set (inner := unparen (trim items)).
  assert (plain inner = true) as Hp.
  { apply (plain_incl _ items); [|done]. intros x Hx%incl_unparen. by apply incl_trim. }
  destruct (_ || _); [done|]. destruct (_ || _); [done|]. case_bool_decide; [done|].
  destruct (extract_body_section inner) as [rest section] eqn:E. rewrite with_trio_body, add_items_body. cbn [rq_body].
  destruct section as [sec|]; [|done]. apply plain_label_parse, (plain_incl _ inner); [|done].
  revert E. unfold extract_body_section. destruct (scan_body [] inner) as [[? ?]|] eqn:Es; [|done].
  intros [= -> ->]. by eapply incl_scan_body.
Qed.

(** ** FETCH responses *)

(** The dates the [time] crate renders are text. *)
Class TimeTexts `{TimeFormat} : Prop := {
  internaldate_text t x : internaldate_format t = Some x -> text x = true;
  rfc2822_text t x : rfc2822_format t = Some x -> text x = true;
}.

(** The columns of a message that are shown. *)
Definition meta_texts (m : MessageMeta) : bool :=
  text (meta_subject m) && text (meta_message_id m) && text (meta_sender m) && forallb text (option_list (meta_tx_state m)).
Definition identity_texts (i : MessageIdentity) : bool := text (id_from i) && text (id_to i).

Lemma plain_quote s : plain s = true -> plain (quote s) = true.
Proof.
  intros Hs. unfold quote. rewrite !plain_app. replace (plain [b_dq]) with true by done. rewrite andb_true_r.
  apply plain_concat. intros x (c & -> & Hc)%list_elem_of_fmap.
  assert (plain c = true) as Hp.
  { apply (plain_incl _ s); [|done]. rewrite <- (app_nil_r c). apply (incl_concat_chars [c]).
    by intros y ->%list_elem_of_singleton. }
  by destruct (_ || _).
Qed.

Lemma plain_address_group s : plain s = true -> plain (address_group s) = true.
Proof.
  intros Hs. unfold address_group. destruct (_ || _); [done|].
  destruct (rsplit_once b_at s) as [[l h]|] eqn:E.
  - apply rsplit_once_Some in E as [-> _]. rewrite plain_app in Hs. apply andb_true_iff in Hs as [Hl Hh].
    change (plain (b_at :: h)) with (plain h) in Hh. by rewrite !plain_app, !plain_quote.
  - by rewrite !plain_app, plain_quote.
Qed.

Lemma utf8_concat l : (forall x, x ∈ l -> utf8_valid x = true) -> utf8_valid (concat l) = true.
Proof.
  induction l as [|x l IH]; intros Hl; [done|]. cbn. apply utf8_valid_app; [apply Hl; left|].
  apply IH. intros y Hy. apply Hl. by right.
Qed.

Section fetching.
Context `{TimeTexts}.

Lemma rfc2822_ok t : text (format_rfc2822 t) = true.
Proof. unfold format_rfc2822. destruct (rfc2822_format _) eqn:E; [by eapply rfc2822_text|done]. Qed.
Lemma internaldate_ok t : text (format_internaldate t) = true.
Proof. unfold format_internaldate. destruct (internaldate_format _) eqn:E; [by eapply internaldate_text|done]. Qed.

Lemma plain_envelope meta i : meta_texts meta = true -> identity_texts i = true -> plain (envelope_response meta i) = true.
Proof.
  unfold meta_texts, identity_texts. rewrite !andb_true_iff. intros [[[Hs Hm] _] _] [Hf Ht].
  unfold envelope_response.
  by rewrite !plain_app, (text_plain _ (rfc2822_ok _)), !plain_quote, !plain_address_group by (by apply text_plain).
Qed.

Lemma plain_flags f : plain (flags_display f) = true.
Proof. unfold flags_display. repeat case_match; reflexivity. Qed.

Lemma plain_parts meta q body i :
  meta_texts meta = true -> identity_texts i = true -> plain (join #" " (fetch_parts meta q body i)) = true.
Proof.
  intros Hm Hi. apply plain_join; [done|]. apply Forall_forall. unfold fetch_parts.
  assert (forall (b : bool) x, plain x = true -> Forall (fun x => plain x = true) (if b then [x] else [])) as Hb
    by (intros [] x Hx; [by apply Forall_singleton|done]).
  repeat apply Forall_app_2; apply Hb; rewrite ?plain_app, ?plain_show_Z.
  - by rewrite plain_flags.
  - done.
  - done.
  - by rewrite (text_plain _ (internaldate_ok _)).
  - by rewrite plain_envelope.
  - done.
Qed.

Lemma text_of_show_Z z : text (show_Z z) = true.
Proof. unfold text. by rewrite plain_show_Z, utf8_valid_ascii by apply show_Z_ascii. Qed.

Lemma utf8_headers meta i n v :
  meta_texts meta = true -> identity_texts i = true -> (n, v) ∈ headers meta i -> utf8_valid n = true /\ utf8_valid v = true.
Proof.
  unfold meta_texts, identity_texts. rewrite !andb_true_iff. intros [[[Hs Hm] _] Hx] [Hf Ht] Hin.
  assert (Forall (fun '(n, v) => utf8_valid n = true /\ utf8_valid v = true) (headers meta i)) as Hall.
  { assert (forall s d, text s = true -> utf8_valid d = true -> utf8_valid (or_unknown s d) = true) as Ho
      by (intros s d Hs' ?; unfold or_unknown; case_bool_decide; [done|by apply text_utf8]).
    unfold headers. repeat apply Forall_app_2.
    - repeat constructor; by apply Ho.
    - case_bool_decide; [done|]. apply Forall_singleton. split; [done|by apply text_utf8].
    - repeat constructor; [apply text_utf8, rfc2822_ok|]. by repeat apply utf8_valid_app; try apply text_utf8.
    - destruct (meta_tx_state meta) as [x|]; [|done]. cbn in Hx. apply andb_true_iff in Hx as [Hx _].
      apply Forall_cons. split; [split; [done|by apply text_utf8]|].
      destruct (meta_tx_id meta); [|done]. apply Forall_singleton. split; [done|apply text_utf8, text_of_show_Z]. }
  by apply (proj1 (Forall_forall _ _) Hall (n, v)).
Qed.

Lemma utf8_header_lines meta filter i :
  meta_texts meta = true -> identity_texts i = true -> utf8_valid (header_lines meta filter i) = true.
Proof.
  intros Hm Hi. unfold header_lines. apply utf8_valid_app; [|done]. apply utf8_concat.
  intros x ([n v] & -> & Hx)%list_elem_of_fmap. apply utf8_headers in Hx as [Hn Hv]; [|done|done].
  destruct (keep_header _ _); [|done]. by repeat apply utf8_valid_app.
Qed.

Lemma utf8_content b meta body i :
  meta_texts meta = true -> identity_texts i = true -> utf8_valid body = true -> utf8_valid (content b meta body i) = true.
Proof. intros Hm Hi Hb. destruct b; first [by apply utf8_header_lines | exact Hb | reflexivity]. Qed.

Lemma tells_fetch meta q body i :
  meta_texts meta = true -> identity_texts i = true -> utf8_valid body = true -> plain (label (rq_body q)) = true ->
  tells (fetch_response meta q body i).
Proof.
  intros Hm Hi Hb Hl. unfold fetch_response. destruct (is_none_section _).
  - apply tells_untagged; [by rewrite !plain_app, plain_show_Z, plain_parts|].
    do 3 apply ends_line_app. by apply ends_line_decide.
  - set (c := content _ _ _ _). rewrite from_utf8_lossy_valid by (by apply utf8_content).
    set (x := #"* " ++ show_Z (meta_uid meta) ++ #" FETCH (" ++ join #" " (fetch_parts meta q body i) ++ #" " ++ label (rq_body q)).
    exists [mkResponse (x ++ #" {" ++ show_nat (length c) ++ #"}") (Some (c, #")"))]. split.
    + intros r l' Hr. refine (eq_ind _ (fun s => reads s _) (reads_literal _ c #")" r l' _ (announced_literal x _) _ _ Hr) _ _); [|done|done|].
      * unfold x. by rewrite !plain_app, plain_show_Z, plain_parts, Hl, plain_show_nat.
      * unfold x, untagged. by rewrite <- !app_assoc.
    + apply Forall_singleton. unfold x. eexists. by rewrite <- !app_assoc.
Qed.
End fetching.

(** ** The store's columns *)

(** What the session shows of the database is text, and bodies are UTF-8. *)
Record readable_db (d : Db) : Prop := {
  rd_users : forall r, r ∈ users d -> text (u_username r) = true;
  rd_messages : forall r, r ∈ messages d ->
    text (ms_subject r) && text (ms_message_id r) && text (ms_sender r) && utf8_valid (ms_body r) = true;
  rd_states : forall t, t ∈ transactions d -> text (t_state t) = true;
}.
Definition session_texts (s : ImapSession) : bool := text (im_username s) && text (im_domain s).
Definition readable (s : ImapSession) (w : Store) : Prop := session_texts s = true /\ readable_db (db w).

(** The errors of the methods that the session calls carry no text of theirs. *)
Definition bare_error (e : StoreError) : Prop :=
  match e with MailboxNotFound | MessageNotFound | Storage _ => True | _ => False end.

Lemma readable_confined uid d d' : confined uid d d' -> readable_db d -> readable_db d'.
Proof.
  intros [Hu _ _ _ _ Ht _ Ho _] [H1 H2 H3]. constructor; [by rewrite Hu| |by rewrite Ht].
  intros r' (r & f & Hr & ->)%Ho. by apply (H2 r).
Qed.

(** A store method from a readable database: what it leaves and what it gives. *)
Definition stores {A} (P : A -> Prop) (m : M A) : Prop :=
  forall w r w', readable_db (db w) -> m w = (r, w') ->
    readable_db (db w') /\ match r with Ok a => P a | Err e => bare_error e end.

Lemma stores_bind {A B} (P : A -> Prop) (Q : B -> Prop) m f :
  stores P m -> (forall a, P a -> stores Q (f a)) -> stores Q (m ≫= f).
Proof.
  intros Hm Hf w r w' Hw. unfold mbind, st_bind. destruct (m w) as [[a|e] w1] eqn:E; apply Hm in E as [Hw1 Ha]; try done.
  - by apply Hf.
  - by intros [= <- <-].
Qed.
Lemma stores_ret {A} (P : A -> Prop) a : P a -> stores P (mret a).
Proof. by intros Ha w r w' Hw [= <- <-]. Qed.
Lemma stores_raise {A} (P : A -> Prop) e : bare_error e -> stores P (raise e : M A).
Proof. by intros He w r w' Hw [= <- <-]. Qed.
Lemma stores_query {A} (P : A -> Prop) (f : Db -> A) : (forall d, readable_db d -> P (f d)) -> stores P (query f).
Proof.
  intros Hf w r w' Hw. unfold query, exec. destruct (faults w) as [|[] ?]; intros [= <- <-]; split; try done; by apply Hf.
Qed.
Lemma stores_steps {A} uid (P : A -> Prop) m :
  steps_by (confined uid) m -> (forall w r w', readable_db (db w) -> m w = (r, w') -> match r with Ok a => P a | Err e => bare_error e end) ->
  stores P m.
Proof. intros Hs Hm w r w' Hw E. split; [|by eapply Hm]. apply Hs in E as [_ Hc]. by eapply readable_confined. Qed.
Lemma execute_bare f w r w' : execute (fun d => Ok (f d)) w = (r, w') -> match r with Ok _ => True | Err e => bare_error e end.
Proof. unfold execute, exec. destruct (faults w) as [|[] ?]; by intros [= <- _]. Qed.

Lemma stores_mailbox uid name : stores (fun _ => True) (mailbox_named uid name).
Proof.
  apply (stores_bind (fun _ => True)); [by apply stores_query|]. intros [b|] _; [by apply stores_ret|by apply stores_raise].
Qed.

Lemma meta_of_row d v r t :
  readable_db d -> r ∈ messages d -> (r, t) ∈ left_join d r -> meta_texts (row_to_meta v r t) = true /\ utf8_valid (ms_body r) = true.
Proof.
  intros Hd Hr Ht. apply (rd_messages _ Hd) in Hr. rewrite !andb_true_iff in Hr. destruct Hr as [[[Hs Hm] Hf] Hb].
  split; [|done]. unfold meta_texts. cbn. rewrite Hs, Hm, Hf. unfold left_join in Ht.
  destruct (select _ _) as [|t1 ts] eqn:E; [by apply list_elem_of_singleton in Ht as [= ->]|].
  apply list_elem_of_fmap in Ht as (t2 & [= ->] & Ht2). rewrite <- E in Ht2. apply elem_of_select in Ht2 as [Ht2 _].
  cbn. by rewrite (rd_states _ Hd).
Qed.

Lemma stores_list uid name : stores (fun l => forall m, m ∈ l -> meta_texts m = true) (list_messages_in uid name).
Proof.
  apply (stores_bind (fun _ => True)); [apply stores_mailbox|]. intros [[b v] n] _. apply stores_query. intros d Hd m.
  intros ([r t] & -> & Hp%sort_by_elem)%list_elem_of_fmap.
  apply list_elem_of_bind in Hp as (r0 & Hj & [Hr _]%elem_of_select).
  pose proof (left_join_fst _ _ _ Hj) as E. cbn in E. subst r0. by apply (meta_of_row d).
Qed.
Lemma stores_fetch uid name i : stores (fun m => utf8_valid (msg_body m) = true) (fetch_message_in uid name i).
Proof.
  apply (stores_bind (fun _ => True)); [apply stores_mailbox|]. intros [[b v] n] _.
  eapply (stores_bind (fun o => match o with Some (r, _) => utf8_valid (ms_body r) = true | None => True end)).
  - apply stores_query. intros d Hd. destruct (head _) as [[r t]|] eqn:E; [|done].
    apply head_Some_elem_of, list_elem_of_bind in E as (r0 & Hj & [Hr _]%elem_of_select).
    pose proof (left_join_fst _ _ _ Hj) as Er. cbn in Er. subst r0. by apply (meta_of_row d v r t).
  - intros [[r t]|] Ho; [by apply stores_ret|by apply stores_raise].
Qed.
Lemma stores_set_flags uid name i mask v : stores (fun _ => True) (set_flags_in uid name i mask v).
Proof.
  apply (stores_steps uid); [apply steps_set_flags|]. intros w r w' Hw. unfold set_flags_in, mbind, st_bind.
  destruct (mailbox_named uid name w) as [[[[b x] n]|e] w1] eqn:E; pose proof (stores_mailbox _ _ _ _ _ Hw E) as [_ He].
  - by intros H%execute_bare.
  - by intros [= <- _].
Qed.
Lemma stores_expunge uid name : stores (fun _ => True) (expunge_in uid name).
Proof.
  apply (stores_steps uid); [apply steps_expunge|]. intros w r w' Hw. unfold expunge_in.
  destruct (mailbox_named uid name w) as [[[[b x] n]|e] w1] eqn:E; pose proof (stores_mailbox _ _ _ _ _ Hw E) as [Hw1 He].
  - rewrite (st_bind_Ok _ _ _ _ _ E). unfold mbind at 1, st_bind at 1.
    destruct (query _ w1) as [[us|e] w2] eqn:Eq.
    + unfold mbind, st_bind. destruct (execute _ w2) as [[[]|e] w3] eqn:Ex; apply execute_bare in Ex; by intros [= <- _].
    + eapply (stores_query (fun _ => True)) in Eq as [_ Hq]; [by intros [= <- _]|done|done].
  - rewrite (st_bind_Err _ _ _ _ _ E). by intros [= <- _].
Qed.
Lemma stores_get_user name : stores (fun o => forall u, o = Some u -> text (user_username u) = true) (get_user name).
Proof.
  apply stores_query. intros d Hd u (r & Hr & ->)%fmap_Some.
  apply head_Some_elem_of, elem_of_select in Hr as [Hr _]. by apply (rd_users _ Hd).
Qed.

(** ** Handlers *)

(** The texts of SQLite's errors are text, and do not look like a literal's announcement. *)
Class SqlTexts `{ErrorTexts} : Prop := sql_text_line : forall e, plain (sql_text e) = true /\ ends_line (sql_text e).

Section handlers.
Context `{SqlTexts} `{Encodings} `{KeyCrypto} `{Argon2} `{OsGroups} `{TimeTexts}.
Context (tag : str) (Htag : plain tag = true).

(** A handler whose result satisfies [Q], or which ends with an answer. *)
Definition replies {A} (Q : A -> Prop) (m : H A) : Prop :=
  forall s w r s' w', readable s w -> m (s, w) = (r, (s', w')) ->
    readable s' w' /\ match r with Ok a => Q a | Err t => answers tag t end.

Lemma replies_bind {A B} (P : A -> Prop) (Q : B -> Prop) m f :
  replies P m -> (forall a, P a -> replies Q (f a)) -> replies Q (m ≫= f).
Proof.
  intros Hm Hf s w r s' w' Hr. unfold mbind, st_bind.
  destruct (m (s, w)) as [[a|e] [s1 w1]] eqn:E; apply Hm in E as [Hr1 Ha]; try done.
  - by apply Hf.
  - by intros [= <- <- <-].
Qed.
Lemma replies_ret {A} (Q : A -> Prop) a : Q a -> replies Q (mret a).
Proof. by intros Ha s w r s' w' Hr [= <- <- <-]. Qed.
Lemma replies_session {B} (Q : B -> Prop) (f : ImapSession -> H B) :
  (forall s, session_texts s = true -> replies Q (f s)) -> replies Q (the_session ≫= f).
Proof. intros Hf s w r s' w' Hr E. by eapply (Hf s (proj1 Hr)). Qed.
Lemma replies_update (Q : unit -> Prop) f :
  Q tt -> (forall s, session_texts s = true -> session_texts (f s) = true) -> replies Q (update f).
Proof. intros HQ Hf s w r s' w' [Hs Hw] [= <- <- <-]. split; [|done]. split; [by apply Hf|done]. Qed.
Lemma replies_tagged x t {A} (Q : A -> Prop) : plain t = true -> ends_line t -> replies Q (raise (tagged tag x t) : H A).
Proof. intros Ht He s w r s' w' Hr [= <- <- <-]. split; [done|by apply answers_tagged]. Qed.
Lemma replies_attempt_ok {A} (P : A -> Prop) (m : M A) :
  stores P m -> replies (fun o => forall a, o = Some a -> P a) (attempt_ok m).
Proof.
  intros Hm s w r s' w' [Hs Hw]. unfold attempt_ok, attempt, mbind, st_bind. destruct (m w) as [x w1] eqn:E.
  apply Hm in E as [Hw1 Hx]; [|done]. intros [= <- <- <-]. split; [done|]. intros a. by destruct x; intros [= <-].
Qed.
Lemma store_err_answers e : bare_error e -> answers tag (store_err tag e).
Proof.
  intros He. unfold store_err.
  assert (plain (store_error_str e) = true /\ ends_line (store_error_str e)) as [Hp Hl].
  { destruct e as [| | | | |q| |]; try done; try (by split; [|apply ends_line_decide]).
    destruct (sql_text_line q) as [Hp Hl]. unfold store_error_str. split; [by rewrite plain_app|by apply ends_line_app]. }
  apply answers_tagged; [done|by rewrite plain_app|by apply ends_line_app].
Qed.
Lemma replies_use_store {A} (P : A -> Prop) (m : M A) : stores P m -> replies P (use_store tag m).
Proof.
  intros Hm s w r s' w' [Hs Hw]. unfold use_store, attempt, lift, mbind, st_bind. destruct (m w) as [x w1] eqn:E.
  apply Hm in E as [Hw1 Hx]; [|done]. intros [= <- <- <-]. split; [done|]. destruct x; [done|]. by apply store_err_answers.
Qed.

Lemma replies_login_guard {B} (Q : B -> Prop) (f : ImapSession -> H B) :
  (forall s, session_texts s = true -> replies Q (f s)) -> replies Q (require_login tag ≫= f).
Proof.
  intros Hf. apply (replies_bind (fun s => session_texts s = true)); [|done]. apply replies_session. intros s Hs.
  destruct (im_state s ≟ _); [apply replies_tagged; by_line|by apply replies_ret].
Qed.
Lemma replies_selected {B} (Q : B -> Prop) (f : ImapSession -> H B) :
  (forall s, session_texts s = true -> replies Q (f s)) -> replies Q (require_selected tag ≫= f).
Proof.
  intros Hf. apply (replies_bind (fun s => session_texts s = true)); [|done]. apply replies_session. intros s Hs.
  destruct (im_state s ≟ _); [by apply replies_ret|apply replies_tagged; by_line].
Qed.

Lemma answers_done t : plain t = true -> ends_line t -> answers tag (done_ok tag t).
Proof. by apply answers_tagged. Qed.

(** *** The commands *)

Lemma replies_login u p : replies (answers tag) (login tag u p).
Proof.
  assert (forall x t, plain t = true -> ends_line t -> replies (answers tag) (raise (tagged tag x t) : H str)) as Hno
    by (intros; by apply replies_tagged).
  assert (forall id name s, text name = true -> session_texts s = true -> session_texts (set_user id name s) = true) as Hset.
  { unfold session_texts. intros id name s Hn [_ Hd]%andb_true_iff. cbn. by rewrite Hn. }
  unfold login. destruct (match strip_suffix _ u with Some b => _ | None => _ end) as [base is_app].
  apply replies_session. intros s Hs. destruct (local_username _ _); [|apply Hno; by_line].
  eapply replies_bind; [apply replies_attempt_ok, stores_get_user|]. intros o Ho.
  destruct (mjoin o) as [user|] eqn:Eo; [|apply Hno; by_line].
  assert (text (user_username user) = true) as Hu by (destruct o as [[v|]|]; try done; injection Eo as <-; by eapply Ho).
  destruct is_app.
  - unfold login_app. destruct (parse_share p); [|apply Hno; by_line].
    eapply replies_bind; [apply (replies_attempt_ok (fun _ => True)), stores_query; done|]. intros [rows|] _; [|apply Hno; by_line].
    destruct (share_opens _ _); [|apply Hno; by_line].
    apply (replies_bind (fun _ => True)); [apply replies_update; [done|intros; by apply Hset]|]. intros _ _.
    apply replies_ret, answers_done; by_line.
  - apply replies_session. intros s' Hs'. apply (replies_bind (fun _ => True)).
    + unfold password_ok. destruct (im_auth_mode s'); [|by apply replies_ret].
      eapply replies_bind; [apply (replies_attempt_ok (fun _ => True)), stores_query; done|]. intros h _. by apply replies_ret.
    + intros [[]|] _; [|apply Hno; by_line..].
      apply (replies_bind (fun _ => True)); [apply replies_update; [done|intros; by apply Hset]|]. intros _ _.
      apply replies_ret, answers_done; by_line.
Qed.

Lemma replies_auth cmd : replies (answers tag) (cmd_auth tag cmd).
Proof.
  apply replies_session. intros s Hs. unfold bad.
  repeat case_match; first [apply replies_login | apply replies_tagged; by_line].
Qed.

Lemma replies_named cmd : replies (fun m => m = INBOX \/ m = SENT) (named_mailbox tag cmd).
Proof.
  unfold named_mailbox, no. destruct (head (pc_args cmd) ≫= canonical_mailbox) as [m|] eqn:E.
  - apply replies_ret. apply bind_Some in E as (x & _ & Hm). apply head_Some_elem_of, list_elem_of_filter in Hm as [_ Hm].
    apply elem_of_cons in Hm as [->|Hm]; [by left|]. apply list_elem_of_singleton in Hm as ->. by right.
  - apply replies_tagged; by_line.
Qed.

Lemma tells_select a b c d : tells (select_responses a b c d).
Proof.
  unfold select_responses. do 5 (apply tells_app; [apply tells_untagged; by_line|]). apply tells_untagged; by_line.
Qed.

Lemma replies_select cmd : replies (answers tag) (cmd_select tag cmd).
Proof.
  apply replies_login_guard. intros s Hs. eapply replies_bind; [apply replies_named|]. intros m _.
  eapply replies_bind; [apply replies_use_store, stores_list|]. intros l _.
  apply (replies_bind (fun _ => True)).
  { intros s1 w r s' w' Hr E. eapply replies_attempt_ok in E as [? ?]; [by destruct r| |done].
    apply (stores_bind (fun _ => True)); [apply stores_mailbox|]. intros [[? ?] ?] _. by apply (stores_ret (fun _ => True)). }
  intros n _. cbv zeta. apply (replies_bind (fun _ => True)); [by apply replies_update|]. intros _ _.
  apply replies_ret, answers_app; [apply tells_select|]. apply answers_done.
  - by destruct (pc_name cmd ≟ _).
  - by destruct (pc_name cmd ≟ _); apply ends_line_decide.
Qed.

Lemma replies_list cmd : replies (answers tag) (cmd_list tag cmd).
Proof.
  apply replies_login_guard. intros s _. apply replies_ret.
  assert (forall (b : bool) x, plain x = true -> ends_line x -> tells (if b then untagged x else [])) as Hb
    by (intros [] x ? ?; [by apply tells_untagged|apply tells_nil]).
  apply answers_app; [apply Hb; by_line|].
  apply answers_app; [apply Hb; by_line|]. apply answers_done; by_line.
Qed.
Lemma replies_namespace : replies (answers tag) (cmd_namespace tag).
Proof.
  apply replies_login_guard. intros s _. apply replies_ret, answers_app; [apply tells_untagged; by_line|].
  apply answers_done; by_line.
Qed.

Lemma replies_status cmd : replies (answers tag) (cmd_status tag cmd).
Proof.
  apply replies_login_guard. intros s Hs. eapply replies_bind; [apply replies_named|]. intros m Hm.
  eapply replies_bind; [apply replies_use_store, stores_list|]. intros l _.
  apply (replies_bind (fun _ => True)).
  { intros s1 w r s' w' Hr E. eapply replies_attempt_ok in E as [? ?]; [by destruct r| |done].
    apply (stores_bind (fun _ => True)); [apply stores_mailbox|]. intros [[? ?] ?] _. by apply (stores_ret (fun _ => True)). }
  intros n _. cbv zeta. apply replies_ret, answers_app; [|apply answers_done; by_line].
  apply tells_untagged; [|ends]. rewrite !plain_app, !plain_show_Z. by destruct Hm as [->| ->].
Qed.

Lemma replies_fetch_args cmd :
  Forall (fun x => plain x = true) (pc_args cmd) -> replies (fun ri => plain (snd ri) = true) (fetch_args tag cmd).
Proof.
  intros Hw. assert (forall l, l ⊆ pc_args cmd -> plain (join #" " l) = true) as Hj.
  { intros l Hl. apply plain_join; [done|]. intros x Hx. by apply (proj1 (Forall_forall _ _) Hw), Hl. }
  unfold fetch_args, bad. destruct (uid_form _ _).
  - destruct (pc_args cmd) as [|a [|range [|i items]]]; try (apply replies_tagged; by_line).
    apply replies_ret. cbn [snd]. apply Hj. intros x Hx. by do 2 right.
  - destruct (pc_args cmd) as [|range [|i items]]; [apply replies_tagged; by_line|by apply replies_ret|].
    apply replies_ret. cbn [snd]. apply Hj. intros x Hx. by right.
Qed.

Lemma identity_of s meta : session_texts s = true -> meta_texts meta = true -> identity_texts (message_identity s meta) = true.
Proof.
  unfold session_texts, meta_texts, identity_texts, message_identity. rewrite !andb_true_iff.
  intros [Hn Hd] [[_ Hf] _]. assert (text (im_username s ++ #"@" ++ im_domain s) = true) by (by repeat apply text_app).
  by destruct (im_selected s ≟ SENT).
Qed.

Lemma replies_fetch_loop range count q l :
  plain (label (rq_body q)) = true -> (forall m, m ∈ l -> meta_texts m = true) -> replies tells (fetch_loop tag range count q l).
Proof.
  intros Hq. induction l as [|meta l IH]; intros Hl; [by apply replies_ret, tells_nil|]. cbn [fetch_loop].
  specialize (IH (fun m Hm => Hl m (list_elem_of_further _ _ _ Hm))). destruct (negb _); [done|].
  apply replies_session. intros s Hs. apply (replies_bind (fun b => utf8_valid b = true)).
  - destruct (needs_stored_body _); [|by apply replies_ret].
    eapply replies_bind; [apply replies_use_store, stores_fetch|]. intros m Hm. by apply replies_ret.
  - intros body Hb. apply (replies_bind tells); [done|]. intros out Ho. apply replies_ret, tells_app; [|done].
    assert (meta_texts meta = true) by (apply Hl; left). by apply tells_fetch; [|apply identity_of|..].
Qed.

Lemma replies_fetch cmd : Forall (fun x => plain x = true) (pc_args cmd) -> replies (answers tag) (cmd_fetch tag cmd).
Proof.
  intros Hw. apply replies_selected. intros s Hs. eapply replies_bind; [by apply replies_fetch_args|]. intros ri Hri.
  eapply replies_bind; [apply replies_use_store, stores_list|]. intros l Hl. cbv zeta.
  apply (replies_bind tells).
  - apply replies_fetch_loop; [|done]. cbv beta. pose proof (plain_label _ Hri). by destruct (pc_name cmd ≟ _).
  - intros out Ho. apply replies_ret, answers_app; [done|apply answers_done; by_line].
Qed.

Lemma replies_store_loop range count mask v l : replies tells (store_loop tag range count mask v l).
Proof.
  induction l as [|meta l IH]; [by apply replies_ret, tells_nil|]. cbn [store_loop]. destruct (negb _); [done|].
  apply replies_session. intros s Hs. eapply replies_bind; [apply replies_use_store, stores_set_flags|]. intros _ _.
  apply (replies_bind tells); [done|]. intros out Ho. apply replies_ret, tells_app; [|done].
  apply tells_untagged; [by rewrite !plain_app, plain_show_Z, plain_flags|ends].
Qed.
Lemma replies_store cmd : replies (answers tag) (cmd_store tag cmd).
Proof.
  apply replies_selected. intros s Hs. apply (replies_bind (fun _ => True)).
  { unfold store_args, bad. repeat case_match; first [by apply replies_ret | apply replies_tagged; by_line]. }
  intros [[range mode] spec] _. eapply replies_bind; [apply replies_use_store, stores_list|]. intros l _. cbv zeta.
  destruct (_ =? 0)%Z; [apply replies_tagged; by_line|]. apply (replies_bind tells); [apply replies_store_loop|].
  intros out Ho. apply replies_ret, answers_app; [done|apply answers_done; by_line].
Qed.

Lemma elem_of_join (c : ascii) sep l : c ∈ join sep l -> c ∈ sep \/ exists x, x ∈ l /\ c ∈ x.
Proof.
  induction l as [|x [|y l] IH]; [by intros ?%elem_of_nil|intros Hc; right; exists x; split; [left|done]|].
  change (join sep (x :: y :: l)) with (x ++ sep ++ join sep (y :: l)).
  intros [Hc|[Hc|Hc]%elem_of_app]%elem_of_app; [right; exists x; split; [left|done]|by left|].
  destruct (IH Hc) as [?|(z & ? & ?)]; [by left|]. right. exists z. split; [by right|done].
Qed.
Lemma ends_line_free x y : ends_line x -> "}"%char ∉ y -> ends_line (x ++ y).
Proof.
  intros Hx Hy. destruct y as [|c y]; [by rewrite app_nil_r|]. apply ends_line_app. split; [done|].
  intros Hl%last_Some_elem_of. done.
Qed.

Lemma tells_search uids : tells (untagged ( #"SEARCH " ++ join_uids uids)).
Proof.
  apply tells_untagged.
  - rewrite plain_app. unfold join_uids. rewrite plain_join; [done|done|]. intros x (u & -> & _)%list_elem_of_fmap. apply plain_show_Z.
  - apply ends_line_free; [by apply ends_line_decide|]. intros [Hc|(x & (u & -> & _)%list_elem_of_fmap & Hc)]%elem_of_join.
    + by apply list_elem_of_singleton in Hc.
    + by apply show_Z_not_in in Hc.
Qed.
Lemma replies_search cmd : replies (answers tag) (cmd_search tag cmd).
Proof.
  apply replies_selected. intros s Hs. eapply replies_bind; [apply replies_use_store, stores_list|]. intros l _. cbv zeta.
  apply replies_ret, answers_app; [apply tells_search|apply answers_done; by_line].
Qed.

Lemma replies_uid cmd : Forall (fun x => plain x = true) (pc_args cmd) -> replies (answers tag) (cmd_uid tag cmd).
Proof.
  intros Hw. apply replies_selected. intros s _. pose proof (replies_fetch _ Hw). pose proof (replies_store cmd).
  pose proof (replies_search cmd). destruct (pc_args cmd) as [|a l]; [apply replies_tagged; by_line|]. cbv zeta.
  repeat (case_bool_decide; [done|]). apply replies_tagged; by_line.
Qed.

Lemma replies_expunge : replies (answers tag) (cmd_expunge tag).
Proof.
  apply replies_selected. intros s _. eapply replies_bind; [apply replies_use_store, stores_expunge|]. intros us _.
  apply replies_ret, answers_app; [|apply answers_done; by_line].
  apply tells_concat. intros x (u & -> & _)%list_elem_of_fmap. apply tells_untagged; by_line.
Qed.
Lemma replies_close : replies (answers tag) (cmd_close tag).
Proof.
  apply replies_selected. intros s _. eapply replies_bind; [apply replies_use_store, stores_expunge|]. intros us _.
  apply (replies_bind (fun _ => True)); [by apply replies_update|]. intros _ _. apply replies_ret, answers_done; by_line.
Qed.

(** *** The dispatcher *)

(** What a reply is: an answer, or for IDLE the continuation. *)
Definition reply_to (cmd : ParsedCommand) (out : str) : Prop :=
  answers (pc_tag cmd) out \/ pc_name cmd = #"IDLE" /\ out = continuation #"idle".

Lemma replies_weaken {A} (P Q : A -> Prop) (m : H A) : (forall a, P a -> Q a) -> replies P m -> replies Q m.
Proof. intros HPQ Hm s w r s' w' Hr E. apply Hm in E as [? ?]; [|done]. split; [done|]. destruct r; auto. Qed.

Lemma replies_dispatch cmd :
  pc_tag cmd = tag -> Forall (fun x => plain x = true) (pc_args cmd) -> replies (reply_to cmd) (dispatch cmd).
Proof.
  intros Ht Hw. assert (forall m, replies (answers tag) m -> replies (reply_to cmd) m) as Ha
    by (intros m; apply replies_weaken; intros out Ho; left; by rewrite Ht).
  unfold dispatch. rewrite Ht. cbv zeta.
  repeat case_match; try (lazymatch goal with |- replies _ (cmd_idle _) => fail | _ => apply Ha end).
  - apply replies_ret, answers_app; [apply tells_untagged; by_line|apply answers_done; by_line].
  - apply replies_ret, answers_done; by_line.
  - apply replies_ret, answers_app; [apply tells_untagged; by_line|apply answers_done; by_line].
  - apply replies_auth.
  - apply replies_select.
  - apply replies_list.
  - apply replies_namespace.
  - apply replies_status.
  - by apply replies_fetch.
  - by apply replies_uid.
  - apply replies_store.
  - apply replies_search.
  - apply replies_expunge.
  - apply replies_close.
  - apply replies_selected. intros s _. apply replies_ret. right. split; [|done]. by eapply bool_decide_eq_true_1.
  - apply replies_tagged; by_line.
  - apply replies_tagged; by_line.
Qed.
End handlers.

(** ** The theorem *)

(** A line of a command without literals: its tag and its arguments have no line ends. *)
Definition plain_command (cmd : ParsedCommand) : Prop :=
  plain (pc_tag cmd) = true /\ Forall (fun x => plain x = true) (pc_args cmd).

Lemma handle_readable `{SqlTexts} `{Encodings} `{KeyCrypto} `{Argon2} `{OsGroups} `{TimeTexts} cmd s w :
  plain_command cmd -> readable s w ->
  let '(out, (s', w')) := imap_handle cmd (s, w) in readable s' w' /\ reply_to cmd out.
Proof.
  intros [Ht Ha] Hr. unfold imap_handle, reply_of. destruct (dispatch cmd (s, w)) as [r [s' w']] eqn:E.
  eapply (replies_dispatch (pc_tag cmd)) in E as [Hr' Ho]; [|done..]. split; [done|].
  destruct r; [done|by left].
Qed.

