(* ===== verification/Template.v ===== *)
(** * Message templates ([talk-core/src/template.rs])

    A template is a pair of strings for subject and body, read from
    [template.toml] or the built-in one, and rendered by the Tera engine.  The
    TOML parser, the engine, the clock's text form and the files are an
    interface. *)

From S2P Require Export RustStr.

Record TemplateSpec := mkSpec { spec_subject : str; spec_body : str }.

Inductive TemplateError :=
  | TemplateIo (e : str)
  | Render (e : str).
#[export] Instance TemplateError_eq_dec : EqDecision TemplateError.
Proof. solve_decision. Defined.
(** [Display]. *)
Definition template_error_str (e : TemplateError) : str :=
  match e with
  | TemplateIo e => #"io: " ++ e
  | Render e => #"template parse/render error: " ++ e
  end.

(** [std::fs::read_to_string]. *)
Inductive FileRead := FileContent (raw : str) | FileMissing | FileError (e : str).

Class Templates := {
  (** the content of a file, by its path *)
  read_to_string : str -> FileRead;
  (** [toml::from_str] to a map of specs: the sections by name, or the error *)
  toml_specs : str -> result str (list (str * TemplateSpec));
  (** [tera::Tera::one_off] without autoescaping, on a context of strings *)
  one_off : str -> list (str * str) -> result str str;
  (** a time as RFC 3339 text *)
  rfc3339 : Z -> str;
}.

Definition default_invoice : TemplateSpec := mkSpec
  #"Invoice from {{ sender_name }}"
  (join [b_nl] [
   dq "<!DOCTYPE html>";
   dq "<html><head><meta charset=~utf-8~><title>Invoice</title></head>";
   dq "<body style=~margin:0;padding:0;background:#f4f6f8;font-family:-apple-system,'Segoe UI',Roboto,Arial,sans-serif;color:#1a2027;~>";
   dq "  <table role=~presentation~ width=~100%~ cellpadding=~0~ cellspacing=~0~ style=~padding:32px 0;~><tr><td align=~center~>";
   dq "    <table role=~presentation~ width=~520~ cellpadding=~0~ cellspacing=~0~ style=~background:#ffffff;border-radius:10px;box-shadow:0 2px 8px rgba(26,32,39,0.08);~>";
   dq "      <tr><td style=~background:#111827;padding:18px 26px;~><span style=~color:#fff;font-weight:700;~>Invoice</span></td></tr>";
   dq "      <tr><td style=~padding:26px 30px;~>";
   dq "        <div style=~font-size:12px;color:#6b7280;text-transform:uppercase;~>From</div>";
   dq "        <div style=~font-size:18px;font-weight:700;~>{{ sender_name | escape }}</div>";
   dq "        <div style=~font-size:13px;color:#6b7280;~>{{ sender_address | escape }}</div>";
   dq "        {% if amount %}";
   dq "        <div style=~margin-top:20px;background:#f9fafb;border:1px solid #e5e7eb;border-radius:8px;padding:14px 18px;~>";
   dq "          <span style=~color:#6b7280;~>Amount due:</span>";
   dq "          <span style=~font-size:22px;font-weight:800;float:right;~>{{ amount | escape }} ZEC</span>";
   dq "        </div>";
   dq "        {% endif %}";
   dq "        <div style=~margin-top:18px;font-size:12px;color:#6b7280;text-transform:uppercase;~>Invoice</div>";
   dq "        <pre style=~margin:6px 0 0;padding:12px 14px;background:#f9fafb;border:1px solid #e5e7eb;border-radius:8px;font-size:13px;white-space:pre-wrap;~>{{ invoice | escape }}</pre>";
   dq "        <div style=~margin-top:18px;font-size:12px;color:#9ca3af;~>Received {{ received_at }}</div>";
   dq "      </td></tr>";
   dq "    </table>";
   dq "  </td></tr></table>";
   dq "</body></html>"]).

(** [Path::join] of a relative file name. *)
Definition path_join (dir file : str) : str :=
  if dir ≟ [] then file
  else if ends_with #"/" dir then dir ++ file else dir ++ #"/" ++ file.

(** [HashMap::get]. *)
Fixpoint assoc_get {A} (name : str) (l : list (str * A)) : option A :=
  match l with [] => None | (k, v) :: r => if k ≟ name then Some v else assoc_get name r end.

Section template.
Context `{Templates}.

(** [TemplateSpec::load]. *)
Definition load (path name : str) : result TemplateError (option TemplateSpec) :=
  match read_to_string path with
  | FileMissing => Ok None
  | FileError e => Err (TemplateIo e)
  | FileContent raw =>
      m ← map_err Render (toml_specs raw);
      spec ← ok_or (assoc_get name m)
        (Render (#"template.toml " ++ path ++ #" has no [" ++ name ++ #"] section"));
      Ok (Some spec)
  end.

(** [TeraEngine::render]. *)
Definition engine_render (template : str) (data : list (str * str)) : result TemplateError str :=
  map_err Render (one_off template data).

Definition invoice_context (sender_name sender_address amount invoice received_at : str) : list (str * str) :=
  [(#"sender_name", sender_name); (#"sender_address", sender_address); (#"amount", amount);
   (#"invoice", invoice); (#"received_at", received_at)].

Definition render_invoice (spec : TemplateSpec) (sender_name sender_address amount invoice received_at : str)
    : result TemplateError (str * str) :=
  let data := invoice_context sender_name sender_address amount invoice received_at in
  subject ← engine_render (spec_subject spec) data;
  body ← engine_render (spec_body spec) data;
  Ok (subject, body).

Definition received_at (now : Z) : str := rfc3339 now.

Definition resolve_template (template_path : option str) (data_dir : str)
    : result TemplateError TemplateSpec :=
  match template_path with
  | Some path =>
      o ← load path #"invoice";
      ok_or o (Render (#"configured template file " ++ path ++ #" not found"))
  | None =>
      o ← load (path_join data_dir #"template.toml") #"invoice";
      match o with Some spec => Ok spec | None => Ok default_invoice end
  end.

End template.
