(* ===== verification/Sink.v ===== *)
(** * Delivery into the store ([talkd/src/sink.rs])

    The objects the daemon gives to a ZSMTP session: the user directory, the
    keyring and the delivery sink over one mail store.  The world they act on
    holds the store, the events sent to IDLE sessions and a clock that is read
    anew by each method that calls [now_secs]. *)

From S2P Require Export Session UserLife Template.

Inductive MailboxEvent := MessageAppended (user_id : Z).

Record World := mkWorld {
  w_store : Store;
  w_events : list MailboxEvent;
  w_clock : nat -> Z;
  w_ticks : nat;
}.
Definition set_store (w : World) (s : Store) : World := mkWorld s (w_events w) (w_clock w) (w_ticks w).

(** A store method, and one that reads the clock. *)
Definition on_store {A} (m : M A) : st World StoreError A := fun w =>
  let '(r, s) := m (w_store w) in (r, set_store w s).
Definition now_secs {E} : st World E Z := fun w =>
  (Ok (w_clock w (w_ticks w)), mkWorld (w_store w) (w_events w) (w_clock w) (S (w_ticks w))).
Definition on_store_now {A} (m : Z -> M A) : st World StoreError A := now ← now_secs; on_store (m now).

(** [.ok()] of a method: the error is dropped. *)
Definition ignore {E F A} (m : st World E A) : st World F unit := fun w => let '(_, w') := m w in (Ok tt, w').
Definition st_ok {E F A} (m : st World E A) : st World F (option A) := fun w =>
  let '(r, w') := m w in (Ok (ok r), w').

Section sink.
Context `{RowIds} `{Templates}.

(** ** [StoreUserDirectory], [StoreKeyring] *)

Definition store_user_exists (username : str) (w : World) : bool * World :=
  let '(r, w') := on_store (get_user username) w in
  (match r with Ok (Some _) => true | _ => false end, w').
Definition store_user_directory : UserDirectory World := mkDirectory store_user_exists.

Definition store_keyring_state (user_id : Z) (sender_mailbox : str) (w : World) : TrustState * World :=
  if sender_mailbox ≟ [] then (Unverified, w)
  else
    let '(r, w') := on_store (keyring_sender_key user_id sender_mailbox) w in
    (match r with Ok (Some _) => Trusted | _ => Unverified end, w').
Definition store_keyring : Keyring World := mkKeyring store_keyring_state.

(** ** [StoreDeliverySink] *)

Record StoreDeliverySink := mkStoreSink {
  ss_events : bool;
  ss_template_path : option str;
  ss_template_data_dir : str;
}.
Definition sink_new : StoreDeliverySink := mkStoreSink false None [].
Definition with_events (k : StoreDeliverySink) : StoreDeliverySink :=
  mkStoreSink true (ss_template_path k) (ss_template_data_dir k).
Definition with_template (k : StoreDeliverySink) (path : option str) (dir : str) : StoreDeliverySink :=
  mkStoreSink (ss_events k) path dir.

Definition fallback_subject (payload : Payload) : str :=
  match payload with Sealed => #"New sealed invoice" | Plaintext => #"New invoice" end.

Definition render_delivery (k : StoreDeliverySink) (sender_mailbox : str) (payload : Payload) (body : str)
    : st World DeliveryOutcome (str * str) :=
  match resolve_template (ss_template_path k) (ss_template_data_dir k) with
  | Err _ => mret (fallback_subject payload, body)
  | Ok spec =>
      now ← now_secs;
      mret match render_invoice spec sender_mailbox sender_mailbox [] (from_utf8_lossy body) (received_at now) with
           | Ok (subject, html) => (subject, html)
           | Err _ => (fallback_subject payload, body)
           end
  end.

Definition recipient_user (recipient_mailbox : str) : st World DeliveryOutcome User :=
  match head (split b_at recipient_mailbox) with
  | Some u =>
      if u ≟ [] then raise (Rejected #"malformed recipient mailbox")
      else
        try_with (on_store (get_user u))
          (fun o => match o with
             | Some user => mret user
             | None => raise (Rejected (#"no such recipient: " ++ u))
             end)
          (fun _ => raise (RetryLater #"storage error"))
  | None => raise (Rejected #"malformed recipient mailbox")
  end.

Definition broadcast (e : MailboxEvent) (w : World) : World :=
  mkWorld (w_store w) (w_events w ++ [e]) (w_clock w) (w_ticks w).

Definition append_and_broadcast (k : StoreDeliverySink) (user_id : Z) (msg : NewMessage) (message_id : str)
    : st World DeliveryOutcome MessageMeta :=
  meta ← st_map_err (fun e => match e with
           | DuplicateMessage _ => Rejected (#"duplicate message id: " ++ message_id)
           | _ => RetryLater #"storage error"
           end) (on_store_now (fun now => append_message now user_id msg));
  _ ← (if ss_events k then modify (broadcast (MessageAppended user_id)) else mret tt);
  mret meta.

Definition record_inbound_tx (sender_mailbox recipient_mailbox amount message_id : str) (message_row_id : Z)
    : st World DeliveryOutcome unit :=
  r ← st_ok (on_store_now (fun now => tx_create now
        (mkNewTx MailStore.In Opaque sender_mailbox recipient_mailbox amount None message_id None #"sealed")));
  match r with
  | Some tx => ignore (on_store_now (fun now => tx_link_message now (tx_id tx) message_row_id))
  | None => mret tt
  end.

(** What both ways of delivery do once the recipient is known and the message is
    rendered. *)
Definition store_message (k : StoreDeliverySink) (user : User) (sender recipient amount message_id subject body : str)
    : st World DeliveryOutcome unit :=
  trust ← (fun w => let '(t, w') := store_keyring_state (user_id user) sender w in (Ok (trust_as_str t), w'));
  let msg := mkNewMessage message_id subject body 0 sender trust in
  meta ← append_and_broadcast k (user_id user) msg message_id;
  record_inbound_tx sender recipient amount message_id (meta_id meta).

(** The outcome of a delivery: [Accepted], or the outcome it was cut short with. *)
Definition outcome (message_id : str) (m : st World DeliveryOutcome unit) (w : World) : DeliveryOutcome * World :=
  let '(r, w') := m w in (match r with Ok _ => Accepted message_id | Err o => o end, w').

Definition deliver_emulated (k : StoreDeliverySink) (recipient sender_label amount message_id subject body : str)
    : World -> DeliveryOutcome * World :=
  outcome message_id (
    user ← recipient_user recipient;
    store_message k user sender_label recipient amount message_id subject body).

Definition store_deliver (k : StoreDeliverySink) (sender_mailbox message_id recipient_mailbox : str)
    (payload : Payload) (body : str) : World -> DeliveryOutcome * World :=
  outcome message_id (
    user ← recipient_user recipient_mailbox;
    sb ← render_delivery k sender_mailbox payload body;
    store_message k user sender_mailbox recipient_mailbox [] message_id (fst sb) (snd sb)).

Definition store_sink (k : StoreDeliverySink) : DeliverySink World := mkSink (store_deliver k).

End sink.
