(* ===== verification/ImapServer.v ===== *)
(** * The IMAP server loop ([talk-imap/src/server.rs])

    One connection: reads of any size, pipelined commands, literals, IDLE with the
    events of the delivery path.  [on_read] and [on_event] are what the loop does
    for one input; [conn_step] is the connection among the other tasks of the
    daemon, which change the store and broadcast events between any two inputs. *)

From S2P Require Import Sink.
From S2P Require Export ImapMailFacts.

(** [ImapServer], without the sockets, TLS and the transcript files. *)
Record ImapServer := mkImapServer { is_hostname : str; is_auth_mode : AuthMode; is_domain : str }.
Definition server_new (hostname : str) : ImapServer := mkImapServer hostname Database [].
Definition with_domain (v : ImapServer) (dom : str) : ImapServer := mkImapServer (is_hostname v) (is_auth_mode v) dom.
Definition with_auth_mode (v : ImapServer) (mode : AuthMode) : ImapServer := mkImapServer (is_hostname v) mode (is_domain v).

Definition new_session (v : ImapServer) : ImapSession :=
  mkImap NotAuthenticated [] 0 (is_auth_mode v) (is_domain v) INBOX.

(** The receiver of a [tokio] broadcast channel: what [recv] has for its caller, when
    it need not wait. *)
Inductive Received := Event (e : MailboxEvent) | Lagged.
Class Broadcast := {
  Receiver : Type;
  subscribe : nat -> Receiver;
  sent : MailboxEvent -> Receiver -> Receiver;
  recv : Receiver -> option (Received * Receiver);
}.

(** Its documentation: a receiver sees the events sent after it subscribed, in order;
    of more than the capacity of the channel the oldest are lost, which the next
    [recv] reports once. *)
Class BroadcastLaws `{Broadcast} := {
  capacity : Receiver -> nat;
  pending : Receiver -> list MailboxEvent;
  lagging : Receiver -> bool;
  subscribe_empty n : capacity (subscribe n) = n /\ pending (subscribe n) = [] /\ lagging (subscribe n) = false;
  sent_capacity e q : capacity (sent e q) = capacity q;
  sent_pending e q : (length (pending q) < capacity q)%nat ->
    pending (sent e q) = pending q ++ [e] /\ lagging (sent e q) = lagging q;
  sent_lags e q : (capacity q <= length (pending q))%nat ->
    pending (sent e q) = tail (pending q) ++ [e] /\ lagging (sent e q) = true;
  recv_lagged q : lagging q = true ->
    exists q', recv q = Some (Lagged, q') /\ pending q' = pending q /\ lagging q' = false /\ capacity q' = capacity q;
  recv_pending q : lagging q = false ->
    match pending q with
    | [] => recv q = None
    | e :: l => exists q', recv q = Some (Event e, q') /\ pending q' = l /\ lagging q' = false /\ capacity q' = capacity q
    end;
}.

(** [broadcast::channel(64)]. *)
Definition CAPACITY : nat := 64.

(** Where the connection is: at the read of its loop; in IDLE, with the tag of the
    command and the commands of the same read behind it; returned; or in a
    tokenizer that does not return. *)
Inductive Phase := Serving | Idling (tag : str) (rest : list ParsedCommand) | Closed | Hung.

Section connection.
Context `{Broadcast}.

Record Conn := mkImapConn {
  cn_session : ImapSession;
  cn_store : Store;
  cn_reader : CommandReader;
  cn_events : Receiver;
  cn_phase : Phase;
  (** replies collected since the last write *)
  cn_out : str;
  (** bytes written to the stream *)
  cn_written : str;
}.
Definition set_phase (p : Phase) (c : Conn) : Conn :=
  mkImapConn (cn_session c) (cn_store c) (cn_reader c) (cn_events c) p (cn_out c) (cn_written c).
Definition set_reader (r : CommandReader) (c : Conn) : Conn :=
  mkImapConn (cn_session c) (cn_store c) r (cn_events c) (cn_phase c) (cn_out c) (cn_written c).
Definition set_events (q : Receiver) (c : Conn) : Conn :=
  mkImapConn (cn_session c) (cn_store c) (cn_reader c) q (cn_phase c) (cn_out c) (cn_written c).
Definition set_cn_store (w : Store) (c : Conn) : Conn :=
  mkImapConn (cn_session c) w (cn_reader c) (cn_events c) (cn_phase c) (cn_out c) (cn_written c).
Definition push_out (t : str) (c : Conn) : Conn :=
  mkImapConn (cn_session c) (cn_store c) (cn_reader c) (cn_events c) (cn_phase c) (cn_out c ++ t) (cn_written c).
Definition clear_out (c : Conn) : Conn :=
  mkImapConn (cn_session c) (cn_store c) (cn_reader c) (cn_events c) (cn_phase c) [] (cn_written c).
Definition write (t : str) (c : Conn) : Conn :=
  mkImapConn (cn_session c) (cn_store c) (cn_reader c) (cn_events c) (cn_phase c) (cn_out c) (cn_written c ++ t).

End connection.

Section server.
Context `{Broadcast} `{ErrorTexts} `{Encodings} `{KeyCrypto} `{Argon2} `{OsGroups} `{TimeFormat}.

Definition handle_in (cmd : ParsedCommand) (c : Conn) : Conn :=
  let '(out, (s, w)) := imap_handle cmd (cn_session c, cn_store c) in
  mkImapConn s w (cn_reader c) (cn_events c) (cn_phase c) (cn_out c ++ out) (cn_written c).

(** [if !out.is_empty() { write_all }], back to the read. *)
Definition flush_out (c : Conn) : Conn := set_phase Serving (write (cn_out c) c).

(** The loop over the commands of a read. *)
Fixpoint process (cmds : list ParsedCommand) (c : Conn) : Conn :=
  match cmds with
  | [] => flush_out c
  | cmd :: rest =>
      if pc_name cmd ≟ #"IDLE" then set_phase (Idling (pc_tag cmd) rest) (write (continuation #"idle") c)
      else if pc_name cmd ≟ #"LOGOUT" then
        let c := handle_in cmd c in set_phase Closed (write (cn_out c) c)
      else process rest (handle_in cmd c)
  end.

(** The connection is accepted and greeted. *)
Definition accept (v : ImapServer) (w : Store) : Conn :=
  mkImapConn (new_session v) w reader_default (subscribe CAPACITY) Serving [] (imap_greeting (is_hostname v)).

(** A read in the main loop; no bytes mean the end of the stream. *)
Definition on_read_serving (data : str) (c : Conn) : Conn :=
  let c := clear_out c in
  if data ≟ [] then set_phase Closed c
  else
    match feed (cn_reader c) data with
    | None => set_phase Hung c
    | Some (Err Unterminated, r) =>
        set_phase Closed (write (tagged [] StBad #"malformed line") (set_reader r c))
    | Some (Err e, r) => write (untagged (#"BAD Invalid command: " ++ parse_error_str e)) (set_reader r c)
    | Some (Ok cmds, r) =>
        let c := set_reader r c in
        let c := if needs_continuation r then write (continuation #"send literal") c else c in
        process cmds c
    end.

(** A read in [idle_until_done]: everything but DONE is dropped. *)
Definition on_read_idling (tag : str) (rest : list ParsedCommand) (data : str) (c : Conn) : Conn :=
  if data ≟ [] then set_phase Closed c
  else
    match feed (cn_reader c) data with
    | None => set_phase Hung c
    | Some (Err _, r) => set_phase Closed (set_reader r c)
    | Some (Ok cmds, r) =>
        let c := set_reader r c in
        if existsb (fun cmd => pc_name cmd ≟ #"DONE") cmds
        then process rest (push_out (tagged tag StOk #"IDLE terminated") c)
        else c
    end.

Definition on_read (data : str) (c : Conn) : Conn :=
  match cn_phase c with
  | Serving => on_read_serving data c
  | Idling tag rest => on_read_idling tag rest data c
  | _ => c
  end.

(** An event received in [idle_until_done]. *)
Definition on_mailbox_event (e : MailboxEvent) (c : Conn) : Conn :=
  let '(MessageAppended uid) := e in
  if (uid =? im_user_id (cn_session c))%Z then
    let '(r, w) := list_messages uid (cn_store c) in
    let count := match r with Ok l => length l | Err _ => 0%nat end in
    write (untagged (show_nat count ++ #" EXISTS")) (set_cn_store w c)
  else c.

(** [events_rx.recv()] in [idle_until_done]; after a lag the loop goes on. *)
Definition on_event (c : Conn) : Conn :=
  match cn_phase c with
  | Idling _ _ =>
      match recv (cn_events c) with
      | None => c
      | Some (Lagged, q) => set_events q c
      | Some (Event e, q) => on_mailbox_event e (set_events q c)
      end
  | _ => c
  end.

(** ** The connection among the other tasks *)

(** What the connection itself does. *)
Inductive own_step : Conn -> Conn -> Prop :=
  | step_read c data : (length data <= 4096)%nat -> own_step c (on_read data c)
  | step_event c : own_step c (on_event c)
  (** a read or a write fails, or the channel is closed *)
  | step_fail c : own_step c (set_phase Closed c).

(** What the other tasks do in between: [env] to the store, and broadcasts. *)
Inductive env_step (env : Store -> Store -> Prop) : Conn -> Conn -> Prop :=
  | step_store c w : env (cn_store c) w -> env_step env c (set_cn_store w c)
  | step_broadcast c e : env_step env c (set_events (sent e (cn_events c)) c).

Inductive conn_step (env : Store -> Store -> Prop) (c c' : Conn) : Prop :=
  | by_connection : own_step c c' -> conn_step env c c'
  | by_others : env_step env c c' -> conn_step env c c'.

End server.
