(* ===== verification/ImapServerFacts.v ===== *)
(** * Properties of IMAP connections

    Whatever the client sends and the other tasks do, a connection acts for one
    authenticated user; pipelined commands cut into reads anywhere are answered in
    order; an idle client is told of every event that is not lost to lag. *)

From S2P Require Import Sink.
From S2P Require Export ImapParseFacts ImapServer.

Section facts.
Context `{Broadcast} `{ErrorTexts} `{Encodings} `{KeyCrypto} `{Argon2} `{OsGroups} `{TimeFormat}.

Definition acting (c : Conn) : ImapSession * Store := (cn_session c, cn_store c).

Lemma handle_in_safe cmd c : safe (acting c) (acting (handle_in cmd c)).
Proof.
  unfold handle_in. destruct (imap_handle cmd (cn_session c, cn_store c)) as [out [s w]] eqn:E.
  by apply handle_safe in E.
Qed.

Lemma process_safe cmds c : safe (acting c) (acting (process cmds c)).
Proof.
  revert c. induction cmds as [|cmd cmds IH]; intros c; cbn [process]; [reflexivity|].
  destruct (pc_name cmd ≟ #"IDLE"); [reflexivity|]. destruct (pc_name cmd ≟ #"LOGOUT").
  - etransitivity; [apply (handle_in_safe cmd)|reflexivity].
  - etransitivity; [apply (handle_in_safe cmd)|apply IH].
Qed.

Lemma on_read_safe data c : safe (acting c) (acting (on_read data c)).
Proof.
  unfold on_read. destruct (cn_phase c) as [|tag rest| |]; try reflexivity.
  - unfold on_read_serving. destruct (data ≟ []); [reflexivity|].
    destruct (feed (cn_reader (clear_out c)) data) as [[[cmds|[]] r]|]; try reflexivity.
    etransitivity; [|apply process_safe]. by destruct (needs_continuation r).
  - unfold on_read_idling. destruct (data ≟ []); [reflexivity|].
    destruct (feed (cn_reader c) data) as [[[cmds|e] r]|]; try reflexivity.
    destruct (existsb _ cmds); [|reflexivity]. etransitivity; [|apply process_safe]. reflexivity.
Qed.

Lemma on_event_safe c : safe (acting c) (acting (on_event c)).
Proof.
  unfold on_event. destruct (cn_phase c); try reflexivity. destruct (recv _) as [[[[uid]|] q]|]; try reflexivity.
  unfold on_mailbox_event. cbn [cn_session set_events cn_store].
  destruct (uid =? _)%Z; [|reflexivity]. destruct (list_messages uid (cn_store c)) as [r w] eqn:E.
  apply (steps_list eq) in E as [Hs Hd]. by apply safe_same_session.
Qed.

Lemma own_step_safe c c' : own_step c c' -> safe (acting c) (acting c').
Proof. intros [c0 data _|c0|c0]; [apply on_read_safe | apply on_event_safe | reflexivity]. Qed.

Definition reachable (env : Store -> Store -> Prop) (v : ImapServer) (w : Store) : Conn -> Prop :=
  rtc (conn_step env) (accept v w).

Lemma env_step_session env c c' : env_step env c c' -> cn_session c' = cn_session c.
Proof. by intros []. Qed.

(** *** Pipelined commands *)

(** Commands that the session answers and the loop goes on after. *)
Definition answered (cmd : ParsedCommand) : bool :=
  negb (pc_name cmd ≟ #"IDLE") && negb (pc_name cmd ≟ #"LOGOUT").

Fixpoint imap_run (cmds : list ParsedCommand) (x : ImapSession * Store) : list str * (ImapSession * Store) :=
  match cmds with
  | [] => ([], x)
  | cmd :: rest => let '(out, x) := imap_handle cmd x in
                   let '(outs, x) := imap_run rest x in (out :: outs, x)
  end.

Lemma imap_run_app a b x :
  imap_run (a ++ b) x
  = let '(o1, x1) := imap_run a x in let '(o2, x2) := imap_run b x1 in (o1 ++ o2, x2).
Proof.
  revert x. induction a as [|cmd a IH]; intros x; cbn; [by destruct (imap_run b x)|].
  destruct (imap_handle cmd x) as [out y]. rewrite IH. destruct (imap_run a y) as [o1 x1].
  by destruct (imap_run b x1).
Qed.

Lemma process_answered cmds c :
  forallb answered cmds = true ->
  let '(outs, (s, w)) := imap_run cmds (acting c) in
  process cmds c
  = mkImapConn s w (cn_reader c) (cn_events c) Serving (cn_out c ++ concat outs)
      (cn_written c ++ cn_out c ++ concat outs).
Proof.
  revert c. induction cmds as [|cmd cmds IH]; intros c; cbn [imap_run process].
  - intros _. cbn. by rewrite !app_nil_r.
  - cbn [forallb]. unfold answered at 1. 
    intros [[Hi%negb_true_iff Hl%negb_true_iff]%andb_true_iff Ha]%andb_true_iff. rewrite Hi, Hl.
    specialize (IH (handle_in cmd c) Ha). unfold handle_in in *. change (cn_session c, cn_store c) with (acting c) in *.
    destruct (imap_handle cmd (acting c)) as [out [s w]]. unfold acting in IH. cbn [cn_session cn_store] in IH.
    destruct (imap_run cmds (s, w)) as [outs [s2 w2]]. rewrite IH. cbn. by rewrite <- !app_assoc.
Qed.

Lemma on_read_commands cmds buf more data c :
  Forall (fun x => printable_cmd x = true) cmds -> forallb answered (map read_cmd cmds) = true ->
  cn_phase c = Serving -> cn_reader c = mkReader buf [] None -> data <> [] ->
  (buf ++ data) ++ more = concat (map cmd_line cmds) ->
  exists heard rest buf', cmds = heard ++ rest /\ buf' ++ more = concat (map cmd_line rest) /\ (b_nl ∉ buf')
    /\ let '(outs, (s, w)) := imap_run (map read_cmd heard) (acting c) in
       on_read data c = mkImapConn s w (mkReader buf' [] None) (cn_events c) Serving (concat outs)
                          (cn_written c ++ concat outs).
Proof.
  intros Hc Ha Hp Hr Hd Hb. unfold on_read. rewrite Hp. unfold on_read_serving.
  rewrite bool_decide_eq_false_2 by done. cbn [cn_reader clear_out]. rewrite Hr.
  destruct (feed_loop_prefix cmds (buf ++ data) more (2 + length (buf ++ data)) [] Hc Hb ltac:(lia))
    as (heard & rest & buf' & -> & Hf & Hrest & Hn).
  unfold feed. cbn [rd_buf rd_pending_line rd_literal_remaining]. rewrite Hf. cbn [app].
  exists heard, rest, buf'. do 3 (split; [done|]).
  rewrite map_app, forallb_app in Ha. apply andb_true_iff in Ha as [Ha _].
  pose proof (process_answered (map read_cmd heard) (set_reader (mkReader buf' [] None) (clear_out c)) Ha) as Hpr.
  unfold acting in *. cbn [cn_session cn_store set_reader clear_out cn_reader cn_events cn_out cn_written] in Hpr. destruct (imap_run _ _) as [outs [s w]]. exact Hpr.
Qed.

Definition read_all (pieces : list str) (c : Conn) : Conn := foldl (fun c d => on_read d c) c pieces.

Lemma read_all_commands pieces : forall cmds buf c,
  Forall (fun x => printable_cmd x = true) cmds -> forallb answered (map read_cmd cmds) = true ->
  Forall (fun d => d <> []) pieces ->
  cn_phase c = Serving -> cn_reader c = mkReader buf [] None -> (b_nl ∉ buf) ->
  buf ++ concat pieces = concat (map cmd_line cmds) ->
  let '(outs, (s, w)) := imap_run (map read_cmd cmds) (acting c) in
  exists out, read_all pieces c
    = mkImapConn s w reader_default (cn_events c) Serving out (cn_written c ++ concat outs).
Proof.
  induction pieces as [|d pieces IH]; intros cmds buf c Hc Ha Hne Hp Hr Hn Hb; cbn [concat] in Hb.
  - rewrite app_nil_r in Hb. destruct cmds as [|cmd cmds].
    + cbn in *. exists (cn_out c). rewrite app_nil_r. destruct c; cbn in *. by subst.
    + exfalso. apply Hn. rewrite Hb. cbn [map concat]. rewrite cmd_line_cons. apply elem_of_app. right. left.
  - apply Forall_cons in Hne as [Hd Hne]. rewrite app_assoc in Hb.
    destruct (on_read_commands cmds buf (concat pieces) d c Hc Ha Hp Hr Hd Hb) as (heard & rest & buf' & -> & Hrest & Hn' & Hrun).
    rewrite map_app, imap_run_app. rewrite map_app, forallb_app in Ha. apply andb_true_iff in Ha as [_ Ha].
    apply Forall_app in Hc as [_ Hc].
    destruct (imap_run (map read_cmd heard) (acting c)) as [o1 [s1 w1]].
    specialize (IH rest buf' (on_read d c) Hc Ha Hne). rewrite Hrun in IH.
    specialize (IH eq_refl eq_refl Hn' Hrest). unfold acting in IH. cbn [cn_session cn_store] in IH.
    destruct (imap_run (map read_cmd rest) (s1, w1)) as [o2 [s2 w2]]. destruct IH as [out IH]. exists out.
    unfold read_all in *. cbn [foldl]. rewrite Hrun, IH. cbn [cn_events cn_written].
    by rewrite concat_app, app_assoc.
Qed.

(** *** IDLE *)

Definition for_user (uid : Z) (e : MailboxEvent) : bool := let '(MessageAppended i) := e in (i =? uid)%Z.

Lemma list_messages_calm uid w b :
  faults w = [] -> find_box uid INBOX (db w) = Some b -> list_messages uid w = (Ok (metas b (db w)), w).
Proof. apply list_calm. Qed.

Lemma drain_events `{!BroadcastLaws} l : forall c tag rest b,
  cn_phase c = Idling tag rest -> pending (cn_events c) = l -> lagging (cn_events c) = false ->
  faults (cn_store c) = [] -> find_box (im_user_id (cn_session c)) INBOX (db (cn_store c)) = Some b ->
  let line := untagged (show_nat (length (listing b (db (cn_store c)))) ++ #" EXISTS") in
  exists q, pending q = [] /\ lagging q = false /\ capacity q = capacity (cn_events c)
  /\ Nat.iter (length l) on_event c
  = mkImapConn (cn_session c) (cn_store c) (cn_reader c) q (Idling tag rest) (cn_out c)
      (cn_written c ++ concat (map (fun _ => line) (filter (fun e => for_user (im_user_id (cn_session c)) e = true) l))).
Proof.
  induction l as [|[uid] l IH]; intros c tag rest b Hp He Hl Hf Hb line.
  - exists (cn_events c). do 3 (split; [done|]). cbn. rewrite app_nil_r. destruct c; cbn in *. by subst.
  - cbn [length]. rewrite Nat.iter_succ_r. unfold on_event at 2. rewrite Hp.
    pose proof (recv_pending _ Hl) as Hr. rewrite He in Hr. destruct Hr as (q & -> & Hq & Hql & Hqc).
    unfold on_mailbox_event. cbn [cn_session set_events cn_store].
    destruct (uid =? im_user_id (cn_session c))%Z eqn:Eu.
    + rewrite filter_cons_True by done. apply Z.eqb_eq in Eu as ->.
      rewrite (list_messages_calm _ _ _ Hf Hb).
      match goal with |- context [Nat.iter _ _ ?c'] => destruct (IH c' tag rest b) as (q' & ? & ? & ? & ->); try done end.
      exists q'. do 2 (split; [done|]). split; [cbn in *; congruence|].
      cbn. unfold line, metas. by rewrite length_map, <- app_assoc.
    + rewrite filter_cons_False by (cbn; by rewrite Eu).
      destruct (IH (set_events q c) tag rest b) as (q' & ? & ? & ? & ->); try done.
      exists q'. do 2 (split; [done|]). split; [cbn in *; congruence|done].
Qed.

(** ** Properties *)




End facts.
