(* ===== verification/SinkFacts.v ===== *)
(** * Properties of delivery

    What an accepted, refused or postponed delivery leaves in the store. *)

From S2P Require Export Sink ToyStore.

Lemma exists_row_select {R} (p : R -> bool) rows :
  exists_row p rows = match head (select p rows) with Some _ => true | None => false end.
Proof.
  destruct (select p rows) as [|r l] eqn:E; cbn.
  - apply exists_row_false. intros r Hr. destruct (p r) eqn:Ep; [|done].
    assert (Hin : r ∈ select p rows) by (by apply elem_of_select).
    rewrite E in Hin. by apply elem_of_nil in Hin.
  - apply exists_row_true. exists r. apply (elem_of_select p). rewrite E. apply elem_of_cons. by left.
Qed.

Section sink_facts.
Context `{RowIdsLaws} `{Templates}.

(** ** One step at a time, without faults *)

Lemma on_store_eq {A} (m : M A) w r s :
  m (w_store w) = (r, s) -> on_store m w = (r, set_store w s).
Proof. intros Hm. unfold on_store. by rewrite Hm. Qed.

Lemma set_store_same w : set_store w (w_store w) = w.
Proof. by destruct w. Qed.

Definition tick (n : nat) (w : World) : World := mkWorld (w_store w) (w_events w) (w_clock w) (n + w_ticks w).

(** The message a delivery stores: subject and body. *)
Definition rendered (k : StoreDeliverySink) (sender : str) (payload : Payload) (body : str) (now : Z) : str * str :=
  match resolve_template (ss_template_path k) (ss_template_data_dir k) with
  | Err _ => (fallback_subject payload, body)
  | Ok spec =>
      match render_invoice spec sender sender [] (from_utf8_lossy body) (received_at now) with
      | Ok p => p
      | Err _ => (fallback_subject payload, body)
      end
  end.

Lemma render_delivery_eq k sender payload body w :
  exists n, render_delivery k sender payload body w
  = (Ok (rendered k sender payload body (w_clock w (w_ticks w))), tick n w).
Proof.
  unfold render_delivery, rendered. destruct (resolve_template _ _) as [spec|e].
  - exists 1%nat. unfold mbind, st_bind. cbn. by destruct (render_invoice _ _ _ _ _ _) as [[??]|].
  - exists 0%nat. by destruct w.
Qed.

Lemma recipient_user_calm user dom w :
  faults (w_store w) = [] -> user <> [] -> (b_at ∉ user) ->
  recipient_user (user ++ b_at :: dom) w =
  match user_named user (db (w_store w)) with
  | Some u => (Ok (row_to_user u), w)
  | None => (Err (Rejected (#"no such recipient: " ++ user)), w)
  end.
Proof.
  intros Hf Hu Hat. unfold recipient_user. rewrite split_app by done. cbn [head].
  rewrite bool_decide_eq_false_2 by done. unfold try_with.
  rewrite (on_store_eq _ _ _ _ (get_user_calm user _ Hf)), set_store_same.
  unfold user_named. by destruct (head _).
Qed.

(** The trust a sender has. *)
Definition trust_of (uid : Z) (sender : str) (d : Db) : TrustState :=
  if sender ≟ [] then Unverified
  else if exists_row (fun r => keyring_key uid sender r && (k_state r ≟ #"trusted")) (keyring_entries d)
  then Trusted else Unverified.

Lemma keyring_calm uid sender w :
  faults (w_store w) = [] ->
  store_keyring_state uid sender w = (trust_of uid sender (db (w_store w)), w).
Proof.
  intros Hf. unfold store_keyring_state, trust_of, keyring_sender_key. case_bool_decide; [done|].
  rewrite (on_store_eq _ _ _ _ (query_calm _ _ Hf)), set_store_same, exists_row_select.
  by destruct (head _).
Qed.

(** The ledger entry of a delivery. *)
Definition tx_key (mid : str) (r : tx_row) : bool := (t_direction r ≟ #"in") && (t_message_id r ≟ mid).
Definition recorded (sender recipient amount mid : str) (row now1 now2 : Z) (d : Db) : Db :=
  if exists_row (tx_key mid) (transactions d) then d
  else set_transactions d (transactions d ++
    [mkTxRow (next_rowid (map t_id (transactions d))) #"in" #"opaque" sender recipient amount None mid
       (Some row) None #"sealed" now1 now2]).

Lemma recorded_messages sender recipient amount mid row t1 t2 d :
  messages (recorded sender recipient amount mid row t1 t2 d) = messages d.
Proof. unfold recorded. by destruct (exists_row _ _). Qed.
Lemma recorded_find_box sender recipient amount mid row t1 t2 d uid name :
  find_box uid name (recorded sender recipient amount mid row t1 t2 d) = find_box uid name d.
Proof. unfold recorded. by destruct (exists_row _ _). Qed.

Lemma record_calm sender recipient amount mid row w :
  faults (w_store w) = [] ->
  exists n, record_inbound_tx sender recipient amount mid row w
  = (Ok tt, tick n (set_store w (mkStore
      (recorded sender recipient amount mid row (w_clock w (w_ticks w)) (w_clock w (S (w_ticks w))) (db (w_store w)))
      (saved (w_store w)) []))).
Proof.
  intros Hf. unfold record_inbound_tx, recorded. unfold mbind at 1, st_bind at 1, st_ok, on_store_now.
  unfold mbind at 1, st_bind at 1, now_secs at 1. unfold on_store at 1. cbn [w_store].
  unfold tx_create. unfold mbind at 1, st_bind at 1. rewrite exec_calm by done. unfold insert_tx.
  cbn [nt_direction dir_as_str nt_message_id]. fold (tx_key mid).
  destruct (exists_row (tx_key mid) _) eqn:E.
  - exists 1%nat. done.
  - exists 2%nat. cbn [ok mret st_ret tx_id]. unfold ignore, on_store_now, mbind, st_bind, now_secs, on_store.
    cbn [w_store set_store]. unfold tx_link_message, with_tx, execute_n, mbind, st_bind.
    rewrite exec_calm by done. cbn [db saved transactions set_transactions].
    rewrite update_fresh; [done| |apply Z.eqb_refl].
    intros x Hx. apply Z.eqb_neq. intros Heq. apply (next_rowid_fresh (map t_id (transactions (db (w_store w))))).
    rewrite <- Heq. by apply (list_elem_of_fmap_2 t_id).
Qed.

Lemma append_and_broadcast_calm k uid msg mid w :
  faults (w_store w) = [] ->
  append_and_broadcast k uid msg mid w =
  match find_box uid INBOX (db (w_store w)) with
  | None => (Err (RetryLater #"storage error"), tick 1 w)
  | Some b =>
      if exists_row (message_key (mb_id b) (nm_message_id msg)) (messages (db (w_store w)))
      then (Err (Rejected (#"duplicate message id: " ++ mid)), tick 1 w)
      else
        let now := w_clock w (w_ticks w) in
        let w1 := tick 1 (set_store w (mkStore (appended now b msg (db (w_store w))) (saved (w_store w)) [])) in
        (Ok (appended_meta now b msg (db (w_store w))),
         if ss_events k then broadcast (MessageAppended uid) w1 else w1)
  end.
Proof.
  intros Hf. unfold append_and_broadcast. unfold mbind at 1, st_bind at 1, st_map_err, on_store_now.
  unfold mbind at 1, st_bind at 1, now_secs, on_store. cbn [w_store w_clock w_ticks].
  unfold append_message. rewrite append_calm by done.
  destruct (find_box _ _ _) as [b|]; [|by destruct w].
  destruct (exists_row _ _); [by destruct w|]. unfold mbind, st_bind. by destruct (ss_events k).
Qed.

(** A whole delivery without faults. *)
Lemma store_message_calm k u sender recipient amount mid subject body w b :
  faults (w_store w) = [] -> find_box (user_id u) INBOX (db (w_store w)) = Some b ->
  let d := db (w_store w) in
  let msg := mkNewMessage mid subject body 0 sender (trust_as_str (trust_of (user_id u) sender d)) in
  exists n, store_message k u sender recipient amount mid subject body w =
  if exists_row (message_key (mb_id b) mid) (messages d)
  then (Err (Rejected (#"duplicate message id: " ++ mid)), tick n w)
  else
    (Ok tt, tick n (mkWorld
      (mkStore (recorded sender recipient amount mid (next_rowid (map ms_id (messages d)))
         (w_clock w (1 + w_ticks w)) (w_clock w (2 + w_ticks w))
         (appended (w_clock w (w_ticks w)) b msg d)) (saved (w_store w)) [])
      (w_events w ++ (if ss_events k then [MessageAppended (user_id u)] else [])) (w_clock w) (w_ticks w))).
Proof.
  intros Hf Hb d msg. unfold store_message. unfold mbind at 1, st_bind at 1.
  rewrite keyring_calm by done. fold d. fold msg. unfold mbind at 1, st_bind at 1.
  rewrite append_and_broadcast_calm by done. fold d. unfold d at 1. rewrite Hb. cbn [nm_message_id msg].
  destruct (exists_row _ _) eqn:E; [by exists 1%nat|].
  set (w1 := if ss_events k then _ else _).
  assert (Hw1 : w1 = mkWorld (mkStore (appended (w_clock w (w_ticks w)) b msg d) (saved (w_store w)) [])
    (w_events w ++ (if ss_events k then [MessageAppended (user_id u)] else [])) (w_clock w) (1 + w_ticks w)).
  { unfold w1. destruct (ss_events k); [done|]. by rewrite app_nil_r. }
  destruct (record_calm sender recipient amount mid
    (meta_id (appended_meta (w_clock w (w_ticks w)) b msg d)) w1 ltac:(by rewrite Hw1)) as [n Hn].
  exists (n + 1)%nat. rewrite Hn, Hw1. cbn. unfold tick. cbn. f_equal. f_equal. lia.
Qed.

Definition no_dangling (d : Db) : Prop :=
  forall t i, t ∈ transactions d -> t_message_row_id t = Some i -> i ∈ map ms_id (messages d).

Lemma fetch_delivered uid b sender recipient amount mid subject stored trust t1 t2 t3 d sv :
  no_dangling d -> find_box uid INBOX d = Some b ->
  let rid := next_rowid (map ms_id (messages d)) in
  let s := mkStore (recorded sender recipient amount mid rid t2 t3
             (appended t1 b (mkNewMessage mid subject stored 0 sender trust) d)) sv [] in
  fetch_message uid rid s =
  (Ok (mkMessage (mkMeta rid mid (wrap 32 (mb_uidnext b)) (mb_uidvalidity b) (wrap 64 t1) 0 subject
         (wrap 64 (Z.of_nat (length stored))) sender trust
         (if exists_row (tx_key mid) (transactions d) then None else Some #"opaque")
         (if exists_row (tx_key mid) (transactions d) then None else Some (next_rowid (map t_id (transactions d)))))
       stored), s).
Proof.
  intros Hdang Hb rid s. set (msg := mkNewMessage mid subject stored 0 sender trust) in *.
  set (row := mkMessageRow rid (mb_id b) mid (mb_uidnext b) t1 0 subject
     (Z.of_nat (length stored)) stored sender trust).
  assert (Hlinks : select (fun t => t_message_row_id t ≟ Some rid) (transactions d) = []).
  { apply select_none. intros t Ht. apply bool_decide_eq_false. intros Hl. apply (Hdang t rid Ht) in Hl.
    by apply (next_rowid_fresh (map ms_id (messages d))). }
  assert (Hfb : find_box uid INBOX (db s) = Some (bump_uidnext b)).
  { rewrite <- (find_box_appended t1 uid INBOX b msg d Hb). apply recorded_find_box. }
  assert (Hsel : select (fun r => (ms_mailbox_id r =? mb_id (bump_uidnext b))%Z && (ms_id r =? rid)%Z)
    (messages (db s)) = [row]).
  { cbn [s db]. rewrite recorded_messages. apply select_fresh; [|cbn; by rewrite !Z.eqb_refl].
    intros r Hr'. apply andb_false_iff. right. apply Z.eqb_neq. by apply fresh_row. }
  unfold fetch_message. rewrite (fetch_calm uid INBOX rid s (bump_uidnext b) row _ eq_refl Hfb Hsel eq_refl).
  f_equal. cbn [ms_body row ms_id].
  set (ts := select _ (transactions (db s))).
  assert (Hts : ts = if exists_row (tx_key mid) (transactions d) then []
    else [mkTxRow (next_rowid (map t_id (transactions d))) #"in" #"opaque" sender recipient amount None mid
            (Some rid) None #"sealed" t2 t3]).
  { unfold ts, s, recorded. cbn [db]. change (transactions (appended t1 b msg d)) with (transactions d).
    destruct (exists_row (tx_key mid) (transactions d)); cbn [transactions set_transactions]; [done|].
    change (transactions (appended t1 b msg d)) with (transactions d).
    rewrite select_app, Hlinks, select_one by (cbn; apply str_eqb_refl). done. }
  rewrite Hts. by destruct (exists_row _ _).
Qed.

(** A delivery of a new message without faults. *)
Lemma deliver_new k sender mid user dom payload body w u b :
  faults (w_store w) = [] -> user <> [] -> (b_at ∉ user) ->
  user_named user (db (w_store w)) = Some u -> find_box (u_id u) INBOX (db (w_store w)) = Some b ->
  exists_row (message_key (mb_id b) mid) (messages (db (w_store w))) = false ->
  let d := db (w_store w) in
  let '(subject, stored) := rendered k sender payload body (w_clock w (w_ticks w)) in
  exists t1 t2 t3 n, store_deliver k sender mid (user ++ b_at :: dom) payload body w
  = (Accepted mid, mkWorld
      (mkStore (recorded sender (user ++ b_at :: dom) [] mid (next_rowid (map ms_id (messages d))) t2 t3
         (appended t1 b (mkNewMessage mid subject stored 0 sender (trust_as_str (trust_of (u_id u) sender d))) d))
         (saved (w_store w)) [])
      (w_events w ++ (if ss_events k then [MessageAppended (u_id u)] else [])) (w_clock w) n).
Proof.
  intros Hf Hu Hat Hnamed Hb E d. unfold store_deliver, outcome.
  unfold mbind at 1, st_bind at 1. rewrite recipient_user_calm, Hnamed by done.
  destruct (render_delivery_eq k sender payload body w) as [n0 Hr].
  unfold mbind at 1, st_bind at 1. rewrite Hr.
  destruct (rendered k sender payload body (w_clock w (w_ticks w))) as [subject stored].
  cbn [fst snd].
  destruct (store_message_calm k (row_to_user u) sender (user ++ b_at :: dom) [] mid subject stored
    (tick n0 w) b Hf Hb) as [n Hs]. rewrite Hs. clear Hs.
  cbn [w_store tick w_clock w_ticks w_events user_id row_to_user]. rewrite E.
  do 4 eexists. reflexivity.
Qed.

Lemma deliver_duplicate k sender mid user dom payload body w u b :
  faults (w_store w) = [] -> user <> [] -> (b_at ∉ user) ->
  user_named user (db (w_store w)) = Some u -> find_box (u_id u) INBOX (db (w_store w)) = Some b ->
  exists_row (message_key (mb_id b) mid) (messages (db (w_store w))) = true ->
  exists n, store_deliver k sender mid (user ++ b_at :: dom) payload body w
    = (Rejected (#"duplicate message id: " ++ mid), tick n w).
Proof.
  intros Hf Hu Hat Hnamed Hb E. unfold store_deliver, outcome.
  unfold mbind at 1, st_bind at 1. rewrite recipient_user_calm, Hnamed by done.
  destruct (render_delivery_eq k sender payload body w) as [n0 Hr].
  unfold mbind at 1, st_bind at 1. rewrite Hr.
  match goal with |- context [store_message ?a ?b0 ?c ?e ?f ?g ?h ?i ?j] =>
    destruct (store_message_calm a b0 c e f g h i j b Hf Hb) as [n Hs]; rewrite Hs end.
  cbn [w_store tick]. rewrite E. exists (n + n0)%nat. unfold tick. cbn. do 2 f_equal. lia.
Qed.

(** ** With faults *)

(** What a statement that is not about mail leaves alone. *)
Definition mail_frame (d d' : Db) : Prop := messages d' = messages d /\ mailboxes d' = mailboxes d.

Lemma exec_frame {A} (q : stmt A) s r s' :
  (forall d a d', q d = Ok (a, d') -> mail_frame d d') -> exec q s = (r, s') -> mail_frame (db s) (db s').
Proof.
  intros Hq. unfold exec. destruct (faults s) as [|[] fs]; [|by intros [= _ <-]|];
    destruct (q (db s)) as [[a d]|e] eqn:E; intros [= _ <-]; cbn; [by eapply Hq|done..|by eapply Hq|done].
Qed.

Lemma query_db {A} (f : Db -> A) s r s' : query f s = (r, s') -> db s' = db s.
Proof.
  unfold query, exec. destruct (faults s) as [|[] fs]; by intros [= _ <-].
Qed.

Lemma query_Ok {A} (f : Db -> A) s x s' : query f s = (Ok x, s') -> x = f (db s) /\ db s' = db s.
Proof.
  unfold query, exec. destruct (faults s) as [|[] fs]; [|done|]; by intros [= <- <-].
Qed.

Lemma exec_Ok {A} (q : stmt A) s x s' : exec q s = (Ok x, s') -> q (db s) = Ok (x, db s').
Proof.
  unfold exec. destruct (faults s) as [|[] fs]; [|done|];
    destruct (q (db s)) as [[a d]|e]; intros ?; by simplify_eq.
Qed.

(** An append that reports success has stored the message. *)
Lemma append_Ok now uid name msg s meta s' :
  append_message_to now uid name msg s = (Ok meta, s') ->
  exists b r, b ∈ mailboxes (db s') /\ mb_user_id b = uid /\ mb_name b = name
    /\ r ∈ messages (db s') /\ ms_mailbox_id r = mb_id b /\ ms_message_id r = nm_message_id msg
    /\ ms_body r = nm_body msg /\ ms_sender r = nm_sender msg /\ ms_trust_state r = nm_trust_state msg.
Proof.
  unfold append_message_to. intros (box & s1 & Hn & Ha)%st_bind_inv.
  unfold mailbox_named in Hn. apply st_bind_inv in Hn as (o & s2 & [-> Hd2]%query_Ok & Hn).
  destruct (head _) as [b|] eqn:Eb; [|done]. injection Hn as <- <-.
  apply head_select in Eb as [Hb [Hu%Z.eqb_eq Hname%bool_decide_eq_true]%andb_true_iff].
  unfold append_locked in Ha. apply st_bind_inv in Ha as (c & s3 & [-> Hd3]%query_Ok & Ha).
  destruct (0 <? _)%nat; [done|]. apply st_bind_inv in Ha as (id & s4 & Hins%exec_Ok & Ha).
  apply st_bind_inv in Ha as (? & s5 & [Hup _]%execute_Ok & Ha). injection Ha as _ <-.
  unfold insert_message in Hins. destruct (exists_row _ _); [done|]. destruct (negb _); [done|].
  injection Hins as _ Hd4. apply Ok_inj in Hup. rewrite <- Hup, <- Hd4.
  exists (bump_uidnext b). eexists. split.
  { apply elem_of_update_where. exists b. rewrite Z.eqb_refl. split; [|done]. cbn. congruence. }
  split; [done|]. split; [done|]. split; [apply elem_of_app; right; by apply list_elem_of_singleton|]. done.
Qed.

Lemma record_frame sender recipient amount mid row w r w' :
  record_inbound_tx sender recipient amount mid row w = (r, w') ->
  mail_frame (db (w_store w)) (db (w_store w')).
Proof.
  unfold record_inbound_tx, mbind, st_bind, st_ok, on_store_now, ignore, on_store, now_secs, mbind, st_bind.
  cbn [w_store]. destruct (tx_create _ _ _) as [[tx|e] s1] eqn:E1; cbn [ok w_store set_store].
  - assert (H01 : mail_frame (db (w_store w)) (db s1)).
    { unfold tx_create in E1. apply st_bind_inv in E1 as (i & s2 & E1 & E2). injection E2 as _ <-.
      eapply exec_frame; [|exact E1]. intros d a d'. unfold insert_tx. destruct (exists_row _ _); [done|].
      by intros [= _ <-]. }
    destruct (tx_link_message _ _ _ s1) as [r2 s2] eqn:E2. intros [= _ <-]. cbn.
    assert (H12 : mail_frame (db s1) (db s2)).
    { unfold tx_link_message, with_tx, execute_n, mbind, st_bind in E2.
      destruct (exec _ s1) as [r3 s3] eqn:E3. eapply exec_frame in E3; [|by intros d a d' [= _ <-]].
      destruct r3; by injection E2 as _ <-. }
    destruct H01, H12. split; congruence.
  - intros [= _ <-]. cbn. unfold tx_create, mbind, st_bind in E1.
    destruct (exec _ _) as [[?|?] s2] eqn:E2; [done|]. injection E1 as _ <-.
    eapply exec_frame; [|exact E2]. intros d a d'. unfold insert_tx. destruct (exists_row _ _); [done|].
    by intros [= _ <-].
Qed.

Lemma recipient_user_Ok rcpt w u w' :
  recipient_user rcpt w = (Ok u, w') ->
  exists name row, head (split b_at rcpt) = Some name /\ name <> [] /\ row ∈ users (db (w_store w))
    /\ u_username row = name /\ u = row_to_user row /\ db (w_store w') = db (w_store w)
    /\ w_clock w' = w_clock w.
Proof.
  unfold recipient_user. destruct (head (split b_at rcpt)) as [name|]; [|done].
  case_bool_decide as Hne; [done|]. unfold try_with, on_store.
  destruct (get_user name (w_store w)) as [[[user|]|e] s1] eqn:E; [|done|done].
  intros [= <- <-]. unfold get_user in E. apply query_Ok in E as [Ho Hd].
  destruct (head (select _ _)) as [row|] eqn:Eh; [|done]. injection Ho as ->.
  apply head_select in Eh as [Hr Hn%bool_decide_eq_true]. exists name, row. done.
Qed.

(** A delivery that is cut short is not accepted. *)
Lemma cut_short k sender mid recipient payload body w o w' :
  (user ← recipient_user recipient;
   sb ← render_delivery k sender payload body;
   store_message k user sender recipient [] mid (fst sb) (snd sb)) w = (Err o, w') ->
  forall mid', o <> Accepted mid'.
Proof.
  unfold mbind at 1, st_bind at 1. destruct (recipient_user recipient w) as [[u|o1] w1] eqn:E1.
  - unfold mbind at 1, st_bind at 1. destruct (render_delivery_eq k sender payload body w1) as [n ->].
    unfold store_message. unfold mbind at 1, st_bind at 1. destruct (store_keyring_state _ _ _) as [t w2].
    unfold mbind at 1, st_bind at 1.
    match goal with |- context [append_and_broadcast ?a ?b ?c ?d ?e] =>
      destruct (append_and_broadcast a b c d e) as [[m|o2] w3] eqn:E2 end.
    + unfold record_inbound_tx, mbind, st_bind, st_ok, ignore.
      destruct (on_store_now _ w3) as [[tx|e] w4]; cbn; [|done]. by destruct (on_store_now _ w4).
    + intros [= <- <-]. unfold append_and_broadcast, mbind, st_bind, st_map_err in E2.
      destruct (on_store_now _ w2) as [[m|e] w4]; [by destruct (ss_events k)|].
      injection E2 as <- _. by destruct e.
  - intros [= <- <-]. revert E1. unfold recipient_user. destruct (head _) as [name|]; [|by intros [= <- _]].
    case_bool_decide; [by intros [= <- _]|]. unfold try_with.
    destruct (on_store _ w) as [[[?|]|?] ?]; by intros [= <- _].
Qed.

(** The append fails at the counter. *)
Lemma deliver_counter_fails k sender mid user dom payload body d ev clock ticks u b :
  sender <> [] -> user <> [] -> (b_at ∉ user) ->
  user_named user d = Some u -> find_box (u_id u) INBOX d = Some b ->
  exists_row (message_key (mb_id b) mid) (messages d) = false ->
  let w := mkWorld (mkStore d None (replicate 5 false ++ [true])) ev clock ticks in
  exists subject stored now trust n ev',
    store_deliver k sender mid (user ++ b_at :: dom) payload body w
    = (RetryLater #"storage error", mkWorld (mkStore (set_messages d (messages d ++
        [mkMessageRow (next_rowid (map ms_id (messages d))) (mb_id b) mid (mb_uidnext b) now 0 subject
           (Z.of_nat (length stored)) stored sender trust])) None []) ev' clock n).
Proof.
  intros Hs Hu Hat Hnamed Hb E w. unfold user_named in Hnamed.
  unfold store_deliver, outcome. unfold mbind at 1, st_bind at 1.
  unfold recipient_user at 1. rewrite split_app by done. cbn [head].
  rewrite bool_decide_eq_false_2 by done. unfold try_with, on_store at 1.
  cbn [w w_store replicate app]. unfold get_user. rewrite query_pass, Hnamed.
  cbn [fmap option_fmap option_map mret st_ret]. unfold mbind at 1, st_bind at 1.
  match goal with |- context [render_delivery ?a ?b0 ?c ?e ?f] =>
    destruct (render_delivery_eq a b0 c e f) as [n ->] end.
  unfold store_message. unfold mbind at 1, st_bind at 1, store_keyring_state.
  rewrite bool_decide_eq_false_2 by done. unfold on_store at 1, keyring_sender_key.
  cbn [w_store tick set_store]. rewrite query_pass.
  unfold mbind at 1, st_bind at 1, append_and_broadcast. unfold mbind at 1, st_bind at 1.
  unfold st_map_err, on_store_now, mbind at 1, st_bind at 1, now_secs, on_store.
  cbn [w_store set_store]. unfold append_message, append_message_to, mailbox_named.
  unfold mbind at 1 2, st_bind at 1 2. rewrite query_pass. unfold find_box in Hb.
  cbn [user_id row_to_user]. rewrite Hb. cbn [mret st_ret]. unfold append_locked.
  erewrite st_bind_Ok by apply query_pass. cbn [nm_message_id].
  rewrite (proj2 (count_where_0 _ _) E). cbn [Nat.ltb Nat.leb].
  unfold mbind at 1, st_bind at 1. rewrite exec_pass. unfold insert_message. cbn [nm_message_id]. rewrite E.
  apply head_select in Hb as [Hb _].
  assert (Hm : exists_row (fun r => mb_id r =? mb_id b)%Z (mailboxes d) = true)
    by (apply exists_row_true; exists b; split; [done | apply Z.eqb_refl]).
  rewrite Hm. cbn. do 6 eexists. reflexivity.
Qed.

(** ** Properties *)

(** C25: what a delivery stores. For a registered recipient, when nothing fails, a
    message id that is new in the recipient's INBOX is accepted: exactly one message
    is added, which the recipient can fetch with the rendered subject and body, the
    sender as given, the next UID of the mailbox and the trust of the recipient's
    keyring; IDLE sessions are told of it; and if no inbound ledger entry has the
    message id yet, in whatever mailbox, one is added in state opaque and linked. An
    id that is already in the INBOX is refused and the store is left as it was. *)
Theorem delivery_stored k sender mid user dom payload body w u b :
  faults (w_store w) = [] -> wf_db (db (w_store w)) -> no_dangling (db (w_store w)) ->
  user <> [] -> (b_at ∉ user) ->
  user_named user (db (w_store w)) = Some u -> find_box (u_id u) INBOX (db (w_store w)) = Some b ->
  let d := db (w_store w) in
  let '(o, w') := store_deliver k sender mid (user ++ b_at :: dom) payload body w in
  if exists_row (message_key (mb_id b) mid) (messages d)
  then o = Rejected (#"duplicate message id: " ++ mid) /\ w_store w' = w_store w /\ w_events w' = w_events w
  else o = Accepted mid
    /\ w_events w' = w_events w ++ (if ss_events k then [MessageAppended (u_id u)] else [])
    /\ exists row, messages (db (w_store w')) = messages d ++ [row]
    /\ exists t0 t1 txid,
         let '(subject, stored) := rendered k sender payload body t0 in
         fetch_message (u_id u) (ms_id row) (w_store w') =
         (Ok (mkMessage (mkMeta (ms_id row) mid (wrap 32 (mb_uidnext b)) (mb_uidvalidity b) (wrap 64 t1) 0
                           subject (wrap 64 (Z.of_nat (length stored))) sender
                           (trust_as_str (trust_of (u_id u) sender d))
                           (if exists_row (tx_key mid) (transactions d) then None else Some #"opaque") txid)
                stored), w_store w').
Proof.
  intros Hf Hwf Hdang Hu Hat Hnamed Hb d.
  destruct (exists_row (message_key (mb_id b) mid) (messages d)) eqn:E.
  - destruct (deliver_duplicate k sender mid user dom payload body w u b Hf Hu Hat Hnamed Hb E) as [n ->]. done.
  - pose proof (deliver_new k sender mid user dom payload body w u b Hf Hu Hat Hnamed Hb E) as Hx.
    destruct (rendered k sender payload body (w_clock w (w_ticks w))) as [subject stored] eqn:Er.
    destruct Hx as (t1 & t2 & t3 & n & ->). split; [done|]. split; [done|].
    cbn [w_store db]. eexists. split; [rewrite recorded_messages; reflexivity|].
    exists (w_clock w (w_ticks w)). do 2 eexists. rewrite Er.
    exact (fetch_delivered (u_id u) b sender (user ++ b_at :: dom) [] mid subject stored _ t1 t2 t3 d _ Hdang Hb).
Qed.

(** C5: no acknowledged mail is lost. Whatever statements fail, when a delivery is
    accepted the recipient is a registered user and a message with the given id, the
    given sender and the rendered body is in a mailbox of that user called INBOX. *)
Theorem accepted_is_stored k sender mid mid' recipient payload body w w' :
  store_deliver k sender mid recipient payload body w = (Accepted mid', w') ->
  exists u b r now, u ∈ users (db (w_store w)) /\ head (split b_at recipient) = Some (u_username u)
    /\ b ∈ mailboxes (db (w_store w')) /\ mb_user_id b = u_id u /\ mb_name b = INBOX
    /\ r ∈ messages (db (w_store w')) /\ ms_mailbox_id r = mb_id b /\ ms_message_id r = mid
    /\ mid' = mid /\ ms_sender r = sender /\ ms_body r = snd (rendered k sender payload body now).
Proof.
  unfold store_deliver, outcome. match goal with |- (let '(_, _) := ?m w in _) = _ -> _ =>
    destruct (m w) as [[[]|o] w1] eqn:E end; intros [= Ho <-]; [|destruct (cut_short _ _ _ _ _ _ _ _ _ E mid' Ho)].
  apply st_bind_inv in E as (u & w2 & (name & row & Hname & _ & Hrow & Hun & -> & Hd2 & Hc2)%recipient_user_Ok & E).
  apply st_bind_inv in E as (sb & w3 & Hr & E).
  destruct (render_delivery_eq k sender payload body w2) as [n Hn]. rewrite Hn in Hr. injection Hr as <- <-.
  unfold store_message in E. apply st_bind_inv in E as (tr & w4 & Ht & E).
  apply st_bind_inv in E as (meta & w5 & Ha & E). apply record_frame in E as [Hm Hb].
  unfold append_and_broadcast in Ha. apply st_bind_inv in Ha as (meta' & w6 & Ha & Hbc).
  unfold st_map_err, on_store_now, mbind, st_bind, now_secs, on_store in Ha. cbn [w_store] in Ha.
  destruct (append_message _ _ _ _) as [[m|e] s6] eqn:Ea; [|done]. injection Ha as <- <-.
  apply append_Ok in Ea as (b & r & Hbin & Hbu & Hbn & Hrin & Hrb & Hrm & Hrbody & Hrs & _).
  assert (Hs5 : w_store w5 = s6).
  { unfold mbind, st_bind in Hbc. destruct (ss_events k); by injection Hbc as _ <-. }
  exists row, b, r, (w_clock w2 (w_ticks w2)). rewrite Hm, Hb, Hs5, Hun.
  repeat split; done.
Qed.

(** A postponed delivery may be stored, and its retry bounces. When only the last
    statement of the append fails, the sender is told to retry although the message
    is in the recipient's INBOX; the retry is then refused for good as a duplicate. *)
Theorem retried_delivery_bounces k sender mid user dom payload body d ev clock ticks u b :
  sender <> [] -> user <> [] -> (b_at ∉ user) ->
  user_named user d = Some u -> find_box (u_id u) INBOX d = Some b ->
  exists_row (message_key (mb_id b) mid) (messages d) = false ->
  let w := mkWorld (mkStore d None (replicate 5 false ++ [true])) ev clock ticks in
  exists w1 w2 r,
    store_deliver k sender mid (user ++ b_at :: dom) payload body w = (RetryLater #"storage error", w1)
    /\ r ∈ messages (db (w_store w1)) /\ ms_message_id r = mid /\ ms_mailbox_id r = mb_id b
    /\ store_deliver k sender mid (user ++ b_at :: dom) payload body w1
       = (Rejected (#"duplicate message id: " ++ mid), w2)
    /\ w_store w2 = w_store w1.
Proof.
  intros Hs Hu Hat Hnamed Hb E w.
  destruct (deliver_counter_fails k sender mid user dom payload body d ev clock ticks u b Hs Hu Hat Hnamed Hb E)
    as (subject & stored & now & trust & n & ev' & Hx).
  match type of Hx with _ = (_, ?w1) =>
    destruct (deliver_duplicate k sender mid user dom payload body w1 u b eq_refl Hu Hat Hnamed Hb) as [n' Hn'];
    [|exists w1, (tick n' w1)] end.
  - apply exists_row_true. eexists. split; [apply elem_of_app; right; by apply list_elem_of_singleton|].
    unfold message_key. cbn. by rewrite Z.eqb_refl, str_eqb_refl.
  - eexists. split; [exact Hx|]. cbn [w_store db].
    split; [apply elem_of_app; right; by apply list_elem_of_singleton|]. done.
Qed.

End sink_facts.

(** ** A concrete delivery *)

Module ToyDelivery.
Import ToyStore.

#[export] Instance toy_templates : Templates := {|
  read_to_string := fun _ => FileMissing;
  toml_specs := fun _ => Ok [];
  one_off := fun t _ => Ok t;
  rfc3339 := show_Z |}.

Definition k0 : StoreDeliverySink := with_events sink_new.
Definition w0 : World := mkWorld store0 [] (fun n => 3000 + Z.of_nat n)%Z 0.
Definition alice_row : user_row := mkUserRow 1 alice #"h1" #"k1" 1000 None None.

Lemma delivery_stored_witness :
  store_deliver k0 #"bob@b.org" #"id1" #"alice@a.org" Sealed #"blob" w0
  = (Accepted #"id1", snd (store_deliver k0 #"bob@b.org" #"id1" #"alice@a.org" Sealed #"blob" w0)).
Proof.
  pose proof (delivery_stored k0 #"bob@b.org" #"id1" alice #"a.org" Sealed #"blob" w0 alice_row box1) as Hx.
  change (alice ++ b_at :: #"a.org") with (#"alice@a.org") in Hx.
  destruct (store_deliver k0 #"bob@b.org" #"id1" #"alice@a.org" Sealed #"blob" w0) as [o w'].
  assert (Hn : exists_row (message_key (mb_id box1) #"id1") (messages (db (w_store w0))) = false) by (by vm_compute).
  cbn zeta in Hx. rewrite Hn in Hx.
  destruct Hx as [-> _]; [by vm_compute | exact (proj1 store0_inv) | | done | by apply not_in_lit |
    by vm_compute | by vm_compute | done].
  intros t i Ht. apply list_elem_of_singleton in Ht. subst t. discriminate.
Defined.

Lemma accepted_is_stored_witness :
  exists u b r now, u ∈ users (db (w_store w0)) /\ head (split b_at #"alice@a.org") = Some (u_username u)
    /\ b ∈ mailboxes (db (w_store (snd (store_deliver k0 #"bob@b.org" #"id1" #"alice@a.org" Sealed #"blob" w0))))
    /\ mb_user_id b = u_id u /\ mb_name b = INBOX
    /\ r ∈ messages (db (w_store (snd (store_deliver k0 #"bob@b.org" #"id1" #"alice@a.org" Sealed #"blob" w0))))
    /\ ms_mailbox_id r = mb_id b /\ ms_message_id r = #"id1"
    /\ #"id1" = #"id1" /\ ms_sender r = #"bob@b.org"
    /\ ms_body r = snd (rendered k0 #"bob@b.org" Sealed #"blob" now).
Proof. apply accepted_is_stored. by vm_compute. Defined.

Lemma retried_delivery_bounces_witness :
  exists w1 w2 r,
    store_deliver k0 #"bob@b.org" #"id1" (alice ++ b_at :: #"a.org") Sealed #"blob"
      (mkWorld (mkStore (db store0) None (replicate 5 false ++ [true])) [] (fun _ => 5%Z) 0)
    = (RetryLater #"storage error", w1)
    /\ r ∈ messages (db (w_store w1)) /\ ms_message_id r = #"id1" /\ ms_mailbox_id r = mb_id box1
    /\ store_deliver k0 #"bob@b.org" #"id1" (alice ++ b_at :: #"a.org") Sealed #"blob" w1
       = (Rejected (#"duplicate message id: " ++ #"id1"), w2)
    /\ w_store w2 = w_store w1.
Proof.
  apply (retried_delivery_bounces k0 #"bob@b.org" #"id1" alice #"a.org" Sealed #"blob" (db store0) []
    (fun _ => 5%Z) 0 alice_row box1); [done | done | by apply not_in_lit | by vm_compute.. ].
Defined.

End ToyDelivery.
