(* ===== verification/SecureMailbox.v ===== *)
(** * The local control channel ([talk-protocol/src/mailbox.rs], [emulate.rs])

    A line protocol between a local client and the daemon: [serve] reads commands
    and calls a handler, a record of operations on a world; the client writes the
    commands and reads the replies. *)

From S2P Require Export Attestation Client.

Record EmulatePayload := mkEmulate {
  ep_sender_name : str; ep_sender_address : str; ep_amount : str; ep_invoice : str
}.

Inductive SendResult := SendOk (text : str) | SendError (text : str).
Inductive AttestResult := AttestOk (blob : str) | AttestError (text : str).
Inductive RegisterResult := RegisterOk | RegisterError (text : str).
Inductive EmulateResult := EmulateOk (text : str) | EmulateError (text : str).

(** [trait AsyncSecureMailboxHandler]. *)
Record SecureMailboxHandler (W : Type) := mkHandler {
  h_send : str -> str -> str -> Payload -> str -> W -> SendResult * W;
  h_attest : str -> AttestationMode -> W -> AttestResult * W;
  h_register : str -> str -> str -> option str -> W -> RegisterResult * W;
  h_status : W -> str;
  h_emulate : str -> EmulatePayload -> W -> EmulateResult * W;
}.
Arguments h_send {W}. Arguments h_attest {W}. Arguments h_register {W}.
Arguments h_status {W}. Arguments h_emulate {W}.

(** [EmulatePayload::to_json] and [from_json]. *)
Definition ep_to_json `{Json EmulatePayload} (p : EmulatePayload) : str := to_json p.
Definition ep_from_json `{Json EmulatePayload} (s : str) : option EmulatePayload := from_json s.

Section serve.
Context `{Json EmulatePayload} {W : Type}.
Variable handler : SecureMailboxHandler W.

(** What the server holds while it answers one command. *)
Abbreviation srv A := (st (W * conn) FramingError A).
Definition io_of {A} (m : io A) : srv A := fun '(w, c) => let '(r, c') := m c in (r, (w, c')).
Definition call_of {A} (f : W -> A * W) : srv A := fun '(w, c) => let '(a, w') := f w in (Ok a, (w', c)).
Definition say (line : str) : srv unit := io_of (write_line line).
(** [match read_blob(..).await { Ok(b) => b, Err(_) => .. }]. *)
Definition try_blob : srv (option str) := fun '(w, c) => let '(r, c') := read_blob c in (Ok (ok r), (w, c')).

(** [parts.next().unwrap_or("")] and [parts.next()]. *)
Definition part (n : nat) (parts : list str) : str := default [] (nth_error parts n).

Definition send_payload (p : option str) : option Payload :=
  match p with
  | Some s => if s ≟ #"sealed" then Some Sealed else if s ≟ #"plaintext" then Some Plaintext else None
  | None => None
  end.
Definition attest_mode (p : option str) : option AttestationMode :=
  match p with
  | Some s => if s ≟ #"ephemeral" then Some Ephemeral else if s ≟ #"attested" then Some Attested else None
  | None => None
  end.

Definition serve_send (parts : list str) : srv unit :=
  match send_payload (nth_error parts 4) with
  | None => say #"ERR malformed SEND"
  | Some payload =>
      body ← try_blob;
      match body with
      | None => say #"ERR missing SEND blob"
      | Some body =>
          r ← call_of (h_send handler (part 1 parts) (part 2 parts) (part 3 parts) payload body);
          match r with
          | SendOk text => say (#"OK " ++ text)
          | SendError text => say (#"ERR " ++ text)
          end
      end
  end.

Definition serve_register (parts : list str) : srv unit :=
  if (part 1 parts ≟ []) || (part 2 parts ≟ []) || (part 3 parts ≟ [])
  then say #"ERR REGISTER requires username, password, and pubkey"
  else
    r ← call_of (h_register handler (part 1 parts) (part 2 parts) (part 3 parts) (nth_error parts 4));
    match r with
    | RegisterOk => say #"OK registered"
    | RegisterError text => say (#"ERR " ++ text)
    end.

Definition serve_attest (parts : list str) : srv unit :=
  match attest_mode (nth_error parts 2) with
  | None => say #"ERR malformed ATTEST"
  | Some mode =>
      r ← call_of (h_attest handler (part 1 parts) mode);
      match r with
      | AttestOk blob => _ ← say #"OK attestation"; io_of (write_blob blob)
      | AttestError text => say (#"ERR " ++ text)
      end
  end.

Definition serve_emulate (parts : list str) : srv unit :=
  if part 1 parts ≟ [] then say #"ERR EMULATE requires a recipient user"
  else
    blob ← try_blob;
    match blob with
    | None => say #"ERR missing EMULATE blob"
    | Some blob =>
        match ep_from_json (from_utf8_lossy blob) with
        | None => say #"ERR malformed EMULATE payload"
        | Some payload =>
            r ← call_of (h_emulate handler (part 1 parts) payload);
            match r with
            | EmulateOk text => say (#"OK " ++ text)
            | EmulateError text => say (#"ERR " ++ text)
            end
        end
    end.

(** One command: [true] when the session is over. *)
Definition serve_line (line : str) : srv bool :=
  let parts := splitn 5 b_sp line in
  let verb := to_ascii_uppercase (part 0 parts) in
  if verb ≟ #"SEND" then _ ← serve_send parts; mret false
  else if verb ≟ #"REGISTER" then _ ← serve_register parts; mret false
  else if verb ≟ #"ATTEST" then _ ← serve_attest parts; mret false
  else if verb ≟ #"EMULATE" then _ ← serve_emulate parts; mret false
  else if verb ≟ #"STATUS" then
    s ← call_of (fun w => (h_status handler w, w)); _ ← say (#"OK " ++ s); mret false
  else if verb ≟ #"QUIT" then _ ← say #"OK bye"; mret true
  else _ ← say #"ERR unknown command"; mret false.

(** One turn of the loop: [None] continues, [Some r] returns [r]. *)
Definition serve_step (w : W) (c : conn) : option (result FramingError unit) * W * conn :=
  match read_line c with
  | (Err _, c) => (Some (Ok tt), w, c)
  | (Ok line, c) =>
      match serve_line line (w, c) with
      | (Err e, (w, c)) => (Some (Err e), w, c)
      | (Ok true, (w, c)) => (Some (Ok tt), w, c)
      | (Ok false, (w, c)) => (None, w, c)
      end
  end.

Fixpoint serve_loop (fuel : nat) (w : W) (c : conn) : option (result FramingError unit * W * conn) :=
  match fuel with
  | O => None
  | S f =>
      match serve_step w c with
      | (Some r, w, c) => Some (r, w, c)
      | (None, w, c) => serve_loop f w c
      end
  end.
(** Every turn takes a byte. *)
Definition serve (w : W) (c : conn) : option (result FramingError unit * W * conn) :=
  serve_loop (S (length (rx c))) w c.

End serve.

(** ** [SecureMailboxClient] *)

Section mailbox_client.
Context `{Json EmulatePayload}.

Definition mc_send (sender recipient message_id : str) (payload : Payload) (body : str) : io str :=
  _ ← write_line (#"SEND " ++ sender ++ #" " ++ recipient ++ #" " ++ message_id ++ #" " ++ payload_str payload);
  _ ← write_blob body;
  read_line.

Definition mc_status : io str := _ ← write_line #"STATUS"; read_line.

Definition mc_register (username password pubkey_hex : str) (ivk_hex : option str) : io str :=
  let ivk := match ivk_hex with Some s => #" " ++ s | None => [] end in
  _ ← write_line (#"REGISTER " ++ username ++ #" " ++ password ++ #" " ++ pubkey_hex ++ ivk);
  read_line.

Definition mc_quit : io str := _ ← write_line #"QUIT"; read_line.

Definition mc_emulate (recipient_user sender_name sender_address amount invoice : str) : io str :=
  let payload := mkEmulate sender_name sender_address amount invoice in
  _ ← write_line (#"EMULATE " ++ recipient_user);
  _ ← write_blob (ep_to_json payload);
  read_line.

(** The server's [ERR] line and a framing error both end in an error text. *)
Inductive AttestFailure := ServerLine (line : str) | AttestFraming (e : FramingError).
Definition mc_attest (user : str) (mode : AttestationMode) : st conn AttestFailure str :=
  let mode := match mode with Ephemeral => #"ephemeral" | Attested => #"attested" end in
  _ ← st_map_err AttestFraming (write_line (#"ATTEST " ++ user ++ #" " ++ mode));
  line ← st_map_err AttestFraming read_line;
  if negb (starts_with #"OK " line) then raise (ServerLine line)
  else st_map_err AttestFraming read_blob.

End mailbox_client.
