(* ===== verification/SecureMailboxFacts.v ===== *)
(** * Properties of the control channel

    The session always ends, and over well-formed calls client and server
    understand each other: the handler gets the arguments the client was given and
    the client gets the handler's reply. *)

From S2P Require Export SecureMailbox.

Section facts.
Context `{Json EmulatePayload} {W : Type}.
Variable handler : SecureMailboxHandler W.

(** ** Termination *)

(** A command does not put bytes back on the input. *)
Definition shrinks {A} (m : st (W * conn) FramingError A) : Prop :=
  forall w c r w' c', m (w, c) = (r, (w', c')) -> (length (rx c') <= length (rx c))%nat.

Lemma shrinks_bind {A B} (m : st (W * conn) FramingError A) (f : A -> st (W * conn) FramingError B) :
  shrinks m -> (forall x, shrinks (f x)) -> shrinks (m ≫= f).
Proof.
  intros Hm Hf w c r w' c'. unfold mbind, st_bind. destruct (m (w, c)) as [[x|e] [w1 c1]] eqn:E.
  - intros Hr. apply Hf in Hr. apply Hm in E. lia.
  - intros [= _ _ <-]. by apply Hm in E.
Qed.
Lemma shrinks_ret {A} (x : A) : shrinks (mret x).
Proof. by intros w c r w' c' [= _ _ <-]. Qed.
Lemma shrinks_say l : shrinks (say (W := W) l).
Proof.
  intros w c r w' c'. unfold say, io_of. destruct (write_line l c) as [r1 c1] eqn:E.
  intros [= _ _ <-]. by apply write_line_rx in E as ->.
Qed.
Lemma shrinks_call {A} (f : W -> A * W) : shrinks (call_of f).
Proof. intros w c r w' c'. unfold call_of. destruct (f w). by intros [= _ _ <-]. Qed.
Lemma shrinks_try_blob : shrinks (try_blob (W := W)).
Proof.
  intros w c r w' c'. unfold try_blob. destruct (read_blob c) as [r1 c1] eqn:E.
  intros [= _ _ <-]. by apply read_blob_mono in E as [_ ?].
Qed.
Lemma shrinks_write_blob b : shrinks (io_of (W := W) (write_blob b)).
Proof.
  intros w c r w' c'. unfold io_of. destruct (write_blob b c) as [r1 c1] eqn:E.
  intros [= _ _ <-]. by apply write_blob_rx in E as ->.
Qed.

Hint Resolve shrinks_bind shrinks_ret shrinks_say shrinks_call shrinks_try_blob shrinks_write_blob : talk.

Lemma shrinks_serve_line line : shrinks (serve_line handler line).
Proof.
  unfold serve_line, serve_send, serve_register, serve_attest, serve_emulate.
  repeat first [ apply shrinks_bind; [|intros ?] | case_match ]; auto with talk.
Qed.

Lemma serve_step_consumes w c w' c' :
  serve_step handler w c = (None, w', c') -> (length (rx c') < length (rx c))%nat.
Proof.
  unfold serve_step. destruct (read_line c) as [[line|e] c1] eqn:El; [|done].
  assert (Hlt : (length (rx c1) < length (rx c))%nat).
  { apply read_line_shrinks in El as Hs. destruct Hs as (_ & _ & Hs). apply Hs. intros Hnil.
    destruct c as [r t]. cbn in Hnil. subst r. by rewrite read_line_eof in El. }
  destruct (serve_line handler line (w, c1)) as [[[]|e] [w2 c2]] eqn:E; [done| |done].
  intros [= <- <-]. apply shrinks_serve_line in E. lia.
Qed.

Lemma serve_loop_total fuel w c :
  (length (rx c) < fuel)%nat -> is_Some (serve_loop handler fuel w c).
Proof.
  revert w c. induction fuel as [|f IH]; intros w c Hf; [lia|]. cbn.
  destruct (serve_step handler w c) as [[[r|] w1] c1] eqn:E; [by eauto|].
  apply serve_step_consumes in E. apply IH. lia.
Qed.

Lemma serve_loop_fuel fuel fuel' w c x :
  serve_loop handler fuel w c = Some x -> (fuel <= fuel')%nat -> serve_loop handler fuel' w c = Some x.
Proof.
  revert fuel' w c. induction fuel as [|f IH]; intros [|f'] w c; cbn; try done; [lia|].
  intros Hr Hle. destruct (serve_step handler w c) as [[[r|] w1] c1]; [done|]. apply IH; [done|lia].
Qed.

End facts.

(** ** Calls

    A call as the client makes it, what it puts on the wire, and what the handler
    makes of it: the reply line, the blob after it if there is one, and the world. *)

Inductive Call :=
  | CallSend (sender recipient message_id : str) (payload : Payload) (body : str)
  | CallRegister (username password pubkey : str) (ivk : option str)
  | CallAttest (user : str) (mode : AttestationMode)
  | CallEmulate (user : str) (payload : EmulatePayload)
  | CallStatus.

Section calls.
Context (ep_wf : EmulatePayload -> Prop) `{JsonLaws EmulatePayload ep_wf} {W : Type}.
Variable handler : SecureMailboxHandler W.

Definition spaced (l : list str) : str := join #" " l.

Definition call_line (c : Call) : str :=
  match c with
  | CallSend s r m p _ => spaced [ #"SEND"; s; r; m; payload_str p]
  | CallRegister u p k ivk => spaced ([ #"REGISTER"; u; p; k] ++ match ivk with Some i => [i] | None => [] end)
  | CallAttest u m => spaced [ #"ATTEST"; u; match m with Ephemeral => #"ephemeral" | Attested => #"attested" end]
  | CallEmulate u _ => spaced [ #"EMULATE"; u]
  | CallStatus => #"STATUS"
  end.
Definition call_blob (c : Call) : option str :=
  match c with
  | CallSend _ _ _ _ b => Some b
  | CallEmulate _ p => Some (ep_to_json p)
  | _ => None
  end.
Definition wire (c : Call) : str :=
  line_bytes (call_line c) ++ match call_blob c with Some b => blob_bytes b | None => [] end.

Definition effect (c : Call) (w : W) : str * option str * W :=
  match c with
  | CallSend s r m p b =>
      let '(x, w) := h_send handler s r m p b w in
      (match x with SendOk t => #"OK " ++ t | SendError t => #"ERR " ++ t end, None, w)
  | CallRegister u p k ivk =>
      let '(x, w) := h_register handler u p k ivk w in
      (match x with RegisterOk => #"OK registered" | RegisterError t => #"ERR " ++ t end, None, w)
  | CallAttest u m =>
      let '(x, w) := h_attest handler u m w in
      match x with
      | AttestOk b => (#"OK attestation", Some b, w)
      | AttestError t => (#"ERR " ++ t, None, w)
      end
  | CallEmulate u p =>
      let '(x, w) := h_emulate handler u p w in
      (match x with EmulateOk t => #"OK " ++ t | EmulateError t => #"ERR " ++ t end, None, w)
  | CallStatus => (#"OK " ++ h_status handler w, None, w)
  end.
Definition reply_bytes (line : str) (blob : option str) : str :=
  line_bytes line ++ match blob with Some b => blob_bytes b | None => [] end.

Definition blob_ok (b : option str) : Prop := match b with Some b => (zlength b <= MAX_BLOB)%Z | None => True end.

(** The calls the line syntax can carry: fields without blanks, and none empty
    where the server wants one. *)
Definition call_ok (c : Call) : Prop :=
  sendable (call_line c) = true /\ blob_ok (call_blob c) /\
  match c with
  | CallSend s r m _ _ => (b_sp ∉ s) /\ (b_sp ∉ r) /\ (b_sp ∉ m)
  | CallRegister u p k _ => u <> [] /\ p <> [] /\ k <> [] /\ (b_sp ∉ u) /\ (b_sp ∉ p) /\ (b_sp ∉ k)
  | CallAttest u _ => (b_sp ∉ u)
  | CallEmulate u p => u <> [] /\ (b_sp ∉ u) /\ ep_wf p
  | CallStatus => True
  end.

Definition reply_ok (c : Call) (w : W) : Prop :=
  let '(line, blob, _) := effect c w in sendable line = true /\ blob_ok blob.

Lemma say_ok line (w : W) c :
  sendable line = true -> say line (w, c) = (Ok tt, (w, mkConn (rx c) (tx c ++ line_bytes line))).
Proof.
  intros Hl. unfold say, io_of. destruct c as [r t]. rewrite write_line_ok; [done|].
  apply sendable_iff in Hl as (Hl & _). lia.
Qed.

Lemma try_blob_ok b rest (w : W) t :
  (zlength b <= MAX_BLOB)%Z -> try_blob (w, mkConn (blob_bytes b ++ rest) t) = (Ok (Some b), (w, mkConn rest t)).
Proof. intros Hb. unfold try_blob. by rewrite read_blob_bytes. Qed.

Lemma splitn_spaced n l x :
  Forall (fun y => b_sp ∉ y) l -> (length l < n)%nat -> (b_sp ∉ x \/ S (length l) = n) ->
  splitn n b_sp (spaced (l ++ [x])) = l ++ [x].
Proof.
  revert n. induction l as [|y l IH]; intros n Hl Hn Hx.
  - destruct n as [|[|n]]; [lia|done|]. cbn in Hx. destruct Hx as [Hx|Hx]; [|lia].
    cbn [app spaced join splitn]. by rewrite split_once_None.
  - apply Forall_cons in Hl as [Hy Hl]. destruct n as [|[|n]]; [cbn in Hn; lia..|].
    assert (Hs : spaced ((y :: l) ++ [x]) = y ++ b_sp :: spaced (l ++ [x])).
    { unfold spaced. cbn [app join]. by destruct (l ++ [x]) eqn:E; [by destruct l|]. }
    rewrite Hs. change (splitn (S (S n)) b_sp ?z) with
      (match split_once b_sp z with Some (a, b) => a :: splitn (S n) b_sp b | None => [z] end).
    rewrite split_once_app by done. rewrite IH; [done|done|cbn in Hn; lia|].
    destruct Hx as [?|Hx]; [by left|right]. cbn in Hx. lia.
Qed.

Ltac destruct_mode := match goal with m : AttestationMode |- _ => destruct m end.
(** The fields of a line of the given leading fields and one more. *)
Ltac split_parts l :=
  match goal with |- context [splitn 5 b_sp (spaced ?x)] =>
    let y := eval cbn in (List.last x []) in
    change (spaced x) with (spaced (l ++ [y]));
    rewrite (splitn_spaced 5 l y);
      [| repeat apply Forall_cons_2; first [by apply Forall_nil_2 | done | by apply not_in_lit] | cbn; lia
       | first [by right | by left | left; destruct_mode; by apply not_in_lit]]
  end.

Lemma serve_line_call c w rest t :
  call_ok c -> reply_ok c w ->
  serve_line handler (call_line c) (w, mkConn (match call_blob c with Some b => blob_bytes b | None => [] end ++ rest) t)
  = let '(line, blob, w') := effect c w in (Ok false, (w', mkConn rest (t ++ reply_bytes line blob))).
Proof.
  intros (Hl & Hb & Hc) Hr. unfold reply_ok in Hr. unfold serve_line, reply_bytes.
  destruct c as [sd rc m p b|u p k ivk|u m|u p|]; cbn [call_line call_blob effect] in *.
  - destruct Hc as (H1 & H2 & H3).
    split_parts [ #"SEND"; sd; rc; m].
    cbn [app]. decide_lits. unfold serve_send, part. cbn [nth_error default from_option id]. unfold mbind at 1, st_bind at 1.
    assert (Hp : send_payload (Some (payload_str p)) = Some p) by (by destruct p). rewrite Hp.
    erewrite st_bind_Ok by (by apply try_blob_ok). unfold mbind, st_bind, call_of.
    destruct (h_send handler sd rc m p b w) as [[x|x] w1]; cbv beta iota in Hr |- *; destruct Hr as [Hr _]; rewrite say_ok by done; cbn; by rewrite app_nil_r.
  - destruct Hc as (Hu & Hp & Hk & H1 & H2 & H3).
    assert (Hs : exists parts, splitn 5 b_sp (spaced ([ #"REGISTER"; u; p; k] ++ match ivk with Some i => [i] | None => [] end)) = parts
      /\ part 0 parts = #"REGISTER" /\ part 1 parts = u /\ part 2 parts = p /\ part 3 parts = k /\ nth_error parts 4 = ivk).
    { destruct ivk as [i|].
      - split_parts [ #"REGISTER"; u; p; k]. eauto 10.
      - rewrite app_nil_r. split_parts [ #"REGISTER"; u; p]. eauto 10. }
    destruct Hs as (parts & -> & Hp0 & Hp1 & Hp2 & Hp3 & Hp4). rewrite Hp0. decide_lits.
    unfold serve_register. rewrite Hp1, Hp2, Hp3, Hp4, !bool_decide_eq_false_2 by done. cbn [orb app].
    unfold mbind, st_bind, call_of.
    destruct (h_register handler u p k ivk w) as [[|x] w1]; cbv beta iota in Hr |- *; destruct Hr as [Hr _]; rewrite say_ok by done; cbn; by rewrite app_nil_r.
  - split_parts [ #"ATTEST"; u].
    cbn [app]. decide_lits. unfold serve_attest, part. cbn [nth_error default from_option id].
    assert (Hm : attest_mode (Some match m with Ephemeral => #"ephemeral" | Attested => #"attested" end) = Some m) by (by destruct m).
    rewrite Hm. unfold mbind, st_bind, call_of.
    destruct (h_attest handler u m w) as [[x|x] w1]; cbv beta iota in Hr |- *; destruct Hr as [Hr Hr2]; rewrite say_ok by done; cbn.
    + unfold io_of. rewrite write_blob_ok by done. cbn. by rewrite <- app_assoc.
    + by rewrite app_nil_r.
  - destruct Hc as (Hu & H1 & Hwf).
    split_parts [ #"EMULATE"].
    cbn [app]. decide_lits. unfold serve_emulate, part. cbn [nth_error default from_option id].
    rewrite bool_decide_eq_false_2 by done. unfold mbind at 1, st_bind at 1.
    erewrite st_bind_Ok by (by apply try_blob_ok).
    cbv beta iota. unfold ep_from_json, ep_to_json. rewrite from_utf8_lossy_valid by (by apply (json_utf8 (json_wf := ep_wf))).
    rewrite (json_roundtrip (json_wf := ep_wf)) by done. unfold mbind, st_bind, call_of.
    destruct (h_emulate handler u p w) as [[x|x] w1]; cbv beta iota in Hr |- *; destruct Hr as [Hr _]; rewrite say_ok by done; cbn; by rewrite app_nil_r.
  - change (splitn 5 b_sp #"STATUS") with [ #"STATUS"]. unfold part. cbn [nth_error default from_option id app]. decide_lits.
    destruct Hr as [Hr _]. unfold mbind, st_bind, call_of. rewrite say_ok by done. cbn. by rewrite app_nil_r.
Qed.

Lemma serve_step_call c w rest t :
  call_ok c -> reply_ok c w ->
  serve_step handler w (mkConn (wire c ++ rest) t)
  = let '(line, blob, w') := effect c w in (None, w', mkConn rest (t ++ reply_bytes line blob)).
Proof.
  intros Hc Hr. unfold serve_step, wire. rewrite <- app_assoc, read_line_bytes by apply Hc.
  rewrite serve_line_call by done. by destruct (effect c w) as [[line blob] w'].
Qed.

(** A sequence of calls. *)
Fixpoint effects (cs : list Call) (w : W) : str * W :=
  match cs with
  | [] => ([], w)
  | c :: r =>
      let '(line, blob, w1) := effect c w in
      let '(out, w2) := effects r w1 in (reply_bytes line blob ++ out, w2)
  end.
Fixpoint calls_ok (cs : list Call) (w : W) : Prop :=
  match cs with
  | [] => True
  | c :: r => call_ok c /\ reply_ok c w /\ calls_ok r (snd (effect c w))
  end.

Lemma wire_length c : (0 < length (wire c))%nat.
Proof. unfold wire, line_bytes. rewrite !length_app. cbn. lia. Qed.

Lemma serve_loop_calls cs w t fuel rest :
  calls_ok cs w ->
  serve_loop handler (length cs + fuel) w (mkConn (concat (map wire cs) ++ rest) t)
  = serve_loop handler fuel (snd (effects cs w)) (mkConn rest (t ++ fst (effects cs w))).
Proof.
  revert w t. induction cs as [|c cs IH]; intros w t Hok; cbn; [by rewrite app_nil_r|].
  destruct Hok as (Hc & Hr & Hok). rewrite <- app_assoc, serve_step_call by done.
  destruct (effect c w) as [[line blob] w1]. cbn in Hok. rewrite IH by done.
  destruct (effects cs w1) as [out w2]. cbn. by rewrite app_assoc.
Qed.

Lemma serve_quit w t fuel :
  serve_loop handler (S fuel) w (mkConn (line_bytes #"QUIT") t)
  = Some (Ok tt, w, mkConn [] (t ++ line_bytes #"OK bye")).
Proof.
  cbn [serve_loop]. unfold serve_step. rewrite <- (app_nil_r (line_bytes #"QUIT")), read_line_bytes by done.
  unfold serve_line. change (splitn 5 b_sp #"QUIT") with [ #"QUIT"]. unfold part.
  cbn [nth_error default from_option id]. decide_lits. erewrite st_bind_Ok by (by apply say_ok). done.
Qed.

Lemma wires_length cs : (length cs <= length (concat (map wire cs)))%nat.
Proof. induction cs as [|c cs IH]; [done|]. cbn. rewrite length_app. pose proof (wire_length c). lia. Qed.

(** What the client's method returns for a reply. *)
Definition client_gets (c : Call) (line : str) (blob : option str) : Prop :=
  match c with
  | CallSend s r m p b => talks (mc_send s r m p b) (wire c) (reply_bytes line blob) line
  | CallRegister u p k ivk => talks (mc_register u p k ivk) (wire c) (reply_bytes line blob) line
  | CallEmulate u (mkEmulate n a x i) => talks (mc_emulate u n a x i) (wire c) (reply_bytes line blob) line
  | CallStatus => talks mc_status (wire c) (reply_bytes line blob) line
  | CallAttest u m => forall rest t,
      mc_attest u m (mkConn (reply_bytes line blob ++ rest) t)
      = (match blob with Some b => Ok b | None => Err (ServerLine line) end, mkConn rest (t ++ wire c))
  end.

Lemma write_line_talks line c :
  sendable line = true -> write_line line c = (Ok tt, mkConn (rx c) (tx c ++ line_bytes line)).
Proof. intros (Hl & _)%sendable_iff. destruct c. rewrite write_line_ok by lia. done. Qed.

Lemma client_gets_reply c w :
  call_ok c -> reply_ok c w -> let '(line, blob, _) := effect c w in client_gets c line blob.
Proof.
  intros (Hl & Hb & Hc) Hr. unfold reply_ok in Hr.
  destruct (effect c w) as [[line blob] w'] eqn:E. destruct Hr as [Hr Hr2].
  destruct c as [sd rc m p b|u p k ivk|u m|u [n a x i]|]; cbn [client_gets]; cbn [effect] in E.
  - destruct (h_send _ _ _ _ _ _ _) as [[]]; injection E as <- <- _; intros rest t; unfold mc_send, wire, reply_bytes;
      cbn [call_line call_blob] in *; rewrite app_nil_r;
      (erewrite st_bind_Ok by (by apply write_line_talks)); cbn [rx tx];
      (erewrite st_bind_Ok by (by apply write_blob_ok)); cbn [rx tx]; rewrite read_line_bytes by done; by rewrite <- app_assoc.
  - destruct (h_register _ _ _ _ _ _) as [[]]; injection E as <- <- _; intros rest t; unfold mc_register, wire, reply_bytes;
      cbn [call_line call_blob] in *; destruct ivk; rewrite ?app_nil_r in *;
      (erewrite st_bind_Ok by (by apply write_line_talks)); cbn [rx tx]; by rewrite read_line_bytes.
  - intros rest t. unfold mc_attest, wire. cbn [call_line call_blob] in *. rewrite app_nil_r.
    unfold mbind at 1, st_bind at 1, st_map_err at 1. erewrite write_line_talks by exact Hl. cbn [rx tx].
    unfold mbind, st_bind, st_map_err, reply_bytes. rewrite <- app_assoc, read_line_bytes by done.
    destruct (h_attest _ _ _ _) as [[y|y]]; injection E as <- <- _; cbn [app].
    + change (starts_with #"OK " #"OK attestation") with true. cbn [negb]. by rewrite read_blob_bytes.
    + done.
  - destruct (h_emulate _ _ _ _) as [[]]; injection E as <- <- _; intros rest t; unfold mc_emulate, wire, reply_bytes;
      cbn [call_line call_blob] in *; rewrite app_nil_r;
      (erewrite st_bind_Ok by (by apply write_line_talks)); cbn [rx tx];
      (erewrite st_bind_Ok by (by apply write_blob_ok)); cbn [rx tx]; rewrite read_line_bytes by done; by rewrite <- app_assoc.
  - injection E as <- <- _. intros rest t. unfold mc_status, wire, reply_bytes. cbn [call_line call_blob] in *.
    rewrite !app_nil_r. erewrite st_bind_Ok by (by apply write_line_talks). cbn [rx tx]. by rewrite read_line_bytes.
Qed.

(** ** Properties *)

(** C26: client and daemon understand each other on the control channel. For calls
    whose fields have no blanks and fit in a line, the daemon calls its handler once
    per call, in order and with exactly the client's arguments, and each client
    method returns exactly the handler's reply; QUIT ends the session with all input
    consumed. On any input whatever the session ends. *)
Theorem mailbox_dialogue cs w t :
  calls_ok cs w ->
  serve handler w (mkConn (concat (map wire cs) ++ line_bytes #"QUIT") t)
  = Some (Ok tt, snd (effects cs w), mkConn [] (t ++ fst (effects cs w) ++ line_bytes #"OK bye"))
  /\ (forall c w, call_ok c -> reply_ok c w -> let '(line, blob, _) := effect c w in client_gets c line blob)
  /\ forall w c, is_Some (serve handler w c).
Proof.
  intros Hok. split; [|split].
  - unfold serve. apply (serve_loop_fuel handler (length cs + 1)).
    + rewrite serve_loop_calls by done. rewrite serve_quit. by rewrite <- app_assoc.
    + cbn [rx]. rewrite length_app. pose proof (wires_length cs). unfold line_bytes. rewrite length_app. cbn. lia.
  - intros c w' Hc Hr. by apply client_gets_reply.
  - intros w' c. apply serve_loop_total. lia.
Qed.

End calls.
