(* ===== verification/Dns.v ===== *)
(** * Discovery of keys and endpoints ([talk-protocol/src/dns.rs])

    Resolvers from a domain to its verification key and its endpoint: static maps
    and DNS over HTTPS.  The environment, the HTTP client, the JSON parser and the
    key format are an interface. *)

From S2P Require Export Externals.

Definition SRV_SERVICE : str := #"_zpayments._tcp".
Definition COUNTERPARTY_DOMAIN : str := #"example.com".
Definition COUNTERPARTY_DOMAIN_ENV : str := #"COUNTERPARTY_DOMAIN".
Definition COUNTERPARTY_PORT_SMTP : str := #"COUNTERPARTY_PORT_SMTP".
Definition COUNTERPARTY_DOMAINKEY_HEX : str := #"COUNTERPARTY_DOMAINKEY_HEX".

Inductive ResolverError :=
  | NotFound (domain : str)
  | Malformed (e : str)
  | InvalidKey (e : str)
  | NoSrv (domain : str)
  | Http (e : str).
Definition resolver_error_str (e : ResolverError) : str :=
  match e with
  | NotFound d => #"no domain key found for " ++ d
  | Malformed m => #"malformed TXT record: " ++ m
  | InvalidKey m => #"invalid domain key: " ++ m
  | NoSrv d => #"no SRV record found for " ++ d
  | Http m => #"http: " ++ m
  end.

Record DnsAnswer := mkAnswer { an_type : Z; an_data : str }.
Record DnsResponse := mkResponse { rs_status : Z; rs_answer : list DnsAnswer }.

(** A parsed JSON text. *)
Inductive JsonValue :=
  | JvNull
  | JvBool (b : bool)
  | JvInt (n : Z)
  | JvFloat (text : str)
  | JvString (s : str)
  | JvArray (l : list JsonValue)
  | JvObject (fields : list (str * JsonValue)).

Class DnsExternals `{Signing} := {
  (** [std::env::var(..).ok()] *)
  env_var : str -> option str;
  (** a GET of a URL: the body or the error *)
  http_get : str -> result str str;
  (** [serde_json::from_str]: the tree of a text, and the message for a tree that is not
      of the expected shape *)
  json_tree : str -> result str JsonValue;
  json_mismatch : str;
  (** [VerifyingKey::from_bytes] of 32 bytes *)
  key_from_bytes : str -> result str VerifyingKey;
  (** the decoders' messages *)
  hex_message : str -> str;
  b64_message : str -> str;
}.

(** [trim_matches(c)]. *)
Definition trim_matches (c : ascii) (s : str) : str :=
  drop_while_end (fun x => x ≟ c) (drop_while (fun x => x ≟ c) s).

(** [parse_srv]: priority, weight, port and target. *)
Definition parse_srv (data : str) : option (Z * Z * Z * str) :=
  match split_whitespace data with
  | p :: w :: q :: target :: _ =>
      priority ← parse_u16 p;
      weight ← parse_u16 w;
      port ← parse_u16 q;
      if target ≟ [] then None else Some (priority, weight, port, target)
  | _ => None
  end.

(** The loop over the records: the first of the lowest priority. *)
Definition better (best : option (Z * Z * Z * str)) (parsed : Z * Z * Z * str) : bool :=
  match best with
  | None => true
  | Some (bp, _, _, _) => let '(p, _, _, _) := parsed in (p <? bp)%Z
  end.
Definition pick (best : option (Z * Z * Z * str)) (data : str) : option (Z * Z * Z * str) :=
  match parse_srv data with
  | Some parsed => if better best parsed then Some parsed else best
  | None => best
  end.
Definition best_srv (records : list str) : option (Z * Z * Z * str) := foldl pick None records.

Section dns.
Context `{DnsExternals} `{Encodings}.

Definition counterparty_domain : str := default COUNTERPARTY_DOMAIN (env_var COUNTERPARTY_DOMAIN_ENV).
Definition is_counterparty (domain : str) : bool := eq_ignore_ascii_case domain counterparty_domain.
Definition counterparty_endpoint : option str :=
  p ← env_var COUNTERPARTY_PORT_SMTP;
  port ← parse_u16 (trim p);
  Some (#"127.0.0.1:" ++ show_Z port).

(** A key of 32 bytes. *)
Definition key_of_bytes (bytes : str) : result ResolverError VerifyingKey :=
  if length bytes ≟ 32%nat then map_err InvalidKey (key_from_bytes bytes)
  else Err (InvalidKey #"expected 32 bytes").
Definition counterparty_key : result ResolverError VerifyingKey :=
  raw ← ok_or (env_var COUNTERPARTY_DOMAINKEY_HEX) (NotFound counterparty_domain);
  bytes ← ok_or (hex_decode (trim raw)) (InvalidKey (hex_message (trim raw)));
  key_of_bytes bytes.

(** [StaticDomainKeyResolver] and [StaticEndpointResolver]: maps. *)
Fixpoint map_get {A} (key : str) (l : list (str * A)) : option A :=
  match l with [] => None | (k, v) :: r => if k ≟ key then Some v else map_get key r end.
Definition static_insert {A} (l : list (str * A)) (key : str) (v : A) : list (str * A) := (key, v) :: l.
Definition static_resolving_key (keys : list (str * VerifyingKey)) (domain : str)
    : result ResolverError VerifyingKey := ok_or (map_get domain keys) (NotFound domain).
Definition static_resolve_endpoint (endpoints : list (str * str)) (domain : str) : result ResolverError str :=
  ok_or (map_get domain endpoints) (NoSrv domain).

(** [derive(Deserialize)] on a struct: the value of a field in an object, by its name, or
    in an array, by its position; fields of other names are ignored. *)
Definition serde_field (i : nat) (name : str) (v : JsonValue) : result str (option JsonValue) :=
  match v with
  | JvObject fields =>
      match filter (fun f => f.1 = name) fields with
      | [] => Ok None
      | [(_, x)] => Ok (Some x)
      | _ => Err json_mismatch
      end
  | JvArray l => Ok (l !! i)
  | _ => Err json_mismatch
  end.
Definition serde_size (n : nat) (v : JsonValue) : result str unit :=
  match v with JvArray l => if n <? length l then Err json_mismatch else Ok tt | _ => Ok tt end.
Definition as_i32 (v : JsonValue) : result str Z :=
  match v with JvInt n => if (- 2 ^ 31 <=? n)%Z && (n <? 2 ^ 31)%Z then Ok n else Err json_mismatch | _ => Err json_mismatch end.
Definition as_string (v : JsonValue) : result str str :=
  match v with JvString s => Ok s | _ => Err json_mismatch end.
(** [#[serde(default)]]. *)
Definition or_default {A} (get : JsonValue -> result str A) (dflt : A) (v : option JsonValue) : result str A :=
  match v with Some v => get v | None => Ok dflt end.

Definition dns_answer (v : JsonValue) : result str DnsAnswer :=
  _ ← serde_size 2 v;
  type ← serde_field 0 #"type" v;
  type ← ok_or type json_mismatch;
  type ← as_i32 type;
  data ← serde_field 1 #"data" v;
  data ← or_default as_string [] data;
  Ok (mkAnswer type data).
Fixpoint dns_answers (l : list JsonValue) : result str (list DnsAnswer) :=
  match l with
  | [] => Ok []
  | v :: l => a ← dns_answer v; r ← dns_answers l; Ok (a :: r)
  end.
Definition as_answers (v : JsonValue) : result str (list DnsAnswer) :=
  match v with JvArray l => dns_answers l | _ => Err json_mismatch end.
Definition dns_response (v : JsonValue) : result str DnsResponse :=
  _ ← serde_size 2 v;
  status ← serde_field 0 #"status" v;
  status ← or_default as_i32 0%Z status;
  answer ← serde_field 1 #"answer" v;
  answer ← or_default as_answers [] answer;
  Ok (mkResponse status answer).

(** [DohClient::query]. *)
Definition doh_query (endpoint name type : str) : result ResolverError (list str) :=
  body ← map_err Http (http_get (endpoint ++ #"?name=" ++ name ++ #"&type=" ++ type));
  parsed ← map_err Malformed (tree ← json_tree body; dns_response tree);
  if negb (rs_status parsed =? 0)%Z then Err (NotFound name)
  else Ok (map (fun a => trim_matches "'"%char (trim_matches b_dq (an_data a)))
             (filter (fun a => (an_type a =? 16)%Z || (an_type a =? 33)%Z = true) (rs_answer parsed))).

(** [DohDomainKeyResolver::resolving_key]. *)
Definition doh_resolving_key (endpoint domain : str) : result ResolverError VerifyingKey :=
  if is_counterparty domain then counterparty_key
  else
    records ← doh_query endpoint (SRV_SERVICE ++ #"." ++ domain) #"TXT";
    record ← ok_or (head records) (NotFound domain);
    bytes ← ok_or (b64_decode record) (InvalidKey (b64_message record));
    key_of_bytes bytes.

(** [DohEndpointResolver::resolve_endpoint]. *)
Definition doh_resolve_endpoint (endpoint domain : str) : result ResolverError str :=
  if is_counterparty domain then ok_or counterparty_endpoint (NoSrv domain)
  else
    records ← doh_query endpoint (SRV_SERVICE ++ #"." ++ domain) #"SRV";
    best ← ok_or (best_srv records) (NoSrv domain);
    let '(_, _, port, target) := best in Ok (target ++ #":" ++ show_Z port).

End dns.

(** ** Lemmas *)

Definition priority (x : Z * Z * Z * str) : Z := let '(p, _, _, _) := x in p.

(** The loop keeps the lowest priority seen. *)
Lemma best_srv_spec records best0 :
  match foldl pick best0 records with
  | Some b =>
      (best0 = Some b \/ exists d, d ∈ records /\ parse_srv d = Some b)
      /\ (forall d x, d ∈ records -> parse_srv d = Some x -> (priority b <= priority x)%Z)
      /\ (forall b0, best0 = Some b0 -> (priority b <= priority b0)%Z)
  | None => best0 = None /\ forall d, d ∈ records -> parse_srv d = None
  end.
Proof.
  revert best0. induction records as [|d rs IH]; intros best0; cbn.
  - destruct best0 as [b|]; [|split; [done|]; by intros d ?%elem_of_nil].
    split; [by left|]. split; [by intros d x ?%elem_of_nil|]. intros b0 [= ->]. lia.
  - specialize (IH (pick best0 d)). unfold pick in *. destruct (parse_srv d) as [x|] eqn:Ed.
    + assert (Hbet : forall b0, best0 = Some b0 -> (if better best0 x then priority x < priority b0 else priority b0 <= priority x)%Z).
      { intros b0 ->. destruct b0 as [[[??]?]?], x as [[[??]?]?]. cbn. destruct (_ <? _)%Z eqn:El; lia. }
      destruct (better best0 x) eqn:Eb; destruct (foldl _ _ rs) as [b|].
      * destruct IH as (Hin & Hmin & H0). specialize (H0 x eq_refl). split; [|split].
        -- destruct Hin as [[= ->]|(d' & Hd & Hp)]; right; [exists d | exists d']; rewrite elem_of_cons; auto.
        -- intros d' y [->|Hd]%elem_of_cons Hy; [|eauto]. simplify_eq. lia.
        -- intros b0 Hb0. specialize (Hbet b0 Hb0). lia.
      * by destruct IH.
      * destruct IH as (Hin & Hmin & H0). split; [|split].
        -- destruct Hin as [->|(d' & Hd & Hp)]; [by left|right; exists d'; rewrite elem_of_cons; auto].
        -- intros d' y [->|Hd]%elem_of_cons Hy; [|eauto]. simplify_eq.
           destruct best0 as [b0|]; [|done]. specialize (Hbet b0 eq_refl). specialize (H0 b0 eq_refl). lia.
        -- done.
      * destruct IH as [-> _]. done.
    + destruct (foldl _ _ rs) as [b|].
      * destruct IH as (Hin & Hmin & H0). split; [|split; [|done]].
        -- destruct Hin as [->|(d' & Hd & Hp)]; [by left|right; exists d'; rewrite elem_of_cons; auto].
        -- intros d' y [->|Hd]%elem_of_cons Hy; [congruence|eauto].
      * destruct IH as [-> IH]. split; [done|]. intros d' [->|Hd]%elem_of_cons; auto.
Qed.

(** ** Replies in the format of the service *)

(** The names of a reply in the JSON format of DNS over HTTPS. *)
Definition DNS_JSON_NAMES : list str :=
  [ #"Status"; #"TC"; #"RD"; #"RA"; #"AD"; #"CD"; #"Question"; #"Answer"; #"Authority"; #"Additional"; #"Comment"].
Definition service_reply (v : JsonValue) : bool :=
  match v with JvObject fields => forallb (fun f => bool_decide (f.1 ∈ DNS_JSON_NAMES)) fields | _ => false end.

Section service.
Context `{DnsExternals} `{Encodings}.

Lemma serde_field_absent i name fields :
  (forall f, f ∈ fields -> f.1 <> name) -> serde_field i name (JvObject fields) = Ok None.
Proof.
  intros Hn. cbn. destruct (filter _ fields) as [|f l] eqn:E; [done|]. exfalso.
  assert (Hin : f ∈ f :: l) by left. rewrite <- E in Hin. apply list_elem_of_filter in Hin as [Hf Hin]. by apply (Hn f).
Qed.
(** None of the names is one that the code reads. *)
Lemma service_reply_empty v : service_reply v = true -> dns_response v = Ok (mkResponse 0 []).
Proof.
  destruct v as [| | | | | |fields]; try done. cbn [service_reply]. rewrite forallb_forall. intros Hall.
  assert (Hf : forall name, bool_decide (name ∈ DNS_JSON_NAMES) = false -> forall f, f ∈ fields -> f.1 <> name).
  { intros name Hname f Hin%list_elem_of_In <-. specialize (Hall f Hin). apply bool_decide_eq_true in Hall.
    apply bool_decide_eq_false in Hname. by apply Hname. }
  unfold dns_response. cbn [serde_size mbind result_bind].
  rewrite !serde_field_absent by (apply Hf; by vm_compute). done.
Qed.

(** What the service answers, as far as it answers. *)
Definition service_format : Prop :=
  forall url body tree, http_get url = Ok body -> json_tree body = Ok tree -> service_reply tree = true.

Lemma doh_query_empty endpoint name type :
  service_format -> doh_query endpoint name type = Ok []
  \/ (exists e, doh_query endpoint name type = Err (Http e)) \/ (exists e, doh_query endpoint name type = Err (Malformed e)).
Proof.
  intros Hs. unfold doh_query. destruct (http_get _) as [body|e] eqn:Eb; [|right; left; by eexists]. cbn.
  destruct (json_tree body) as [tree|e] eqn:Et; [|right; right; by eexists]. cbn.
  rewrite (service_reply_empty tree) by (by eapply Hs). by left.
Qed.
Lemma doh_finds_nothing endpoint domain :
  service_format -> is_counterparty domain = false ->
  (exists e, doh_resolving_key endpoint domain = Err e /\ (e = NotFound domain \/ exists m, e = Http m \/ e = Malformed m))
  /\ (exists e, doh_resolve_endpoint endpoint domain = Err e /\ (e = NoSrv domain \/ exists m, e = Http m \/ e = Malformed m)).
Proof.
  intros Hs Hc. unfold doh_resolving_key, doh_resolve_endpoint. rewrite Hc.
  split; match goal with |- context [doh_query ?e ?n ?t] => destruct (doh_query_empty e n t Hs) as [->|[[m ->]|[m ->]]] end;
    cbn; eauto 6.
Qed.
End service.

(** ** Properties *)

(** The endpoint of a domain. Unless the domain is the local counterparty, the
    resolver answers with host and port of a record of lowest priority among the
    parseable ones, and it answers whenever one is parseable. A well-formed record
    [priority weight port target] is parsed to its four fields. *)
Theorem srv_lowest_priority `{DnsExternals} `{Encodings} endpoint domain records :
  is_counterparty domain = false ->
  doh_query endpoint (SRV_SERVICE ++ #"." ++ domain) #"SRV" = Ok records ->
  match doh_resolve_endpoint endpoint domain with
  | Ok ep => exists d p w port target, d ∈ records /\ parse_srv d = Some (p, w, port, target)
      /\ ep = target ++ #":" ++ show_Z port
      /\ forall d' x, d' ∈ records -> parse_srv d' = Some x -> (p <= priority x)%Z
  | Err e => e = NoSrv domain /\ forall d, d ∈ records -> parse_srv d = None
  end
  /\ forall p w port target, (0 <= p <= u16_max)%Z -> (0 <= w <= u16_max)%Z -> (0 <= port <= u16_max)%Z ->
       word target = true ->
       parse_srv (join #" " [show_Z p; show_Z w; show_Z port; target]) = Some (p, w, port, target).
Proof.
  intros Hc Hq. split.
  - unfold doh_resolve_endpoint. rewrite Hc, Hq. cbn [mbind result_bind].
    pose proof (best_srv_spec records None) as Hb. unfold best_srv.
    destruct (foldl pick None records) as [[[[p w] port] target]|]; cbn.
    + destruct Hb as ([?|(d & Hd & Hp)] & Hmin & _); [done|]. eauto 10.
    + by destruct Hb.
  - intros p w port target Hp Hw Hport Ht. unfold parse_srv. cbn [join].
    assert (Hword : forall z, word (show_Z z) = true).
    { intros z. unfold word. rewrite utf8_valid_ascii by apply show_Z_ascii.
      rewrite bool_decide_eq_false_2 by apply show_Z_ne. cbn.
      apply no_ws_ascii; [apply show_Z_ascii|]. intros c Hin. apply show_Z_bytes in Hin as [->|Hd]; [done|].
      by apply digit_not_ws. }
    repeat (match goal with |- context [?a ++ #" " ++ ?b] => change (a ++ #" " ++ b) with (a ++ b_sp :: b) end).
    rewrite !split_whitespace_cons by done. rewrite split_whitespace_word by done.
    unfold parse_u16. rewrite !parse_int_show by done. cbn.
    rewrite bool_decide_eq_false_2 by (by apply word_nonempty). done.
Qed.
