(* ===== verification/Secure.v ===== *)
(** * The daemon's control service ([talkd/src/secure.rs])

    What the daemon does for a local client: send an invoice to another daemon,
    register a user, attest an address, emulate a payment.  The handler acts on
    the same world as the delivery sink.  Argon2, the network, the entropy source
    and the texts of foreign errors are an interface. *)

From S2P Require Export SecureMailboxFacts SinkFacts Dns.

(** ** The outside *)

Class Outside := {
  (** random bytes, drawn at a tick *)
  entropy : nat -> nat -> str;
  (** TCP and TLS to an endpoint for a server name: the stream, with the bytes the
      peer sends *)
  dial : str -> str -> result ClientError conn;
  outside_texts :: ErrorTexts;
  version : str;
}.

Definition framing_error_str `{Outside} (e : FramingError) : str :=
  match e with
  | Io => #"io: " ++ io_text
  | Protocol s => #"protocol error: " ++ s
  | LineTooLong n => #"line too long (max " ++ show_Z n ++ #" bytes)"
  | BlobTooLarge n => #"blob too large (max " ++ show_Z n ++ #" bytes)"
  end.
Definition client_error_str `{Outside} (e : ClientError) : str :=
  match e with
  | Framing e => #"framing: " ++ framing_error_str e
  | ClIo s => #"transport: " ++ s
  | BadGreeting s => #"unexpected greeting: " ++ s
  | ClRejected s => #"server rejected: " ++ s
  | ClRetryLater s => #"transient server failure: " ++ s
  | ClAuth s => #"authentication failed: " ++ s
  | BadAttestation s => #"address attestation invalid: " ++ s
  | Order s => #"protocol order error: " ++ s
  end.
Section secure.
Context `{Signing} `{Encodings} `{RowIds} `{Templates} `{Argon2} `{Outside}
  `{Json Attestation} `{Json RegistrationAttestation} `{Json EmulatePayload}.

Record SecureMailboxService := mkService {
  sv_sender_domain : str;
  sv_send_endpoint : option str;
  sv_resolver : str -> result ResolverError VerifyingKey;
  sv_endpoint_resolver : str -> result ResolverError str;
  sv_domain_key : SigningKey;
  sv_sink : StoreDeliverySink;
  sv_template_path : option str;
  sv_data_dir : str;
}.

Definition draw {E} (n : nat) : st World E str := fun w =>
  (Ok (entropy (w_ticks w) n), mkWorld (w_store w) (w_events w) (w_clock w) (S (w_ticks w))).
(** [hex::encode] of random bytes. *)
Definition random_hex {E} (n : nat) : st World E str := b ← draw n; mret (hex_encode b).

Variable svc : SecureMailboxService.

Definition sv_resolve_template : result TemplateError TemplateSpec :=
  resolve_template (sv_template_path svc) (sv_data_dir svc).

Definition build_registration_attestation (now : Z) (username master_pubkey : str) (ivk : option str) : str :=
  reg_to_json (reg_sign (sv_sender_domain svc) username master_pubkey ivk now (sv_domain_key svc)).

(** [decode_hex_32]. *)
Definition decode_hex_32 (s : str) : option str :=
  b ← hex_decode s; if length b ≟ 32%nat then Some b else None.

(** *** The outbound ledger *)

(** The ledger row of the message: transitioned if there is one, else created. *)
Definition outbound_row (sender_username recipient_mailbox message_id : str) (payload : Payload)
    (body : str) (x : TxState) : st World str (option Transaction) :=
  let sender_mailbox := sender_username ++ #"@" ++ sv_sender_domain svc in
  found ← st_ok (on_store (tx_by_message_id Out message_id));
  match mjoin found with
  | Some existing =>
      _ ← Sink.ignore (on_store_now (fun now => tx_transition now (tx_id existing) x));
      mret (Some existing)
  | None =>
      st_ok (on_store_now (fun now => tx_create now
        (mkNewTx Out x sender_mailbox recipient_mailbox [] None message_id (Some body) (payload_str payload))))
  end.

(** Subject and body of the copy in the Sent mailbox. *)
Definition sent_copy (sender_disp body : str) : st World str (str * str) :=
  match sv_resolve_template with
  | Err _ => mret (#"Sent invoice", body)
  | Ok spec =>
      now ← now_secs;
      mret match render_invoice spec sender_disp sender_disp [] (from_utf8_lossy body) (received_at now) with
           | Ok p => p
           | Err _ => (#"Sent invoice", body)
           end
  end.

Definition record_outbound_tx (sender_username recipient_mailbox message_id : str) (payload : Payload)
    (body : str) (x : TxState) : st World str unit :=
  tx ← outbound_row sender_username recipient_mailbox message_id payload body x;
  match tx with
  | None => mret tt
  | Some tx =>
      user ← st_ok (on_store (get_user sender_username));
      match mjoin user with
      | None => mret tt
      | Some user =>
          sb ← sent_copy (sender_username ++ #"@" ++ sv_sender_domain svc) body;
          let msg := mkNewMessage message_id (fst sb) (snd sb) 0 recipient_mailbox #"unverified" in
          meta ← st_ok (on_store_now (fun now => append_message_to now (user_id user) SENT msg));
          match meta with
          | Some meta => Sink.ignore (on_store_now (fun now => tx_link_message now (tx_id tx) (meta_id meta)))
          | None => mret tt
          end
      end
  end.

(** *** SEND *)

(** [talk_protocol::send_invoice_over] on a fresh connection; its draws and clock
    readings come from the world. *)
Definition deliver_over (client : ZsmptClient) (sender_username user : str) (receiver_pub : VerifyingKey)
    (message_id : str) (payload : Payload) (body : str) : st World str (result ClientError unit) :=
  random ← draw 16; t_issue ← now_secs; t_verify ← now_secs;
  mret (fst (send_invoice_over random t_issue t_verify sender_username user receiver_pub
               message_id payload body client)).

Definition send (sender_username recipient_mailbox message_id : str) (payload : Payload) (body : str)
    : st World str str :=
  let record := record_outbound_tx sender_username recipient_mailbox message_id payload body in
  if sender_username ≟ [] then raise #"sender username is required"
  else
    match nth_error (split b_at recipient_mailbox) 1 with
    | None => raise #"malformed recipient mailbox"
    | Some receiver_domain =>
        match sv_resolver svc receiver_domain with
        | Err e => _ ← record Failed; raise (#"cannot resolve domain key: " ++ resolver_error_str e)
        | Ok receiver_pub =>
            let endpoint :=
              match sv_endpoint_resolver svc receiver_domain with
              | Ok ep => Ok ep
              | Err e => ok_or (sv_send_endpoint svc) e
              end in
            match endpoint with
            | Err e => _ ← record Failed; raise (#"cannot resolve endpoint: " ++ resolver_error_str e)
            | Ok ep =>
                match (strm ← dial ep receiver_domain; fst (connect strm (sv_sender_domain svc))) with
                | Err e => _ ← record Retrying; raise (#"connect: " ++ client_error_str e)
                | Ok client =>
                    let user := default [] (head (split b_at recipient_mailbox)) in
                    r ← deliver_over client sender_username user receiver_pub message_id payload body;
                    match r with
                    | Err e =>
                        _ ← record (match e with ClRetryLater _ => Retrying | _ => Failed end);
                        raise (#"deliver: " ++ client_error_str e)
                    | Ok _ =>
                        _ ← record Sent;
                        mret (#"delivered " ++ message_id ++ #" to " ++ recipient_mailbox)
                    end
                end
            end
        end
    end.

(** *** ATTEST, REGISTER, STATUS, EMULATE *)

Definition attest (user : str) (mode : AttestationMode) : st World str str :=
  if user ≟ [] then raise #"attest requires a user"
  else
    random ← draw 32;
    let '(addr, pk) := mint_pair random mode in
    mret (att_to_json (att_sign (sv_sender_domain svc) user mode addr pk (sv_domain_key svc))).

Definition register (username password pubkey_hex : str) (ivk_hex : option str) : st World str unit :=
  match decode_hex_32 pubkey_hex with
  | None => raise #"pubkey must be 32 bytes of hex"
  | Some pubkey_bytes =>
      ivk ← (match ivk_hex with
             | Some h => match decode_hex_32 h with
                         | Some _ => mret (Some h)
                         | None => raise #"ivk must be 32 bytes of hex"
                         end
             | None => mret None
             end : st World str (option str));
      if (username ≟ []) || (password ≟ []) then raise #"username and password are required"
      else
        salt ← draw 16;
        match hash_password salt password with
        | Err e => raise (#"password hash failed: " ++ e)
        | Ok hash =>
            now ← now_secs;
            let reg := build_registration_attestation now username pubkey_bytes ivk in
            _ ← st_map_err store_error_str
                  (on_store_now (fun now => create_user_full now username hash pubkey_bytes ivk (Some reg)));
            mret tt
        end
  end.

Definition status : str :=
  #"talkd " ++ version ++ #" sender=" ++ sv_sender_domain svc ++ #" endpoint="
  ++ default #"srv" (sv_send_endpoint svc).

Definition emulate (recipient_user : str) (payload : EmulatePayload) : st World str str :=
  if recipient_user ≟ [] then raise #"recipient user is required"
  else
    match sv_resolve_template with
    | Err e => raise (#"template: " ++ template_error_str e)
    | Ok spec =>
        now ← now_secs;
        let data := invoice_context (ep_sender_name payload) (ep_sender_address payload) (ep_amount payload)
                      (from_utf8_lossy (ep_invoice payload)) (received_at now) in
        match engine_render (spec_subject spec) data with
        | Err e => raise (#"template subject: " ++ template_error_str e)
        | Ok subject =>
            match engine_render (spec_body spec) data with
            | Err e => raise (#"template body: " ++ template_error_str e)
            | Ok body =>
                h ← random_hex 8;
                let message_id := #"emul-" ++ h in
                o ← (fun w => let '(o, w') := deliver_emulated (sv_sink svc) recipient_user
                       (ep_sender_name payload) (ep_amount payload) message_id subject body w in (Ok o, w'));
                match o with
                | Accepted _ => mret (#"delivered " ++ message_id ++ #" to " ++ recipient_user)
                | Rejected reason => raise reason
                | RetryLater reason => raise (#"retry later: " ++ reason)
                end
            end
        end
    end.

(** The service as the handler of the control channel. *)
Definition run_result {A B} (m : st World str A) (f : A -> B) (g : str -> B) (w : World) : B * World :=
  let '(r, w') := m w in (match r with Ok x => f x | Err e => g e end, w').
Definition service_handler : SecureMailboxHandler World := mkHandler World
  (fun sd rc m p b => run_result (send sd rc m p b) SendOk SendError)
  (fun u m => run_result (attest u m) AttestOk AttestError)
  (fun u p k ivk => run_result (register u p k ivk) (fun _ => RegisterOk) RegisterError)
  (fun _ => status)
  (fun u p => run_result (emulate u p) EmulateOk EmulateError).

End secure.
