(* ===== verification/SecureFacts.v ===== *)
(** * Properties of the control service

    The schema holds through everything the daemon does; what SEND leaves in the
    ledger; what REGISTER creates. *)

From S2P Require Export Secure.

(** ** What the store keeps, the world keeps *)

Section keeps_world.
Variable P : Store -> Prop.

Definition wkeeps {E A} (m : st World E A) : Prop :=
  forall w r w', m w = (r, w') -> P (w_store w) -> P (w_store w').

Lemma wkeeps_bind {E A B} (m : st World E A) (f : A -> st World E B) :
  wkeeps m -> (forall x, wkeeps (f x)) -> wkeeps (m ≫= f).
Proof.
  intros Hm Hf w r w'. unfold mbind, st_bind. destruct (m w) as [[x|e] w1] eqn:E1.
  - intros Hr Hi. eapply Hf; [exact Hr|]. by eapply Hm.
  - intros [= _ <-] Hi. by eapply Hm.
Qed.
Lemma wkeeps_ret {E A} (x : A) : wkeeps (E := E) (mret x).
Proof. by intros w r w' [= _ <-]. Qed.
Lemma wkeeps_raise {E A} (e : E) : wkeeps (A := A) (raise e).
Proof. by intros w r w' [= _ <-]. Qed.
Lemma wkeeps_on_store {A} (m : M A) :
  (forall s r s', m s = (r, s') -> P s -> P s') -> wkeeps (on_store m).
Proof.
  intros Hm w r w'. unfold on_store. destruct (m (w_store w)) as [r1 s1] eqn:E1.
  intros [= _ <-] Hi. by eapply Hm.
Qed.
Lemma wkeeps_now {E} : wkeeps (E := E) now_secs.
Proof. by intros w r w' [= _ <-]. Qed.
Lemma wkeeps_on_store_now {A} (m : Z -> M A) :
  (forall now s r s', m now s = (r, s') -> P s -> P s') -> wkeeps (on_store_now m).
Proof. intros Hm. apply wkeeps_bind; [apply wkeeps_now|]. intros now. apply wkeeps_on_store, Hm. Qed.
Lemma wkeeps_ok {E F A} (m : st World E A) : wkeeps m -> wkeeps (E := F) (st_ok m).
Proof. intros Hm w r w'. unfold st_ok. destruct (m w) eqn:E1. intros [= _ <-]. by eapply Hm. Qed.
Lemma wkeeps_ignore {E F A} (m : st World E A) : wkeeps m -> wkeeps (E := F) (Sink.ignore m).
Proof. intros Hm w r w'. unfold Sink.ignore. destruct (m w) eqn:E1. intros [= _ <-]. by eapply Hm. Qed.
Lemma wkeeps_map_err {E F A} (f : E -> F) (m : st World E A) : wkeeps m -> wkeeps (st_map_err f m).
Proof.
  intros Hm w r w'. unfold st_map_err. destruct (m w) as [[x|e] w1] eqn:E1; intros [= _ <-]; by eapply Hm.
Qed.
Lemma wkeeps_try_with {E F A B} (m : st World E A) (f : A -> st World F B) g :
  wkeeps m -> (forall x, wkeeps (f x)) -> (forall e, wkeeps (g e)) -> wkeeps (try_with m f g).
Proof.
  intros Hm Hf Hg w r w'. unfold try_with. destruct (m w) as [[x|e] w1] eqn:E1; intros Hr Hi;
    [eapply Hf | eapply Hg]; try exact Hr; by eapply Hm.
Qed.
Lemma wkeeps_modify {E} f : (forall w, w_store (f w) = w_store w) -> wkeeps (E := E) (modify f).
Proof. intros Hf w r w' [= _ <-]. by rewrite Hf. Qed.
Lemma wkeeps_draw `{Outside} {E} n : wkeeps (E := E) (draw n).
Proof. by intros w r w' [= _ <-]. Qed.

End keeps_world.

#[export] Hint Resolve wkeeps_bind wkeeps_ret wkeeps_raise wkeeps_now wkeeps_ok wkeeps_ignore
  wkeeps_map_err wkeeps_try_with wkeeps_draw : talk.

(** ** The schema *)

Section schema.
Context `{Signing} `{Encodings} `{RowIdsLaws} `{Templates} `{Argon2} `{Outside}
  `{Json Attestation} `{Json RegistrationAttestation} `{Json EmulatePayload}.

Abbreviation wschema := (wkeeps (inv wf_db)).

Lemma wschema_op {A} (m : M A) : pres wf_db m -> wschema (on_store m).
Proof. intros Hm. apply wkeeps_on_store. intros s r s'. apply Hm. Qed.
Lemma wschema_op_now {A} (m : Z -> M A) : (forall now, pres wf_db (m now)) -> wschema (on_store_now m).
Proof. intros Hm. apply wkeeps_on_store_now. intros now s r s'. apply Hm. Qed.
Hint Resolve wschema_op wschema_op_now : talk.

Lemma pres_tx_create now t : pres wf_db (tx_create now t).
Proof. unfold tx_create. apply pres_bind; [apply pres_exec, wf_insert_tx | auto with talk]. Qed.
Lemma pres_tx_link now i r : pres wf_db (tx_link_message now i r).
Proof. exact (pres_op (OpTxLink now i r)). Qed.
Lemma pres_tx_transition now i x : pres wf_db (tx_transition now i x).
Proof. exact (pres_op (OpTxTransition now i x)). Qed.
Lemma pres_create_user now u h k ivk reg : pres wf_db (create_user_full now u h k ivk reg).
Proof. exact (pres_create_user_full wf_op_invariant now u h k ivk reg). Qed.
Hint Resolve pres_tx_create pres_tx_link pres_tx_transition pres_create_user pres_append : talk.

Lemma wschema_record_inbound a b c d e : wschema (record_inbound_tx a b c d e).
Proof.
  unfold record_inbound_tx. apply wkeeps_bind; [auto with talk|]. intros [tx|]; auto with talk.
Qed.
Lemma wschema_store_message k u a b c d e f : wschema (store_message k u a b c d e f).
Proof.
  unfold store_message. apply wkeeps_bind.
  { intros w r w'. destruct (store_keyring_state _ _ w) as [t w1] eqn:E. intros [= _ <-] Hi.
    unfold store_keyring_state in E. destruct (_ ≟ _); [by injection E as _ <-|].
    destruct (on_store _ w) as [r2 w2] eqn:E2. injection E as _ <-.
    eapply (wschema_op (keyring_sender_key (user_id u) a)); [apply pres_query|exact E2|exact Hi]. }
  intros tr. apply wkeeps_bind; [|intros meta; apply wschema_record_inbound].
  unfold append_and_broadcast. apply wkeeps_bind; [unfold append_message; auto with talk|]. intros meta.
  apply wkeeps_bind; [|auto with talk]. destruct (ss_events k); [by apply wkeeps_modify|auto with talk].
Qed.
Lemma wschema_recipient r : wschema (recipient_user r).
Proof.
  unfold recipient_user. destruct (head _); [|auto with talk]. destruct (_ ≟ _); [auto with talk|].
  apply wkeeps_try_with; [unfold get_user; auto with talk| |auto with talk]. intros [u|]; auto with talk.
Qed.
Lemma wschema_deliver k a b c p body w o w' :
  store_deliver k a b c p body w = (o, w') -> inv wf_db (w_store w) -> inv wf_db (w_store w').
Proof.
  unfold store_deliver, outcome.
  assert (Hm : wschema (user ← recipient_user c; sb ← render_delivery k a p body;
    store_message k user a c [] b (fst sb) (snd sb))).
  { apply wkeeps_bind; [apply wschema_recipient|]. intros u. apply wkeeps_bind; [|intros; apply wschema_store_message].
    unfold render_delivery. destruct (resolve_template _ _); auto with talk. }
  match goal with |- (let '(_, _) := ?m w in _) = _ -> _ => destruct (m w) as [r w1] eqn:E end.
  intros [= _ <-]. by eapply Hm.
Qed.

Lemma wschema_record_outbound svc a b c p body x : wschema (record_outbound_tx svc a b c p body x).
Proof.
  unfold record_outbound_tx, outbound_row. apply wkeeps_bind.
  { apply wkeeps_bind; [unfold tx_by_message_id; auto with talk|]. intros f. destruct (mjoin f); auto with talk. }
  intros [tx|]; [|auto with talk]. apply wkeeps_bind; [unfold get_user; auto with talk|].
  intros u. destruct (mjoin u); [|auto with talk]. apply wkeeps_bind.
  { unfold sent_copy. destruct (sv_resolve_template svc); auto with talk. }
  intros sb. apply wkeeps_bind; [auto with talk|]. intros [m|]; auto with talk.
Qed.

Lemma wschema_send svc a b c p body : wschema (send svc a b c p body).
Proof.
  pose proof (wschema_record_outbound svc a b c p body). unfold send, deliver_over.
  repeat case_match; auto with talk;
    (apply wkeeps_bind; [auto 6 with talk|]; intros [|?]; auto with talk).
Qed.

Lemma wschema_register svc a b c d : wschema (register svc a b c d).
Proof.
  unfold register. destruct (decode_hex_32 c); [|auto with talk]. apply wkeeps_bind; [repeat case_match; auto with talk|].
  intros ivk. destruct (_ || _); [auto with talk|]. apply wkeeps_bind; [auto with talk|]. intros salt.
  destruct (hash_password salt b); auto 8 with talk.
Qed.

Lemma wschema_attest svc u m : wschema (attest svc u m).
Proof.
  unfold attest. destruct (u ≟ []); [auto with talk|]. apply wkeeps_bind; [auto with talk|]. intros r.
  by apply wkeeps_ret.
Qed.

Lemma wschema_emulate svc u p : wschema (emulate svc u p).
Proof.
  unfold emulate, random_hex. repeat case_match; auto with talk.
  apply wkeeps_bind; [auto with talk|]. intros now. repeat case_match; auto with talk.
  apply wkeeps_bind; [auto with talk|]. intros h. apply wkeeps_bind; [|intros []; auto with talk].
  intros w r w'. unfold deliver_emulated, outcome.
  match goal with |- (let '(_, _) := (let '(_, _) := ?m w in _) in _) = _ -> _ =>
    destruct (m w) as [r1 w1] eqn:E1; assert (Hm : wschema m) end.
  { apply wkeeps_bind; [apply wschema_recipient|]. intros; apply wschema_store_message. }
  intros [= _ <-]. by eapply Hm.
Qed.

End schema.

(** ** Registration *)

Section register.
Context `{SigningLaws} `{EncodingsLaws} `{RowIdsLaws} `{Templates} `{Argon2Laws} `{Outside}
  `{Json Attestation} `{Json RegistrationAttestation} `{Json EmulatePayload}.

(** [ivk] is absent or 32 bytes in hexadecimal. *)
Definition ivk_valid (ivk : option str) : Prop :=
  forall h, ivk = Some h -> is_Some (decode_hex_32 h).

Lemma register_steps svc user pw key_hex ivk pk w :
  decode_hex_32 key_hex = Some pk -> ivk_valid ivk -> user <> [] -> pw <> [] ->
  (forall salt, exists h, argon2_hash salt pw = Ok h) ->
  exists h now now' w0, w_store w0 = w_store w /\ argon2_verify pw h = true /\ phc_parses h = true
  /\ register svc user pw key_hex ivk w
  = let '(r, s) := create_user_full now' user h pk ivk
                     (Some (build_registration_attestation svc now user pk ivk)) (w_store w) in
    (match r with Ok _ => Ok tt | Err e => Err (store_error_str e) end, set_store w0 s).
Proof.
  intros Hk Hivk Hu Hp Hh. unfold register. rewrite Hk.
  assert (Hm : (match ivk with
    | Some h => match decode_hex_32 h with Some _ => mret (Some h) | None => raise #"ivk must be 32 bytes of hex" end
    | None => mret None end : st World str (option str)) w = (Ok ivk, w)).
  { destruct ivk as [i|]; [|done]. by destruct (Hivk i eq_refl) as [x ->]. }
  erewrite st_bind_Ok by exact Hm. rewrite !bool_decide_eq_false_2 by done. cbn [orb].
  unfold mbind at 1, st_bind at 1, draw. destruct (Hh (entropy (w_ticks w) 16)) as [h Hh'].
  destruct (argon2_roundtrip _ _ _ Hh') as [Hp1 Hp2].
  unfold hash_password. rewrite Hh'. unfold mbind at 1, st_bind at 1, now_secs at 1.
  unfold mbind at 1, st_bind at 1, st_map_err, on_store_now, mbind at 1, st_bind at 1, now_secs, on_store.
  cbn [w_store w_clock w_ticks]. exists h, (w_clock w (S (w_ticks w))), (w_clock w (S (S (w_ticks w)))).
  exists (mkWorld (w_store w) (w_events w) (w_clock w) (S (S (S (w_ticks w))))).
  split; [done|]. split; [done|]. split; [done|].
  match goal with |- context [create_user_full ?a ?b ?c ?d ?e ?f ?g] =>
    destruct (create_user_full a b c d e f g) as [[u|e0] s] end; done.
Qed.

(** What a registration creates. For a key and an optional viewing-key commitment
    of 32 bytes each and non-empty name and password, a free name is registered: the
    user is found with that key and commitment, the stored hash verifies the password,
    and the stored registration attestation names domain, user and key and carries a
    valid signature of the domain key. A taken name is refused and nothing changes. *)
Theorem register_spec svc user pw key_hex ivk pk w :
  faults (w_store w) = [] -> wf_db (db (w_store w)) ->
  decode_hex_32 key_hex = Some pk -> ivk_valid ivk -> user <> [] -> pw <> [] ->
  (forall salt, exists h, argon2_hash salt pw = Ok h) ->
  let '(r, w') := register svc user pw key_hex ivk w in
  if exists_row (fun u => u_username u ≟ user) (users (db (w_store w)))
  then r = Err (store_error_str (Storage UniqueViolation)) /\ w_store w' = w_store w
  else r = Ok tt /\ exists u h reg, get_user user (w_store w') = (Ok (Some u), w_store w')
    /\ user_master_pubkey u = pk /\ user_ivk_commitment u = ivk
    /\ password_hash user (w_store w') = (Ok (Some h), w_store w') /\ verify_password pw h = Ok true
    /\ user_registration_attestation u = Some (reg_to_json reg)
    /\ reg_domain reg = sv_sender_domain svc /\ reg_username reg = user /\ reg_master_pubkey reg = hex pk
    /\ verify_bytes (verifying_key (sv_domain_key svc)) (reg_digest reg) (reg_signature reg) = true.
Proof.
  intros Hf Hwf Hk Hivk Hu Hp Hh.
  destruct (register_steps svc user pw key_hex ivk pk w Hk Hivk Hu Hp Hh) as (h & now & now' & w0 & Hw0 & Hv & Hps & ->).
  destruct (w_store w) as [d sv fs] eqn:Es. cbn in Hf. subst fs. cbn [db].
  destruct (exists_row _ _) eqn:E.
  - unfold create_user_full. unfold mbind at 1, st_bind at 1. rewrite exec_calm by done.
    cbn [db]. unfold insert_user. rewrite E. done.
  - rewrite create_calm by done. split; [done|]. cbn [w_store set_store].
    assert (Hsel : forall i r, select (fun u => u_username u ≟ user) (users (created now' user h pk i r d))
      = [new_user_row now' user h pk i r d]).
    { intros i r. apply select_fresh; [by apply exists_row_false|apply str_eqb_refl]. }
    rewrite get_user_calm by done. unfold password_hash. rewrite query_calm by done. cbn [db]. rewrite Hsel.
    do 3 eexists. split; [reflexivity|]. split; [done|]. split; [done|]. split; [reflexivity|].
    split; [unfold verify_password; cbn; by rewrite Hps, Hv|]. split; [reflexivity|]. split; [done|].
    split; [done|]. split; [cbn; apply hex_encode_lower|]. cbn. apply sign_verifies.
Qed.

End register.

(** ** The outbound ledger *)

Section outbound.
Context `{Signing} `{Encodings} `{RowIdsLaws} `{Templates} `{Argon2} `{Outside}
  `{Json Attestation} `{Json RegistrationAttestation} `{Json EmulatePayload}.

Definition is_out (mid : str) (r : tx_row) : bool := (t_direction r ≟ #"out") && (t_message_id r ≟ mid).

(** A ledger row for the outbound message, in a state. *)
Definition ledger_row (ts : list tx_row) (mid : str) (x : TxState) (r : tx_row) : Prop :=
  r ∈ ts /\ is_out mid r = true /\ t_state r = txstate_as_str x.

(** Linking a row to a message changes nothing else that matters. *)
Definition same_tx (r r' : tx_row) : Prop :=
  t_id r' = t_id r /\ t_direction r' = t_direction r /\ t_message_id r' = t_message_id r
  /\ t_state r' = t_state r /\ t_sender_mailbox r' = t_sender_mailbox r
  /\ t_recipient_mailbox r' = t_recipient_mailbox r /\ t_outbound_body r' = t_outbound_body r.
Definition tx_frame (ts ts' : list tx_row) : Prop := forall r, r ∈ ts -> exists r', r' ∈ ts' /\ same_tx r r'.

Lemma tx_frame_refl ts : tx_frame ts ts.
Proof. intros r Hr. exists r. by repeat split. Qed.

(** The row of a send that fills it in for the first time. *)
Definition new_out (svc : SecureMailboxService) (su rc body : str) (r : tx_row) : Prop :=
  t_sender_mailbox r = su ++ #"@" ++ sv_sender_domain svc /\ t_recipient_mailbox r = rc
  /\ t_outbound_body r = Some body.

Lemma outbound_row_calm svc su rc mid p body x w :
  faults (w_store w) = [] ->
  exists tx ts n, outbound_row svc su rc mid p body x w
  = (Ok (Some tx), tick n (set_store w (mkStore (set_transactions (db (w_store w)) ts) (saved (w_store w)) [])))
  /\ exists r, ledger_row ts mid x r /\ t_id r = tx_id tx
     /\ (exists_row (is_out mid) (transactions (db (w_store w))) = false -> new_out svc su rc body r).
Proof.
  intros Hf. unfold outbound_row. unfold mbind at 1, st_bind at 1, st_ok at 1.
  unfold tx_by_message_id. rewrite (on_store_eq _ _ _ _ (query_calm _ _ Hf)), set_store_same.
  cbn [ok dir_as_str]. fold (is_out mid). rewrite exists_row_select.
  destruct (head (select (is_out mid) (transactions (db (w_store w))))) as [r0|] eqn:E; cbn [fmap option_fmap option_map mjoin option_join].
  - apply head_select in E as [Hr0 Ho]. unfold mbind, st_bind, Sink.ignore, on_store_now.
    unfold mbind, st_bind, now_secs, on_store, tx_transition, with_tx, execute_n, mbind, st_bind.
    cbn [w_store]. rewrite exec_calm by done.
    set (now := w_clock w (w_ticks w)). set (id := tx_id (row_to_tx r0)).
    set (ts := update_where (fun r => t_id r =? id)%Z (tx_with_state x now) (transactions (db (w_store w)))).
    assert (Hfd : forall n e s0, exists r, found n e s0 = (r, s0)).
    { intros n e s0. unfold found. destruct (n ≟ 0%nat); eauto. }
    match goal with |- context [found ?n ?e ?s0] => destruct (Hfd n e s0) as [r1 ->] end.
    exists (row_to_tx r0), ts, 1%nat. split; [done|]. exists (tx_with_state x now r0).
    split; [|done]. split; [|done]. apply elem_of_update_where. exists r0. split; [done|]. by rewrite Z.eqb_refl.
  - unfold st_ok, on_store_now, mbind at 1, st_bind at 1, now_secs, on_store. cbn [w_store].
    unfold tx_create, mbind, st_bind. rewrite exec_calm by done. unfold insert_tx. cbn [nt_direction nt_message_id dir_as_str].
    fold (is_out mid). rewrite exists_row_select, E. do 2 eexists. exists 1%nat. split; [reflexivity|].
    eexists. split; [split; [apply elem_of_app; right; by apply list_elem_of_singleton|]|].
    + unfold is_out. cbn. by rewrite !str_eqb_refl.
    + done.
Qed.

Lemma link_calm now i row s :
  faults s = [] -> exists s', tx_link_message now i row s = (Ok tt, s')
  /\ faults s' = [] /\ tx_frame (transactions (db s)) (transactions (db s')).
Proof.
  intros Hf. unfold tx_link_message, with_tx, execute_n, mbind, st_bind. rewrite exec_calm by done.
  eexists. split; [reflexivity|]. split; [done|]. intros r Hr. cbn.
  exists (if (t_id r =? i)%Z then tx_with_link row now r else r). split; [apply elem_of_update_where; eauto|].
  by destruct (t_id r =? i)%Z.
Qed.

(** The whole of [record_outbound_tx] without faults. *)
Lemma record_outbound_calm svc su rc mid p body x w :
  faults (w_store w) = [] ->
  exists w', record_outbound_tx svc su rc mid p body x w = (Ok tt, w') /\ faults (w_store w') = []
  /\ exists r, ledger_row (transactions (db (w_store w'))) mid x r
     /\ (exists_row (is_out mid) (transactions (db (w_store w))) = false -> new_out svc su rc body r).
Proof.
  intros Hf. unfold record_outbound_tx.
  destruct (outbound_row_calm svc su rc mid p body x w Hf) as (tx & ts & n & Hrow & r & Hr & Hid & Hnew).
  unfold mbind at 1, st_bind at 1. rewrite Hrow. clear Hrow.
  set (w1 := tick n _). assert (Hf1 : faults (w_store w1) = []) by done.
  assert (Ht1 : transactions (db (w_store w1)) = ts) by done. clearbody w1.
  assert (Hend : forall w', faults (w_store w') = [] -> tx_frame ts (transactions (db (w_store w'))) ->
    faults (w_store w') = [] /\ exists r, ledger_row (transactions (db (w_store w'))) mid x r
    /\ (exists_row (is_out mid) (transactions (db (w_store w))) = false -> new_out svc su rc body r)).
  { intros w' Hf' Hfr. split; [done|]. destruct Hr as (Hin & Ho & Hst).
    destruct (Hfr r Hin) as (r' & Hr' & (_ & Hd & Hm & Hs' & Hsm & Hrm & Hob)). exists r'. split.
    - split; [done|]. unfold is_out. rewrite Hd, Hm. split; [done|congruence].
    - intros Hn. destruct (Hnew Hn) as (? & ? & ?). unfold new_out. by rewrite Hsm, Hrm, Hob. }
  unfold mbind at 1, st_bind at 1, st_ok at 1.
  rewrite (on_store_eq _ _ _ _ (get_user_calm su _ Hf1)), set_store_same. cbn [ok].
  destruct (head _) as [u|]; cbn [fmap option_fmap option_map mjoin option_join].
  2: { exists w1. split; [done|]. apply Hend; [done|]. rewrite Ht1. apply tx_frame_refl. }
  assert (Hcopy : exists sb k, sent_copy svc (su ++ #"@" ++ sv_sender_domain svc) body w1 = (Ok sb, tick k w1)).
  { unfold sent_copy. destruct (sv_resolve_template svc).
    - unfold mbind, st_bind. eexists _, 1%nat. reflexivity.
    - eexists _, 0%nat. by destruct w1. }
  destruct Hcopy as (sb & k & Hcopy). unfold mbind at 1, st_bind at 1. rewrite Hcopy.
  unfold mbind at 1, st_bind at 1, st_ok at 1, on_store_now at 1. unfold mbind at 1, st_bind at 1, now_secs at 1, on_store at 1.
  cbn [w_store tick]. rewrite append_calm by done.
  destruct (find_box _ _ _) as [b|]; [destruct (exists_row (message_key _ _) _)|]; cbn [ok].
  - eexists. split; [reflexivity|]. apply Hend; [done|]. cbn. rewrite Ht1. apply tx_frame_refl.
  - unfold Sink.ignore, on_store_now, mbind, st_bind, now_secs, on_store. cbn [w_store set_store].
    match goal with |- context [tx_link_message ?a ?i ?c ?s0] =>
      destruct (link_calm a i c s0 eq_refl) as (s' & -> & Hfs & Hfr) end.
    eexists. split; [reflexivity|]. apply Hend; [done|]. cbn. cbn in Hfr. by rewrite <- Ht1.
  - eexists. split; [reflexivity|]. apply Hend; [done|]. cbn. rewrite Ht1. apply tx_frame_refl.
Qed.

(** Recording, then the answer. *)
Lemma record_then svc su rc mid p body x w w1 (fin : st World str str) r w' :
  faults (w_store w) = [] -> w_store w1 = w_store w ->
  (forall w, snd (fin w) = w) ->
  (_ ← record_outbound_tx svc su rc mid p body x; fin) w1 = (r, w') ->
  (exists row, ledger_row (transactions (db (w_store w'))) mid x row
   /\ (exists_row (is_out mid) (transactions (db (w_store w))) = false -> new_out svc su rc body row))
  /\ r = fst (fin w').
Proof.
  intros Hf Hw Hfin. unfold mbind, st_bind.
  destruct (record_outbound_calm svc su rc mid p body x w1 ltac:(congruence)) as (w2 & -> & _ & row & Hrow & Hnew).
  rewrite Hw in Hnew. specialize (Hfin w2). destruct (fin w2) as [r2 w3] eqn:E. cbn in Hfin. subst w3.
  intros [= <- <-]. rewrite E. eauto.
Qed.

(** The exchange with the peer reads clock and entropy and leaves the store alone. *)
Lemma deliver_over_eq client su user pub mid p body w :
  deliver_over client su user pub mid p body w =
  (Ok (fst (send_invoice_over (entropy (w_ticks w) 16) (w_clock w (S (w_ticks w)))
              (w_clock w (S (S (w_ticks w)))) su user pub mid p body client)), tick 3 w).
Proof. done. Qed.

(** An outbound message id has one row. *)
Lemma out_row_unique d mid r r' :
  wf_db d -> r ∈ transactions d -> r' ∈ transactions d ->
  is_out mid r = true -> is_out mid r' = true -> r = r'.
Proof.
  intros Hd Hr Hr' Ho Ho'. unfold is_out in Ho, Ho'.
  apply andb_true_iff in Ho as [Hd1%bool_decide_eq_true Hm1%bool_decide_eq_true],
    Ho' as [Hd2%bool_decide_eq_true Hm2%bool_decide_eq_true].
  apply list_elem_of_lookup in Hr as [i Hi], Hr' as [j Hj]. assert (i = j); [|congruence].
  eapply (NoDup_lookup _ _ _ (t_direction r, t_message_id r) (wf_tx_key _ Hd)); rewrite list_lookup_fmap.
  - by rewrite Hi.
  - by rewrite Hj, Hd1, Hm1, <- Hd2, <- Hm2.
Qed.

Lemma has_domain rc : b_at ∈ rc -> is_Some (nth_error (split b_at rc) 1).
Proof.
  intros (a & b & -> & Ha)%list_elem_of_split_l. rewrite split_app by done. cbn.
  destruct (split b_at b) eqn:E; [by apply split_not_nil in E|]. by eexists.
Qed.

(** The ledger tells what became of a send. When the store does not fail, after a
    SEND by a named sender to a mailbox with a domain there is exactly one outbound
    ledger entry with the message id; its state is [sent] if and only if the client is
    told the invoice was delivered, and [failed] or [retrying] if the client is told of
    an error. If the id is new the entry names sender, recipient and body; if it is
    not, an entry that is already there, be it of another sender or recipient, is the
    one that is moved. *)
Theorem send_recorded svc su rc mid p body w r w' :
  inv wf_db (w_store w) -> faults (w_store w) = [] -> su <> [] -> (b_at ∈ rc) ->
  send svc su rc mid p body w = (r, w') ->
  exists x row, ledger_row (transactions (db (w_store w'))) mid x row
  /\ (forall row', row' ∈ transactions (db (w_store w')) -> is_out mid row' = true -> row' = row)
  /\ (exists_row (is_out mid) (transactions (db (w_store w))) = false -> new_out svc su rc body row)
  /\ match r with
     | Ok text => x = Sent /\ text = #"delivered " ++ mid ++ #" to " ++ rc
     | Err _ => x = Failed \/ x = Retrying
     end.
Proof.
  intros Hinv Hf Hsu Hat Hs. pose proof (wschema_send svc su rc mid p body w r w' Hs Hinv) as [Hwf' _].
  assert (Hgoal : exists x, (exists row, ledger_row (transactions (db (w_store w'))) mid x row
     /\ (exists_row (is_out mid) (transactions (db (w_store w))) = false -> new_out svc su rc body row))
     /\ match r with Ok text => x = Sent /\ text = #"delivered " ++ mid ++ #" to " ++ rc
        | Err _ => x = Failed \/ x = Retrying end).
  2: { destruct Hgoal as (x & (row & Hrow & Hnew) & Hr). exists x, row. split; [done|]. split; [|done].
       intros row' Hin Ho. eapply out_row_unique; [exact Hwf'|done|apply Hrow|done|apply Hrow]. }
  revert Hs. unfold send. rewrite bool_decide_eq_false_2 by done.
  destruct (has_domain rc Hat) as [dom ->].
  destruct (sv_resolver svc dom) as [pub|e].
  2: { intros [Hrow ->]%(record_then _ _ _ _ _ _ _ w); [|done..]. exists Failed. split; [done|]. by left. }
  destruct (match sv_endpoint_resolver svc dom with Ok ep => _ | Err e => _ end) as [ep|e].
  2: { intros [Hrow ->]%(record_then _ _ _ _ _ _ _ w); [|done..]. exists Failed. split; [done|]. by left. }
  destruct (mbind _ (dial ep dom)) as [client|e].
  2: { intros [Hrow ->]%(record_then _ _ _ _ _ _ _ w); [|done..]. exists Retrying. split; [done|]. by right. }
  erewrite st_bind_Ok by apply deliver_over_eq.
  match goal with |- context [match ?m with Ok _ => _ | Err _ => _ end] => destruct m as [u|e0] end.
  - intros [Hrow ->]%(record_then _ _ _ _ _ _ _ w); [|done..]. exists Sent. done.
  - intros [Hrow ->]%(record_then _ _ _ _ _ _ _ w); [|done..]. eexists. split; [exact Hrow|].
    cbn. destruct e0; eauto.
Qed.

End outbound.
