(* ===== verification/Daemon.v ===== *)
(** * The daemon as a whole

    A ZSMTP connection as [talk-protocol/src/server.rs] sets it up, over the store;
    and two daemons together: an invoice sent through the control service of one
    arrives in a mailbox of the other. *)

From S2P Require Export SecureFacts Dialogue.

Section daemon.
Context `{Signing} `{Encodings} `{RowIds} `{Templates} `{Argon2} `{Outside}
  `{Json Attestation} `{Json RegistrationAttestation} `{Json EmulatePayload}.

(** The default address provider draws from the daemon's entropy. *)
Definition draw32 (w : World) : str * World := (entropy (w_ticks w) 32, tick 1 w).
Definition daemon_provider : AddressProvider World := placeholder_provider draw32.

(** [serve_connection]. *)
Definition connection_session (dom : str) (domain_key : SigningKey) (sk : DeliverySink World)
    (dir : UserDirectory World) : ZsmptSession World :=
  with_directory (with_sink (with_domain_key daemon_provider dom domain_key) sk) dir.
Definition serve_connection (dom : str) (domain_key : SigningKey) (sk : DeliverySink World)
    (dir : UserDirectory World) (w : World) (c : conn)
    : option (result FramingError unit * ZsmptSession World * World * conn) :=
  run (connection_session dom domain_key sk dir) w c.

(** What happens to a daemon: a ZSMTP connection or a control connection, with the
    bytes that arrive on it. *)
Inductive Arrival := ZsmtpConnection (bytes : str) | ControlConnection (bytes : str).
Definition arrive (dom : str) (key : SigningKey) (k : StoreDeliverySink) (svc : SecureMailboxService)
    (a : Arrival) (w : World) : World :=
  match a with
  | ZsmtpConnection bytes =>
      match serve_connection dom key (store_sink k) store_user_directory w (mkConn bytes []) with
      | Some (_, _, w', _) => w'
      | None => w
      end
  | ControlConnection bytes =>
      match SecureMailbox.serve (service_handler svc) w (mkConn bytes []) with
      | Some (_, w', _) => w'
      | None => w
      end
  end.

End daemon.

(** ** The schema, over any bytes *)

Section schema.
Context `{Signing} `{Encodings} `{RowIdsLaws} `{Templates} `{Argon2} `{Outside}
  `{Json Attestation} `{Json RegistrationAttestation} `{Json EmulatePayload}.

Abbreviation ok_world w := (inv wf_db (w_store w)).

Lemma user_exists_keeps u w x w' : store_user_exists u w = (x, w') -> ok_world w -> ok_world w'.
Proof.
  unfold store_user_exists. destruct (on_store _ w) as [r w1] eqn:E. intros [= _ <-].
  eapply (wschema_op (get_user u)); [apply pres_query | exact E].
Qed.

(** The session's objects stay the daemon's, and its commands keep the schema. *)
Definition daemon_objects (k : StoreDeliverySink) (s : ZsmptSession World) : Prop :=
  sink s = Some (store_sink k) /\ directory s = Some store_user_directory /\ address_provider s = daemon_provider.

Lemma handle_keeps k cmd s w r s' w' :
  handle cmd s w = (r, s', w') -> daemon_objects k s /\ ok_world w -> daemon_objects k s' /\ ok_world w'.
Proof.
  intros Hh [(Hk & Hd & Hp) Hw].
  destruct (handle_config cmd s w r s' w' Hh) as (_ & _ & Hks & Hds & Hps).
  split; [unfold daemon_objects; by rewrite Hks, Hds, Hps|]. revert Hh.
  destruct cmd as [d|ch|m u|sd mid p b|c msg|]; cbn [handle].
  - destruct (on_hello d s) as [??]. by intros [= _ _ <-].
  - destruct (on_auth ch s) as [??]. by intros [= _ _ <-].
  - unfold on_addr, known_user. rewrite Hd. cbn [user_exists store_user_directory].
    destruct (negb _); [by intros [= _ _ <-]|]. destruct (_ ≟ _); [by intros [= _ _ <-]|].
    destruct (store_user_exists u w) as [known w1] eqn:Eu. apply user_exists_keeps in Eu; [|done].
    destruct (negb known); [by intros [= _ _ <-]|]. cbn [address_provider set_addr_user]. rewrite Hp.
    cbn. by intros [= _ _ <-].
  - unfold on_invoice. rewrite Hk.
    destruct (negb _); [by intros [= _ _ <-]|]. destruct (mid ≟ []); [by intros [= _ _ <-]|].
    destruct (addr_user s); [|by intros [= _ _ <-]]. destruct (peer_domain s); [|by intros [= _ _ <-]].
    cbn [deliver store_sink]. destruct (store_deliver _ _ _ _ _ _ w) as [o w1] eqn:E.
    intros [= _ _ <-]. by eapply wschema_deliver.
  - by intros [= _ _ <-].
  - by intros [= _ _ <-].
Qed.

Lemma zsmtp_keeps dom key k w c r s' w' c' :
  serve_connection dom key (store_sink k) store_user_directory w c = Some (r, s', w', c') ->
  ok_world w -> ok_world w'.
Proof.
  intros Hr Hw. refine (proj2 (run_preserves_all (fun s w => daemon_objects k s /\ ok_world w) _ _ _ _ _ _ _ _ Hr _)).
  - intros. by eapply handle_keeps.
  - split; [by repeat split | exact Hw].
Qed.

(** A control command keeps what the handler keeps. *)
Definition ckeeps {A} (m : st (World * conn) FramingError A) : Prop :=
  forall w c r w' c', m (w, c) = (r, (w', c')) -> ok_world w -> ok_world w'.
Lemma ckeeps_bind {A B} (m : st (World * conn) FramingError A) (f : A -> st (World * conn) FramingError B) :
  ckeeps m -> (forall x, ckeeps (f x)) -> ckeeps (m ≫= f).
Proof.
  intros Hm Hf w c r w' c'. unfold mbind, st_bind. destruct (m (w, c)) as [[x|e] [w1 c1]] eqn:E.
  - intros Hr Hw. eapply Hf; [exact Hr|]. by eapply Hm.
  - intros [= _ <- _]. by eapply Hm.
Qed.
Lemma ckeeps_ret {A} (x : A) : ckeeps (mret x).
Proof. by intros w c r w' c' [= _ <- _]. Qed.
Lemma ckeeps_io {A} (m : io A) : ckeeps (io_of m).
Proof. intros w c r w' c'. unfold io_of. destruct (m c). by intros [= _ <- _]. Qed.
Lemma ckeeps_blob : ckeeps (try_blob (W := World)).
Proof. intros w c r w' c'. unfold try_blob. destruct (read_blob c). by intros [= _ <- _]. Qed.
Lemma ckeeps_call {A B} (m : st World str A) (f : A -> B) g :
  wkeeps (inv wf_db) m -> ckeeps (call_of (run_result m f g)).
Proof.
  intros Hm w c r w' c'. unfold call_of, run_result. destruct (m w) as [x w1] eqn:E.
  intros [= _ <- _]. by eapply Hm.
Qed.
Hint Resolve ckeeps_bind ckeeps_ret ckeeps_io ckeeps_blob : talk.

Lemma ckeeps_line svc line : ckeeps (serve_line (service_handler svc) line).
Proof.
  unfold serve_line, serve_send, serve_register, serve_attest, serve_emulate, say. cbn [service_handler].
  repeat first [ apply ckeeps_bind; [|intros ?] | case_match ]; auto with talk.
  - apply ckeeps_call, wschema_send.
  - apply ckeeps_call, wschema_register.
  - apply ckeeps_call, wschema_attest.
  - apply ckeeps_call, wschema_emulate.
  - intros w c r w' c' [= _ <- _]. done.
Qed.

Lemma control_step_keeps svc w c o w' c' :
  SecureMailbox.serve_step (service_handler svc) w c = (o, w', c') -> ok_world w -> ok_world w'.
Proof.
  unfold serve_step. destruct (read_line c) as [[line|e] c1]; [|by intros [= _ <- _]].
  destruct (serve_line _ line (w, c1)) as [[[]|e] [w1 c2]] eqn:E; apply ckeeps_line in E; by intros [= _ <- _].
Qed.
Lemma control_keeps svc w c r w' c' :
  SecureMailbox.serve (service_handler svc) w c = Some (r, w', c') -> ok_world w -> ok_world w'.
Proof.
  unfold SecureMailbox.serve. generalize (S (length (rx c))). intros fuel. revert w c.
  induction fuel as [|f IH]; intros w c; [done|]. cbn [serve_loop].
  destruct (serve_step _ w c) as [[[x|] w1] c1] eqn:E; pose proof (control_step_keeps _ _ _ _ _ _ E).
  - intros [= _ <- _]. done.
  - intros Hr Hw. eapply IH; [exact Hr|auto].
Qed.

(** ** Properties *)

(** Nothing that arrives breaks the database. Whatever bytes arrive on whatever
    ZSMTP and control connections, in whatever order, and whatever statements of the
    store fail on the way, the constraints of the schema hold afterwards, also in the
    snapshot of an open transaction; and every connection is served to its end. *)
Theorem daemon_keeps_schema dom key k svc arrivals w :
  inv wf_db (w_store w) ->
  inv wf_db (w_store (foldl (fun w a => arrive dom key k svc a w) w arrivals))
  /\ (forall w bytes, is_Some (serve_connection dom key (store_sink k) store_user_directory w (mkConn bytes [])))
  /\ (forall w bytes, is_Some (SecureMailbox.serve (service_handler svc) w (mkConn bytes []))).
Proof.
  intros Hw. split; [|split].
  - revert w Hw. induction arrivals as [|a arrivals IH]; intros w Hw; cbn; [done|]. apply IH.
    destruct a as [bytes|bytes]; cbn [arrive].
    + destruct (serve_connection dom key (store_sink k) store_user_directory w (mkConn bytes []))
        as [[[[r s'] w'] c']|] eqn:E; [|done]. by eapply zsmtp_keeps.
    + destruct (SecureMailbox.serve (service_handler svc) w (mkConn bytes [])) as [[[r w'] c']|] eqn:E; [|done].
      by eapply control_keeps.
  - intros. apply run_total.
  - intros. apply serve_loop_total. lia.
Qed.

End schema.

(** ** Two daemons *)

Section two_daemons.
Context `{SigningLaws} `{EncodingsLaws} `{RowIdsLaws} `{Templates} `{Argon2} `{Outside}
  `{JsonLaws Attestation att_wf} `{Json RegistrationAttestation} `{Json EmulatePayload}.

(** An invoice of [su] for [ru], over the bytes that client and server write, as the
    receiving daemon stores it and the sending one records it. *)
Definition ready_for (ru : str) (wr : World) (mid : str) (u : user_row) (b : mailbox_row) : Prop :=
  faults (w_store wr) = [] /\ no_dangling (db (w_store wr))
  /\ user_named ru (db (w_store wr)) = Some u /\ find_box (u_id u) INBOX (db (w_store wr)) = Some b
  /\ exists_row (message_key (mb_id b) mid) (messages (db (w_store wr))) = false.

Lemma invoice_delivered svc su ru dom mid p body ep key k ws wr u b :
  faults (w_store ws) = [] -> ready_for ru wr mid u b -> (b_at ∉ ru) -> (b_at ∉ dom) ->
  sv_resolver svc dom = Ok (verifying_key key) -> sv_endpoint_resolver svc dom = Ok ep ->
  honest dom key (sv_sender_domain svc) (entropy (w_ticks ws) 16)
    (w_clock ws (S (w_ticks ws))) (w_clock ws (S (S (w_ticks ws)))) su ru mid body
    (fst (mint daemon_provider Ephemeral wr)) mid ->
  let sender := su ++ #"@" ++ sv_sender_domain svc in
  let '(subject, stored) := rendered k sender p body (w_clock wr (S (w_ticks wr))) in
  let d := db (w_store wr) in
  exists from_client from_server s' t1 t2 t3 n,
    serve_connection dom key (store_sink k) store_user_directory wr (mkConn from_client [])
      = Some (Ok tt, s', mkWorld
          (mkStore (recorded sender (ru ++ b_at :: dom) [] mid (next_rowid (map ms_id (messages d))) t2 t3
             (appended t1 b (mkNewMessage mid subject stored 0 sender (trust_as_str (trust_of (u_id u) sender d))) d))
             (saved (w_store wr)) [])
          (w_events wr ++ (if ss_events k then [MessageAppended (u_id u)] else [])) (w_clock wr) n,
        mkConn [] from_server)
    /\ (dial ep dom = Ok (mkConn from_server []) ->
        exists ws' row, send svc su (ru ++ #"@" ++ dom) mid p body ws
          = (Ok (#"delivered " ++ mid ++ #" to " ++ ru ++ #"@" ++ dom), ws')
          /\ ledger_row (transactions (db (w_store ws'))) mid Sent row).
Proof.
  intros Hfs (Hfr & Hdang & Hnamed & Hb & Hnew) Hat Hatd Hres Hep Hh.
  set (sdom := sv_sender_domain svc) in *. set (m := fst (mint daemon_provider Ephemeral wr)) in *.
  destruct (h_ru _ _ _ _ _ _ _ _ _ _ _ _ Hh) as (_ & Hru & _).
  destruct (h_su _ _ _ _ _ _ _ _ _ _ _ _ Hh) as (Hsu%word_nonempty & _).
  assert (Hex : user_exists store_user_directory ru wr = (true, wr)).
  { cbn. unfold store_user_exists. rewrite (on_store_eq _ _ _ _ (get_user_calm ru _ Hfr)), set_store_same.
    unfold user_named in Hnamed. by rewrite Hnamed. }
  assert (Hmint : mint daemon_provider Ephemeral wr = (m, tick 1 wr)) by done.
  pose proof (deliver_new k (su ++ #"@" ++ sdom) mid ru dom p body (tick 1 wr) u b Hfr Hru Hat Hnamed Hb Hnew) as Hdel.
  cbn zeta. change (w_clock (tick 1 wr) (w_ticks (tick 1 wr))) with (w_clock wr (S (w_ticks wr))) in Hdel.
  destruct (rendered k (su ++ #"@" ++ sdom) p body _) as [subject stored] eqn:Er.
  destruct Hdel as (t1 & t2 & t3 & n & Hdel).
  match type of Hdel with _ = (_, ?w3) => set (wr' := w3) in Hdel end.
  pose proof (server_runs dom key (store_sink k) store_user_directory daemon_provider sdom _ _ _ su ru mid p body
    m mid Hh wr wr (tick 1 wr) wr' (conj Hex (conj Hmint Hdel))) as Hrun.
  pose proof (client_connects dom key (store_sink k) store_user_directory daemon_provider sdom _ _ _ su ru mid body m mid Hh) as Hconn.
  pose proof (client_talks dom key (store_sink k) store_user_directory daemon_provider sdom _ _ _ su ru mid p body m mid Hh [] []) as Htalk.
  rewrite app_nil_r in Htalk. do 7 eexists. split; [exact Hrun|]. intros Hdial.
  destruct (record_outbound_calm svc su (ru ++ #"@" ++ dom) mid p body Sent (tick 3 ws) Hfs) as (ws' & Hrec & _ & row & Hrow & _).
  exists ws', row. split; [|done]. unfold send. rewrite bool_decide_eq_false_2 by done.
  change (ru ++ #"@" ++ dom) with (ru ++ b_at :: dom) in *. rewrite split_app, split_single by done.
  cbn [nth_error head default from_option id]. rewrite Hres, Hep, Hdial. cbn [mbind result_bind]. fold sdom. rewrite Hconn.
  cbn [fst]. erewrite st_bind_Ok by apply deliver_over_eq.
  match type of Htalk with context [set_stream (client0 _ _ _) ?c] =>
    change (set_stream (client0 dom sdom (mkConn [] [])) c) with (client0 dom sdom c) in Htalk end.
  rewrite Htalk. cbn [fst]. erewrite st_bind_Ok by exact Hrec. done.
Qed.

(** End to end. A user [su] of one daemon sends an invoice through its control
    service to [ru] at another daemon, whose key and endpoint its resolvers know and
    whose directory knows [ru]. There are byte streams, each what the other side
    writes, on which the receiving daemon serves the connection to its end; and when
    the network connects the two, the sender is told of the delivery, its ledger says
    [sent], and the recipient can fetch the message from INBOX with the sender's
    mailbox and the rendered invoice. *)
Theorem invoice_end_to_end svc su ru dom mid p body ep key k ws wr u b :
  faults (w_store ws) = [] ->
  ready_for ru wr mid u b -> (b_at ∉ ru) -> (b_at ∉ dom) ->
  sv_resolver svc dom = Ok (verifying_key key) -> sv_endpoint_resolver svc dom = Ok ep ->
  honest dom key (sv_sender_domain svc) (entropy (w_ticks ws) 16)
    (w_clock ws (S (w_ticks ws))) (w_clock ws (S (S (w_ticks ws)))) su ru mid body
    (fst (mint daemon_provider Ephemeral wr)) mid ->
  exists from_client from_server s' wr',
    serve_connection dom key (store_sink k) store_user_directory wr (mkConn from_client [])
      = Some (Ok tt, s', wr', mkConn [] from_server)
    /\ (exists i now meta, fetch_message (u_id u) i (w_store wr')
          = (Ok (mkMessage meta (snd (rendered k (su ++ #"@" ++ sv_sender_domain svc) p body now))), w_store wr')
          /\ meta_message_id meta = mid /\ meta_sender meta = su ++ #"@" ++ sv_sender_domain svc)
    /\ (dial ep dom = Ok (mkConn from_server []) ->
        exists ws' row, send svc su (ru ++ #"@" ++ dom) mid p body ws
          = (Ok (#"delivered " ++ mid ++ #" to " ++ ru ++ #"@" ++ dom), ws')
          /\ ledger_row (transactions (db (w_store ws'))) mid Sent row).
Proof.
  intros Hfs Hr Hat Hatd Hres Hep Hh. pose proof Hr as (_ & Hdang & _ & Hb & _).
  pose proof (invoice_delivered svc su ru dom mid p body ep key k ws wr u b Hfs Hr Hat Hatd Hres Hep Hh) as Hd.
  cbn zeta in Hd. destruct (rendered k (su ++ #"@" ++ sv_sender_domain svc) p body _) as [subject stored] eqn:Er.
  destruct Hd as (from_client & from_server & s' & t1 & t2 & t3 & n & Hrun & Hsend).
  exists from_client, from_server, s'. eexists. split; [exact Hrun|]. split; [|exact Hsend].
  eexists _, (w_clock wr (S (w_ticks wr))), _. rewrite Er. cbn [snd]. split; [|split].
  - exact (fetch_delivered (u_id u) b _ _ [] mid subject stored _ t1 t2 t3 _ _ Hdang Hb).
  - done.
  - done.
Qed.

End two_daemons.
