(* ===== verification/ToyDaemon.v ===== *)
(** * Two small concrete daemons

    Implementations of the remaining interfaces and the inputs on which the
    theorems about the control channel and the daemon are applied. *)

From S2P Require Export Daemon.

Module ToyDaemon.
Import Toy ToyJson ToyStore ToyDelivery.

#[export] Instance argon : Argon2 := {|
  argon2_hash := fun salt pw => Ok (salt ++ #"$" ++ pw);
  phc_parses := fun _ => true;
  argon2_verify := fun pw h => ends_with (#"$" ++ pw) h |}.
#[export] Instance argon_laws : Argon2Laws.
Proof.
  constructor. intros salt pw h Hh. apply Ok_inj in Hh as <-. split; [done|]. cbn. unfold ends_with.
  apply bool_decide_eq_true. exists salt. by apply strip_suffix_Some.
Qed.

#[export] Instance outside : Outside := {|
  entropy := fun _ n => replicate n "r"%char;
  dial := fun _ _ => Err (ClIo #"no route");
  outside_texts := {| io_text := #"io"; sql_text := fun _ => #"sql" |}; version := #"0.1.0" |}.

#[export] Instance emulate_json : Json EmulatePayload := {|
  to_json := fun p => enc_fields [ep_sender_name p; ep_sender_address p; ep_amount p; ep_invoice p];
  from_json := fun s => match dec_fields s with Some [n; a; x; i] => Some (mkEmulate n a x i) | _ => None end |}.
#[export] Instance emulate_json_laws : JsonLaws EmulatePayload (fun _ => True).
Proof.
  split.
  - intros [n a x i] _. cbn [to_json from_json emulate_json]. by rewrite dec_enc_fields.
  - intros p _. apply utf8_valid_ascii, enc_fields_ascii.
Qed.

#[export] Instance dns : DnsExternals := {|
  env_var := fun _ => None;
  http_get := fun _ => Ok [];
  json_tree := fun _ =>
    let record (type : Z) (data : str) := JvObject [( #"type", JvInt type); ( #"data", JvString data)] in
    Ok (JvObject [( #"answer", JvArray [record 33%Z #"20 5 2525 second.b.org"; record 33%Z #"10 5 465 first.b.org"; record 1%Z #"10.0.0.1"])]);
  json_mismatch := [];
  key_from_bytes := fun b => Ok (vkey b);
  hex_message := fun _ => []; b64_message := fun _ => [] |}.

(** ** The control channel *)

(** A handler that remembers the calls. *)
Definition echo : SecureMailboxHandler (list str) := mkHandler (list str)
  (fun s r m _ b w => (SendOk m, w ++ [s; r; m; b]))
  (fun u _ w => (AttestOk u, w ++ [u]))
  (fun u p k _ w => (RegisterOk, w ++ [u; p; k]))
  (fun _ => #"up")
  (fun u _ w => (EmulateError #"no", w ++ [u])).

Definition calls : list Call :=
  [CallStatus; CallSend #"alice" #"bob@b.org" #"m1" Sealed #"blob"; CallRegister #"carol" #"pw" #"00" None;
   CallAttest #"alice" Attested; CallEmulate #"alice" (mkEmulate #"N" #"t1" #"1" #"inv")].

Lemma mailbox_dialogue_witness :
  SecureMailbox.serve echo [] (mkConn (concat (map wire calls) ++ line_bytes #"QUIT") [])
  = Some (Ok tt, snd (effects echo calls []), mkConn [] ([] ++ fst (effects echo calls []) ++ line_bytes #"OK bye")).
Proof.
  apply (mailbox_dialogue (fun _ => True) echo calls [] []). unfold calls. cbn [calls_ok].
  repeat first [ exact I | vm_compute; reflexivity | discriminate | by apply not_in_lit
               | apply Z.leb_le; vm_compute; reflexivity | split ].
Defined.

Definition doh : str := #"https://dns".
Lemma srv_lowest_priority_witness :
  match doh_resolve_endpoint doh #"b.org" with
  | Ok ep => exists d p w port target,
      d ∈ [ #"20 5 2525 second.b.org"; #"10 5 465 first.b.org"] /\ parse_srv d = Some (p, w, port, target)
      /\ ep = target ++ #":" ++ show_Z port
      /\ forall d' x, d' ∈ [ #"20 5 2525 second.b.org"; #"10 5 465 first.b.org"] -> parse_srv d' = Some x ->
           (p <= priority x)%Z
  | Err e => e = NoSrv #"b.org" /\ forall d, d ∈ [ #"20 5 2525 second.b.org"; #"10 5 465 first.b.org"] ->
               parse_srv d = None
  end.
Proof. apply (proj1 (srv_lowest_priority doh #"b.org" _ ltac:(by vm_compute) ltac:(by vm_compute))). Defined.

(** ** The daemon *)

Definition key_b : @SigningKey toy_signing := skey #"key of b".
Definition svc_a : SecureMailboxService := mkService #"a.org" None
  (fun _ => Ok (verifying_key key_b)) (fun _ => Ok #"b.org:465") (skey #"key of a") k0 None [].

Lemma register_spec_witness :
  fst (register svc_a #"carol" #"pw" (hex (replicate 32 "k"%char)) None w0) = Ok tt.
Proof.
  pose proof (register_spec svc_a #"carol" #"pw" (hex (replicate 32 "k"%char)) None (replicate 32 "k"%char) w0) as Hx.
  destruct (register svc_a #"carol" #"pw" (hex (replicate 32 "k"%char)) None w0) as [r w'].
  assert (Hn : exists_row (fun u => u_username u ≟ #"carol") (users (db (w_store w0))) = false) by (by vm_compute).
  rewrite Hn in Hx. apply Hx; [by vm_compute | exact (proj1 store0_inv) | by vm_compute | done | done | done |].
  intros salt. by eexists.
Defined.

Lemma send_recorded_witness :
  exists x row,
    ledger_row (transactions (db (w_store (snd (send svc_a alice #"bob@b.org" #"m9" Sealed #"blob" w0))))) #"m9" x row
    /\ (x = Failed \/ x = Retrying).
Proof.
  destruct (send_recorded svc_a alice #"bob@b.org" #"m9" Sealed #"blob" w0
    (Err (#"connect: " ++ #"transport: no route"))
    (snd (send svc_a alice #"bob@b.org" #"m9" Sealed #"blob" w0))
    store0_inv ltac:(by vm_compute) ltac:(done) ltac:(apply (bool_decide_unpack _); by vm_compute) ltac:(by vm_compute))
    as (x & row & Hrow & _ & _ & Hx). eauto.
Defined.

Lemma daemon_keeps_schema_witness :
  inv wf_db (w_store (foldl (fun w a => arrive #"b.org" key_b k0 svc_a a w) w0
    [ZsmtpConnection (line_bytes #"HELLO x"); ControlConnection (line_bytes #"SEND a b@c m sealed")])).
Proof.
  exact (proj1 (daemon_keeps_schema #"b.org" key_b k0 svc_a
    [ZsmtpConnection (line_bytes #"HELLO x"); ControlConnection (line_bytes #"SEND a b@c m sealed")] w0 store0_inv)).
Defined.

Definition ws0 : World := mkWorld start [] (fun n => 1700000000 + Z.of_nat n)%Z 0.

Lemma honest_daemons :
  honest #"b.org" key_b #"a.org" (entropy 0 16) 1700000001 1700000002 #"bob" alice #"m-1"
    #"sealed bytes" (fst (mint daemon_provider Ephemeral w0)) #"m-1".
Proof.
  assert (Hl : forall a b : Z, (a <=? b)%Z = true -> (a <= b)%Z) by (intros a b; apply Z.leb_le).
  constructor; [exact domain_name_b | exact domain_name_a | reflexivity | | | | | | | |];
    repeat (split || (vm_compute; reflexivity) || (apply Hl; vm_compute; reflexivity) || discriminate).
Qed.

Lemma ready_alice : ready_for alice w0 #"m-1" alice_row box1.
Proof.
  split; [by vm_compute|]. split; [|by repeat split; vm_compute].
  intros t i Ht. apply list_elem_of_singleton in Ht. subst t. discriminate.
Qed.

Lemma invoice_end_to_end_witness :
  exists from_client from_server s' wr',
    serve_connection #"b.org" key_b (store_sink k0) store_user_directory w0 (mkConn from_client [])
      = Some (Ok tt, s', wr', mkConn [] from_server)
    /\ (exists i now meta, fetch_message 1 i (w_store wr')
          = (Ok (mkMessage meta (snd (rendered k0 #"bob@a.org" Sealed #"sealed bytes" now))), w_store wr')
          /\ meta_message_id meta = #"m-1" /\ meta_sender meta = #"bob@a.org")
    /\ (dial #"b.org:465" #"b.org" = Ok (mkConn from_server []) ->
        exists ws' row, send svc_a #"bob" #"alice@b.org" #"m-1" Sealed #"sealed bytes" ws0
          = (Ok #"delivered m-1 to alice@b.org", ws')
          /\ ledger_row (transactions (db (w_store ws'))) #"m-1" Sent row).
Proof.
  apply (invoice_end_to_end svc_a #"bob" alice #"b.org" #"m-1" Sealed #"sealed bytes" #"b.org:465" key_b k0
    ws0 w0 alice_row box1);
    [reflexivity | exact ready_alice
    | by apply not_in_lit | by apply not_in_lit | reflexivity | reflexivity | exact honest_daemons].
Defined.

End ToyDaemon.
