(* ===== verification/ToyImap.v ===== *)
(** * A small IMAP server

    Two users and a mailbox with three messages, one of them marked deleted: the
    inputs on which the theorems about the session and the connection are applied. *)

From S2P Require Import Sink.
From S2P Require Export ToyDaemon ImapServerFacts ImapWire.

Module ToyImap.
Import Toy ToyKeys ToyStore ToyDaemon.

#[export] Instance times : TimeFormat := {| internaldate_format := fun t => Some (show_Z t); rfc2822_format := fun t => Some (show_Z t) |}.
#[export] Instance groups : OsGroups := {| getgrnam := fun g => if g ≟ #"zsmtp" then Some [alice] else None |}.

(** The channel as a queue that remembers a loss. *)
#[export] Instance broadcast : Broadcast := {|
  Receiver := nat * bool * list MailboxEvent;
  subscribe := fun n => (n, false, []);
  sent := fun e '(n, lag, l) => if (length l <? n)%nat then (n, lag, l ++ [e]) else (n, true, tail l ++ [e]);
  recv := fun '(n, lag, l) =>
    if lag : bool then Some (Lagged, (n, false, l))
    else match l with [] => None | e :: l => Some (Event e, (n, false, l)) end |}.
#[export, refine] Instance broadcast_laws : BroadcastLaws := {|
  capacity := fun q => fst (fst q); lagging := fun q => snd (fst q); pending := snd |}.
Proof.
  - done.
  - intros e [[n lag] l]. unfold sent, broadcast. destruct (length l <? n)%nat; reflexivity.
  - intros e [[n lag] l] Hl%Nat.ltb_lt. unfold sent, broadcast. cbn [fst snd] in *. by rewrite Hl.
  - intros e [[n lag] l] Hl%Nat.ltb_ge. unfold sent, broadcast. cbn [fst snd] in *. by rewrite Hl.
  - intros [[n lag] l]. cbn. intros ->. by eexists.
  - intros [[n lag] l]. cbn. intros ->. destruct l; [done|]. by eexists.
Defined.

Definition ops1 : list Op :=
  [OpCreateUser 1000 alice #"salt$secret" #"k1" None None;
   OpCreateUser 1001 under #"salt$other" #"k2" None None;
   OpAppend 2000 1 INBOX m1; OpAppend 2001 1 INBOX m2; OpAppend 2002 1 INBOX (new_invoice #"m3" #"s3" #"body three");
   OpAppend 2003 2 INBOX m1;
   OpSetFlags 1 INBOX 2 DELETED true].
Definition store1 : Store := run_ops ops1 start.

Lemma store1_inv : inv wf_db store1.
Proof.
  unfold store1. generalize ops1. intros os. generalize start_inv. generalize start.
  induction os as [|o os IH]; intros s Hs; cbn; [done|].
  apply IH. destruct (run_op o s) as [r s'] eqn:E. by eapply pres_op.
Qed.

Definition server : ImapServer := with_domain (server_new #"mail.a.org") #"a.org".
Definition box_1 : mailbox_row := mkMailboxRow 1 1 INBOX 1000 4.
Definition selected : ImapSession := mkImap Selected alice 1 Database #"a.org" INBOX.

Lemma selected_here : selected_box selected store1 box_1.
Proof. split; [done|]. split; [by vm_compute|]. split; [exact (proj1 store1_inv)|]. by vm_compute. Qed.

(** The right password logs in; a wrong one does not. *)
Lemma login_exact_witness :
  imap_handle (mkParsed #"A1" #"LOGIN" [ #"alice@A.ORG"; #"secret"]) (new_session server, store1)
    = (#"A1 OK LOGIN completed" ++ crlf, (set_user 1 alice (new_session server), store1))
  /\ fst (snd (imap_handle (mkParsed #"A2" #"LOGIN" [ #"alice"; #"guess"]) (new_session server, store1)))
     = new_session server.
Proof.
  split; [by vm_compute|].
  destruct (imap_handle (mkParsed #"A2" #"LOGIN" [ #"alice"; #"guess"]) (new_session server, store1)) as [out [s' w']] eqn:E.
  destruct (login_exact _ _ _ _ _ _ (eq_refl NotAuthenticated : im_state (new_session server) = _) E) as (_ & _ & Hl).
  change (login_request (mkParsed #"A2" #"LOGIN" [ #"alice"; #"guess"])) with (Some ( #"alice", #"guess")) in Hl.
  cbv beta iota zeta in Hl.
  assert (Ha : authenticates (im_auth_mode (new_session server)) (im_domain (new_session server)) (db store1) #"alice" #"guess" = None)
    by (by vm_compute).
  rewrite Ha in Hl. exact (proj1 (proj1 Hl)).
Defined.



Lemma fetch_literal_witness :
  exists head, fetch_response meta_1 (mkFetch true false false false false false BsText) #"body" (mkIdentity #"b" #"a")
  = head ++ #" {4}" ++ crlf ++ #"body)" ++ crlf.
Proof.
  destruct (fetch_literal meta_1 (mkFetch true false false false false false BsText) #"body" (mkIdentity #"b" #"a") eq_refl)
    as (head & Hx & Hu & _).
  exists head. rewrite Hx, Hu by (by vm_compute). done.
Defined.

(** *** What a mail client reads *)

Lemma show_text z : text (show_Z z) = true.
Proof. unfold text. by rewrite plain_show_Z, utf8_valid_ascii by apply show_Z_ascii. Qed.
#[export] Instance times_texts : TimeTexts.
Proof. constructor; intros t x [= <-]; apply show_text. Qed.
#[export] Instance sql_texts : SqlTexts.
Proof. intros []; (split; [done|by apply ends_line_decide]). Qed.

Lemma readable_selected : readable selected store1.
Proof. split; [by vm_compute|]. constructor; apply forallb_all; by vm_compute. Qed.

Definition fetch_cmd : ParsedCommand := mkParsed #"A3" #"FETCH" [ #"1:*"; #"(ENVELOPE"; #"BODY[HEADER.FIELDS"; #"(SUBJECT)])"].

(** A subject with a line end puts a line of its own into the ENVELOPE, which a client
    takes for the completion of its command. *)
Definition forged_subject : str := #"x" ++ crlf ++ #"A3 NO mailbox is gone" ++ crlf ++ #"* ".
Definition store_forged : Store := run_ops [OpAppend 2004 1 INBOX (new_invoice #"m4" forged_subject #"body")] store1.
Example subject_forges_reply :
  exists l, (let out := fst (imap_handle (mkParsed #"A3" #"UID" [ #"FETCH"; #"4"; #"(ENVELOPE)"]) (selected, store_forged)) in
      read_replies (length out) out) = Some l
    /\ mkResponse (tagged_line #"A3" StNo #"mailbox is gone") None ∈ l.
Proof.
  eexists. split; [by vm_compute|]. right. left.
Qed.

(** *** A connection *)

Definition login_cmd : ParsedCommand := mkParsed #"A1" #"LOGIN" [ #"alice"; #"secret"].
Definition select_cmd : ParsedCommand := mkParsed #"A2" #"select" [ #"inbox"].
Definition expunge_cmd : ParsedCommand := mkParsed #"A3" #"EXPUNGE" [].
Definition sent : str := concat (map cmd_line [login_cmd; select_cmd; expunge_cmd]).



(** Of two events pending in IDLE, the one for the session's user is told. *)
Definition idle_conn : Conn :=
  mkImapConn selected store1 reader_default (64%nat, false, [MessageAppended 2; MessageAppended 1]) (Idling #"A4" []) [] [].


(** The continuation of an IDLE is written before the replies to the commands that
    precede it in the same read, and a session that is not logged in may idle. *)
Example idle_overtakes :
  exists c, on_read ( #"A1 NOOP" ++ crlf ++ #"A2 IDLE" ++ crlf) (accept server store1) = c
  /\ cn_phase c = Idling #"A2" [] /\ cn_out c = #"A1 OK NOOP completed" ++ crlf
  /\ cn_written c = imap_greeting #"mail.a.org" ++ #"+ idle" ++ crlf.
Proof. eexists. split; [reflexivity|]. repeat split; by vm_compute. Qed.

(** Commands behind DONE in the same read are dropped. *)
Example done_drops :
  exists c, on_read ( #"DONE" ++ crlf ++ #"A5 NOOP" ++ crlf) idle_conn = c
  /\ cn_phase c = Serving /\ cn_written c = #"A4 OK IDLE terminated" ++ crlf.
Proof. eexists. split; [reflexivity|]. split; by vm_compute. Qed.

(** Sequence sets. *)
Example ranges :
  map (fun r => filter (fun u => in_range r u 7 = true) [1; 2; 3; 4; 5; 6; 7; 8]%Z)
    [ #"*"; #"2:4"; #"4:2"; #"1,3,*"; #"6:*"; #"x"]
  = [[7]; [2; 3; 4]; [2; 3; 4]; [1; 3; 7]; [6; 7]; [1]]%Z.
Proof. by vm_compute. Qed.

End ToyImap.
