(* ===== verification/Journey.v ===== *)
(** * From the sender's command to the recipient's mail client

    The control service of one daemon, the protocol between two, delivery, the store,
    the notification of IDLE and FETCH, one after the other: what a mail client that
    waits in IDLE sees of an invoice. *)

From S2P Require Import Sink.
From S2P Require Export Daemon ImapServerFacts.

(** ** The mailbox after a delivery *)

Lemma bind_ext_in {A B} (f g : A -> list B) l : (forall x, x ∈ l -> f x = g x) -> l ≫= f = l ≫= g.
Proof.
  induction l as [|x l IH]; intros Hf; [done|]. cbn. rewrite (Hf x) by left. f_equal. apply IH.
  intros y Hy. apply Hf. by right.
Qed.

(** The row that a delivery inserts. *)
Definition new_row `{RowIds} (t1 : Z) (b : mailbox_row) (mid subject stored sender trust : str) (d : Db) : message_row :=
  mkMessageRow (next_rowid (map ms_id (messages d))) (mb_id b) mid (mb_uidnext b) t1 0 subject
    (Z.of_nat (length stored)) stored sender trust.

Section delivered.
Context `{RowIdsLaws}.

Lemma left_join_recorded sender recipient amount mid t2 t3 d d0 r rid :
  transactions d = transactions d0 -> ms_id r <> rid ->
  left_join (recorded sender recipient amount mid rid t2 t3 d) r = left_join d0 r.
Proof.
  intros Ht Hr. unfold left_join, recorded. rewrite Ht. destruct (exists_row _ _); [by rewrite Ht|].
  cbn [transactions set_transactions]. rewrite select_app, (select_none _ [_]), app_nil_r; [done|].
  intros t Hin. apply list_elem_of_singleton in Hin as ->. cbn. apply bool_decide_eq_false. congruence.
Qed.

Lemma left_join_new sender recipient amount mid t2 t3 d d0 row :
  transactions d = transactions d0 -> no_dangling d0 -> ms_id row = next_rowid (map ms_id (messages d0)) ->
  exists t, left_join (recorded sender recipient amount mid (ms_id row) t2 t3 d) row = [(row, t)].
Proof.
  intros Ht Hd Hr.
  assert (Hs : select (fun t => t_message_row_id t ≟ Some (ms_id row)) (transactions d0) = []).
  { apply select_none. intros t Hin. apply bool_decide_eq_false. intros Hl. apply (Hd t _ Hin) in Hl.
    rewrite Hr in Hl. by apply (next_rowid_fresh (map ms_id (messages d0))). }
  unfold left_join, recorded. rewrite Ht. destruct (exists_row _ _).
  - rewrite Ht, Hs. eauto.
  - cbn [transactions set_transactions]. rewrite select_app, Hs, select_one by (cbn; apply str_eqb_refl). eauto.
Qed.

(** The listing of the mailbox is the one before and the new message. *)
Lemma listing_delivered sender recipient amount mid subject stored trust t1 t2 t3 b d :
  no_dangling d ->
  let row := new_row t1 b mid subject stored sender trust d in
  let d' := recorded sender recipient amount mid (next_rowid (map ms_id (messages d))) t2 t3
              (appended t1 b (mkNewMessage mid subject stored 0 sender trust) d) in
  exists t, listing (bump_uidnext b) d' ≡ₚ (row, t) :: listing b d.
Proof.
  intros Hdang row d'.
  destruct (left_join_new sender recipient amount mid t2 t3 (appended t1 b (mkNewMessage mid subject stored 0 sender trust) d)
    d row eq_refl Hdang eq_refl) as [t Ht]. exists t.
  unfold listing. rewrite !sort_by_perm. unfold d' at 2. rewrite recorded_messages.
  change (messages (appended t1 b _ d)) with (messages d ++ [row]).
  change (mb_id (bump_uidnext b)) with (mb_id b). rewrite select_app, bind_app.
  rewrite (select_one _ row) by apply Z.eqb_refl.
  assert (Hj : [row] ≫= left_join d' = [(row, t)]) by (cbn [mbind list_bind]; rewrite (Ht : left_join d' row = _); done).
  rewrite Hj.
  rewrite Permutation_app_comm. cbn [app]. apply Permutation_skip.
  apply reflexive_eq, bind_ext_in. intros r [Hr _]%elem_of_select. apply left_join_recorded; [done|].
  intros He. apply (next_rowid_fresh (map ms_id (messages d))). rewrite <- He. by apply (list_elem_of_fmap_2 ms_id).
Qed.

End delivered.

(** ** A set of one UID *)

Lemma in_range_one n uid count : (1 <= n <= u32_max)%Z -> in_range (show_Z n) uid count = (uid =? n)%Z.
Proof.
  intros Hn. unfold in_range. rewrite split_single by (by apply show_Z_not_in). cbn [existsb]. rewrite orb_false_r.
  unfold part_in_range. rewrite split_once_None by (by apply show_Z_not_in).
  unfold seq_num. rewrite bool_decide_eq_false_2.
  - unfold parse_u32. rewrite parse_int_show by lia. cbn. by rewrite Z.max_l by lia.
  - intros Hs. assert (Hd : "*"%char ∈ show_Z n) by (rewrite Hs; left). apply show_Z_bytes in Hd as [?|?]; done.
Qed.

Lemma filter_perm_one {A} (p : A -> bool) l l' x :
  l ≡ₚ x :: l' -> p x = true -> (forall y, y ∈ l' -> p y = false) -> filter (fun y => p y = true) l = [x].
Proof.
  intros Hl Hx Hn. apply Permutation_singleton_r. rewrite Hl, filter_cons_True by done.
  apply Permutation_skip. apply reflexive_eq, elem_of_nil_inv. intros y [Hp Hy]%list_elem_of_filter.
  by rewrite Hn in Hp.
Qed.

(** ** A client in IDLE *)

Section client.
Context `{RowIdsLaws} `{Broadcast} `{!BroadcastLaws} `{Encodings} `{ErrorTexts} `{KeyCrypto} `{Argon2} `{OsGroups} `{TimeFormat}.

(** A connection of [u] that waits in IDLE on INBOX and has been told everything. *)
Record waiting (c : Conn) (u : user_row) (tag : str) : Prop := {
  wt_state : im_state (cn_session c) = Selected;
  wt_user : im_user_id (cn_session c) = u_id u;
  wt_box : im_selected (cn_session c) = INBOX;
  wt_phase : cn_phase c = Idling tag [];
  wt_reader : cn_reader c = reader_default;
  wt_pending : pending (cn_events c) = [];
  wt_lagging : lagging (cn_events c) = false;
  wt_capacity : (0 < capacity (cn_events c))%nat;
}.

Lemma told c u tag w b :
  waiting c u tag -> faults w = [] -> find_box (u_id u) INBOX (db w) = Some b ->
  exists q, on_event (set_events (sent (MessageAppended (u_id u)) (cn_events c)) (set_cn_store w c))
  = mkImapConn (cn_session c) w reader_default q (Idling tag []) (cn_out c)
      (cn_written c ++ untagged (show_nat (length (listing b (db w))) ++ #" EXISTS")).
Proof.
  intros [Hs Hu Hi Hp Hr Hq Hl Hc] Hf Hb.
  destruct (sent_pending (MessageAppended (u_id u)) (cn_events c) ltac:(rewrite Hq; cbn; lia)) as [Hq' Hl'].
  rewrite Hq in Hq'. cbn [app] in Hq'. rewrite Hl in Hl'.
  destruct (drain_events [MessageAppended (u_id u)]
    (set_events (sent (MessageAppended (u_id u)) (cn_events c)) (set_cn_store w c)) tag [] b) as (q & _ & _ & _ & Hd);
    [done|done|done|done|by cbn; rewrite Hu|].
  exists q. cbn [length Nat.iter] in Hd. etransitivity; [exact Hd|].
  cbn [set_events set_cn_store cn_session cn_store cn_reader cn_out cn_written]. rewrite Hr. f_equal. f_equal.
  rewrite filter_cons_True by (cbn; by rewrite Hu, Z.eqb_refl). cbn. by rewrite app_nil_r.
Qed.

Lemma done_read s w q tag out written :
  on_read ( #"DONE" ++ crlf) (mkImapConn s w reader_default q (Idling tag []) out written)
  = mkImapConn s w reader_default q Serving (out ++ tagged tag StOk #"IDLE terminated")
      (written ++ out ++ tagged tag StOk #"IDLE terminated").
Proof.
  unfold on_read, on_read_idling. cbn [cn_phase cn_reader]. rewrite bool_decide_eq_false_2 by done.
  assert (Hf : feed reader_default ( #"DONE" ++ crlf) = Some (Ok [mkParsed [] #"DONE" []], reader_default)) by by vm_compute.
  rewrite Hf. cbn [existsb pc_name]. rewrite str_eqb_refl. reflexivity.
Qed.

(** Reading one printed command that is answered. *)
Lemma command_read cmd s w q out written :
  printable_cmd cmd = true -> answered (read_cmd cmd) = true ->
  let '(reply, (s', w')) := imap_handle (read_cmd cmd) (s, w) in
  exists out', on_read (cmd_line cmd) (mkImapConn s w reader_default q Serving out written)
  = mkImapConn s' w' reader_default q Serving out' (written ++ reply).
Proof.
  intros Hp Ha.
  assert (Hne : cmd_line cmd <> []) by (unfold cmd_line, crlf; by destruct (cmd_text cmd)).
  pose proof (read_all_commands [cmd_line cmd] [cmd] [] (mkImapConn s w reader_default q Serving out written)
    ltac:(by constructor) ltac:(cbn; by rewrite Ha) ltac:(by constructor) eq_refl eq_refl
    ltac:(by apply not_elem_of_nil) eq_refl) as Hr.
  cbn [map imap_run] in Hr. unfold acting in Hr. cbn [cn_session cn_store cn_events cn_written] in Hr.
  destruct (imap_handle (read_cmd cmd) (s, w)) as [reply [s' w']]. cbn [concat] in Hr.
  rewrite app_nil_r in Hr. exact Hr.
Qed.

(** The command that asks for a message, and what it asks for. *)
Definition fetch_body (tag : str) (uid : Z) : ParsedCommand := mkParsed tag #"UID" [ #"FETCH"; show_Z uid; #"BODY[]"].
Definition whole : FetchRequest := mkFetch true true true false false false BsFull.

Lemma fetch_body_printable tag uid : is_atom tag = true -> printable_cmd (fetch_body tag uid) = true.
Proof.
  intros Ht. unfold printable_cmd, fetch_body. cbn [pc_tag pc_name pc_args forallb]. rewrite Ht.
  assert (Hz : utf8_valid (show_Z uid) && is_nl_free (show_Z uid) = true).
  { rewrite utf8_valid_ascii by apply show_Z_ascii. unfold is_nl_free. apply bool_decide_eq_true. by apply show_Z_not_in. }
  rewrite Hz. by vm_compute.
Qed.

(** Asking for the message that a delivery inserted. *)
Lemma fetch_new tag t b row s w l :
  is_atom tag = true -> selected_box s w b -> (1 <= ms_uid row <= u32_max)%Z ->
  listing b (db w) ≡ₚ (row, t) :: l -> (forall p, p ∈ l -> (0 <= ms_uid (fst p) < ms_uid row)%Z) ->
  let meta := row_to_meta (mb_uidvalidity b) row t in
  imap_handle (read_cmd (fetch_body tag (ms_uid row))) (s, w)
  = (fetch_response meta whole (ms_body row) (message_identity s meta) ++ tagged tag StOk #"FETCH completed", (s, w)).
Proof.
  intros Ht Hbox Hu Hl Hlt meta.
  assert (Hc : fetches (read_cmd (fetch_body tag (ms_uid row))) (show_Z (ms_uid row)) #"BODY[]" []).
  { right. split; [by vm_compute|]. exists #"FETCH". split; [by vm_compute|done]. }
  pose proof (fetch_handled _ _ _ _ _ _ _ Hbox Hc) as Hh. cbn zeta in Hh. rewrite Hh. clear Hh.
  rewrite (filter_perm_one (fun p => in_range _ _ _) _ l (row, t) Hl).
  - cbn [map concat]. rewrite app_nil_r. reflexivity.
  - rewrite in_range_one by done. cbn [fst]. unfold wrap. apply Z.eqb_eq. apply Z.mod_small. unfold u32_max in Hu. lia.
  - intros p Hp. rewrite in_range_one by done. apply Z.eqb_neq. specialize (Hlt p Hp). unfold wrap, u32_max in *.
    rewrite Z.mod_small by lia. lia.
Qed.

End client.

(** ** The whole way *)

Section journey.
Context `{SigningLaws} `{EncodingsLaws} `{RowIdsLaws} `{Templates} `{Argon2} `{Outside}
  `{JsonLaws Attestation att_wf} `{Json RegistrationAttestation} `{Json EmulatePayload}
  `{Broadcast} `{!BroadcastLaws} `{KeyCrypto} `{OsGroups} `{TimeFormat}.

(** A connection after the world went from [w] to [w']: it sees the store, and the
    events broadcast on the way are in its channel. *)
Definition hears (w w' : World) (c : Conn) : Conn :=
  foldl (fun c e => set_events (sent e (cn_events c)) c) (set_cn_store (w_store w') c)
    (drop (length (w_events w)) (w_events w')).

(** The mailbox counts its messages with UIDs that the wire can carry. *)
Definition uids_fit (d : Db) (b : mailbox_row) : Prop :=
  uid_inv d /\ (1 <= mb_uidnext b <= u32_max)%Z /\ (forall r, r ∈ messages d -> 0 <= ms_uid r)%Z.


End journey.

(** ** A small journey

    The two daemons and a mail client in IDLE: the inputs on which the theorem is applied. *)

From S2P Require Import ToyImap.

Module ToyJourney.
Import Toy ToyJson ToyKeys ToyStore ToyDelivery ToyDaemon ToyImap.

(** Alice's client waits in IDLE on her empty INBOX. *)
Definition idle_client : Conn :=
  mkImapConn (mkImap Selected alice 1 Database #"b.org" INBOX) (w_store w0) reader_default (subscribe CAPACITY)
    (Idling #"A5" []) [] [].

Lemma idle_waiting : waiting idle_client alice_row #"A5".
Proof. constructor; try reflexivity. change (0 < CAPACITY)%nat. unfold CAPACITY. lia. Qed.
Lemma w0_fits : uids_fit (db (w_store w0)) box1.
Proof.
  split; [exact store0_uid_inv|]. split; [by vm_compute|].
  assert (Hm : messages (db (w_store w0)) = []) by by vm_compute. rewrite Hm. by intros r ?%elem_of_nil.
Qed.


End ToyJourney.
