(* ===== verification/Files.v ===== *)
(** * Files ([std::fs])

    The files of the local machine by path, with their permission bits.  Each call
    meets the next fault: it works, it fails before it does anything, or a write
    stops after some bytes. *)

From S2P Require Export RustStr.

Inductive IoError := IoNotFound | IoInvalidData | IoFailed.
#[export] Instance IoError_eq_dec : EqDecision IoError.
Proof. solve_decision. Defined.

Inductive IoFault := NoFault | Fails | StopsAfter (n : nat).

Record File := mkFile { f_bytes : str; f_mode : Z }.
Record Files := mkFiles {
  fs : gmap str File;
  fs_faults : list IoFault;
  (** the bits of a file that is created *)
  fs_default_mode : Z;
}.
Definition set_fs (m : gmap str File) (s : Files) : Files := mkFiles m (fs_faults s) (fs_default_mode s).

Abbreviation F A := (st Files IoError A).

Definition next_fault (s : Files) : IoFault * Files :=
  match fs_faults s with
  | [] => (NoFault, s)
  | x :: r => (x, mkFiles (fs s) r (fs_default_mode s))
  end.

(** [std::fs::read], [std::fs::read_to_string]. *)
Definition fs_read (path : str) : F str := fun s =>
  let '(x, s) := next_fault s in
  match x, fs s !! path with
  | NoFault, Some f => (Ok (f_bytes f), s)
  | NoFault, None => (Err IoNotFound, s)
  | _, _ => (Err IoFailed, s)
  end.
Definition fs_read_to_string (path : str) : F str :=
  b ← fs_read path; if utf8_valid b then mret b else raise IoInvalidData.

(** [Path::exists]: false when the question fails. *)
Definition fs_exists (path : str) : F bool := fun s =>
  let '(x, s) := next_fault s in
  (Ok (match x with NoFault => bool_decide (is_Some (fs s !! path)) | _ => false end), s).

(** [std::fs::write] truncates the file, or creates it, and writes. *)
Definition put (path bytes : str) (s : Files) : Files :=
  set_fs (<[path := mkFile bytes (default (fs_default_mode s) (f_mode <$> fs s !! path))]> (fs s)) s.
Definition fs_write (path bytes : str) : F unit := fun s =>
  let '(x, s) := next_fault s in
  match x with
  | NoFault => (Ok tt, put path bytes s)
  | Fails => (Err IoFailed, s)
  | StopsAfter n => (Err IoFailed, put path (take n bytes) s)
  end.

(** [std::fs::set_permissions]. *)
Definition fs_set_mode (path : str) (mode : Z) : F unit := fun s =>
  let '(x, s) := next_fault s in
  match x, fs s !! path with
  | NoFault, Some f => (Ok tt, set_fs (<[path := mkFile (f_bytes f) mode]> (fs s)) s)
  | NoFault, None => (Err IoNotFound, s)
  | _, _ => (Err IoFailed, s)
  end.

(** [std::fs::create_dir_all]: directories are not kept, it can only fail. *)
Definition fs_create_dir_all (dir : str) : F unit := fun s =>
  let '(x, s) := next_fault s in (match x with NoFault => Ok tt | _ => Err IoFailed end, s).

(** ** Without faults *)

Lemma fs_read_calm path s :
  fs_faults s = [] ->
  fs_read path s = (match fs s !! path with Some f => Ok (f_bytes f) | None => Err IoNotFound end, s).
Proof. intros Hf. unfold fs_read, next_fault. rewrite Hf. by destruct (fs s !! path). Qed.
Lemma fs_write_calm path bytes s :
  fs_faults s = [] -> fs_write path bytes s = (Ok tt, put path bytes s).
Proof. intros Hf. unfold fs_write, next_fault. by rewrite Hf. Qed.
Lemma fs_exists_calm path s :
  fs_faults s = [] -> fs_exists path s = (Ok (bool_decide (is_Some (fs s !! path))), s).
Proof. intros Hf. unfold fs_exists, next_fault. by rewrite Hf. Qed.
Lemma fs_set_mode_calm path mode s f :
  fs_faults s = [] -> fs s !! path = Some f ->
  fs_set_mode path mode s = (Ok tt, set_fs (<[path := mkFile (f_bytes f) mode]> (fs s)) s).
Proof. intros Hf Hp. unfold fs_set_mode, next_fault. by rewrite Hf, Hp. Qed.
Lemma fs_create_dir_all_calm dir s : fs_faults s = [] -> fs_create_dir_all dir s = (Ok tt, s).
Proof. intros Hf. unfold fs_create_dir_all, next_fault. by rewrite Hf. Qed.

(** Reading leaves the files as they are, whatever fails. *)
Lemma fs_read_same path s : fs (snd (fs_read path s)) = fs s.
Proof. unfold fs_read, next_fault. destruct (fs_faults s) as [|[] ?]; cbn; by destruct (fs s !! path). Qed.
Lemma fs_exists_same path s : fs (snd (fs_exists path s)) = fs s.
Proof. unfold fs_exists, next_fault. by destruct (fs_faults s) as [|[] ?]. Qed.
Lemma fs_read_to_string_same path s : fs (snd (fs_read_to_string path s)) = fs s.
Proof.
  unfold fs_read_to_string, mbind, st_bind. pose proof (fs_read_same path s) as Hs.
  destruct (fs_read path s) as [[b|e] s1]; [by destruct (utf8_valid b)|done].
Qed.
