(* ===== verification/Sockets.v ===== *)
(** * Local sockets ([talk-core/src/sockets.rs])

    Binding a Unix domain socket removes a stale socket file first.  The calls to the
    operating system are single steps, which another process may come between. *)

From S2P Require Export Files.

(** A socket file names its listener; a listener is open until it is closed. *)
Record Local := mkLocal { l_files : Files; l_socks : gmap str nat; l_open : gset nat }.
Definition set_l_files (x : Files) (s : Local) : Local := mkLocal x (l_socks s) (l_open s).
Definition set_socks (m : gmap str nat) (s : Local) : Local := mkLocal (l_files s) m (l_open s).

Definition on_files {E A} (m : st Files E A) : st Local E A := fun s =>
  let '(r, x) := m (l_files s) in (r, set_l_files x s).

Definition there (path : str) (s : Local) : bool :=
  bool_decide (is_Some (fs (l_files s) !! path)) || bool_decide (is_Some (l_socks s !! path)).
(** A listener is open on the socket file. *)
Definition listening (path : str) (s : Local) : bool :=
  match l_socks s !! path with Some k => bool_decide (k ∈ l_open s) | None => false end.

(** ** The calls *)

Definition fault : st Local IoError IoFault := on_files (fun x => let '(f, x) := next_fault x in (Ok f, x)).
(** A call that fails before it does anything, or happens. *)
Definition call {A} (m : st Local IoError A) : st Local IoError A :=
  f ← fault; match f with NoFault => m | _ => raise IoFailed end.

(** [Path::exists]. *)
Definition path_exists {E} (path : str) : st Local E bool :=
  try_with (call (fun s => (Ok (there path s), s))) mret (fun _ => mret false).
(** [UnixStream::connect(path).is_ok()]. *)
Definition is_listening {E} (path : str) : st Local E bool :=
  try_with (call (fun s => (Ok (listening path s), s))) mret (fun _ => mret false).
(** [std::fs::remove_file]. *)
Definition remove_file (path : str) : st Local IoError unit :=
  call (fun s => if there path s
                 then (Ok tt, mkLocal (set_fs (delete path (fs (l_files s))) (l_files s)) (delete path (l_socks s)) (l_open s))
                 else (Err IoNotFound, s)).
(** [UnixListener::bind] by listener [k]: the path must be free. *)
Definition listen (k : nat) (path : str) : st Local IoError unit :=
  call (fun s => if there path s then (Err IoFailed, s)
                 else (Ok tt, mkLocal (l_files s) (<[path := k]> (l_socks s)) ({[k]} ∪ l_open s))).

(** [Path::parent]: without trailing separators and dots, then without the last name. *)
Fixpoint trim_path (fuel : nat) (p : str) : str :=
  match fuel with
  | O => p
  | S fuel =>
      match strip_suffix #"/" p, strip_suffix #"/." p with
      | Some ((_ :: _) as q), _ => trim_path fuel q
      | _, Some q => trim_path fuel (q ++ #"/")
      | _, _ => p
      end
  end.
Definition parent (path : str) : option str :=
  let p := trim_path (2 * length path) path in
  if (p ≟ []) || (p ≟ #"/") then None
  else
    let q := drop_while_end (fun c => negb (c ≟ "/"%char)) p in
    Some (trim_path (2 * length q) q).

Inductive SocketError :=
  | StaleRemove (path : str) (source : IoError)
  | ParentMkdir (path : str) (source : IoError)
  | Bind (path : str) (source : IoError).

Record SocketListener := mkListener { sl_path : str; sl_listener : nat }.

(** [SocketListener::bind], in a process whose listener is [k]. *)
Definition bind (k : nat) (path : str) : st Local SocketError SocketListener :=
  there ← path_exists path;
  stale ← (if there : bool then l ← is_listening path; mret (negb l) else mret false);
  _ ← (if stale : bool then st_map_err (StaleRemove path) (remove_file path) else mret tt);
  _ ← (match parent path with
       | Some ((_ :: _) as dir) => st_map_err (ParentMkdir dir) (on_files (fs_create_dir_all dir))
       | _ => mret tt
       end);
  _ ← st_map_err (Bind path) (listen k path);
  mret (mkListener path k).

(** [Drop]: the socket file is removed, whosoever it is, and the listener closed. *)
Definition drop (l : SocketListener) (s : Local) : Local :=
  let '(_, s) := remove_file (sl_path l) s in mkLocal (l_files s) (l_socks s) (l_open s ∖ {[sl_listener l]}).

(** ** The same as steps of a process *)

Inductive BindAt :=
  | AtExists | AtListening | AtRemove | AtParent | AtBind
  | BindDone (r : result SocketError SocketListener).

Definition next {E A} (r : result E A * Local) (f : A -> BindAt) (g : E -> BindAt) : BindAt * Local :=
  (match fst r with Ok x => f x | Err e => g e end, snd r).
Definition bind_step (k : nat) (path : str) (p : BindAt) (s : Local) : BindAt * Local :=
  match p with
  | AtExists => next (E := SocketError) (path_exists path s) (fun b : bool => if b then AtListening else AtParent) (fun _ => p)
  | AtListening => next (E := SocketError) (is_listening path s) (fun b : bool => if b then AtParent else AtRemove) (fun _ => p)
  | AtRemove => next (remove_file path s) (fun _ => AtParent) (fun e => BindDone (Err (StaleRemove path e)))
  | AtParent =>
      match parent path with
      | Some ((_ :: _) as dir) =>
          next (on_files (fs_create_dir_all dir) s) (fun _ => AtBind) (fun e => BindDone (Err (ParentMkdir dir e)))
      | _ => (AtBind, s)
      end
  | AtBind => next (listen k path s) (fun _ => BindDone (Ok (mkListener path k))) (fun e => BindDone (Err (Bind path e)))
  | BindDone _ => (p, s)
  end.

(** Two processes that bind the path; [true] lets the first one take a step. *)
Definition race_step (path : str) (st : BindAt * BindAt * Local) (first : bool) : BindAt * BindAt * Local :=
  let '(p, q, s) := st in
  if first then let '(p, s) := bind_step 1 path p s in (p, q, s)
  else let '(q, s) := bind_step 2 path q s in (p, q, s).
Definition race (path : str) (s : Local) (schedule : list bool) : BindAt * BindAt * Local :=
  fold_left (race_step path) schedule (AtExists, AtExists, s).

(** ** Without faults *)

Section calm.
Context (s : Local) (Hf : fs_faults (l_files s) = []).

Lemma call_calm {A} (m : st Local IoError A) : call m s = m s.
Proof.
  unfold call, fault, on_files, next_fault, mbind, st_bind. rewrite Hf. by destruct s.
Qed.
Lemma path_exists_calm {E} path : path_exists (E := E) path s = (Ok (there path s), s).
Proof. unfold path_exists, try_with. by rewrite call_calm. Qed.
Lemma is_listening_calm {E} path : is_listening (E := E) path s = (Ok (listening path s), s).
Proof. unfold is_listening, try_with. by rewrite call_calm. Qed.
Lemma mkdir_calm dir : on_files (fs_create_dir_all dir) s = (Ok tt, s).
Proof. unfold on_files. rewrite fs_create_dir_all_calm by done. by destruct s. Qed.
End calm.

Definition without (path : str) (s : Local) : Local :=
  mkLocal (set_fs (delete path (fs (l_files s))) (l_files s)) (delete path (l_socks s)) (l_open s).
Definition bound (k : nat) (path : str) (s : Local) : Local :=
  mkLocal (l_files s) (<[path := k]> (l_socks s)) ({[k]} ∪ l_open s).

Lemma without_absent path s : there path s = false -> without path s = s.
Proof.
  intros (H1%bool_decide_eq_false & H2%bool_decide_eq_false)%orb_false_iff.
  apply eq_None_not_Some in H1, H2. unfold without, set_fs.
  rewrite (delete_id _ _ H1), (delete_id _ _ H2). by destruct s as [[]].
Qed.
Lemma there_without path s : there path (without path s) = false.
Proof. unfold there, without. cbn. by rewrite !lookup_delete_eq. Qed.
Lemma listening_there path s : listening path s = true -> there path s = true.
Proof. unfold listening, there. destruct (l_socks s !! path); [by rewrite orb_true_r | done]. Qed.
Lemma listening_bound k path s : listening path (bound k path s) = true.
Proof. unfold listening, bound. cbn. rewrite lookup_insert_eq. apply bool_decide_eq_true_2. set_solver. Qed.

Lemma listen_calm k path s :
  fs_faults (l_files s) = [] ->
  listen k path s = if there path s then (Err IoFailed, s) else (Ok tt, bound k path s).
Proof. intros Hf. unfold listen. by rewrite call_calm. Qed.
Lemma remove_calm path s :
  fs_faults (l_files s) = [] -> there path s = true -> remove_file path s = (Ok tt, without path s).
Proof. intros Hf Ht. unfold remove_file. by rewrite call_calm, Ht. Qed.

(** What comes after the socket file has been looked at. *)
Definition bind_rest (k : nat) (path : str) : st Local SocketError SocketListener :=
  _ ← (match parent path with
       | Some ((_ :: _) as dir) => st_map_err (ParentMkdir dir) (on_files (fs_create_dir_all dir))
       | _ => mret tt
       end);
  _ ← st_map_err (Bind path) (listen k path);
  mret (mkListener path k).
Lemma bind_rest_calm k path s :
  fs_faults (l_files s) = [] ->
  bind_rest k path s = if there path s then (Err (Bind path IoFailed), s) else (Ok (mkListener path k), bound k path s).
Proof.
  intros Hf. unfold bind_rest.
  assert (Hm : (match parent path with
                | Some ((_ :: _) as dir) => st_map_err (ParentMkdir dir) (on_files (fs_create_dir_all dir))
                | _ => mret tt
                end : st Local SocketError unit) s = (Ok tt, s)).
  { destruct (parent path) as [[|c dir]|]; [done| |done]. unfold st_map_err. by rewrite mkdir_calm. }
  rewrite (st_bind_Ok _ _ _ _ _ Hm). unfold mbind, st_bind, st_map_err. rewrite listen_calm by done.
  by destruct (there path s).
Qed.

Lemma bind_calm k path s :
  fs_faults (l_files s) = [] ->
  bind k path s = if listening path s then (Err (Bind path IoFailed), s)
                  else (Ok (mkListener path k), bound k path (without path s)).
Proof.
  intros Hf. unfold bind. rewrite (st_bind_Ok _ _ _ _ _ (path_exists_calm s Hf path)). fold (bind_rest k path).
  destruct (there path s) eqn:Et.
  - erewrite st_bind_Ok by (rewrite (st_bind_Ok _ _ _ _ _ (is_listening_calm s Hf path)); reflexivity).
    destruct (listening path s) eqn:El; cbn [negb].
    + rewrite (st_bind_Ok _ _ _ tt s) by done. rewrite bind_rest_calm by done. by rewrite Et.
    + rewrite (st_bind_Ok _ _ _ tt (without path s)) by (unfold st_map_err; by rewrite remove_calm).
      rewrite bind_rest_calm by done. by rewrite there_without.
  - destruct (listening path s) eqn:El; [by rewrite (listening_there _ _ El) in Et|].
    rewrite (st_bind_Ok _ _ _ false s) by done. rewrite (st_bind_Ok _ _ _ tt s) by done.
    rewrite bind_rest_calm, Et by done. by rewrite without_absent.
Qed.

(** The steps of a process on its own are [bind], whatever fails. *)
Definition bind_steps (n k : nat) (path : str) (ps : BindAt * Local) : BindAt * Local :=
  Nat.iter n (fun '(p, s) => bind_step k path p s) ps.
Lemma bind_steps_done n k path r s : bind_steps n k path (BindDone r, s) = (BindDone r, s).
Proof. unfold bind_steps. induction n as [|n IH]; [done|]. by rewrite Nat.iter_succ, IH. Qed.
Lemma bind_steps_S n k path p s : bind_steps (S n) k path (p, s) = bind_steps n k path (bind_step k path p s).
Proof. unfold bind_steps. rewrite Nat.iter_succ_r. by destruct (bind_step k path p s). Qed.

Lemma bind_rest_steps k path s :
  bind_steps 2 k path (AtParent, s) = (BindDone (fst (bind_rest k path s)), snd (bind_rest k path s)).
Proof.
  rewrite bind_steps_S. cbn [bind_step]. unfold bind_rest, mbind, st_bind, st_map_err, next.
  destruct (parent path) as [[|c dir]|].
  - rewrite bind_steps_S. cbn. unfold next. by destruct (listen k path s) as [[|]].
  - destruct (on_files (fs_create_dir_all (c :: dir)) s) as [[[]|e] s1]; cbn [fst snd].
    + rewrite bind_steps_S. cbn. unfold next. by destruct (listen k path s1) as [[|]].
    + apply bind_steps_done.
  - rewrite bind_steps_S. cbn. unfold next. by destruct (listen k path s) as [[|]].
Qed.

Lemma asked {E} (m : st Local IoError bool) s : exists b s1,
  try_with (E := IoError) (call m) mret (fun _ => mret false) s = (Ok b : result E bool, s1).
Proof. unfold try_with. destruct (call m s) as [[b|e] s1]; eauto. Qed.

Lemma bind_is_steps k path s :
  exists n, bind_steps n k path (AtExists, s) = (BindDone (fst (bind k path s)), snd (bind k path s)).
Proof.
  unfold bind. fold (bind_rest k path).
  destruct (asked (E := SocketError) (fun s => (Ok (there path s), s)) s) as (b & s1 & E1).
  fold (path_exists (E := SocketError) path) in E1. rewrite (st_bind_Ok _ _ _ _ _ E1). destruct b.
  - destruct (asked (E := SocketError) (fun s => (Ok (listening path s), s)) s1) as (b & s2 & E2).
    fold (is_listening (E := SocketError) path) in E2. rewrite (st_bind_Ok _ _ s1 (negb b) s2) by (by rewrite (st_bind_Ok _ _ _ _ _ E2)).
    destruct b; cbn [negb].
    + exists 4%nat. rewrite (st_bind_Ok _ _ _ tt s2) by done.
      rewrite bind_steps_S. cbn [bind_step]. rewrite E1. unfold next; cbn [fst snd]. rewrite bind_steps_S. cbn [bind_step]. rewrite E2. apply bind_rest_steps.
    + destruct (remove_file path s2) as [[[]|e] s3] eqn:E3.
      * exists 5%nat. rewrite (st_bind_Ok _ _ s2 tt s3) by (unfold st_map_err; by rewrite E3). rewrite bind_steps_S. cbn [bind_step]. rewrite E1. unfold next; cbn [fst snd]. rewrite bind_steps_S. cbn [bind_step].
        rewrite E2. unfold next; cbn [fst snd]. rewrite bind_steps_S. cbn [bind_step]. rewrite E3. apply bind_rest_steps.
      * exists 3%nat. rewrite (st_bind_Err _ _ s2 (StaleRemove path e) s3) by (unfold st_map_err; by rewrite E3).
        rewrite bind_steps_S. cbn [bind_step]. rewrite E1. unfold next; cbn [fst snd]. rewrite bind_steps_S. cbn [bind_step].
        rewrite E2. unfold next; cbn [fst snd]. rewrite bind_steps_S. cbn [bind_step]. by rewrite E3.
  - exists 3%nat. rewrite (st_bind_Ok _ _ s1 false s1) by done. rewrite (st_bind_Ok _ _ _ tt s1) by done.
    rewrite bind_steps_S. cbn [bind_step]. rewrite E1. apply bind_rest_steps.
Qed.

(** C36: binding does not take a socket away from its listener, when the calls of one
    process are not interrupted and do not fail: where a listener is open, the bind
    is refused and nothing changes; everywhere else it is bound, whatever was there,
    also a file that is not a socket, and no other path is touched; dropping the
    listener removes the socket file. The steps of a process on its own are [bind],
    whatever calls fail. Between the steps of two processes this is lost: over a stale
    socket file a schedule ends with both told that they listen and with the socket
    file of the first removed by the second. *)
Theorem bind_keeps_live path :
  (forall k s, fs_faults (l_files s) = [] ->
    if listening path s then bind k path s = (Err (Bind path IoFailed), s)
    else exists s', bind k path s = (Ok (mkListener path k), s') /\ listening path s' = true
      /\ l_socks s' = <[path := k]> (l_socks s) /\ fs (l_files s') = delete path (fs (l_files s))
      /\ l_socks (drop (mkListener path k) s') = delete path (l_socks s)
      /\ fs (l_files (drop (mkListener path k) s')) = delete path (fs (l_files s)))
  /\ (forall k s, exists n, bind_steps n k path (AtExists, s) = (BindDone (fst (bind k path s)), snd (bind k path s)))
  /\ (forall s, fs_faults (l_files s) = [] -> there path s = true -> listening path s = false ->
       exists schedule s', race path s schedule
         = (BindDone (Ok (mkListener path 1)), BindDone (Ok (mkListener path 2)), s')
         /\ l_socks s' !! path = Some 2%nat /\ 1%nat ∈ l_open s').
Proof.
  split; [|split].
  - intros k s Hf. rewrite bind_calm by done. destruct (listening path s); [done|].
    eexists. split; [done|]. split; [apply listening_bound|]. split; [cbn; by rewrite insert_delete_eq|]. split; [done|].
    unfold drop. cbn [sl_path sl_listener]. rewrite remove_calm; [|done|by apply listening_there, listening_bound].
    cbn. by rewrite delete_insert_eq, !delete_delete_eq.
  - intros k s. apply bind_is_steps.
  - intros s Hf Ht Hl. set (s1 := bound 1 path (without path s)).
    assert (Hmk : forall k s0, fs_faults (l_files s0) = [] -> bind_step k path AtParent s0 = (AtBind, s0)).
    { intros k s0 H0. cbn. destruct (parent path) as [[|c dir]|]; [done| |done]. by rewrite mkdir_calm. }
    exists [true; true; false; false; true; true; true; false; false; false], (bound 2 path (without path s1)).
    split; [|split; [by cbn; rewrite lookup_insert_eq|set_solver]].
    assert (Hex : forall k s0, fs_faults (l_files s0) = [] -> there path s0 = true -> bind_step k path AtExists s0 = (AtListening, s0)).
    { intros k s0 H0 H1. cbn. by rewrite path_exists_calm, H1. }
    assert (Hli : forall k s0, fs_faults (l_files s0) = [] -> listening path s0 = false -> bind_step k path AtListening s0 = (AtRemove, s0)).
    { intros k s0 H0 H1. cbn. by rewrite is_listening_calm, H1. }
    assert (Hrm : forall k s0, fs_faults (l_files s0) = [] -> there path s0 = true -> bind_step k path AtRemove s0 = (AtParent, without path s0)).
    { intros k s0 H0 H1. cbn. by rewrite remove_calm. }
    assert (Hbd : forall k s0, fs_faults (l_files s0) = [] -> there path s0 = false ->
      bind_step k path AtBind s0 = (BindDone (Ok (mkListener path k)), bound k path s0)).
    { intros k s0 H0 H1. cbn. by rewrite listen_calm, H1. }
    assert (Hb1 : there path s1 = true) by (apply listening_there, listening_bound).
    unfold race. cbn [fold_left]. unfold race_step at 10. rewrite Hex by done. unfold race_step at 9. rewrite Hli by done.
    unfold race_step at 8. rewrite Hex by done. unfold race_step at 7. rewrite Hli by done.
    unfold race_step at 6. rewrite Hrm by done. unfold race_step at 5. rewrite Hmk by done.
    unfold race_step at 4. rewrite Hbd by (done || apply there_without). fold s1.
    unfold race_step at 3. rewrite Hrm by done. unfold race_step at 2. rewrite Hmk by done.
    unfold race_step. rewrite Hbd; (done || apply there_without).
Qed.
