(* ===== verification/Schema.v ===== *)
(** * Opening the mail store ([talk-mailstore/src/sqlite.rs])

    [SqliteMailStore::open] creates the tables that are not there and adds the columns
    that were added to the schema later.  The database file is kept as SQLite has it:
    tables of rows, with the columns and keys they were declared with. *)

From S2P Require Import Sqlite.
From S2P Require Export Sockets.

(** ** The database file *)

Inductive SqlValue := SNull | SInt (z : Z) | SText (s : str) | SBlob (s : str).
#[export] Instance SqlValue_eq_dec : EqDecision SqlValue.
Proof. solve_decision. Defined.

Record Column := mkCol { col_name : str; col_type : str; col_not_null : bool; col_default : SqlValue }.
Record Table := mkTable {
  tb_columns : list Column;
  (** the columns of each [PRIMARY KEY] and [UNIQUE] *)
  tb_keys : list (list str);
  (** [REFERENCES]: the column and the table *)
  tb_refs : list (str * str);
  tb_rows : list (gmap str SqlValue);
}.
Record RawDb := mkRaw { raw_tables : gmap str Table; raw_indexes : gmap str (str * list str) }.
Definition raw_empty : RawDb := mkRaw ∅ ∅.

Definition column_names (t : Table) : list str := map col_name (tb_columns t).
Definition has_column (table column : str) (d : RawDb) : bool :=
  match raw_tables d !! table with Some t => bool_decide (column ∈ column_names t) | None => false end.

(** Statements of the data definition language; the first two say [IF NOT EXISTS]. *)
Inductive Ddl :=
  | CreateTable (name : str) (columns : list Column) (keys : list (list str)) (refs : list (str * str))
  | CreateIndex (name table : str) (columns : list str)
  | AddColumn (table : str) (c : Column).

(** [ALTER TABLE .. ADD COLUMN]: the rows get the default, which a column that may not
    be null must have. *)
Definition add_column (c : Column) (t : Table) : Table :=
  mkTable (tb_columns t ++ [c]) (tb_keys t) (tb_refs t) (map <[col_name c := col_default c]> (tb_rows t)).
Definition exec_ddl (x : Ddl) (d : RawDb) : result SqlError RawDb :=
  match x with
  | CreateTable name columns keys refs =>
      if bool_decide (is_Some (raw_tables d !! name)) then Ok d
      else Ok (mkRaw (<[name := mkTable columns keys refs []]> (raw_tables d)) (raw_indexes d))
  | CreateIndex name table columns =>
      if bool_decide (is_Some (raw_indexes d !! name)) then Ok d
      else if forallb (fun c => has_column table c d) columns
      then Ok (mkRaw (raw_tables d) (<[name := (table, columns)]> (raw_indexes d)))
      else Err SqlFailure
  | AddColumn table c =>
      match raw_tables d !! table with
      | None => Err SqlFailure
      | Some t =>
          if bool_decide (col_name c ∈ column_names t) || (col_not_null c && (col_default c ≟ SNull)) then Err SqlFailure
          else Ok (mkRaw (<[table := add_column c t]> (raw_tables d)) (raw_indexes d))
      end
  end.

(** ** The schema *)

Definition INTEGER : str := #"INTEGER".
Definition TEXT : str := #"TEXT".
Definition BLOB : str := #"BLOB".
Definition nullable (name type : str) : Column := mkCol name type false SNull.
Definition not_null (name type : str) : Column := mkCol name type true SNull.
Definition defaulting (name type : str) (v : SqlValue) : Column := mkCol name type true v.

(** The text given to [execute_batch]. *)
Definition BATCH : list Ddl := [
  CreateTable #"users"
    [nullable #"id" INTEGER; not_null #"username" TEXT; not_null #"password_hash" TEXT;
     not_null #"master_pubkey" BLOB; not_null #"created_at" INTEGER]
    [ [ #"id"]; [ #"username"] ] [];
  CreateTable #"keyring_entries"
    [not_null #"user_id" INTEGER; not_null #"sender_mailbox" TEXT; not_null #"sender_pubkey" TEXT;
     not_null #"attestation" BLOB; not_null #"state" TEXT; not_null #"first_seen" INTEGER]
    [ [ #"user_id"; #"sender_mailbox"] ] [( #"user_id", #"users")];
  CreateTable #"shares"
    [not_null #"user_id" INTEGER; not_null #"share_id" TEXT; not_null #"wrapped_dk" BLOB;
     defaulting #"revoked" INTEGER (SInt 0)]
    [ [ #"user_id"; #"share_id"] ] [( #"user_id", #"users")];
  CreateTable #"mailboxes"
    [nullable #"id" INTEGER; not_null #"user_id" INTEGER; not_null #"name" TEXT;
     not_null #"uidvalidity" INTEGER; defaulting #"uidnext" INTEGER (SInt 1)]
    [ [ #"id"]; [ #"user_id"; #"name"] ] [( #"user_id", #"users")];
  CreateTable #"messages"
    [nullable #"id" INTEGER; not_null #"mailbox_id" INTEGER; not_null #"message_id" TEXT;
     not_null #"uid" INTEGER; not_null #"internaldate" INTEGER; defaulting #"flags" INTEGER (SInt 0);
     not_null #"subject" TEXT; not_null #"size" INTEGER; not_null #"body_blob" BLOB;
     defaulting #"sender" TEXT (SText []); defaulting #"trust_state" TEXT (SText #"unverified")]
    [ [ #"id"]; [ #"mailbox_id"; #"message_id"] ] [( #"mailbox_id", #"mailboxes")];
  CreateIndex #"idx_messages_mailbox_uid" #"messages" [ #"mailbox_id"; #"uid"];
  CreateIndex #"idx_messages_mailbox_flags" #"messages" [ #"mailbox_id"; #"flags"];
  CreateTable #"settings"
    [nullable #"key" TEXT; not_null #"value" TEXT] [ [ #"key"] ] [];
  CreateTable #"transactions"
    [nullable #"id" INTEGER; not_null #"direction" TEXT; not_null #"state" TEXT; not_null #"sender_mailbox" TEXT;
     not_null #"recipient_mailbox" TEXT; defaulting #"amount" TEXT (SText []); nullable #"binding" TEXT;
     not_null #"message_id" TEXT; nullable #"message_row_id" INTEGER; nullable #"outbound_body" BLOB;
     defaulting #"payload" TEXT (SText #"sealed"); not_null #"created_at" INTEGER; not_null #"updated_at" INTEGER]
    [ [ #"id"]; [ #"direction"; #"message_id"] ] [] ].

(** Columns added after the initial schema. *)
Definition MIGRATIONS : list (str * Column) := [
  ( #"users", nullable #"ivk_commitment" TEXT);
  ( #"users", nullable #"registration_attestation" TEXT);
  ( #"messages", defaulting #"sender" TEXT (SText []));
  ( #"messages", defaulting #"trust_state" TEXT (SText #"unverified")) ].

(** ** [open] *)

(** The files and the databases of the machine; [true] in [dk_faults] is a call of
    SQLite that fails. *)
Record Disk := mkDisk { dk_files : Files; dk_dbs : gmap str RawDb; dk_faults : list bool }.
Definition db_at (path : str) (s : Disk) : RawDb := default raw_empty (dk_dbs s !! path).
Definition put_db (path : str) (d : RawDb) (s : Disk) : Disk := mkDisk (dk_files s) (<[path := d]> (dk_dbs s)) (dk_faults s).

(** A call of SQLite on a database. *)
Definition sql {A} (path : str) (f : RawDb -> result SqlError (A * RawDb)) : st Disk SqlError A := fun s =>
  let fails := default false (head (dk_faults s)) in
  let s := mkDisk (dk_files s) (dk_dbs s) (tail (dk_faults s)) in
  if fails then (Err SqlFailure, s)
  else match f (db_at path s) with Ok (x, d) => (Ok x, put_db path d s) | Err e => (Err e, s) end.
Definition exec (path : str) (x : Ddl) : st Disk SqlError unit := sql path (fun d => d ← exec_ddl x d; Ok (tt, d)).
Definition sql_call (path : str) : st Disk SqlError unit := sql path (fun d => Ok (tt, d)).

(** [execute_batch]: the statements up to the first that fails. *)
Fixpoint execute_batch (path : str) (xs : list Ddl) : st Disk SqlError unit :=
  match xs with [] => mret tt | x :: r => _ ← exec path x; execute_batch path r end.
Fixpoint migrate (path : str) (ms : list (str * Column)) : st Disk SqlError unit :=
  match ms with
  | [] => mret tt
  | (table, c) :: r =>
      has ← sql path (fun d => Ok (has_column table (col_name c) d, d));
      _ ← (if has : bool then mret tt else execute_batch path [AddColumn table c]);
      migrate path r
  end.
Definition init_schema (path : str) : st Disk SqlError unit :=
  _ ← execute_batch path BATCH; migrate path MIGRATIONS.

(** The connection, the two pragmas, the schema. *)
Definition connect (path : str) : st Disk SqlError unit :=
  _ ← sql_call path; _ ← sql_call path; _ ← sql_call path; init_schema path.
Definition store_open (path : str) : st Disk StoreError unit :=
  _ ← (match parent path with
       | Some ((_ :: _) as dir) => fun s =>
           let '(r, fs) := fs_create_dir_all dir (dk_files s) in
           (map_err (fun _ => StoreIo) r, mkDisk fs (dk_dbs s) (dk_faults s))
       | _ => mret tt
       end);
  st_map_err Storage (connect path).
