(* ===== verification/SchemaFacts.v ===== *)
(** * The schema of an opened store

    Whatever a database file of an earlier version holds and however often opening it
    was interrupted, once it is opened its tables have every column of the schema and
    the rows they had. *)

From S2P Require Import Sqlite.
From S2P Require Export Schema.

(** ** Statements that make something so *)

(** What a statement makes is there. *)
Definition made (x : Ddl) (d : RawDb) : bool :=
  match x with
  | CreateTable name _ _ _ => bool_decide (is_Some (raw_tables d !! name))
  | CreateIndex name _ _ => bool_decide (is_Some (raw_indexes d !! name))
  | AddColumn table c => has_column table (col_name c) d
  end.
Definition ensure (x : Ddl) (d : RawDb) : result SqlError RawDb := if made x d then Ok d else exec_ddl x d.
Fixpoint ensures (xs : list Ddl) (d : RawDb) : result SqlError RawDb :=
  match xs with [] => Ok d | x :: r => d ← ensure x d; ensures r d end.

Definition STEPS : list Ddl := BATCH ++ map (fun '(t, c) => AddColumn t c) MIGRATIONS.

Lemma ensures_app xs ys d : ensures (xs ++ ys) d = (d ← ensures xs d; ensures ys d).
Proof.
  revert d. induction xs as [|x xs IH]; intros d; [done|]. cbn. destruct (ensure x d) as [d1|e]; cbn; [apply IH|done].
Qed.

Lemma has_column_true t c d : has_column t c d = true <-> exists tb, raw_tables d !! t = Some tb /\ c ∈ column_names tb.
Proof.
  unfold has_column. destruct (raw_tables d !! t) as [tb|].
  - rewrite bool_decide_eq_true. split; [eauto|]. by intros (? & [= ->] & ?).
  - split; [done|]. by intros (? & ? & _).
Qed.

(** A table is at least another: more columns, and the rows with their values. *)
Definition table_grows (t t' : Table) : Prop :=
  column_names t `prefix_of` column_names t' /\ Forall2 (⊆) (tb_rows t) (tb_rows t').
Definition keeps (d d' : RawDb) : Prop :=
  (forall n t, raw_tables d !! n = Some t -> exists t', raw_tables d' !! n = Some t' /\ table_grows t t')
  /\ raw_indexes d ⊆ raw_indexes d'.
(** Rows have values in the columns of their table only. *)
Definition wf_raw (d : RawDb) : Prop := forall n t, raw_tables d !! n = Some t ->
  Forall (fun r : gmap str SqlValue => forall c, is_Some (r !! c) -> c ∈ column_names t) (tb_rows t).

#[export] Instance table_grows_refl : Reflexive table_grows.
Proof. intros t. split; [done|]. reflexivity. Qed.
#[export] Instance table_grows_trans : Transitive table_grows.
Proof. intros t1 t2 t3 [Hp1 Hr1] [Hp2 Hr2]. split; [by etrans|]. by etrans. Qed.
#[export] Instance keeps_refl : Reflexive keeps.
Proof. intros d. split; [|done]. intros n t Ht. by exists t. Qed.
#[export] Instance keeps_trans : Transitive keeps.
Proof.
  intros d1 d2 d3 [H1 I1] [H2 I2]. split; [|by etrans]. intros n t Ht.
  destruct (H1 n t Ht) as (t2 & Ht2 & ?). destruct (H2 n t2 Ht2) as (t3 & Ht3 & ?).
  exists t3. split; [done|]. by etrans.
Qed.

(** ** One statement *)

Lemma add_column_grows d n t c :
  wf_raw d -> raw_tables d !! n = Some t -> col_name c ∉ column_names t -> table_grows t (add_column c t).
Proof.
  intros Hw Ht Hc. split.
  - unfold column_names. cbn. rewrite map_app. by eexists.
  - cbn. specialize (Hw n t Ht). induction Hw as [|r rows Hr _ IH]; cbn; constructor; [|exact IH].
    apply insert_subseteq, eq_None_not_Some. intros Hs. by apply Hc, Hr.
Qed.
Lemma add_column_wf d n t c :
  wf_raw d -> raw_tables d !! n = Some t ->
  Forall (fun r : gmap str SqlValue => forall x, is_Some (r !! x) -> x ∈ column_names (add_column c t)) (tb_rows (add_column c t)).
Proof.
  intros Hw Ht. specialize (Hw n t Ht). cbn. apply Forall_map. eapply Forall_impl; [exact Hw|].
  intros r Hr x [v Hx]. unfold column_names. cbn. rewrite map_app. cbn. apply elem_of_app.
  destruct (decide (x = col_name c)) as [->|Hn]; [right; by left|].
  rewrite lookup_insert_ne in Hx by done. left. apply Hr. by exists v.
Qed.

(** A statement that works makes its thing and keeps everything that is there. *)
Lemma ensure_step x d d' :
  ensure x d = Ok d' -> wf_raw d -> made x d' = true /\ keeps d d' /\ wf_raw d'.
Proof.
  unfold ensure. destruct (made x d) eqn:Em; [by intros [= <-]|].
  destruct x as [n cols keys refs|n t cols|n c]; cbn [exec_ddl made] in *.
  - rewrite Em. intros [= <-] Hw. cbn. apply bool_decide_eq_false in Em. apply eq_None_not_Some in Em. split; [|split].
    + rewrite lookup_insert_eq. by apply bool_decide_eq_true.
    + split; [|done]. intros m t Ht. exists t. cbn. rewrite lookup_insert_ne by congruence. split; [done|reflexivity].
    + intros m t. cbn. destruct (decide (m = n)) as [->|Hm]; [rewrite lookup_insert_eq; by intros [= <-]|].
      rewrite lookup_insert_ne by done. apply Hw.
  - rewrite Em. destruct (forallb _ _); [|done]. intros [= <-] Hw. cbn. apply bool_decide_eq_false in Em.
    apply eq_None_not_Some in Em. split; [|split].
    + rewrite lookup_insert_eq. by apply bool_decide_eq_true.
    + split; [by intros m tb ?; exists tb|]. cbn. by apply insert_subseteq.
    + exact Hw.
  - destruct (raw_tables d !! n) as [t|] eqn:Et; [|done]. unfold has_column in Em. rewrite Et in Em.
    rewrite Em. cbn. destruct (col_not_null c && _); [done|]. intros [= <-] Hw. apply bool_decide_eq_false in Em. split; [|split].
    + apply has_column_true. cbn. exists (add_column c t). rewrite lookup_insert_eq. split; [done|].
      unfold column_names. cbn. rewrite map_app. apply elem_of_app. right. by left.
    + split; [|done]. intros m tb Ht. cbn. destruct (decide (m = n)) as [->|Hm].
      * rewrite lookup_insert_eq. exists (add_column c t). split; [done|]. assert (tb = t) as -> by congruence.
        by eapply add_column_grows.
      * rewrite lookup_insert_ne by done. exists tb. split; [done|reflexivity].
    + intros m tb. cbn. destruct (decide (m = n)) as [->|Hm]; [|rewrite lookup_insert_ne by done; apply Hw].
      rewrite lookup_insert_eq. intros [= <-]. by eapply add_column_wf.
Qed.

Lemma made_keeps x d d' : keeps d d' -> made x d = true -> made x d' = true.
Proof.
  intros [Ht Hi]. destruct x as [n ? ? ?|n ? ?|n c]; cbn [made].
  - rewrite !bool_decide_eq_true. intros [t Hn]. destruct (Ht n t Hn) as (t' & ? & _). by exists t'.
  - rewrite !bool_decide_eq_true. intros [v Hn]. exists v. by eapply lookup_weaken.
  - rewrite !has_column_true. intros (t & Hn & Hc). destruct (Ht n t Hn) as (t' & ? & [l Hp] & _).
    exists t'. split; [done|]. rewrite Hp. apply elem_of_app. by left.
Qed.

(** ** The whole list *)

Lemma ensures_steps xs d d' :
  ensures xs d = Ok d' -> wf_raw d -> Forall (fun x => made x d' = true) xs /\ keeps d d' /\ wf_raw d'.
Proof.
  revert d. induction xs as [|x xs IH]; intros d; cbn [ensures]; [by intros [= <-]|].
  intros (d1 & Hx & Hr)%bind_Ok Hw. destruct (ensure_step x d d1 Hx Hw) as (Hm & Hk & Hw1).
  destruct (IH d1 Hr Hw1) as (Hms & Hk' & ?). split; [|split; [by etrans|done]].
  constructor; [by eapply made_keeps|done].
Qed.
Lemma ensures_made xs d : Forall (fun x => made x d = true) xs -> ensures xs d = Ok d.
Proof. induction 1 as [|x xs Hx _ IH]; [done|]. cbn [ensures]. unfold ensure. by rewrite Hx. Qed.

(** Beginning again after any part of the list leads where the list leads. *)
Lemma ensures_again xs k d d1 d' :
  wf_raw d -> ensures xs d = Ok d1 -> ensures (take k xs) d = Ok d' -> ensures xs d' = Ok d1.
Proof.
  intros Hw Hall Hk. rewrite <- (take_drop k xs), ensures_app, Hk in Hall. cbn in Hall.
  rewrite <- (take_drop k xs), ensures_app. destruct (ensures_steps _ _ _ Hk Hw) as (Hm & _).
  by rewrite (ensures_made _ _ Hm).
Qed.

(** ** Older versions *)

Definition migrated (n c : str) : bool := bool_decide ((n, c) ∈ map (fun '(t, x) => (t, col_name x)) MIGRATIONS).
(** The columns of a table in every version. *)
Definition declared (n : str) : list str :=
  concat (map (fun x => match x with
    | CreateTable m cols _ _ => if m ≟ n then filter (fun c => negb (migrated n c)) (map col_name cols) else []
    | _ => [] end) BATCH).
(** A file that an earlier version left: its tables have the columns of every version. *)
Definition older (d : RawDb) : Prop := forall n t, raw_tables d !! n = Some t -> declared n ⊆ column_names t.
(** What the store's statements rely on: all tables, with all their columns, and the
    indexes. *)
Definition current (d : RawDb) : Prop :=
  Forall (fun x => made x d = true) STEPS
  /\ (forall n cols keys refs, CreateTable n cols keys refs ∈ BATCH -> forall c, c ∈ cols -> has_column n (col_name c) d = true).

(** The list is in order: what a statement needs, an earlier one makes. *)
Fixpoint ordered (seen : list str) (xs : list Ddl) : bool :=
  match xs with
  | [] => true
  | CreateTable n cols _ _ :: r => bool_decide (declared n ⊆ map col_name cols) && ordered (n :: seen) r
  | CreateIndex _ t cols :: r => bool_decide (t ∈ seen) && bool_decide (cols ⊆ declared t) && ordered seen r
  | AddColumn t c :: r =>
      bool_decide (t ∈ seen) && negb (col_not_null c && (col_default c ≟ SNull)) && ordered seen r
  end.
Lemma steps_ordered : ordered [] STEPS = true.
Proof. by vm_compute. Qed.

Lemma older_step x d d' r seen : ensure x d = Ok d' -> wf_raw d -> older d -> ordered seen (x :: r) = true -> older d'.
Proof.
  intros Hx Hw Ho Hr n t Ht. destruct (raw_tables d !! n) as [t0|] eqn:E0.
  - destruct (ensure_step x d d' Hx Hw) as (_ & [Hk _] & _). destruct (Hk n t0 E0) as (t' & Ht' & [l Hp] & _).
    assert (t' = t) as -> by congruence. rewrite Hp. intros c Hc. apply elem_of_app. left. by apply (Ho n t0 E0).
  - unfold ensure in Hx. destruct (made x d) eqn:Em; [congruence|].
    destruct x as [m cols keys refs|m tb cols|m c]; cbn [exec_ddl made ordered] in *.
    + rewrite Em in Hx. injection Hx as <-. cbn in Ht. apply andb_true_iff in Hr as [Hr%bool_decide_eq_true _].
      destruct (decide (n = m)) as [->|Hn]; [|rewrite lookup_insert_ne in Ht by done; congruence].
      rewrite lookup_insert_eq in Ht. by injection Ht as <-.
    + rewrite Em in Hx. destruct (forallb _ _); [|done]. injection Hx as <-. cbn in Ht. congruence.
    + destruct (raw_tables d !! m) as [tb|] eqn:Etb; [|done]. destruct (_ || _); [done|]. injection Hx as <-. cbn in Ht.
      destruct (decide (n = m)) as [->|Hn]; [congruence|]. rewrite lookup_insert_ne in Ht by done. congruence.
Qed.

Lemma ensures_ok xs seen d :
  ordered seen xs = true -> (forall n, n ∈ seen -> is_Some (raw_tables d !! n)) -> wf_raw d -> older d ->
  exists d1, ensures xs d = Ok d1 /\ older d1.
Proof.
  revert seen d. induction xs as [|x xs IH]; intros seen d Hr Hs Hw Ho; cbn [ensures]; [by exists d|].
  assert (Hx : exists d1, ensure x d = Ok d1).
  { unfold ensure. destruct (made x d) eqn:Em; [by exists d|].
    destruct x as [n cols keys refs|n t cols|n c]; cbn [exec_ddl made ordered] in *; rewrite ?Em.
    - eauto.
    - apply andb_true_iff in Hr as [[Ht%bool_decide_eq_true Hc%bool_decide_eq_true]%andb_true_iff _].
      destruct (Hs t Ht) as [tb Htb]. rewrite forallb_elem; [eauto|]. intros c Hin. apply has_column_true.
      exists tb. split; [done|]. by apply (Ho t tb Htb), Hc.
    - apply andb_true_iff in Hr as [[Ht%bool_decide_eq_true Hc]%andb_true_iff _].
      destruct (Hs n Ht) as [tb Htb]. unfold has_column in Em. rewrite Htb in *. rewrite Em.
      apply negb_true_iff in Hc. rewrite Hc. cbn. eauto. }
  destruct Hx as [d1 Hx]. rewrite Hx. cbn. destruct (ensure_step x d d1 Hx Hw) as (Hm & [Hk _] & Hw1).
  pose proof (older_step x d d1 xs seen Hx Hw Ho Hr) as Ho1.
  assert (Hs1 : forall n, n ∈ seen -> is_Some (raw_tables d1 !! n)).
  { intros n [t Ht]%Hs. destruct (Hk n t Ht) as (t' & ? & _). by exists t'. }
  destruct x as [n cols keys refs|n t cols|n c]; cbn [ordered] in Hr.
  - apply andb_true_iff in Hr as [_ Hr]. apply (IH (n :: seen)); [done| |done..].
    intros m [->|Hin]%elem_of_cons; [|by apply Hs1]. by apply bool_decide_eq_true in Hm.
  - apply andb_true_iff in Hr as [_ Hr]. by apply (IH seen).
  - apply andb_true_iff in Hr as [_ Hr]. by apply (IH seen).
Qed.

Lemma declared_columns :
  forallb (fun x => match x with
    | CreateTable n cols _ _ => forallb (fun c => migrated n (col_name c) || bool_decide (col_name c ∈ declared n)) cols
    | _ => true end) BATCH = true.
Proof. by vm_compute. Qed.

Lemma older_current d : older d -> Forall (fun x => made x d = true) STEPS -> current d.
Proof.
  intros Ho Hm. split; [done|]. intros n cols keys refs Hin c Hc. unfold STEPS in Hm.
  apply Forall_app in Hm as [Hb Ha]. rewrite Forall_forall in Hb, Ha.
  pose proof (forallb_all _ _ declared_columns _ Hin) as Hd. cbn in Hd. apply (forallb_all _ _) with (x := c) in Hd; [|done].
  apply orb_true_iff in Hd as [Hd%bool_decide_eq_true|Hd%bool_decide_eq_true].
  - apply list_elem_of_fmap in Hd as ([t x] & [= -> Hx] & Hd). rewrite Hx.
    apply (Ha (AddColumn t x)). apply list_elem_of_fmap. by exists (t, x).
  - apply has_column_true. specialize (Hb _ Hin). cbn in Hb. apply bool_decide_eq_true in Hb as [t Ht].
    exists t. split; [done|]. by apply (Ho n t Ht).
Qed.

(** ** What [open] runs *)

Definition elsewhere (path : str) (s s' : Disk) : Prop :=
  (forall q, q <> path -> dk_dbs s' !! q = dk_dbs s !! q).

(** A part of [open] that runs the statements [xs] on the database. *)
Definition runs_at (path : str) (m : st Disk SqlError unit) (xs : list Ddl) (s : Disk) : Prop :=
  let '(r, s') := m s in
  elsewhere path s s' /\ dk_files s' = dk_files s
  /\ (exists k, ensures (take k xs) (db_at path s) = Ok (db_at path s') /\ (r = Ok tt -> ensures xs (db_at path s) = Ok (db_at path s')))
  /\ (dk_faults s = [] -> dk_faults s' = [] /\ (is_ok (ensures xs (db_at path s)) = true -> r = Ok tt)).
Definition runs (path : str) (m : st Disk SqlError unit) (xs : list Ddl) : Prop := forall s, runs_at path m xs s.

Lemma db_at_put path d s : db_at path (put_db path d s) = d.
Proof. unfold db_at. cbn. by rewrite lookup_insert_eq. Qed.

Lemma runs_bind path m1 m2 xs ys s :
  runs_at path m1 xs s -> runs path m2 ys -> runs_at path (_ ← m1; m2) (xs ++ ys) s.
Proof.
  intros H1 H2. unfold runs_at, mbind, st_bind. unfold runs_at in H1. destruct (m1 s) as [[[]|e] s1].
  - destruct H1 as (He1 & Hf1 & (k1 & _ & Ha1) & Hc1). specialize (Ha1 eq_refl).
    specialize (H2 s1). unfold runs_at in H2. destruct (m2 s1) as [r s2]. destruct H2 as (He2 & Hf2 & (k2 & Hk2 & Ha2) & Hc2).
    split; [intros q Hq; by rewrite He2, He1|]. split; [congruence|]. rewrite ensures_app, Ha1. cbn. split.
    + exists (length xs + k2)%nat. rewrite take_app_add, ensures_app, Ha1. cbn. done.
    + intros Hf. destruct (Hc1 Hf) as [Hf1' _]. by apply Hc2.
  - destruct H1 as (He1 & Hf1 & (k1 & Hk1 & _) & Hc1). split; [done|]. split; [done|]. split.
    + exists (Nat.min k1 (length xs)). rewrite take_app_le by lia. split; [|done]. by rewrite <- take_take, firstn_all.
    + intros Hf. destruct (Hc1 Hf) as [Hf1' Ho]. split; [done|]. rewrite ensures_app.
      destruct (ensures xs (db_at path s)) as [d|e']; [|done]. intros _. by specialize (Ho eq_refl).
Qed.

Lemma runs_sql path (f : RawDb -> result SqlError (unit * RawDb)) xs s :
  f (db_at path s) = (d ← ensures xs (db_at path s); Ok (tt, d)) -> runs_at path (sql path f) xs s.
Proof.
  intros Hf. unfold runs_at, sql. destruct (default false (head (dk_faults s))) eqn:Ef.
  - split; [done|]. split; [done|]. split; [by exists 0%nat|]. intros Hn. by rewrite Hn in Ef.
  - change (db_at path (mkDisk _ _ _)) with (db_at path s). rewrite Hf.
    destruct (ensures xs (db_at path s)) as [d|e] eqn:Ed; cbn.
    + split; [intros q Hq; cbn; by rewrite lookup_insert_ne|]. split; [done|]. rewrite db_at_put. split.
      * exists (length xs). by rewrite firstn_all, Ed.
      * intros Hn. by rewrite Hn.
    + split; [done|]. split; [done|]. split; [by exists 0%nat|]. intros Hn. by rewrite Hn.
Qed.
Lemma runs_ret path : runs path (mret tt) [].
Proof. intros s. cbn. split; [done|]. split; [done|]. split; [by exists 0%nat|]. done. Qed.
Lemma runs_call path : runs path (sql_call path) [].
Proof. intros s. by apply runs_sql. Qed.

(** A statement of the batch says [IF NOT EXISTS]. *)
Definition conditional (x : Ddl) : bool := match x with AddColumn _ _ => false | _ => true end.
Lemma runs_exec path x s : conditional x || negb (made x (db_at path s)) = true -> runs_at path (exec path x) [x] s.
Proof.
  intros Hx. apply runs_sql. cbn. unfold ensure.
  assert (He : exec_ddl x (db_at path s) = if made x (db_at path s) then Ok (db_at path s) else exec_ddl x (db_at path s)).
  { destruct (made x (db_at path s)) eqn:Em; [|done]. rewrite orb_false_r in Hx. destruct x; cbn in *; by rewrite ?Em. }
  rewrite <- He. by destruct (exec_ddl x (db_at path s)).
Qed.
Lemma runs_batch path xs : forallb conditional xs = true -> runs path (execute_batch path xs) xs.
Proof.
  induction xs as [|x xs IH]; cbn [forallb execute_batch]; [intros _; apply runs_ret|].
  intros [Hx Hxs]%andb_true_iff s. apply (runs_bind path _ _ [x]); [|by apply IH].
  apply runs_exec. by rewrite Hx.
Qed.

(** A question to the database, and what is done then. *)
Lemma runs_query path (q : RawDb -> bool) (k : bool -> st Disk SqlError unit) xs :
  (forall s, runs_at path (k (q (db_at path s))) xs s) -> runs path (has ← sql path (fun d => Ok (q d, d)); k has) xs.
Proof.
  intros Hk s. unfold runs_at, mbind, st_bind, sql. destruct (default false (head (dk_faults s))) eqn:Ef.
  { split; [done|]. split; [done|]. split; [by exists 0%nat|]. intros Hn. by rewrite Hn in Ef. }
  change (db_at path (mkDisk _ _ _)) with (db_at path s).
  set (s1 := put_db path (db_at path s) (mkDisk (dk_files s) (dk_dbs s) (tail (dk_faults s)))).
  assert (Hd : db_at path s1 = db_at path s) by apply db_at_put.
  assert (Hf : dk_faults s = [] -> dk_faults s1 = []) by (intros Hn; cbn; by rewrite Hn).
  specialize (Hk s1). rewrite Hd in Hk. unfold runs_at in Hk. destruct (k (q (db_at path s)) s1) as [r s2].
  rewrite Hd in Hk. destruct Hk as (He & Hfi & Hk & Hc). split; [|split; [done|]; split; [done|auto]].
  intros p Hp. rewrite (He p Hp). cbn. by rewrite lookup_insert_ne.
Qed.

Lemma runs_migrate path ms : runs path (migrate path ms) (map (fun '(t, c) => AddColumn t c) ms).
Proof.
  induction ms as [|[t c] ms IH]; [apply runs_ret|]. cbn [migrate map].
  apply (runs_query path (has_column t (col_name c))). intros s.
  destruct (has_column t (col_name c) (db_at path s)) eqn:Eh.
  - specialize (IH s). unfold runs_at in *. unfold mbind, st_bind, mret, st_ret.
    destruct (migrate path ms s) as [r s']. cbn [ensures]. unfold ensure. cbn [made]. rewrite Eh. cbn [mbind result_bind].
    destruct IH as (He & Hf & (k & Hk & Ha) & Hc). split; [done|]. split; [done|]. split; [|done].
    exists (S k). cbn [take ensures]. unfold ensure. cbn [made]. by rewrite Eh.
  - apply (runs_bind path _ _ [AddColumn t c]); [|exact IH]. rewrite <- (app_nil_r [AddColumn t c]).
    apply (runs_bind path _ _ [AddColumn t c]); [|apply runs_ret]. apply runs_exec. cbn. by rewrite Eh.
Qed.

Lemma runs_init path : runs path (init_schema path) STEPS.
Proof. intros s. apply runs_bind; [by apply runs_batch|apply runs_migrate]. Qed.
Lemma runs_opened path : runs path (connect path) STEPS.
Proof. intros s. unfold connect. do 3 (apply (runs_bind path _ _ []); [apply runs_call|intros ?]). apply runs_init. Qed.

Definition quiet (s : Disk) : Prop := dk_faults s = [] /\ fs_faults (dk_files s) = [].

(** One run of [open]: the first statements of the schema were run, all of them if it
    worked, which it does when nothing fails. *)
Lemma store_open_runs path s :
  let '(r, s') := store_open path s in
  elsewhere path s s' /\ fs (dk_files s') = fs (dk_files s)
  /\ (exists k, ensures (take k STEPS) (db_at path s) = Ok (db_at path s'))
  /\ (r = Ok tt -> ensures STEPS (db_at path s) = Ok (db_at path s'))
  /\ (quiet s -> is_ok (ensures STEPS (db_at path s)) = true -> r = Ok tt).
Proof.
  unfold store_open. set (body := st_map_err Storage _).
  assert (Hb : forall s1, db_at path s1 = db_at path s -> elsewhere path s s1 -> fs (dk_files s1) = fs (dk_files s) ->
    (quiet s -> quiet s1) ->
    let '(r, s') := body s1 in
    elsewhere path s s' /\ fs (dk_files s') = fs (dk_files s)
    /\ (exists k, ensures (take k STEPS) (db_at path s) = Ok (db_at path s'))
    /\ (r = Ok tt -> ensures STEPS (db_at path s) = Ok (db_at path s'))
    /\ (quiet s -> is_ok (ensures STEPS (db_at path s)) = true -> r = Ok tt)).
  { intros s1 Hd He Hf Hq. unfold body, st_map_err. pose proof (runs_opened path s1) as Hr. unfold runs_at in Hr.
    destruct (connect path s1) as [r s2]. rewrite Hd in Hr. destruct Hr as (He2 & Hf2 & (k & Hk & Ha) & Hc).
    assert (Hx : elsewhere path s s2) by (intros q Hq'; by rewrite He2, He).
    destruct r as [[]|e]; (split; [done|]; split; [congruence|]; split; [by exists k|]; split; [auto|]).
    - done.
    - done.
    - intros Hn Ho. destruct (Hq Hn) as [Hn1 _]. destruct (Hc Hn1) as [_ Hc']. discriminate (Hc' Ho). }
  assert (Hret : let '(r, s') := (_ ← mret tt; body) s in
    elsewhere path s s' /\ fs (dk_files s') = fs (dk_files s)
    /\ (exists k, ensures (take k STEPS) (db_at path s) = Ok (db_at path s'))
    /\ (r = Ok tt -> ensures STEPS (db_at path s) = Ok (db_at path s'))
    /\ (quiet s -> is_ok (ensures STEPS (db_at path s)) = true -> r = Ok tt)) by (by apply (Hb s)).
  destruct (parent path) as [[|c dir]|]; try exact Hret.
  unfold mbind, st_bind, fs_create_dir_all, next_fault.
  destruct (fs_faults (dk_files s)) as [|x rest] eqn:Efs.
  - by apply Hb.
  - assert (Hn : ~ quiet s) by (intros [_ Hq]; congruence). destruct x; cbn [map_err].
    + apply Hb; [done..|]. intros ?. done.
    + split; [done|]. split; [done|]. split; [by exists 0%nat|]. split; [done|]. intros ?. done.
    + split; [done|]. split; [done|]. split; [by exists 0%nat|]. split; [done|]. intros ?. done.
Qed.


(** ** A small old database *)

Module ToySchema.

Definition old_users : Table :=
  mkTable [nullable #"id" INTEGER; not_null #"username" TEXT; not_null #"password_hash" TEXT;
           not_null #"master_pubkey" BLOB; not_null #"created_at" INTEGER] [ [ #"id"]; [ #"username"] ] []
    [ {[ #"id" := SInt 1; #"username" := SText #"alice" ]} ].
Definition old : RawDb := mkRaw {[ #"users" := old_users ]} ∅.
(** The fourth call of SQLite fails, in the middle of the batch. *)
Definition disk (faults : list bool) : Disk := mkDisk (mkFiles ∅ [] 420) {[ #"/d/mailbox.db" := old ]} faults.

Lemma old_wf : wf_raw old.
Proof.
  intros n t Ht. unfold old in Ht. cbn [raw_tables] in Ht. apply lookup_singleton_Some in Ht as [<- <-]. constructor; [|done]. intros c Hc.
  assert (Hd : c ∈ dom ({[ #"id" := SInt 1; #"username" := SText #"alice" ]} : gmap str SqlValue)) by by apply elem_of_dom.
  rewrite dom_insert, dom_singleton in Hd. apply elem_of_union in Hd as [Hd|Hd]; apply elem_of_singleton in Hd as ->;
    refine (bool_decide_eq_true_1 _ _); by vm_compute.
Qed.
Lemma old_older : older old.
Proof. intros n t Ht. unfold old in Ht. cbn [raw_tables] in Ht. apply lookup_singleton_Some in Ht as [<- <-]. refine (bool_decide_eq_true_1 _ _). by vm_compute. Qed.


End ToySchema.
