(* ===== verification/StoreFile.v ===== *)
(** * The database file and the store

    [Schema] opens a file of raw tables, [Sqlite] works on typed rows.  Here the tables of
    a file are read as the store's rows, the way its statements name the columns; a file
    of an earlier version is read with the defaults of the columns it lacks. *)

From S2P Require Export SchemaFacts Sqlite.

(** ** Cells *)

Abbreviation row := (gmap str SqlValue).
Definition rows (n : str) (d : RawDb) : list row := default [] (tb_rows <$> raw_tables d !! n).
Definition columns (n : str) (d : RawDb) : list str := default [] (column_names <$> raw_tables d !! n).
(** What a statement reads, NULL where the row has nothing. *)
Definition cell (r : row) (c : str) : SqlValue := default SNull (r !! c).
(** What a row of an earlier version has in a column that was added later. *)
Definition added_default (n c : str) : SqlValue :=
  if n ≟ #"messages" then (if c ≟ #"trust_state" then SText #"unverified" else if c ≟ #"sender" then SText [] else SNull)
  else SNull.
(** What will be read once the file is opened. *)
Definition old_cell (n : str) (d : RawDb) (r : row) (c : str) : SqlValue :=
  if bool_decide (c ∈ columns n d) then cell r c else added_default n c.

(** ** Rows *)

Definition int (v : SqlValue) : option Z := match v with SInt z => Some z | _ => None end.
Definition text (v : SqlValue) : option str := match v with SText s => Some s | _ => None end.
Definition blob (v : SqlValue) : option str := match v with SBlob s => Some s | _ => None end.
Definition nullable_of {A} (get : SqlValue -> option A) (v : SqlValue) : option (option A) :=
  match v with SNull => Some None | _ => Some <$> get v end.
Definition or_null {A} (put : A -> SqlValue) (o : option A) : SqlValue := match o with Some a => put a | None => SNull end.

(** A table as a type of rows: its columns, and how a row is read and written. *)
Record Reading (R : Type) := mkReading {
  rd_table : str;
  rd_columns : list str;
  rd_read : list SqlValue -> option R;
  rd_write : R -> list SqlValue;
}.
Arguments rd_table {R}. Arguments rd_columns {R}. Arguments rd_read {R}. Arguments rd_write {R}. Arguments mkReading {R}.

Definition USERS : Reading user_row := mkReading #"users"
  [ #"id"; #"username"; #"password_hash"; #"master_pubkey"; #"created_at"; #"ivk_commitment"; #"registration_attestation"]
  (fun l => match l with
   | [id; name; hash; pk; at_; ivk; reg] =>
       id ← int id; name ← text name; hash ← text hash; pk ← blob pk; at_ ← int at_;
       ivk ← nullable_of text ivk; reg ← nullable_of text reg; Some (mkUserRow id name hash pk at_ ivk reg)
   | _ => None end)
  (fun r => [SInt (u_id r); SText (u_username r); SText (u_password_hash r); SBlob (u_master_pubkey r); SInt (u_created_at r);
             or_null SText (u_ivk_commitment r); or_null SText (u_registration_attestation r)]).
Definition KEYRING : Reading keyring_row := mkReading #"keyring_entries"
  [ #"user_id"; #"sender_mailbox"; #"sender_pubkey"; #"attestation"; #"state"; #"first_seen"]
  (fun l => match l with
   | [uid; sender; pk; att; state; seen] =>
       uid ← int uid; sender ← text sender; pk ← text pk; att ← blob att; state ← text state; seen ← int seen;
       Some (mkKeyringRow uid sender pk att state seen)
   | _ => None end)
  (fun r => [SInt (k_user_id r); SText (k_sender_mailbox r); SText (k_sender_pubkey r); SBlob (k_attestation r);
             SText (k_state r); SInt (k_first_seen r)]).
Definition SHARES : Reading share_row := mkReading #"shares"
  [ #"user_id"; #"share_id"; #"wrapped_dk"; #"revoked"]
  (fun l => match l with
   | [uid; sid; dk; revoked] =>
       uid ← int uid; sid ← text sid; dk ← blob dk; revoked ← int revoked; Some (mkShareRow uid sid dk revoked)
   | _ => None end)
  (fun r => [SInt (s_user_id r); SText (s_share_id r); SBlob (s_wrapped_dk r); SInt (s_revoked r)]).
Definition MAILBOXES : Reading mailbox_row := mkReading #"mailboxes"
  [ #"id"; #"user_id"; #"name"; #"uidvalidity"; #"uidnext"]
  (fun l => match l with
   | [id; uid; name; validity; next] =>
       id ← int id; uid ← int uid; name ← text name; validity ← int validity; next ← int next;
       Some (mkMailboxRow id uid name validity next)
   | _ => None end)
  (fun r => [SInt (mb_id r); SInt (mb_user_id r); SText (mb_name r); SInt (mb_uidvalidity r); SInt (mb_uidnext r)]).
Definition MESSAGES : Reading message_row := mkReading #"messages"
  [ #"id"; #"mailbox_id"; #"message_id"; #"uid"; #"internaldate"; #"flags"; #"subject"; #"size"; #"body_blob"; #"sender"; #"trust_state"]
  (fun l => match l with
   | [id; mb; mid; uid; date; flags; subject; size; body; sender; trust] =>
       id ← int id; mb ← int mb; mid ← text mid; uid ← int uid; date ← int date; flags ← int flags; subject ← text subject;
       size ← int size; body ← blob body; sender ← text sender; trust ← text trust;
       Some (mkMessageRow id mb mid uid date flags subject size body sender trust)
   | _ => None end)
  (fun r => [SInt (ms_id r); SInt (ms_mailbox_id r); SText (ms_message_id r); SInt (ms_uid r); SInt (ms_internaldate r);
             SInt (ms_flags r); SText (ms_subject r); SInt (ms_size r); SBlob (ms_body r); SText (ms_sender r); SText (ms_trust_state r)]).
Definition SETTINGS : Reading (str * str) := mkReading #"settings"
  [ #"key"; #"value"]
  (fun l => match l with [k; v] => k ← text k; v ← text v; Some (k, v) | _ => None end)
  (fun r => [SText r.1; SText r.2]).
Definition TRANSACTIONS : Reading tx_row := mkReading #"transactions"
  [ #"id"; #"direction"; #"state"; #"sender_mailbox"; #"recipient_mailbox"; #"amount"; #"binding"; #"message_id";
    #"message_row_id"; #"outbound_body"; #"payload"; #"created_at"; #"updated_at"]
  (fun l => match l with
   | [id; dir; state; sender; recipient; amount; binding; mid; mrow; body; payload; created; updated] =>
       id ← int id; dir ← text dir; state ← text state; sender ← text sender; recipient ← text recipient; amount ← text amount;
       binding ← nullable_of text binding; mid ← text mid; mrow ← nullable_of int mrow; body ← nullable_of blob body;
       payload ← text payload; created ← int created; updated ← int updated;
       Some (mkTxRow id dir state sender recipient amount binding mid mrow body payload created updated)
   | _ => None end)
  (fun r => [SInt (t_id r); SText (t_direction r); SText (t_state r); SText (t_sender_mailbox r); SText (t_recipient_mailbox r);
             SText (t_amount r); or_null SText (t_binding r); SText (t_message_id r); or_null SInt (t_message_row_id r);
             or_null SBlob (t_outbound_body r); SText (t_payload r); SInt (t_created_at r); SInt (t_updated_at r)]).

(** ** Files *)

Definition read_table {R : Type} (val : str -> RawDb -> row -> str -> SqlValue) (t : Reading R) (d : RawDb) : option (list R) :=
  mapM (fun r => rd_read t (map (val (rd_table t) d r) (rd_columns t))) (rows (rd_table t) d).
Definition load_with (val : str -> RawDb -> row -> str -> SqlValue) (d : RawDb) : option Db :=
  us ← read_table val USERS d; ks ← read_table val KEYRING d; ss ← read_table val SHARES d;
  bs ← read_table val MAILBOXES d; ms ← read_table val MESSAGES d; xs ← read_table val SETTINGS d;
  ts ← read_table val TRANSACTIONS d;
  Some (mkDb us ks ss bs ms xs ts).
(** The store of a file, and of one that an earlier version left. *)
Definition load : RawDb -> option Db := load_with (fun _ _ => cell).
Definition load_old : RawDb -> option Db := load_with old_cell.

(** The file of a store: the tables of the schema with its rows. *)
Definition write_row {R : Type} (t : Reading R) (r : R) : row := list_to_map (zip (rd_columns t) (rd_write t r)).
Definition rows_of (d : Db) (n : str) : list row :=
  if n ≟ #"users" then map (write_row USERS) (users d)
  else if n ≟ #"keyring_entries" then map (write_row KEYRING) (keyring_entries d)
  else if n ≟ #"shares" then map (write_row SHARES) (shares d)
  else if n ≟ #"mailboxes" then map (write_row MAILBOXES) (mailboxes d)
  else if n ≟ #"messages" then map (write_row MESSAGES) (messages d)
  else if n ≟ #"settings" then map (write_row SETTINGS) (settings d)
  else if n ≟ #"transactions" then map (write_row TRANSACTIONS) (transactions d)
  else [].
Definition FRESH : RawDb := match ensures STEPS raw_empty with Ok d => d | Err _ => raw_empty end.
Definition file_of (d : Db) : RawDb :=
  mkRaw (map_imap (fun n t => Some (mkTable (tb_columns t) (tb_keys t) (tb_refs t) (rows_of d n))) (raw_tables FRESH))
    (raw_indexes FRESH).

(** ** Opening keeps the cells *)

Definition same_cells (d d' : RawDb) : Prop :=
  forall n, Forall2 (fun r r' => forall c, old_cell n d r c = old_cell n d' r' c) (rows n d) (rows n d').
#[export] Instance same_cells_refl : Reflexive same_cells.
Proof. intros d n. by apply Forall_Forall2_diag, Forall_forall. Qed.
#[export] Instance same_cells_trans : Transitive same_cells.
Proof.
  intros d1 d2 d3 Hx Hy n. specialize (Hy n). specialize (Hx n). revert Hy. generalize (rows n d3).
  induction Hx as [|r1 r2 l1 l2 Hr _ IH]; intros l3 Hy; inversion Hy; subst; constructor; [|by apply IH].
  intros c. by rewrite Hr.
Qed.

Lemma same_tables d d' : (forall n, raw_tables d' !! n = raw_tables d !! n \/ (rows n d = [] /\ rows n d' = [])) -> same_cells d d'.
Proof.
  intros Ht n. destruct (Ht n) as [He|[-> ->]]; [|constructor].
  unfold rows, old_cell, columns. rewrite He. by apply Forall_Forall2_diag, Forall_forall.
Qed.

(** A column that is added has the default under which it was read before. *)
Definition adds_default (x : Ddl) : bool :=
  match x with AddColumn n c => bool_decide (added_default n (col_name c) = col_default c) | _ => true end.
Lemma steps_add_defaults : forallb adds_default STEPS = true.
Proof. by vm_compute. Qed.

Lemma added_column d n t c :
  raw_tables d !! n = Some t -> col_name c ∉ column_names t -> added_default n (col_name c) = col_default c ->
  same_cells d (mkRaw (<[n := add_column c t]> (raw_tables d)) (raw_indexes d)).
Proof.
  intros Ht Hc Hd m. unfold rows, old_cell, columns. cbn [raw_tables].
  destruct (decide (m = n)) as [->|Hm].
  - rewrite lookup_insert_eq, Ht. cbn. induction (tb_rows t) as [|r rs IH]; cbn; constructor; [|exact IH].
    intros x. unfold column_names at 2. cbn [add_column tb_columns]. rewrite map_app. fold (column_names t). unfold cell.
    destruct (decide (x = col_name c)) as [->|Hx].
    + rewrite bool_decide_eq_false_2 by done. rewrite bool_decide_eq_true_2 by (apply elem_of_app; right; by left).
      by rewrite lookup_insert_eq.
    + rewrite lookup_insert_ne by done.
      rewrite (bool_decide_ext (x ∈ column_names t ++ map col_name [c]) (x ∈ column_names t)); [done|].
      rewrite elem_of_app. cbn. rewrite list_elem_of_singleton. tauto.
  - rewrite lookup_insert_ne by done. by apply Forall_Forall2_diag, Forall_forall.
Qed.

Lemma ensure_cells x d d' : adds_default x = true -> ensure x d = Ok d' -> same_cells d d'.
Proof.
  intros Hx. unfold ensure. destruct (made x d) eqn:Em; [by intros [= <-]|].
  destruct x as [n cols keys refs|n t cols|n c]; cbn [exec_ddl made] in *.
  - rewrite Em. intros [= <-]. apply same_tables. intros m. cbn. destruct (decide (m = n)) as [->|Hm].
    + right. apply bool_decide_eq_false, eq_None_not_Some in Em. unfold rows. cbn. by rewrite Em, lookup_insert_eq.
    + left. by rewrite lookup_insert_ne.
  - rewrite Em. destruct (forallb _ _); [|done]. intros [= <-]. apply same_tables. intros m. by left.
  - unfold has_column in Em. destruct (raw_tables d !! n) as [t|] eqn:Et; [|done]. rewrite Em.
    destruct (false || _); [done|]. intros [= <-]. apply bool_decide_eq_false in Em. apply bool_decide_eq_true in Hx. by apply added_column.
Qed.
Lemma ensures_cells xs d d' : forallb adds_default xs = true -> ensures xs d = Ok d' -> same_cells d d'.
Proof.
  revert d. induction xs as [|x xs IH]; intros d; cbn [forallb ensures]; [by intros _ [= <-]|].
  intros [Hx Hxs]%andb_true_iff (d1 & Hd1 & Hr)%bind_Ok. etrans; [by eapply ensure_cells|by apply IH].
Qed.

(** ** Reading *)

Lemma read_table_same {R : Type} (t : Reading R) d d' : same_cells d d' -> read_table old_cell t d = read_table old_cell t d'.
Proof.
  intros Hs. apply Forall2_mapM_ext. eapply Forall2_impl; [apply Hs|]. cbn beta. intros r r' Hr. f_equal. apply map_ext, Hr.
Qed.
Lemma load_old_same d d' : same_cells d d' -> load_old d = load_old d'.
Proof. intros Hs. unfold load_old, load_with. by rewrite !(read_table_same _ _ _ Hs). Qed.

(** A file with all columns is read as it is. *)
Definition complete {R : Type} (t : Reading R) (d : RawDb) : Prop := rd_columns t ⊆ columns (rd_table t) d.
Lemma read_table_complete {R : Type} (t : Reading R) d :
  complete t d -> read_table old_cell t d = read_table (fun _ _ => cell) t d.
Proof.
  intros Hc. apply mapM_ext. intros r. f_equal. apply map_ext_in. intros c Hin%list_elem_of_In.
  unfold old_cell. by rewrite bool_decide_eq_true_2 by (by apply Hc).
Qed.

(** The schema has the columns a table is read by. *)
Definition provided (n c : str) : bool :=
  migrated n c || existsb (fun x => match x with
    | CreateTable m cols _ _ => (m ≟ n) && bool_decide (c ∈ map col_name cols)
    | _ => false end) BATCH.
Definition covered {R : Type} (t : Reading R) : bool := forallb (provided (rd_table t)) (rd_columns t).
Lemma current_has d n c : current d -> provided n c = true -> c ∈ columns n d.
Proof.
  intros [Hm Hc] Hp. cut (has_column n c d = true).
  { intros (tb & Ht & Hn)%has_column_true. unfold columns. by rewrite Ht. }
  apply orb_true_iff in Hp as [Hp|Hp].
  - apply bool_decide_eq_true in Hp. apply list_elem_of_fmap in Hp as ([t x] & [= -> ->] & Hx).
    rewrite Forall_forall in Hm. apply (Hm (AddColumn t x)), elem_of_app. right. apply list_elem_of_fmap. by exists (t, x).
  - apply existsb_exists in Hp as (x & Hin & Hx). apply list_elem_of_In in Hin. destruct x as [m cols keys refs| |]; [|done..].
    apply andb_true_iff in Hx as [->%bool_decide_eq_true Hn%bool_decide_eq_true].
    apply list_elem_of_fmap in Hn as (y & -> & Hy). exact (Hc _ _ _ _ Hin y Hy).
Qed.
Lemma current_complete {R : Type} (t : Reading R) d : covered t = true -> current d -> complete t d.
Proof. intros Ht Hc c Hin. apply current_has; [done|]. exact (forallb_all _ _ Ht c Hin). Qed.
Lemma load_current d : current d -> load d = load_old d.
Proof.
  intros Hc. unfold load, load_old, load_with.
  by rewrite !read_table_complete by (apply current_complete; [by vm_compute|done]).
Qed.

(** ** Writing *)

(** A row is read as it was written. *)
Definition lawful {R : Type} (t : Reading R) : Prop :=
  NoDup (rd_columns t) /\ forall r, length (rd_write t r) = length (rd_columns t) /\ rd_read t (rd_write t r) = Some r.
Lemma cells_of (cs : list str) (vs : list SqlValue) :
  NoDup cs -> length vs = length cs -> map (cell (list_to_map (zip cs vs))) cs = vs.
Proof.
  revert vs. induction cs as [|c cs IH]; intros [|v vs] Hn Hl; cbn in *; [done..|]. apply NoDup_cons in Hn as [Hc Hn].
  f_equal; [unfold cell; by rewrite lookup_insert_eq|]. rewrite <- (IH vs) at 2 by (done || lia).
  apply map_ext_in. intros x Hx%list_elem_of_In. unfold cell. rewrite lookup_insert_ne; [done|]. by intros ->.
Qed.
Lemma write_read {R : Type} (t : Reading R) d l :
  lawful t -> rows (rd_table t) d = map (write_row t) l -> read_table (fun _ _ => cell) t d = Some l.
Proof.
  intros [Hn Hl] Hr. unfold read_table. rewrite Hr. apply (mapM_fmap_Forall_Some _ (write_row t)), Forall_true. intros r.
  destruct (Hl r) as [? ?]. unfold write_row. by rewrite cells_of.
Qed.

Ltac lawful := split; [apply (bool_decide_eq_true_1 _); by vm_compute|intros r; split; [done|]].
Lemma null_or {A} (put : A -> SqlValue) get o :
  (forall a, put a <> SNull) -> (forall a, get (put a) = Some a) -> nullable_of get (or_null put o) = Some o.
Proof.
  intros Hn Hg. destruct o as [a|]; [|done]. unfold nullable_of, or_null. rewrite Hg. destruct (put a) eqn:Ea; [by apply Hn in Ea|done..].
Qed.
Lemma users_lawful : lawful USERS.
Proof. lawful. cbn. rewrite !null_or by done. by destruct r. Qed.
Lemma keyring_lawful : lawful KEYRING.
Proof. lawful. by destruct r. Qed.
Lemma shares_lawful : lawful SHARES.
Proof. lawful. by destruct r. Qed.
Lemma mailboxes_lawful : lawful MAILBOXES.
Proof. lawful. by destruct r. Qed.
Lemma messages_lawful : lawful MESSAGES.
Proof. lawful. by destruct r. Qed.
Lemma settings_lawful : lawful SETTINGS.
Proof. lawful. by destruct r. Qed.
Lemma transactions_lawful : lawful TRANSACTIONS.
Proof. lawful. cbn. rewrite !null_or by done. by destruct r. Qed.
#[local] Hint Resolve users_lawful keyring_lawful shares_lawful mailboxes_lawful messages_lawful settings_lawful transactions_lawful : core.

Lemma file_table d n : raw_tables (file_of d) !! n =
  (fun t => mkTable (tb_columns t) (tb_keys t) (tb_refs t) (rows_of d n)) <$> raw_tables FRESH !! n.
Proof. unfold file_of. cbn [raw_tables]. rewrite map_lookup_imap. by destruct (raw_tables FRESH !! n). Qed.
Lemma file_rows d n : is_Some (raw_tables FRESH !! n) -> rows n (file_of d) = rows_of d n.
Proof. intros [t Ht]. unfold rows. by rewrite file_table, Ht. Qed.
Lemma made_file x d : made x (file_of d) = made x FRESH.
Proof.
  destruct x as [n ? ? ?|n ? ?|n c]; cbn [made]; [|done|unfold has_column]; rewrite file_table;
    by destruct (raw_tables FRESH !! n).
Qed.

(** The file of a store has everything the schema makes, and is read as the store. *)
Lemma file_made d : Forall (fun x => made x (file_of d) = true) STEPS.
Proof.
  assert (Hf : forallb (fun x => made x FRESH) STEPS = true) by by vm_compute.
  apply Forall_forall. intros x Hx. rewrite made_file. by apply (forallb_all _ _ Hf).
Qed.
Lemma load_file d : load (file_of d) = Some d.
Proof.
  assert (Hr : forall R (t : Reading R) l, lawful t -> bool_decide (is_Some (raw_tables FRESH !! rd_table t)) = true ->
    rows_of d (rd_table t) = map (write_row t) l -> read_table (fun _ _ => cell) t (file_of d) = Some l).
  { intros R t l Ht Hs%bool_decide_eq_true Hl. apply write_read; [done|]. by rewrite file_rows. }
  unfold load, load_with.
  rewrite (Hr _ USERS (users d)), (Hr _ KEYRING (keyring_entries d)), (Hr _ SHARES (shares d)), (Hr _ MAILBOXES (mailboxes d)),
    (Hr _ MESSAGES (messages d)), (Hr _ SETTINGS (settings d)), (Hr _ TRANSACTIONS (transactions d))
    by (done || auto || by vm_compute). by destruct d.
Qed.

(** ** Opening *)

(** C39: a store and its file. Opening a file never changes what is read of it, wherever
    it stops: the rows of an earlier version are read with the columns they lack, a
    message as one nobody has vouched for; a file that is opened is read like this by
    the statements of the current version; no file, or an empty one, is opened as the
    empty store; and the file that a store is written to is left as it is and read as
    that store. *)
Theorem opened_file_reads path s :
  let d := db_at path s in
  let '(r, s') := store_open path s in
  load_old (db_at path s') = load_old d
  /\ (wf_raw d -> older d -> r = Ok tt -> load (db_at path s') = load_old d)
  /\ (d = raw_empty -> r = Ok tt -> load (db_at path s') = Some empty_db)
  /\ (forall x, d = file_of x -> db_at path s' = d /\ load (db_at path s') = Some x).
Proof.
  cbv zeta. pose proof (store_open_runs path s) as Hr. destruct (store_open path s) as [r s'].
  destruct Hr as (_ & _ & (k & Hk) & Ha & _).
  assert (Hs : load_old (db_at path s') = load_old (db_at path s)).
  { symmetry. apply load_old_same. eapply ensures_cells; [|exact Hk].
    pose proof steps_add_defaults as Hd. rewrite <- (take_drop k STEPS), forallb_app in Hd. by apply andb_true_iff in Hd as [Hd _]. }
  assert (Hc : wf_raw (db_at path s) -> older (db_at path s) -> r = Ok tt -> load (db_at path s') = load_old (db_at path s)).
  { intros Hw Ho Hok. specialize (Ha Hok). rewrite <- Hs. apply load_current.
    destruct (ensures_ok STEPS [] (db_at path s) steps_ordered) as (d1 & Hd1 & Ho1); [by intros ? ?%elem_of_nil|exact Hw|exact Ho|].
    assert (d1 = db_at path s') as -> by congruence. apply older_current; [done|]. by apply (ensures_steps STEPS _ _ Ha Hw). }
  split; [done|]. split; [done|]. split.
  - intros He Hok. rewrite Hc; [by rewrite He|..]; [rewrite He; by intros ? ? ?..|done].
  - intros x Hx. assert (Hsame : db_at path s' = db_at path s).
    { rewrite Hx in Hk |- *. rewrite ensures_made in Hk; [by injection Hk|]. apply Forall_take, file_made. }
    split; [done|]. rewrite Hsame, Hx. apply load_file.
Qed.

(** ** An old store *)

Module ToyFile.

Definition path : str := #"/d/mailbox.db".
(** A mailbox with one message, from before senders were kept. *)
Definition old_messages : Table :=
  mkTable [nullable #"id" INTEGER; not_null #"mailbox_id" INTEGER; not_null #"message_id" TEXT; not_null #"uid" INTEGER;
           not_null #"internaldate" INTEGER; defaulting #"flags" INTEGER (SInt 0); not_null #"subject" TEXT;
           not_null #"size" INTEGER; not_null #"body_blob" BLOB] [ [ #"id"]; [ #"mailbox_id"; #"message_id"] ] []
    [list_to_map [( #"id", SInt 7); ( #"mailbox_id", SInt 1); ( #"message_id", SText #"m1"); ( #"uid", SInt 3);
       ( #"internaldate", SInt 1700000000); ( #"flags", SInt 1); ( #"subject", SText #"hello"); ( #"size", SInt 2);
       ( #"body_blob", SBlob #"hi")] ].
Definition old : RawDb := mkRaw {[ #"messages" := old_messages ]} ∅.
Definition disk (d : RawDb) (faults : list bool) : Disk := mkDisk (mkFiles ∅ [] 420) {[ path := d ]} faults.
Definition message : message_row :=
  mkMessageRow 7 1 #"m1" 3 1700000000 1 #"hello" 2 #"hi" [] #"unverified".
Definition store : Db := mkDb [] [] [] [mkMailboxRow 1 1 #"INBOX" 1 4] [message] [] [].

Lemma old_file_wf : wf_raw old.
Proof.
  intros n t Ht. unfold old in Ht. cbn [raw_tables] in Ht. apply lookup_singleton_Some in Ht as [<- <-]. constructor; [|done].
  intros c Hc%elem_of_dom. rewrite dom_list_to_map, elem_of_list_to_set in Hc. exact Hc.
Qed.
Lemma old_file_older : older old.
Proof.
  intros n t Ht. unfold old in Ht. cbn [raw_tables] in Ht. apply lookup_singleton_Some in Ht as [<- <-].
  refine (bool_decide_eq_true_1 _ _). by vm_compute.
Qed.

(** The old file is opened: the message's sender is unknown and it is unverified; an
    attempt that stops in the middle leaves a file that is read alike; the store is
    read from its own file. *)
Lemma opened_file_reads_witness :
  let s := snd (store_open path (disk old [])) in
  let s1 := snd (store_open path (disk old [false; false; false; false; false; true])) in
  let s2 := snd (store_open path (disk (file_of store) [])) in
  load (db_at path s) = Some (mkDb [] [] [] [] [message] [] [])
  /\ load_old (db_at path s1) = Some (mkDb [] [] [] [] [message] [] [])
  /\ load (db_at path s2) = Some store.
Proof.
  cbv zeta. split; [|split].
  - pose proof (opened_file_reads path (disk old [])) as Hx. cbv zeta in Hx.
    assert (Hr : fst (store_open path (disk old [])) = Ok tt) by by vm_compute.
    destruct (store_open path (disk old [])) as [r s']. cbn [fst snd] in *. destruct Hx as (_ & Hx & _).
    rewrite (Hx old_file_wf old_file_older Hr). by vm_compute.
  - pose proof (opened_file_reads path (disk old [false; false; false; false; false; true])) as Hx. cbv zeta in Hx.
    destruct (store_open path (disk old [false; false; false; false; false; true])) as [r s']. cbn [snd]. destruct Hx as (Hx & _).
    rewrite Hx. by vm_compute.
  - pose proof (opened_file_reads path (disk (file_of store) [])) as Hx. cbv zeta in Hx.
    destruct (store_open path (disk (file_of store) [])) as [r s']. cbn [snd]. destruct Hx as (_ & _ & _ & Hx).
    by apply (Hx store).
Defined.

End ToyFile.
