(* ===== verification/Wallet.v ===== *)
(** * Wallets by user name ([talk-wallet/src/wallet.rs])

    Where the wallet database of a mailbox user is. *)

From S2P Require Export UserLife Template Files.

Inductive WalletError := WalletIo (e : IoError) | WalletUserNotFound (username : str).

Record WalletBinding := mkBinding {
  wb_username : str;
  wb_master_pubkey : str;
  wb_ivk_commitment : option str;
  wb_wallet_db_path : str;
}.
Record UserWallet := mkWallet { uw_user_id : Z; uw_path : str }.

Definition wallet_user_dir (wallet_dir : str) (id : Z) : str := path_join wallet_dir (show_Z id).

(** [UserWallet::open]. *)
Definition wallet_open (wallet_dir : str) (id : Z) : st Files WalletError UserWallet :=
  let dir := wallet_user_dir wallet_dir id in
  _ ← st_map_err WalletIo (fs_create_dir_all dir);
  mret (mkWallet id (path_join dir #"wallet.db")).

(** [WalletResolver::resolve]. *)
Definition wallet_resolve (wallet_dir username : str) : st Store WalletError WalletBinding :=
  user ← st_map_err (fun _ => WalletUserNotFound username) (get_user username);
  user ← lift (ok_or user (WalletUserNotFound username));
  mret (mkBinding (user_username user) (user_master_pubkey user) (user_ivk_commitment user)
          (path_join (wallet_user_dir wallet_dir (user_id user)) #"wallet.db")).

(** Without faults a user who exists is resolved to the wallet that [open] makes for
    them, and nobody else is. *)
Lemma wallet_resolve_calm `{RowIdsLaws} wallet_dir username s x :
  faults s = [] -> fs_faults x = [] ->
  wallet_resolve wallet_dir username s =
    (match user_named username (db s) with
     | Some r => Ok (mkBinding (u_username r) (u_master_pubkey r) (u_ivk_commitment r)
         (match fst (wallet_open wallet_dir (u_id r) x) with Ok w => uw_path w | Err _ => [] end))
     | None => Err (WalletUserNotFound username)
     end, s).
Proof.
  intros Hf Hx. unfold wallet_resolve.
  rewrite (st_bind_Ok _ _ s (row_to_user <$> user_named username (db s)) s).
  - destruct (user_named username (db s)) as [r|]; [|done]. unfold wallet_open, mbind, st_bind, st_map_err.
    by rewrite fs_create_dir_all_calm.
  - unfold st_map_err. by rewrite get_user_calm.
Qed.
