(* ===== verification/Indexer.v ===== *)
(** * The indexer client ([talk-wallet/src/client.rs])

    The four calls of the daemon to a lightwalletd server.  The generated gRPC client and
    its transport are the interface [Grpc]; the program around them is the loop that
    gathers a stream of blocks and the outcome of a broadcast. *)

From S2P Require Export Externals.

Record BlockId := mkBlockId { bi_height : Z; bi_hash : str }.
Record BlockRange := mkRange { br_start : option BlockId; br_end : option BlockId; br_pool_types : list Z }.
Record RawTransaction := mkRawTx { rt_data : str; rt_height : Z }.
Record SendResponse := mkResponse { error_code : Z; error_message : str }.

(** The generated client over a channel, in a world [W] that the calls change. *)
Class Grpc (W : Type) := {
  GrpcEndpoint : Type; GrpcChannel : Type; GrpcStream : Type; CompactBlock : Type;
  TransportError : Type; GrpcStatus : Type;
  (** [Channel::from_shared], with the text of its error, and [Endpoint::connect] *)
  from_shared : str -> result str GrpcEndpoint;
  channel_connect : GrpcEndpoint -> st W TransportError GrpcChannel;
  get_latest_block : GrpcChannel -> st W GrpcStatus BlockId;
  get_block_range : GrpcChannel -> BlockRange -> st W GrpcStatus GrpcStream;
  (** [Streaming::message]: the next block, or the end *)
  stream_message : GrpcStream -> st W GrpcStatus (option CompactBlock);
  grpc_send_transaction : GrpcChannel -> RawTransaction -> st W GrpcStatus SendResponse;
}.

Section client.
Context {W : Type} `{G : Grpc W}.

Inductive IndexerError :=
  | InvalidEndpoint (e : str)
  | Transport (e : TransportError)
  | Rpc (e : GrpcStatus)
  | BroadcastRejected (message : str).

Record LightwalletdClient := mkLightwalletd { streamer : GrpcChannel }.

Definition indexer_connect (endpoint : str) : st W IndexerError LightwalletdClient :=
  endpoint ← lift (map_err InvalidEndpoint (from_shared endpoint));
  channel ← st_map_err Transport (channel_connect endpoint);
  mret (mkLightwalletd channel).

Definition latest_height (c : LightwalletdClient) : st W IndexerError Z :=
  resp ← st_map_err Rpc (get_latest_block (streamer c)); mret (bi_height resp).

(** [while let Some(block) = stream.message().await?]: a server may send for ever, so
    without fuel there is no result yet. *)
Fixpoint gather (fuel : nat) (stream : GrpcStream) (blocks : list CompactBlock) (w : W) :
    option (result IndexerError (list CompactBlock) * W) :=
  match fuel with
  | O => None
  | S fuel =>
      match stream_message stream w with
      | (Err e, w) => Some (Err (Rpc e), w)
      | (Ok None, w) => Some (Ok blocks, w)
      | (Ok (Some block), w) => gather fuel stream (blocks ++ [block]) w
      end
  end.
Definition range_request (start end_ : Z) : BlockRange :=
  mkRange (Some (mkBlockId start [])) (Some (mkBlockId end_ [])) [].
Definition block_range (fuel : nat) (c : LightwalletdClient) (start end_ : Z) (w : W) :
    option (result IndexerError (list CompactBlock) * W) :=
  match get_block_range (streamer c) (range_request start end_) w with
  | (Err e, w) => Some (Err (Rpc e), w)
  | (Ok stream, w) => gather fuel stream [] w
  end.

Definition indexer_send_transaction (c : LightwalletdClient) (data : str) : st W IndexerError unit :=
  resp ← st_map_err Rpc (grpc_send_transaction (streamer c) (mkRawTx data 0));
  if (error_code resp =? 0)%Z then mret tt else raise (BroadcastRejected (error_message resp)).

(** What the daemon logs of its indexer at the start ([talkd/src/main.rs]). *)
Inductive IndexerReport := IndexerConnected (height : Z) | HeightFailed (e : IndexerError) | ConnectFailed (e : IndexerError).
Definition indexer_task (indexer_url : str) (w : W) : IndexerReport * W :=
  match indexer_connect indexer_url w with
  | (Err e, w) => (ConnectFailed e, w)
  | (Ok c, w) =>
      match latest_height c w with
      | (Err e, w) => (HeightFailed e, w)
      | (Ok h, w) => (IndexerConnected h, w)
      end
  end.

(** ** What a stream delivers *)

(** From [w] the stream delivers [blocks] and ends, or fails after them, in [w']. *)
Inductive delivers (stream : GrpcStream) : W -> list CompactBlock -> option GrpcStatus -> W -> Prop :=
  | delivers_end w w' : stream_message stream w = (Ok None, w') -> delivers stream w [] None w'
  | delivers_fail w e w' : stream_message stream w = (Err e, w') -> delivers stream w [] (Some e) w'
  | delivers_block w b w1 bs o w' :
      stream_message stream w = (Ok (Some b), w1) -> delivers stream w1 bs o w' -> delivers stream w (b :: bs) o w'.

Lemma gather_delivers stream w bs o w' :
  delivers stream w bs o w' -> forall fuel acc, length bs < fuel ->
  gather fuel stream acc w = Some (match o with None => Ok (acc ++ bs) | Some e => Err (Rpc e) end, w').
Proof.
  induction 1 as [w w' Hm|w e w' Hm|w b w1 bs o w' Hm _ IH]; intros [|fuel] acc Hf; cbn in *; try lia; rewrite Hm.
  - by rewrite app_nil_r.
  - done.
  - rewrite IH by lia. by rewrite <- app_assoc.
Qed.

(** A result of the loop is what the stream delivered, and more fuel changes nothing. *)
Lemma gather_inv fuel stream acc w r w' :
  gather fuel stream acc w = Some (r, w') ->
  exists bs o, delivers stream w bs o w' /\ length bs < fuel
    /\ r = (match o with None => Ok (acc ++ bs) | Some e => Err (Rpc e) end).
Proof.
  revert acc w. induction fuel as [|fuel IH]; intros acc w; [done|]. cbn.
  destruct (stream_message stream w) as [[[b|]|e] w1] eqn:Hm.
  - intros (bs & o & Hd & Hl & ->)%IH. exists (b :: bs), o. split; [by econstructor|]. split; [cbn; lia|].
    destruct o; [done|]. by rewrite <- app_assoc.
  - intros [= <- <-]. exists [], None. split; [by constructor|]. split; [cbn; lia|]. by rewrite app_nil_r.
  - intros [= <- <-]. exists [], (Some e). split; [by constructor|]. split; [cbn; lia|done].
Qed.

(** The range is what the server sends before it ends the stream, in that order; an error
    in the middle loses the blocks before it. *)
Theorem block_range_exact c start end_ w r w' :
  (exists fuel, block_range fuel c start end_ w = Some (r, w')) <->
  (exists e, get_block_range (streamer c) (range_request start end_) w = (Err e, w') /\ r = Err (Rpc e))
  \/ (exists stream w1 bs o, get_block_range (streamer c) (range_request start end_) w = (Ok stream, w1)
        /\ delivers stream w1 bs o w' /\ r = (match o with None => Ok bs | Some e => Err (Rpc e) end)).
Proof.
  unfold block_range. destruct (get_block_range _ _ w) as [[stream|e] w1]; split.
  - intros [fuel (bs & o & Hd & _ & ->)%gather_inv]. right. by exists stream, w1, bs, o.
  - intros [(e & [=] & _)|(s & w2 & bs & o & [= <- <-] & Hd & ->)]. exists (S (length bs)).
    by rewrite (gather_delivers _ _ _ _ _ Hd) by lia.
  - intros [_ [= <- <-]]. left. by exists e.
  - intros [(e' & [= <- <-] & ->)|(s & w2 & bs & o & [=] & _)]. by exists 1.
Qed.

(** A broadcast succeeds exactly when the server answers with the code 0. *)
Theorem broadcast_accepted c data w w' :
  indexer_send_transaction c data w = (Ok tt, w') <->
  exists m, grpc_send_transaction (streamer c) (mkRawTx data 0) w = (Ok (mkResponse 0 m), w').
Proof.
  unfold indexer_send_transaction, mbind, st_bind, st_map_err.
  destruct (grpc_send_transaction _ _ w) as [[[code m]|e] w1]; cbn.
  - destruct (Z.eqb_spec code 0) as [->|Hc]; split; [intros [= <-]; by exists m|by intros [m' [= <- <-]]|done|by intros [m' [= -> _ _]]].
  - split; [done|by intros [m [=]]].
Qed.

End client.

(** ** A server that sends its blocks and then fails or ends *)

Module ToyGrpc.
#[export] Instance toy_grpc : Grpc (list (result str Z)) := {|
  GrpcEndpoint := str; GrpcChannel := str; GrpcStream := unit; CompactBlock := Z; TransportError := str; GrpcStatus := str;
  from_shared := fun s => if s ≟ [] then Err #"empty string" else Ok s;
  channel_connect := fun e w => (Ok e, w);
  get_latest_block := fun _ w => (match w with Ok h :: _ => Ok (mkBlockId h []) | Err e :: _ => Err e | [] => Err #"no block" end, w);
  get_block_range := fun _ _ w => (Ok tt, w);
  stream_message := fun _ w => match w with [] => (Ok None, []) | Ok b :: w => (Ok (Some b), w) | Err e :: w => (Err e, w) end;
  grpc_send_transaction := fun _ tx w => (Ok (if rt_data tx ≟ [] then mkResponse (-1) #"empty" else mkResponse 0 []), w);
|}.

Definition client : LightwalletdClient := mkLightwalletd #"lwd".
Example range_gathered : block_range 4 client 1 3 [Ok 1; Ok 2; Ok 3]%Z = Some (Ok [1; 2; 3]%Z, []).
Proof. reflexivity. Qed.
Example range_lost : block_range 4 client 1 3 [Ok 1; Err #"reset"; Ok 3]%Z = Some (Err (Rpc #"reset"), [Ok 3%Z]).
Proof. reflexivity. Qed.
Example broadcast_refused : fst (indexer_send_transaction client [] []) = Err (BroadcastRejected #"empty").
Proof. reflexivity. Qed.
Example indexer_reached : indexer_task #"lwd" [Ok 7%Z] = (IndexerConnected 7, [Ok 7%Z]).
Proof. reflexivity. Qed.
Example indexer_misnamed : fst (indexer_task [] [Ok 7%Z]) = ConnectFailed (InvalidEndpoint #"empty string").
Proof. reflexivity. Qed.
End ToyGrpc.
