(* ===== verification/Config.v ===== *)
(** * Daemon configuration ([talk-core/src/config.rs])

    The configuration, what a TOML document must say for it, and the check of the
    domain.  The TOML parser and the deserializers derived for the structs are the
    interface [ConfigParser]: they give the document, absent fields as [None]. *)

From S2P Require Export Files.

Inductive ConfigAuthMode := CfgDatabase | CfgLocalAuth.
#[export] Instance ConfigAuthMode_eq_dec : EqDecision ConfigAuthMode.
Proof. solve_decision. Defined.

Record General := mkGeneral { g_data_dir : str; g_domain : str; g_log_level : str }.
Record Network := mkNetwork { n_indexer_url : str; n_send_endpoint : str }.
Record Sockets := mkSockets { so_secure_mailbox : str; so_zsmtp : str; so_zsmtp_listen : str; so_imap_listen : str }.
Record Tls := mkTls { tls_cert : str; tls_key : str }.
Record MailboxCfg := mkMailboxCfg {
  mc_encrypt_db : bool;
  mc_passphrase : str;
  mc_wallet_dir : str;
  mc_template_path : option str;
}.
Record Auth := mkAuth { au_mode : ConfigAuthMode }.
Record Config := mkConfig {
  general : General;
  network : Network;
  sockets : Sockets;
  tls : Tls;
  mailbox : MailboxCfg;
  auth : Auth;
}.

(** What a document says: the fields with a default are optional. *)
Record Document := mkDocument {
  doc_data_dir : str;
  doc_domain : str;
  doc_log_level : option str;
  doc_network : Network;
  doc_sockets : Sockets;
  doc_tls : Tls;
  doc_encrypt_db : option bool;
  doc_passphrase : option str;
  doc_wallet_dir : str;
  doc_template_path : option str;
  (** [mode] of the section [auth] *)
  doc_auth_mode : option str;
}.

Class ConfigParser := {
  (** [toml::from_str] with unknown, missing and ill-typed fields refused *)
  toml_document : str -> result str Document;
  (** the text of [serde::de::Error::custom] in a document *)
  custom_error : str -> str -> str;
  (** [char::escape_debug] above ASCII *)
  escape_char : str -> str;
}.

Definition default_log_level : str := #"info".
Definition default_true : bool := true.

Definition auth_mode_of (s : str) : option ConfigAuthMode :=
  let s := to_ascii_lowercase s in
  if s ≟ #"database" then Some CfgDatabase
  else if s ≟ #"localauth" then Some CfgLocalAuth
  else None.

Inductive ConfigError :=
  | CfgRead (path : str) (source : IoError)
  | CfgParse (path : str) (source : str)
  | InvalidDomain (domain : str).

(** [{:?}] of a string. *)
Definition escape_debug `{ConfigParser} (ch : str) : str :=
  match ch with
  | [c] =>
      if c ≟ b_dq then #"\" ++ [b_dq]
      else if c ≟ "\"%char then #"\\"
      else if c ≟ b_nl then #"\n"
      else if c ≟ b_cr then #"\r"
      else if c ≟ "009"%char then #"\t"
      else if c ≟ b_nul then #"\0"
      else if between 32 126 c then [c]
      else #"\u{" ++ drop_while (fun d => d ≟ "0"%char) (hex [c]) ++ #"}"
  | _ => escape_char ch
  end.
Definition debug_str `{ConfigParser} (s : str) : str := [b_dq] ++ concat (map escape_debug (chars s)) ++ [b_dq].

Class IoTexts := { io_error_text : IoError -> str }.

Section config.
Context `{ConfigParser} `{IoTexts}.

Definition config_error_str (e : ConfigError) : str :=
  match e with
  | CfgRead path source => #"failed to read config file " ++ path ++ #": " ++ io_error_text source
  | CfgParse path source => #"failed to parse config file " ++ path ++ #": " ++ source
  | InvalidDomain domain =>
      #"invalid domain " ++ debug_str domain ++ #": must be a non-empty string without whitespace"
  end.

(** The derived deserializer, defaults included. *)
Definition config_of (raw : str) : result str Config :=
  d ← toml_document raw;
  mode ← (match doc_auth_mode d with
          | None => Ok CfgDatabase
          | Some s => ok_or (auth_mode_of s) (custom_error raw #"auth mode must be database or localauth")
          end);
  Ok (mkConfig
    (mkGeneral (doc_data_dir d) (doc_domain d) (default default_log_level (doc_log_level d)))
    (doc_network d) (doc_sockets d) (doc_tls d)
    (mkMailboxCfg (default default_true (doc_encrypt_db d)) (default [] (doc_passphrase d))
       (doc_wallet_dir d) (doc_template_path d))
    (mkAuth mode)).

Definition validate (cfg : Config) : result ConfigError unit :=
  let domain := trim (g_domain (general cfg)) in
  if (domain ≟ []) || existsb is_whitespace (chars domain)
  then Err (InvalidDomain (g_domain (general cfg)))
  else Ok tt.

Definition parse_at (path raw : str) : result ConfigError Config :=
  cfg ← map_err (CfgParse path) (config_of raw);
  _ ← validate cfg;
  Ok cfg.
(** [Config::parse], [Config::load]. *)
Definition parse (raw : str) : result ConfigError Config := parse_at [] raw.
Definition load (path : str) : st Files ConfigError Config :=
  raw ← st_map_err (CfgRead path) (fs_read_to_string path);
  lift (parse_at path raw).

(** A configuration that loads has a domain without blanks. *)
Lemma parse_at_Ok path raw cfg :
  parse_at path raw = Ok cfg ->
  config_of raw = Ok cfg /\ validate cfg = Ok tt.
Proof.
  unfold parse_at. destruct (config_of raw) as [c|e]; cbn; [|done]. destruct (validate c) as [[]|] eqn:E; cbn; [|done].
  by intros [= <-].
Qed.
Lemma parse_path path raw cfg : parse_at path raw = Ok cfg <-> parse raw = Ok cfg.
Proof.
  unfold parse, parse_at. destruct (config_of raw) as [c|e]; cbn; [|done]. by destruct (validate c).
Qed.
Lemma load_same path s : fs (snd (load path s)) = fs s.
Proof.
  unfold load, mbind, st_bind, st_map_err. pose proof (fs_read_to_string_same path s) as Hs.
  by destruct (fs_read_to_string path s) as [[b|e] s1].
Qed.
End config.
