(* ===== verification/Cli.v ===== *)
(** * The command line tool ([talk-ctl]): its state and errors

    A command runs on the mail store, the files, the standard streams, a clock and
    an entropy source, and ends with a result. *)

From S2P Require Export Secure Config.

(** [CtlError]. *)
Inductive CtlError :=
  | CeConfig (e : ConfigError)
  | CeStore (e : StoreError)
  | CeIo (e : IoError)
  | CeToml (e : str)
  | CeProtocol (e : FramingError)
  | CeMessage (s : str).
Definition ctl_error_str `{ConfigParser} `{IoTexts} `{Outside} (e : CtlError) : str :=
  match e with
  | CeConfig e => config_error_str e
  | CeStore e => store_error_str e
  | CeIo e => #"io: " ++ io_error_text e
  | CeToml e => #"toml: " ++ e
  | CeProtocol e => #"protocol: " ++ framing_error_str e
  | CeMessage s => s
  end.

Record Cli := mkCli {
  c_world : World;
  c_files : Files;
  c_stdin : str;
  c_stdout : str;
}.
Definition set_world (w : World) (c : Cli) : Cli := mkCli w (c_files c) (c_stdin c) (c_stdout c).
Definition set_files (x : Files) (c : Cli) : Cli := mkCli (c_world c) x (c_stdin c) (c_stdout c).
Definition c_store (c : Cli) : Store := w_store (c_world c).

Abbreviation C A := (st Cli CtlError A).

Definition fail {A} (s : str) : C A := raise (CeMessage s).
(** [ok_or_else(|| CtlError::msg(..))]. *)
Definition some_or {A} (o : option A) (s : str) : C A := lift (ok_or o (CeMessage s)).

(** An action on the world, one on the files. *)
Definition on_world {E A} (m : st World E A) : st Cli E A := fun c =>
  let '(r, w) := m (c_world c) in (r, set_world w c).
Definition on_files {E A} (m : st Files E A) : st Cli E A := fun c =>
  let '(r, x) := m (c_files c) in (r, set_files x c).

(** A store method with [?]; one that reads the clock. *)
Definition on_db {A} (m : M A) : C A := st_map_err CeStore (on_world (on_store m)).
Definition on_db_now {A} (m : Z -> M A) : C A := st_map_err CeStore (on_world (on_store_now m)).
(** A file operation with [map_err(CtlError::from)]. *)
Definition on_fs {A} (m : F A) : C A := st_map_err CeIo (on_files m).

(** [println!], [std::io::stdout().write_all]. *)
Definition print (bytes : str) : C unit := fun c =>
  (Ok tt, mkCli (c_world c) (c_files c) (c_stdin c) (c_stdout c ++ bytes)).
Definition println (line : str) : C unit := print (line ++ [b_nl]).
(** [read_to_end] on the standard input. *)
Definition read_stdin : C str := fun c =>
  (Ok (c_stdin c), mkCli (c_world c) (c_files c) [] (c_stdout c)).

Fixpoint for_each {A} (l : list A) (f : A -> C unit) : C unit :=
  match l with [] => mret tt | x :: r => _ ← f x; for_each r f end.

(** Width and alignment of [{:<n}] and [{:>n}], in characters. *)
Definition fill (n : nat) (s : str) : str := replicate (n - length (chars s)) b_sp.
Definition pad_right (n : nat) (s : str) : str := s ++ fill n s.
Definition pad_left (n : nat) (s : str) : str := fill n s ++ s.

(** [decode_hex_32], the same in each module of the tool. *)
Definition hex_32 `{Encodings} (s : str) : option str :=
  b ← hex_decode s; if length b ≟ 32%nat then Some b else None.
