(* ===== verification/ConfigCmd.v ===== *)
(** * [talkctl config] ([talk-ctl/src/config_cmd.rs])

    Reading and editing the configuration file as a tree of TOML values. *)

From S2P Require Export Cli.

(** [toml::Value]: a string, a table, or any other value by its text. *)
Inductive Toml :=
  | TString (s : str)
  | TTable (entries : list (str * Toml))
  | TOther (text : str).

Class TomlText := {
  (** [toml::from_str] to a [Value], [toml::to_string_pretty] *)
  toml_value : str -> result str Toml;
  toml_pretty : Toml -> result str str;
  (** [Display] of a value *)
  toml_display : Toml -> str;
}.

Definition as_table (v : Toml) : option (list (str * Toml)) :=
  match v with TTable l => Some l | _ => None end.
(** [Table::insert] of a key that is there. *)
Definition table_insert (k : str) (v : Toml) (l : list (str * Toml)) : list (str * Toml) :=
  map (fun e => if fst e ≟ k then (k, v) else e) l.

Fixpoint get_parts (path : str) (cur : Toml) (parts : list str) : result str Toml :=
  match parts with
  | [] => Ok cur
  | part :: rest =>
      table ← ok_or (as_table cur) (path ++ #": '" ++ part ++ #"' is not a table");
      cur ← ok_or (assoc_get part table) (#"no such key: " ++ path);
      get_parts path cur rest
  end.
Definition get_path (root : Toml) (path : str) : result str Toml := get_parts path root (split "."%char path).

(** [get_path_mut] and an assignment through the reference. *)
Fixpoint assign_parts (path : str) (v cur : Toml) (parts : list str) : result str Toml :=
  match parts with
  | [] => Err #"empty path"
  | part :: rest =>
      table ← ok_or (as_table cur) (path ++ #": '" ++ part ++ #"' is not a table");
      sub ← ok_or (assoc_get part table) (#"no such key: " ++ path);
      new ← (if rest ≟ [] then Ok v else assign_parts path v sub rest);
      Ok (TTable (table_insert part new table))
  end.
Definition redact (value : Toml) (dotted : str) : Toml :=
  match assign_parts dotted (TString #"***") value (split "."%char dotted) with
  | Ok v => v
  | Err _ => value
  end.

Fixpoint set_parts (path : str) (value cur : Toml) (parts : list str) : result CtlError Toml :=
  match parts with
  | [] => Err (CeMessage #"empty key")
  | part :: rest =>
      table ← ok_or (as_table cur) (CeMessage (path ++ #": '" ++ part ++ #"' is not a table"));
      sub ← ok_or (assoc_get part table) (CeMessage (#"unknown key: " ++ path));
      new ← (if rest ≟ [] then Ok value else set_parts path value sub rest);
      Ok (TTable (table_insert part new table))
  end.
Definition set_path (root : Toml) (path : str) (value : Toml) : result CtlError Toml :=
  set_parts path value root (split "."%char path).

Section commands.
Context `{ConfigParser} `{IoTexts} `{TomlText}.

Definition parse_value (s : str) : Toml :=
  if trim s ≟ [] then TString []
  else match toml_value s with Ok v => v | Err _ => TString s end.

Definition read_toml (path : str) : C Toml :=
  raw ← st_map_err (fun e => CeMessage (#"cannot read config " ++ path ++ #": " ++ io_error_text e))
          (on_files (fs_read_to_string path));
  lift (map_err (fun e => CeMessage (#"malformed config: " ++ e)) (toml_value raw)).

Inductive ConfigAction :=
  | CfgShow
  | CfgGet (key : str)
  | CfgSet (key value : str)
  | CfgValidate.

Definition resolve_path (config_path : option str) : str := default #"config.toml" config_path.

Definition config_run (config_path : option str) (action : ConfigAction) : C unit :=
  let path := resolve_path config_path in
  match action with
  | CfgShow =>
      value ← read_toml path;
      text ← lift (map_err CeMessage (toml_pretty (redact value #"mailbox.passphrase")));
      println text
  | CfgGet key =>
      value ← read_toml path;
      v ← lift (map_err CeMessage (get_path value key));
      println (toml_display v)
  | CfgSet key value =>
      root ← read_toml path;
      root ← lift (set_path root key (parse_value value));
      out ← lift (map_err CeMessage (toml_pretty root));
      _ ← lift (map_err (fun e => CeMessage (#"refusing to write invalid config: " ++ config_error_str e)) (parse out));
      _ ← on_fs (fs_write path out);
      println (#"ok: " ++ key ++ #" = " ++ value ++ #" (" ++ path ++ #")")
  | CfgValidate =>
      _ ← st_map_err CeConfig (on_files (Config.load path));
      println (#"ok: " ++ path ++ #" is valid")
  end.

End commands.
