(* ===== verification/KeyCmd.v ===== *)
(** * [talkctl key] ([talk-ctl/src/key.rs])

    Master keys in files, and sealing between them. *)

From S2P Require Export Keys Cli.

Definition seal_error_str (e : SealError) : str :=
  match e with
  | BadMagic => #"not a sealed envelope (bad magic)"
  | BadVersion v => #"unsupported envelope version " ++ show_Z v
  | TooShort => #"envelope too short"
  | SealDecryptFailed => #"failed to decrypt (wrong key or corrupted data)"
  end.

Inductive KeyAction :=
  | KeyGenerate (out pub_out : option str) (force : bool)
  | KeyPubkey (key hex : option str)
  | KeySeal (key : str) (to input output : option str)
  | KeyUnseal (key : str) (input output : option str).

Section commands.
Context `{KeyCrypto} `{Encodings} `{Outside} `{IoTexts}.

(** Reading with the path in the error. *)
Definition read_named (what path : str) : C str :=
  st_map_err (fun e => CeMessage (#"cannot read " ++ what ++ path ++ #": " ++ io_error_text e)) (on_files (fs_read path)).

Definition load_private_key (path : str) : C DataKey :=
  raw ← read_named #"key " path;
  if length raw ≟ 32%nat then mret raw else fail (#"key file " ++ path ++ #" must be 32 bytes").

Definition write_new (path bytes : str) (mode : Z) (force : bool) : C unit :=
  there ← on_fs (fs_exists path);
  if there && negb force then fail (path ++ #" already exists (use --force to overwrite)")
  else
    _ ← on_fs (fs_write path bytes);
    on_fs (fs_set_mode path mode).

Definition read_input (input : option str) : C str :=
  match input with
  | Some p => read_named [] p
  | None => read_stdin
  end.
Definition write_output (output : option str) (bytes : str) : C unit :=
  match output with
  | Some p => on_fs (fs_write p bytes)
  | None => print bytes
  end.

Definition OWNER_ONLY : Z := 384. (* 0o600 *)
Definition WORLD_READABLE : Z := 420. (* 0o644 *)

Definition key_generate (out pub_out : option str) (force : bool) : C unit :=
  secret ← on_world (draw 32);
  let pair := generate_master_pair secret in
  _ ← (match out with Some path => write_new path (private pair) OWNER_ONLY force | None => mret tt end);
  _ ← (match pub_out with Some path => write_new path (public pair) WORLD_READABLE force | None => mret tt end);
  _ ← println (#"public: " ++ hex_encode (public pair));
  match out with
  | Some _ => mret tt
  | None => println (#"private: " ++ hex_encode (private pair))
  end.

Definition key_pubkey (key hex : option str) : C unit :=
  priv ← (match key, hex with
          | Some path, _ => load_private_key path
          | None, Some h => some_or (hex_32 h) #"private key must be 32 bytes of hex"
          | None, None => fail #"provide --key <file> or --hex <private-key>"
          end);
  println (hex_encode (master_pubkey priv)).

Definition key_seal (key_file : str) (to input output : option str) : C unit :=
  priv ← load_private_key key_file;
  recipient ← (match to with
               | Some h => some_or (hex_32 h) #"--to must be 32 bytes of hex"
               | None => mret (master_pubkey priv)
               end);
  data ← read_input input;
  ephemeral ← on_world (draw 32);
  nonce ← on_world (draw 12);
  write_output output (seal_envelope ephemeral nonce recipient data).

Definition key_unseal (key_file : str) (input output : option str) : C unit :=
  priv ← load_private_key key_file;
  envelope ← read_input input;
  plaintext ← lift (map_err (fun e => CeMessage (#"unseal failed: " ++ seal_error_str e)) (open_envelope priv envelope));
  write_output output plaintext.

Definition key_run (action : KeyAction) : C unit :=
  match action with
  | KeyGenerate out pub_out force => key_generate out pub_out force
  | KeyPubkey key hex => key_pubkey key hex
  | KeySeal key to input output => key_seal key to input output
  | KeyUnseal key input output => key_unseal key input output
  end.

End commands.
