(* ===== verification/Accounts.v ===== *)
(** * Accounts, shares, keyring and settings ([talk-ctl/src/store.rs])

    The commands that work on the mail store directly. *)

From S2P Require Export Keys ImapFetch Cli.

(** The store's file, the terminal, and the bytes of ed25519 keys. *)
Class CtlOutside `{Signing} := {
  (** the outcome of [SqliteMailStore::open], which [Schema] models on raw tables *)
  open_store : str -> result StoreError unit;
  (** [rpassword::prompt_password(..).unwrap_or_default()] *)
  prompt_password : str -> str;
  signing_key_of : str -> SigningKey;
  verifying_key_bytes : VerifyingKey -> str;
}.

Record Ctx := mkCtx { cfg : Config }.

Inductive SettingsAction := SeList | SeGet (key : str) | SeSet (key value : str) | SeDelete (key : str).
Inductive UserAction :=
  | UList
  | UShow (username : str)
  | UCreate (username : str) (password : option str) (pubkey : str) (ivk : option str) (shares : nat)
  | UDelete (username : str)
  | UPasswd (username : str) (password : option str)
  | USetIvk (username ivk : str)
  | UUnsetIvk (username : str).
Inductive ShareAction := ShList (username : str) | ShInit (username : str) (shares : nat) | ShRevoke (username share_id : str).
Inductive KeyringAction := KrPin (username sender : str) (pubkey : option str) | KrList (username : str) | KrUnpin (username sender : str).

Definition yes_no (b : bool) : str := if b then #"yes" else #"no".

Section accounts.
Context `{Signing} `{Encodings} `{RowIds} `{Argon2} `{Outside} `{KeyCrypto} `{ConfigParser} `{IoTexts}
  `{!CtlOutside} `{Json RegistrationAttestation}.

(** ** The context of a command *)

Definition mailbox_db (c : Config) : str := path_join (g_data_dir (general c)) #"mailbox.db".
Definition ctx_load (config_path : option str) : C Ctx :=
  cfg ← st_map_err CeConfig (on_files (Config.load (default #"config.toml" config_path)));
  _ ← lift (map_err CeStore (open_store (mailbox_db cfg)));
  mret (mkCtx cfg).

Definition socket_path (x : Ctx) : str := so_secure_mailbox (sockets (cfg x)).
Definition ctx_domain (x : Ctx) : str := g_domain (general (cfg x)).
Definition data_dir (x : Ctx) : str := g_data_dir (general (cfg x)).

Definition domain_key (x : Ctx) : C SigningKey :=
  let path := path_join (data_dir x) #"domainkey" in
  raw ← st_map_err (fun e => CeMessage ( #"cannot read domain key " ++ path ++ #": " ++ io_error_text e
                                         ++ #" (run talkd once to create it)")) (on_files (fs_read path));
  if length raw ≟ 32%nat then mret (signing_key_of raw) else fail #"domain key must be 32 bytes".

Definition domainkey_pubkey (config_path : option str) : C unit :=
  ctx ← ctx_load config_path;
  k ← domain_key ctx;
  println (hex_encode (verifying_key_bytes (verifying_key k))).

Definition status (config_path : option str) : C unit :=
  ctx ← ctx_load config_path;
  users ← on_db list_users;
  settings ← on_db list_settings;
  k ← try_with (domain_key ctx) (fun k => mret (Some k)) (fun _ => mret None);
  for_each
    [ #"version        talkd " ++ version;
     #"domain         " ++ ctx_domain ctx;
     #"data_dir       " ++ data_dir ctx;
     #"mailbox_db     " ++ mailbox_db (cfg ctx);
     #"secure_mailbox " ++ socket_path ctx;
     #"indexer        " ++ n_indexer_url (network (cfg ctx));
     #"send_endpoint  " ++ (let e := n_send_endpoint (network (cfg ctx)) in if e ≟ [] then #"srv" else e);
     #"users          " ++ show_nat (length users);
     #"settings       " ++ show_nat (length settings);
     match k with
     | Some _ => #"domain_key     present"
     | None => #"domain_key     missing (run talkd once)"
     end] println.

(** ** Settings *)

Definition settings_run (config_path : option str) (action : SettingsAction) : C unit :=
  _ ← ctx_load config_path;
  match action with
  | SeList => l ← on_db list_settings; for_each l (fun '(k, v) => println (k ++ #" = " ++ v))
  | SeGet key =>
      v ← on_db (get_setting key);
      match v with
      | Some v => println v
      | None => fail ( #"no such setting: " ++ key)
      end
  | SeSet key value => _ ← on_db (set_setting key value); println ( #"ok: " ++ key ++ #" = " ++ value)
  | SeDelete key => _ ← on_db (delete_setting key); println ( #"ok: deleted " ++ key)
  end.

(** ** Users *)

Definition require_user (x : Ctx) (username : str) : C User :=
  match local_username username (ctx_domain x) with
  | None => fail ( #"no such user: " ++ username)
  | Some local =>
      user ← on_db (get_user local);
      some_or user ( #"no such user: " ++ username)
  end.

Definition validate_username (username : str) : C unit :=
  if username ≟ [] then fail #"username is required"
  else if bool_decide (b_at ∈ username) then fail #"username must be a bare local name (no @domain)"
  else if bool_decide (":"%char ∈ username) then fail #"username must not contain ':' (reserved for app passwords)"
  else mret tt.

(** Random bytes for each of [n] items. *)
Fixpoint draws {E} (n len : nat) : st World E (list str) :=
  match n with
  | O => mret []
  | S n => b ← draw len; l ← draws n len; mret (b :: l)
  end.
Fixpoint draw_pairs {E} (n : nat) : st World E (list (str * str)) :=
  match n with
  | O => mret []
  | S n => id ← draw 16; nonce ← draw 12; l ← draw_pairs n; mret ((id, nonce) :: l)
  end.

Definition share_line (id : str) (share : Share) : str :=
  #"share id=" ++ id ++ #" secret=" ++ hex_encode share.

Definition init_shares (uid : Z) (n : nat) : C unit :=
  dk ← on_world (draw 32);
  shares ← on_world (draws n 32);
  rand ← on_world (draw_pairs n);
  let set := share_wrap (fun i => nth i rand ([], [])) dk shares in
  _ ← for_each (zip shares (wrappers set)) (fun '(share, wrapper) =>
    let id := hex_encode (share_id wrapper) in
    _ ← on_db (add_share uid id (wrapped wrapper));
    println (share_line id share));
  println ( #"ok: registered " ++ show_nat n ++ #" shares").

Definition user_line (u : UserSummary) : str :=
  pad_right 20 (us_username u) ++ #" id=" ++ show_Z (us_id u) ++ #" ivk=" ++ yes_no (us_has_ivk u)
  ++ #" attested=" ++ yes_no (us_has_attestation u).

Definition attestation_lines (r : option str) : list str :=
  match r with
  | None => [ #"attestation   (none)"]
  | Some r =>
      [ #"attestation   present";
       match reg_from_json r with
       | Ok p => #"  R: domain=" ++ reg_domain p ++ #" registered_at=" ++ show_Z (reg_registered_at p)
                 ++ #" sig=" ++ hex_encode (reg_signature p)
       | Err _ => #"  R: unparseable"
       end]
  end.

Definition user_show (x : Ctx) (username : str) : C unit :=
  user ← require_user x username;
  _ ← for_each
    ([ #"username      " ++ user_username user;
      #"id            " ++ show_Z (user_id user);
      #"master_pubkey " ++ hex_encode (user_master_pubkey user);
      match user_ivk_commitment user with
      | Some ivk => #"ivk_commitment " ++ ivk
      | None => #"ivk_commitment (none)"
      end] ++ attestation_lines (user_registration_attestation user)) println;
  shares ← on_db (list_shares (user_id user));
  _ ← println ( #"shares        " ++ show_nat (length shares) ++ #" ("
               ++ show_nat (length (filter (fun s => se_revoked s = false) shares)) ++ #")");
  keyring ← on_db (list_keyring (user_id user));
  println ( #"keyring       " ++ show_nat (length keyring) ++ #" pinned").

(** [hash_password] with a fresh salt. *)
Definition hash_new (password : str) : C str :=
  salt ← on_world (draw 16);
  lift (map_err (fun e => CeMessage ( #"password hash failed: " ++ e)) (hash_password salt password)).

Definition user_create (x : Ctx) (username : str) (password : option str) (pubkey : str) (ivk : option str)
    (shares : nat) : C unit :=
  let password := default (prompt_password #"Password: ") password in
  pubkey_bytes ← some_or (hex_32 pubkey) #"--pubkey must be 32 bytes of hex";
  ivk ← (match ivk with
         | Some h => _ ← some_or (hex_32 h) #"--ivk must be 32 bytes of hex"; mret (Some h)
         | None => mret None
         end);
  if (username ≟ []) || (password ≟ []) then fail #"username and password are required"
  else
    _ ← validate_username username;
    hash ← hash_new password;
    k ← domain_key x;
    now ← on_world now_secs;
    let r := reg_to_json (reg_sign (ctx_domain x) username pubkey_bytes ivk now k) in
    user ← on_db_now (fun now => create_user_full now username hash pubkey_bytes ivk (Some r));
    _ ← println ( #"ok: registered " ++ user_username user);
    if (0 <? shares)%nat then init_shares (user_id user) shares else mret tt.

Definition user_run (config_path : option str) (action : UserAction) : C unit :=
  ctx ← ctx_load config_path;
  match action with
  | UList => l ← on_db list_users; for_each l (fun u => println (user_line u))
  | UShow username => user_show ctx username
  | UCreate username password pubkey ivk shares => user_create ctx username password pubkey ivk shares
  | UDelete username => _ ← on_db (delete_user username); println ( #"ok: deleted " ++ username)
  | UPasswd username password =>
      _ ← require_user ctx username;
      let password := default (prompt_password #"New password: ") password in
      hash ← hash_new password;
      _ ← on_db (set_password username hash);
      println ( #"ok: password changed for " ++ username)
  | USetIvk username ivk =>
      _ ← require_user ctx username;
      _ ← some_or (hex_32 ivk) #"ivk must be 32 bytes of hex";
      _ ← on_db (set_ivk username (Some ivk));
      println ( #"ok: ivk set for " ++ username)
  | UUnsetIvk username =>
      _ ← require_user ctx username;
      _ ← on_db (set_ivk username None);
      println ( #"ok: ivk cleared for " ++ username)
  end.

(** ** Shares *)

Definition share_run (config_path : option str) (action : ShareAction) : C unit :=
  ctx ← ctx_load config_path;
  match action with
  | ShList username =>
      user ← require_user ctx username;
      l ← on_db (list_shares (user_id user));
      for_each l (fun s => println (pad_right 16 (se_share_id s) ++ #" "
        ++ (if se_revoked s then #"revoked" else #"active ") ++ #" wrapped=" ++ hex_encode (se_wrapped_dk s)))
  | ShInit username shares =>
      user ← require_user ctx username;
      if (shares =? 0)%nat then fail #"--shares must be >= 1" else init_shares (user_id user) shares
  | ShRevoke username share_id =>
      user ← require_user ctx username;
      _ ← on_db (revoke_share (user_id user) share_id);
      println ( #"ok: share " ++ share_id ++ #" revoked for " ++ username)
  end.

(** ** Keyring *)

Definition keyring_run (config_path : option str) (action : KeyringAction) : C unit :=
  ctx ← ctx_load config_path;
  match action with
  | KrPin username sender pubkey =>
      user ← require_user ctx username;
      _ ← on_db_now (fun now => keyring_set_trusted now (user_id user) sender (default [] pubkey) []);
      println ( #"ok: pinned " ++ sender ++ #" for " ++ username)
  | KrList username =>
      user ← require_user ctx username;
      l ← on_db (list_keyring (user_id user));
      for_each l (fun e => println (pad_right 28 (ke_sender_mailbox e) ++ #" " ++ ke_state e ++ #" pubkey="
        ++ (if ke_sender_pubkey e ≟ [] then #"(none)" else ke_sender_pubkey e)))
  | KrUnpin username sender =>
      user ← require_user ctx username;
      _ ← on_db (unpin_keyring (user_id user) sender);
      println ( #"ok: unpinned " ++ sender ++ #" for " ++ username)
  end.

End accounts.
