(* ===== verification/Remote.v ===== *)
(** * Attesting, sending and emulating ([talk-ctl/src/remote.rs])

    Through the socket of the running daemon, or directly when it is down.  The
    daemon on the socket is the bytes it sends. *)

From S2P Require Export Accounts.

Class DaemonSocket := {
  (** [UnixStream::connect]: the stream, or the text of the error *)
  connect_socket : str -> result str conn;
}.

Definition DOH_ENDPOINT : str := #"https://cloudflare-dns.com/dns-query".

Definition att_error_str (e : AttestationError) : str :=
  match e with
  | AttBadSignature => #"signature verification failed"
  | AttInvalidKey => #"invalid key bytes"
  | AttDomainMismatch => #"attestation domain mismatch"
  end.

Section remote.
Context `{Signing} `{Encodings} `{RowIds} `{Templates} `{Argon2} `{Outside} `{KeyCrypto} `{ConfigParser} `{IoTexts}
  `{!CtlOutside} `{!DnsExternals} `{DaemonSocket} `{Json Attestation} `{Json RegistrationAttestation} `{Json EmulatePayload}.

Definition msg_of (prefix : str) (e : FramingError) : CtlError := CeMessage (prefix ++ framing_error_str e).

(** A client method on the stream, which is the command's own. *)
Definition on_socket {E A} (f : E -> CtlError) (m : st conn E A) (strm : conn) : C A :=
  lift (map_err f (fst (m strm))).

(** ** attest *)

Definition parse_mode (s : str) : C AttestationMode :=
  if s ≟ #"ephemeral" then mret Ephemeral
  else if s ≟ #"attested" then mret Attested
  else fail ( #"invalid attestation mode: " ++ s).

Definition print_attestation (blob : str) : C unit :=
  att ← lift (map_err (fun e => CeMessage ( #"daemon returned invalid attestation: " ++ att_error_str e))
                (att_from_json (from_utf8_lossy blob)));
  for_each
    [ #"domain      " ++ att_domain att;
      #"user        " ++ att_user att;
      #"mode        " ++ mode_str (att_mode att);
      #"address     " ++ att_address att;
      #"pubkey      " ++ att_pubkey att;
      #"signature   " ++ hex_encode (att_signature att)] println.

Definition attest_failure_str (e : AttestFailure) : str :=
  match e with ServerLine line => line | AttestFraming e => framing_error_str e end.

Definition attest (config_path : option str) (user mode : str) : C unit :=
  mode ← parse_mode mode;
  ctx ← ctx_load config_path;
  match connect_socket (socket_path ctx) with
  | Ok strm =>
      blob ← on_socket (fun e => CeMessage ( #"daemon: " ++ attest_failure_str e)) (mc_attest user mode) strm;
      print_attestation blob
  | Err _ =>
      k ← domain_key ctx;
      random ← on_world (draw 32);
      let '(address, pubkey) := mint_pair random mode in
      print_attestation (att_to_json (att_sign (ctx_domain ctx) user mode address pubkey k))
  end.

(** ** The outbound ledger *)

Section record.
Variable c : Config.

(** [record_outbound]: the ledger row, then the copy in the Sent mailbox. *)
Definition ctl_outbound_row (sender_username recipient_mailbox message_id : str) (payload : Payload)
    (body : str) (x : TxState) : st World str (option Transaction) :=
  found ← st_ok (on_store (tx_by_message_id Out message_id));
  match mjoin found with
  | Some existing =>
      _ ← Sink.ignore (on_store_now (fun now => tx_transition now (tx_id existing) x));
      mret (Some existing)
  | None =>
      st_ok (on_store_now (fun now => tx_create now
        (mkNewTx Out x (sender_username ++ #"@" ++ g_domain (general c)) recipient_mailbox [] None message_id
           (Some body) (match payload with Sealed => #"sealed" | Plaintext => #"plaintext" end))))
  end.

Definition ctl_sent_copy (sender_mailbox body : str) : st World str (str * str) :=
  match resolve_template (mc_template_path (mailbox c)) (g_data_dir (general c)) with
  | Err _ => mret ( #"Sent invoice", body)
  | Ok spec =>
      now ← now_secs;
      mret match render_invoice spec sender_mailbox sender_mailbox [] (from_utf8_lossy body) (received_at now) with
           | Ok p => p
           | Err _ => ( #"Sent invoice", body)
           end
  end.

Definition record_outbound (sender_username recipient_mailbox message_id : str) (payload : Payload)
    (body : str) (x : TxState) : st World str unit :=
  tx ← ctl_outbound_row sender_username recipient_mailbox message_id payload body x;
  match tx with
  | None => mret tt
  | Some tx =>
      user ← st_ok (on_store (get_user sender_username));
      match mjoin user with
      | None => mret tt
      | Some user =>
          sb ← ctl_sent_copy (sender_username ++ #"@" ++ g_domain (general c)) body;
          let msg := mkNewMessage message_id (fst sb) (snd sb) 0 recipient_mailbox #"unverified" in
          meta ← st_ok (on_store_now (fun now => append_message_to now (user_id user) SENT msg));
          match meta with
          | Some meta => Sink.ignore (on_store_now (fun now => tx_link_message now (tx_id tx) (meta_id meta)))
          | None => mret tt
          end
      end
  end.
End record.

(** ** send *)

(** [SendInvoice::deliver]. *)
Definition deliver (x : SendInvoice) : st World str (result ClientError unit) :=
  match (strm ← dial (si_endpoint x) (si_receiver_domain x); fst (connect strm (si_sender_domain x))) with
  | Err e => mret (Err e)
  | Ok client =>
      deliver_over client (si_sender_username x) (si_recipient_user x) (si_receiver_pub x) (si_message_id x)
        (si_payload x) (si_body x)
  end.

(** A part that runs on the world and whose errors are messages. *)
Definition in_world {A} (m : st World str A) : C A := st_map_err CeMessage (on_world m).

Definition choose_endpoint (ctx : Ctx) (receiver_domain : str) : C str :=
  match doh_resolve_endpoint DOH_ENDPOINT receiver_domain with
  | Ok ep => mret ep
  | Err _ =>
      let e := n_send_endpoint (network (cfg ctx)) in
      if e ≟ [] then fail #"cannot resolve endpoint (no SRV, no send_endpoint override)" else mret e
  end.

Definition delivery_state (r : result ClientError unit) : TxState :=
  match r with
  | Ok _ => Sent
  | Err (ClRetryLater _) => Retrying
  | Err _ => Failed
  end.

Definition deliver_invoice (ctx : Ctx) (sender recipient message_id : str) (payload : Payload) (body : str) : C TxState :=
  receiver_domain ← some_or (nth_error (split b_at recipient) 1) #"malformed recipient mailbox";
  receiver_pub ← lift (map_err (fun e => CeMessage ( #"cannot resolve domain key: " ++ resolver_error_str e))
                         (doh_resolving_key DOH_ENDPOINT receiver_domain));
  endpoint ← choose_endpoint ctx receiver_domain;
  let recipient_user := default [] (head (split b_at recipient)) in
  let invoice := mkSendInvoice endpoint receiver_domain (ctx_domain ctx) sender recipient_user receiver_pub
                   message_id payload body in
  r ← in_world (deliver invoice);
  let x := delivery_state r in
  _ ← in_world (record_outbound (cfg ctx) sender recipient message_id payload body x);
  _ ← lift (map_err (fun e => CeMessage ( #"deliver: " ++ client_error_str e)) r);
  mret x.

Definition direct_send (ctx : Ctx) (sender recipient message_id : str) (payload : Payload) (body : str) : C unit :=
  _ ← deliver_invoice ctx sender recipient message_id payload body;
  println ( #"delivered to " ++ recipient).

Definition gen_message_id : C str := b ← on_world (draw 8); mret ( #"talkctl-" ++ hex_encode b).

(** The answer of the daemon: printed, or the error. *)
Definition daemon_answer (reply : str) : C unit :=
  if starts_with #"OK " reply then println reply else fail ( #"daemon: " ++ reply).

Definition read_arg_file (file : str) : C str :=
  st_map_err (fun e => CeMessage ( #"cannot read " ++ file ++ #": " ++ io_error_text e)) (on_files (fs_read file)).

Definition send (config_path : option str) (sender recipient file : str) (plaintext : bool)
    (message_id : option str) : C unit :=
  body ← read_arg_file file;
  let payload := if plaintext then Plaintext else Sealed in
  message_id ← (match message_id with Some i => mret i | None => gen_message_id end);
  if sender ≟ [] then fail #"sender username is required"
  else
    ctx ← ctx_load config_path;
    match connect_socket (socket_path ctx) with
    | Ok strm =>
        resp ← on_socket CeProtocol (mc_send sender recipient message_id payload body) strm;
        daemon_answer resp
    | Err _ => direct_send ctx sender recipient message_id payload body
    end.

(** ** emulate *)

Definition emulate (config_path : option str) (recipient from_name from_address amount invoice_file : str) : C unit :=
  invoice ← read_arg_file invoice_file;
  ctx ← ctx_load config_path;
  strm ← lift (map_err (fun e => CeMessage ( #"daemon not running: " ++ e)) (connect_socket (socket_path ctx)));
  reply ← on_socket (msg_of #"daemon: ") (mc_emulate recipient from_name from_address amount invoice) strm;
  daemon_answer reply.

End remote.
