(* ===== verification/Ledger.v ===== *)
(** * The transaction ledger and the command line ([talk-ctl/src/tx.rs], [lib.rs]) *)

From S2P Require Export ConfigCmd KeyCmd Remote.

Inductive TxAction :=
  | TxList (dir state : option str)
  | TxShow (id : Z)
  | TxResolve (id : Z) (binding : option str)
  | TxMarkSpent (id : Z)
  | TxRetry (id : Z)
  | TxFail (id : Z).

Section ledger.
Context `{Signing} `{Encodings} `{RowIds} `{Templates} `{Argon2} `{Outside} `{KeyCrypto} `{ConfigParser} `{IoTexts}
  `{!CtlOutside} `{!DnsExternals} `{DaemonSocket} `{TomlText}
  `{Json Attestation} `{Json RegistrationAttestation} `{Json EmulatePayload}.

Definition require_tx (id : Z) : C Transaction :=
  t ← on_db (tx_get id);
  some_or t ( #"no such transaction: " ++ show_Z id).

(** An optional filter, parsed. *)
Definition parse_filter {A} (f : str -> option A) (what hint : str) (o : option str) : C (option A) :=
  match o with
  | None => mret None
  | Some s => x ← some_or (f s) ( #"invalid " ++ what ++ #": " ++ s ++ hint); mret (Some x)
  end.

Definition tx_line (t : Transaction) : str :=
  pad_left 4 (show_Z (tx_id t)) ++ #" " ++ pad_right 4 (dir_as_str (tx_direction t)) ++ #" "
  ++ pad_right 8 (txstate_as_str (tx_state t)) ++ #" " ++ pad_right 30 (tx_sender_mailbox t) ++ #" -> "
  ++ pad_right 30 (tx_recipient_mailbox t) ++ #" amount=" ++ pad_right 8 (tx_amount t)
  ++ #" mid=" ++ tx_message_id t.

Definition cmd_tx_list (dir state : option str) : C unit :=
  direction ← parse_filter dir_parse #"direction" #" (use in|out)" dir;
  state ← parse_filter txstate_parse #"state" #" (use opaque|resolved|spent|sent|failed|retrying)" state;
  l ← on_db (tx_list direction state);
  for_each l (fun t => println (tx_line t)).

Definition cmd_tx_show (id : Z) : C unit :=
  t ← require_tx id;
  for_each
    [ #"id              " ++ show_Z (tx_id t);
      #"direction       " ++ dir_as_str (tx_direction t);
      #"state           " ++ txstate_as_str (tx_state t);
      #"sender          " ++ tx_sender_mailbox t;
      #"recipient       " ++ tx_recipient_mailbox t;
      #"amount          " ++ tx_amount t;
      #"binding         " ++ default #"(none)" (tx_binding t);
      #"message_id      " ++ tx_message_id t;
      #"message_row     " ++ default #"(none)" (show_Z <$> tx_message_row_id t);
      #"outbound_body   " ++ default #"(none)" ((fun b => show_nat (length b) ++ #" bytes") <$> tx_outbound_body t);
      #"payload         " ++ tx_payload t;
      #"created_at      " ++ show_Z (tx_created_at t);
      #"updated_at      " ++ show_Z (tx_updated_at t)] println.

Definition moved (id : Z) (x : TxState) : str := #"ok: tx " ++ show_Z id ++ #" -> " ++ txstate_as_str x.

Definition cmd_tx_resolve (id : Z) (binding : option str) : C unit :=
  tx ← require_tx id;
  if negb (tx_direction tx ≟ MailStore.In) then fail #"only inbound transactions can be resolved"
  else
    _ ← (match binding with
         | Some b => on_db_now (fun now => tx_set_binding now id (Some b))
         | None => mret tt
         end);
    _ ← on_db_now (fun now => tx_transition now id Resolved);
    println (moved id Resolved).

Definition cmd_tx_spent (id : Z) : C unit :=
  tx ← require_tx id;
  if negb (tx_direction tx ≟ MailStore.In) then fail #"only inbound transactions can be spent"
  else
    _ ← on_db_now (fun now => tx_transition now id Spent);
    println (moved id Spent).

Definition cmd_tx_fail (id : Z) : C unit :=
  _ ← require_tx id;
  _ ← on_db_now (fun now => tx_transition now id Failed);
  println (moved id Failed).

Definition cmd_tx_retry (ctx : Ctx) (id : Z) : C unit :=
  tx ← require_tx id;
  if negb (tx_direction tx ≟ Out) then fail #"only outbound transactions can be retried"
  else
    body ← some_or (tx_outbound_body tx) #"no outbound body persisted for this transaction";
    let sender := default [] (head (split b_at (tx_sender_mailbox tx))) in
    let payload := if tx_payload tx ≟ #"plaintext" then Plaintext else Sealed in
    x ← deliver_invoice ctx sender (tx_recipient_mailbox tx) (tx_message_id tx) payload body;
    println ( #"ok: tx " ++ show_Z id ++ #" re-sent -> " ++ txstate_as_str x).

Definition tx_run (config_path : option str) (action : TxAction) : C unit :=
  ctx ← ctx_load config_path;
  match action with
  | TxList dir state => cmd_tx_list dir state
  | TxShow id => cmd_tx_show id
  | TxResolve id binding => cmd_tx_resolve id binding
  | TxMarkSpent id => cmd_tx_spent id
  | TxFail id => cmd_tx_fail id
  | TxRetry id => cmd_tx_retry ctx id
  end.

(** ** The command line *)

Inductive CtlCommand :=
  | CtlStatus
  | CtlConfig (action : ConfigAction)
  | CtlSettings (action : SettingsAction)
  | CtlUser (action : UserAction)
  | CtlShare (action : ShareAction)
  | CtlKeyring (action : KeyringAction)
  | CtlKey (action : KeyAction)
  | CtlAttest (user mode : str)
  | CtlEmulatePayment (recipient from_name from_address amount invoice : str)
  | CtlTx (action : TxAction)
  | CtlDomainkeyPubkey
  | CtlSend (sender recipient file : str) (plaintext : bool) (message_id : option str).

Definition ctl_run (config : option str) (command : CtlCommand) : C unit :=
  match command with
  | CtlStatus => Accounts.status config
  | CtlConfig action => config_run config action
  | CtlSettings action => settings_run config action
  | CtlUser action => user_run config action
  | CtlShare action => share_run config action
  | CtlKeyring action => keyring_run config action
  | CtlKey action => key_run action
  | CtlAttest user mode => Remote.attest config user mode
  | CtlEmulatePayment recipient from_name from_address amount invoice =>
      Remote.emulate config recipient from_name from_address amount invoice
  | CtlTx action => tx_run config action
  | CtlDomainkeyPubkey => domainkey_pubkey config
  | CtlSend sender recipient file plaintext message_id => Remote.send config sender recipient file plaintext message_id
  end.

End ledger.
