(* ===== verification/CtlFacts.v ===== *)
(** * What the command line tool may touch

    Every command either changes nothing, or the store alone, keeping its schema,
    or files alone; and what each ledger command does to the ledger. *)

From S2P Require Export SecureFacts Ledger.

(** ** What persists of a state *)

Record View := mkView { v_db : Db; v_saved : option Db; v_files : gmap str File }.
Definition view (c : Cli) : View := mkView (db (c_store c)) (saved (c_store c)) (fs (c_files c)).

Definition csteps (R : View -> View -> Prop) {E A} (m : st Cli E A) : Prop :=
  forall c r c', m c = (r, c') -> R (view c) (view c').

Section steps.
Context (R : View -> View -> Prop) `{!PreOrder R}.

Lemma csteps_ret {E A} (x : A) : csteps R (E := E) (mret x).
Proof. intros c r c' [= _ <-]. reflexivity. Qed.
Lemma csteps_raise {E A} (e : E) : csteps R (A := A) (raise e).
Proof. intros c r c' [= _ <-]. reflexivity. Qed.
Lemma csteps_lift {E A} (x : result E A) : csteps R (lift x).
Proof. intros c r c' [= _ <-]. reflexivity. Qed.
Lemma csteps_bind {E A B} (m : st Cli E A) (f : A -> st Cli E B) :
  csteps R m -> (forall x, csteps R (f x)) -> csteps R (m ≫= f).
Proof.
  intros Hm Hf c r c'. unfold mbind, st_bind. destruct (m c) as [[x|e] c1] eqn:E1.
  - intros H2. etransitivity; [by eapply Hm | by eapply Hf].
  - intros [= _ <-]. by eapply Hm.
Qed.
Lemma csteps_map_err {E G A} (f : E -> G) (m : st Cli E A) : csteps R m -> csteps R (st_map_err f m).
Proof. intros Hm c r c'. unfold st_map_err. destruct (m c) as [[x|e] c1] eqn:E1; intros [= _ <-]; by eapply Hm. Qed.
Lemma csteps_try_with {E G A B} (m : st Cli E A) (f : A -> st Cli G B) g :
  csteps R m -> (forall x, csteps R (f x)) -> (forall e, csteps R (g e)) -> csteps R (try_with m f g).
Proof.
  intros Hm Hf Hg c r c'. unfold try_with. destruct (m c) as [[x|e] c1] eqn:E1; intros H2;
    (etransitivity; [by eapply Hm|]); [by eapply Hf | by eapply Hg].
Qed.
Lemma csteps_print s : csteps R (print s).
Proof. intros c r c' [= _ <-]. reflexivity. Qed.
Lemma csteps_stdin : csteps R read_stdin.
Proof. intros c r c' [= _ <-]. reflexivity. Qed.
Lemma csteps_for_each {A} (l : list A) (f : A -> C unit) : (forall x, csteps R (f x)) -> csteps R (for_each l f).
Proof. intros Hf. induction l as [|x l IH]; cbn; [apply csteps_ret|]. by apply csteps_bind. Qed.
Lemma csteps_weaken {E A} (m : st Cli E A) : csteps eq m -> csteps R m.
Proof. intros Hm c r c' H. by rewrite (Hm _ _ _ H). Qed.
Lemma csteps_read path : csteps R (on_files (fs_read path)).
Proof.
  intros c r c'. unfold on_files. pose proof (fs_read_same path (c_files c)) as Hs.
  destruct (fs_read path (c_files c)) as [x s]. intros [= _ <-]. cbn in Hs. unfold view, c_store. cbn. rewrite Hs. reflexivity.
Qed.
Lemma csteps_read_to_string path : csteps R (on_files (fs_read_to_string path)).
Proof.
  intros c r c'. unfold on_files. pose proof (fs_read_to_string_same path (c_files c)) as Hs.
  destruct (fs_read_to_string path (c_files c)) as [x s]. intros [= _ <-]. cbn in Hs.
  unfold view, c_store. cbn. rewrite Hs. reflexivity.
Qed.
Lemma csteps_exists path : csteps R (on_files (fs_exists path)).
Proof.
  intros c r c'. unfold on_files. pose proof (fs_exists_same path (c_files c)) as Hs.
  destruct (fs_exists path (c_files c)) as [x s]. intros [= _ <-]. cbn in Hs.
  unfold view, c_store. cbn. rewrite Hs. reflexivity.
Qed.
Lemma csteps_config_load `{ConfigParser} path : csteps R (on_files (Config.load path)).
Proof.
  intros c r c'. unfold on_files. pose proof (load_same path (c_files c)) as Hs.
  destruct (Config.load path (c_files c)) as [x s]. intros [= _ <-]. cbn in Hs.
  unfold view, c_store. cbn. rewrite Hs. reflexivity.
Qed.

(** A query reads the database; drawing and reading the clock touch the world alone. *)
Lemma csteps_query {A} (f : Db -> A) : csteps R (on_db (query f)).
Proof.
  intros c r c'. unfold on_db, st_map_err, on_world, on_store, query, exec, view, c_store.
  destruct (faults (w_store (c_world c))) as [|[] fs']; intros [= _ <-]; reflexivity.
Qed.
Lemma csteps_draw `{Outside} {E} n : csteps R (E := E) (on_world (draw n)).
Proof. intros c r c' [= _ <-]. reflexivity. Qed.
Lemma csteps_now {E} : csteps R (E := E) (on_world now_secs).
Proof. intros c r c' [= _ <-]. reflexivity. Qed.
End steps.

#[export] Hint Resolve csteps_ret csteps_raise csteps_lift csteps_bind csteps_map_err csteps_try_with csteps_print
  csteps_stdin csteps_for_each csteps_read csteps_read_to_string csteps_exists csteps_config_load csteps_query
  csteps_draw csteps_now : talk.

#[export] Hint Extern 1 (PreOrder _) => apply _ : talk.

(** The store may change but keeps its schema, the files stay. *)
Definition on_store_only (v v' : View) : Prop :=
  v_files v' = v_files v
  /\ (forall f, inv wf_db (mkStore (v_db v) (v_saved v) f) -> inv wf_db (mkStore (v_db v') (v_saved v') f)).
#[export] Instance on_store_only_preorder : PreOrder on_store_only.
Proof.
  split; [by intros v|]. intros v1 v2 v3 [F1 S1] [F2 S2]. split; [congruence|]. eauto.
Qed.

(** Files may change, the store stays. *)
Definition on_files_only (v v' : View) : Prop := v_db v' = v_db v /\ v_saved v' = v_saved v.
#[export] Instance on_files_only_preorder : PreOrder on_files_only.
Proof. split; [by intros v|]. intros v1 v2 v3 [] []. split; congruence. Qed.

Lemma csteps_world {E A} (m : st World E A) : wkeeps (inv wf_db) m -> csteps on_store_only (on_world m).
Proof.
  intros Hm c r c'. unfold on_world. destruct (m (c_world c)) as [x w] eqn:E1. intros [= _ <-]. split; [done|].
  intros f Hi. exact (Hm _ _ _ E1 Hi).
Qed.
Lemma csteps_db {A} (m : M A) : pres wf_db m -> csteps on_store_only (on_db m).
Proof.
  intros Hm. apply csteps_map_err, csteps_world, wkeeps_on_store. intros s r s'. apply Hm.
Qed.
Lemma csteps_db_now {A} (m : Z -> M A) : (forall now, pres wf_db (m now)) -> csteps on_store_only (on_db_now m).
Proof.
  intros Hm. apply csteps_map_err, csteps_world, wkeeps_on_store_now. intros now s r s'. apply Hm.
Qed.
Lemma csteps_files {A} (m : F A) : csteps on_files_only (on_fs m).
Proof.
  apply csteps_map_err. intros c r c'. unfold on_files. destruct (m (c_files c)). by intros [= _ <-].
Qed.
#[export] Hint Resolve csteps_files : talk.

Section commands.
Context `{Signing} `{Encodings} `{RowIdsLaws} `{Templates} `{Argon2} `{Outside} `{KeyCrypto} `{ConfigParser} `{IoTexts}
  `{!CtlOutside} `{!DnsExternals} `{DaemonSocket} `{TomlText}
  `{Json Attestation} `{Json RegistrationAttestation} `{Json EmulatePayload}.

Section any.
Context (R : View -> View -> Prop) `{!PreOrder R}.

Lemma csteps_ctx p : csteps R (ctx_load p).
Proof. unfold ctx_load. auto 6 with talk. Qed.
Lemma csteps_domain_key x : csteps R (domain_key x).
Proof. unfold domain_key, fail. apply csteps_bind; [done|auto with talk|]. intros raw. case_bool_decide; auto with talk. Qed.
Lemma csteps_require x u : csteps R (require_user x u).
Proof.
  unfold require_user, fail, some_or, get_user. destruct (local_username _ _); [|auto with talk]. apply csteps_bind; auto with talk.
Qed.
Lemma csteps_require_tx i : csteps R (require_tx i).
Proof. unfold require_tx, some_or, tx_get. apply csteps_bind; auto with talk. Qed.
Lemma csteps_hash p : csteps R (hash_new p).
Proof. unfold hash_new. auto with talk. Qed.
Lemma csteps_attestation b : csteps R (print_attestation b).
Proof. unfold print_attestation, println. auto with talk. Qed.
Lemma csteps_answer r : csteps R (daemon_answer r).
Proof. unfold daemon_answer, println, fail. case_match; auto with talk. Qed.
Lemma csteps_draws {E} n len : csteps R (E := E) (on_world (draws n len)).
Proof.
  intros c r c'. unfold on_world. assert (Hw : forall w, w_store (snd (draws (E := E) n len w)) = w_store w).
  { induction n as [|n IH]; intros w; [done|]. cbn. unfold mbind, st_bind. cbn.
    specialize (IH (mkWorld (w_store w) (w_events w) (w_clock w) (S (w_ticks w)))).
    by destruct (draws n len _) as [[]]. }
  specialize (Hw (c_world c)). destruct (draws n len (c_world c)) as [x w]. intros [= _ <-].
  unfold view, c_store. cbn in *. rewrite Hw. reflexivity.
Qed.
Lemma csteps_draw_pairs {E} n : csteps R (E := E) (on_world (draw_pairs n)).
Proof.
  intros c r c'. unfold on_world. assert (Hw : forall w, w_store (snd (draw_pairs (E := E) n w)) = w_store w).
  { induction n as [|n IH]; intros w; [done|]. cbn. unfold mbind, st_bind. cbn.
    specialize (IH (mkWorld (w_store w) (w_events w) (w_clock w) (S (S (w_ticks w))))).
    by destruct (draw_pairs n _) as [[]]. }
  specialize (Hw (c_world c)). destruct (draw_pairs n (c_world c)) as [x w]. intros [= _ <-].
  unfold view, c_store. cbn in *. rewrite Hw. reflexivity.
Qed.
End any.
Hint Resolve csteps_ctx csteps_domain_key csteps_require csteps_require_tx csteps_hash csteps_attestation csteps_answer
  csteps_draws csteps_draw_pairs : talk.

(** *** The commands that change nothing *)

Definition reads_only (command : CtlCommand) : bool :=
  match command with
  | CtlStatus | CtlConfig (CfgShow | CfgGet _ | CfgValidate) | CtlSettings (SeList | SeGet _)
  | CtlUser (UList | UShow _) | CtlShare (ShList _) | CtlKeyring (KrList _) | CtlKey (KeyPubkey _ _)
  | CtlAttest _ _ | CtlEmulatePayment _ _ _ _ _ | CtlTx (TxList _ _ | TxShow _) | CtlDomainkeyPubkey => true
  | _ => false
  end.
(** Those that edit files. *)
Definition edits_files (command : CtlCommand) : bool :=
  match command with
  | CtlConfig (CfgSet _ _) | CtlKey (KeyGenerate _ _ _ | KeySeal _ _ _ _ | KeyUnseal _ _ _) => true
  | _ => false
  end.

Ltac csteps :=
  repeat first
    [ progress (intros)
    | solve [auto with talk]
    | apply csteps_bind; [apply _| |]
    | apply csteps_for_each; [apply _|]
    | progress unfold println, fail, some_or, on_socket, daemon_answer
    | progress case_match ].

Section reading.
Abbreviation quiet := (csteps eq).

Lemma quiet_status p : quiet (Accounts.status p).
Proof. unfold Accounts.status, list_users, list_settings. csteps. Qed.
Lemma quiet_config p a : reads_only (CtlConfig a) = true -> quiet (config_run p a).
Proof. destruct a; try done; intros _; cbn [config_run]; unfold read_toml; cbv zeta; csteps. Qed.
Lemma quiet_settings p a : reads_only (CtlSettings a) = true -> quiet (settings_run p a).
Proof. destruct a; try done; intros _; cbn [settings_run]; unfold settings_run, list_settings, get_setting; csteps. Qed.
Lemma quiet_user p a : reads_only (CtlUser a) = true -> quiet (user_run p a).
Proof. destruct a; try done; intros _; unfold user_run, user_show, list_users, list_shares, list_keyring; csteps. Qed.
Lemma quiet_share p a : reads_only (CtlShare a) = true -> quiet (share_run p a).
Proof. destruct a; try done; intros _; unfold share_run, list_shares; csteps. Qed.
Lemma quiet_keyring p a : reads_only (CtlKeyring a) = true -> quiet (keyring_run p a).
Proof. destruct a; try done; intros _; unfold keyring_run, list_keyring; csteps. Qed.
Lemma quiet_pubkey k h : quiet (key_pubkey k h).
Proof. unfold key_pubkey, load_private_key, read_named. csteps. Qed.
Lemma quiet_attest p u m : quiet (Remote.attest p u m).
Proof. unfold Remote.attest, parse_mode. csteps. Qed.
Lemma quiet_emulate p a b d e f : quiet (Remote.emulate p a b d e f).
Proof. unfold Remote.emulate, read_arg_file. csteps. Qed.
Lemma quiet_tx p a : reads_only (CtlTx a) = true -> quiet (tx_run p a).
Proof. destruct a; try done; intros _; unfold tx_run, cmd_tx_list, cmd_tx_show, parse_filter, tx_list; csteps. Qed.
Lemma quiet_domainkey p : quiet (domainkey_pubkey p).
Proof. unfold domainkey_pubkey. csteps. Qed.

Lemma quiet_run p cmd : reads_only cmd = true -> quiet (ctl_run p cmd).
Proof.
  destruct cmd as [|a|a|a|a|a|a|u m|r n ad am i|a| |]; try done; cbn [ctl_run].
  - intros _. apply quiet_status.
  - apply quiet_config.
  - apply quiet_settings.
  - apply quiet_user.
  - apply quiet_share.
  - apply quiet_keyring.
  - destruct a; try done. intros _. apply quiet_pubkey.
  - intros _. apply quiet_attest.
  - intros _. apply quiet_emulate.
  - apply quiet_tx.
  - intros _. apply quiet_domainkey.
Qed.
End reading.

(** *** The commands that edit files *)

Lemma files_run p cmd : edits_files cmd = true -> csteps on_files_only (ctl_run p cmd).
Proof.
  destruct cmd as [|a|a|a|a|a|a|u m|r n ad am i|a| |]; try done; cbn [ctl_run]; destruct a; try done; intros _.
  - cbn [config_run]. unfold read_toml. cbv zeta. csteps.
  - unfold key_run, key_generate, write_new, OWNER_ONLY, WORLD_READABLE. csteps.
  - unfold key_run, key_seal, load_private_key, read_input, write_output, read_named. csteps.
  - unfold key_run, key_unseal, load_private_key, read_input, write_output, read_named. csteps.
Qed.

(** *** The commands that change the store *)

Hint Resolve wschema_op wschema_op_now : talk.
Hint Extern 2 (pres wf_db _) =>
  first [apply pres_tx_create | apply pres_tx_link | apply pres_tx_transition | apply pres_create_user | apply pres_append] : talk.

Lemma wschema_record_ctl cf a b i p body x : wkeeps (inv wf_db) (record_outbound cf a b i p body x).
Proof.
  unfold record_outbound, ctl_outbound_row. apply wkeeps_bind.
  { apply wkeeps_bind; [unfold tx_by_message_id; auto with talk|]. intros f. destruct (mjoin (f : option (option Transaction))); auto with talk. }
  intros [tx|]; [|auto with talk]. apply wkeeps_bind; [unfold get_user; auto with talk|].
  intros u. destruct (mjoin (u : option (option User))); [|auto with talk]. apply wkeeps_bind.
  { unfold ctl_sent_copy. destruct (resolve_template _ _); auto with talk. }
  intros sb. apply wkeeps_bind; [auto with talk|]. intros [m|]; auto with talk.
Qed.

Lemma wschema_deliver_ctl (x : SendInvoice) : wkeeps (inv wf_db) (Remote.deliver x).
Proof.
  unfold Remote.deliver, deliver_over. destruct (mbind _ (dial _ _)); [|by apply wkeeps_ret].
  apply wkeeps_bind; [auto with talk|]. intros r. apply wkeeps_bind; [auto with talk|]. intros t1.
  apply wkeeps_bind; [auto with talk|]. intros t2. by apply wkeeps_ret.
Qed.

Lemma csteps_deliver ctx a b i p body : csteps on_store_only (deliver_invoice ctx a b i p body).
Proof.
  assert (Hw : forall A (m : st World str A), wkeeps (inv wf_db) m -> csteps on_store_only (in_world m)).
  { intros A m Hm. apply csteps_map_err, csteps_world, Hm. }
  unfold deliver_invoice, choose_endpoint. cbv zeta.
  pose proof (wschema_record_ctl (cfg ctx) a b i p body). pose proof wschema_deliver_ctl. csteps.
Qed.

Lemma csteps_op o : csteps on_store_only (on_db (run_op o)).
Proof. apply csteps_db, pres_op. Qed.

Lemma store_settings p a : csteps on_store_only (settings_run p a).
Proof.
  unfold settings_run, list_settings, get_setting. destruct a as [|k|k v|k]; csteps.
  - exact (csteps_op (OpSetSetting k v)).
  - exact (csteps_op (OpDeleteSetting k)).
Qed.

Lemma store_init_shares uid n : csteps on_store_only (init_shares uid n).
Proof.
  unfold init_shares. cbv zeta. csteps; try (apply csteps_draws || apply csteps_draw_pairs; apply _).
  match goal with |- csteps _ (on_db (add_share ?u ?i ?w)) => exact (csteps_op (OpAddShare u i w)) end.
Qed.
Hint Resolve store_init_shares : talk.

Lemma store_user p a : csteps on_store_only (user_run p a).
Proof.
  unfold user_run, user_show, list_users, list_shares, list_keyring, user_create, validate_username.
  destruct a as [|u|u pw k i n|u|u pw|u i|u]; cbv zeta; csteps.
  all: try (apply csteps_db_now; auto with talk).
  - exact (csteps_op (OpDeleteUser u)).
  - match goal with |- csteps _ (on_db (set_password _ ?h)) => exact (csteps_op (OpSetPassword u h)) end.
  - exact (csteps_op (OpSetIvk u (Some i))).
  - exact (csteps_op (OpSetIvk u None)).
Qed.

Lemma store_share p a : csteps on_store_only (share_run p a).
Proof.
  unfold share_run, list_shares. destruct a as [u|u n|u i]; csteps.
  match goal with |- csteps _ (on_db (revoke_share ?uid _)) => exact (csteps_op (OpRevokeShare uid i)) end.
Qed.

Lemma store_keyring p a : csteps on_store_only (keyring_run p a).
Proof.
  unfold keyring_run, list_keyring. destruct a as [u sd k|u|u sd]; csteps.
  - apply csteps_db_now. intros now. match goal with |- pres _ (keyring_set_trusted _ ?uid _ _ _) =>
      exact (pres_op (OpTrust now uid sd (default [] k) [])) end.
  - match goal with |- csteps _ (on_db (unpin_keyring ?uid _)) => exact (csteps_op (OpUnpin uid sd)) end.
Qed.

Lemma store_tx p a : csteps on_store_only (tx_run p a).
Proof.
  unfold tx_run, cmd_tx_list, cmd_tx_show, parse_filter, tx_list, cmd_tx_resolve, cmd_tx_spent, cmd_tx_fail, cmd_tx_retry.
  pose proof csteps_deliver.
  destruct a as [d x|i|i b|i|i|i]; cbv zeta; csteps; try (apply csteps_db_now; auto with talk).
  intros now. match goal with |- pres _ (tx_set_binding _ _ (Some ?bd)) => exact (pres_op (OpTxSetBinding now i (Some bd))) end.
Qed.

Lemma store_send p a b f pl i : csteps on_store_only (Remote.send p a b f pl i).
Proof.
  unfold Remote.send, direct_send, read_arg_file, gen_message_id. pose proof csteps_deliver. csteps.
Qed.

(** What a command of the tool may touch, whatever statements and file operations
    fail. A command that only shows something changes neither the store nor a file;
    [config set] and the commands that write keys and envelopes leave the store as it
    is; every other command leaves all files as they are and keeps the schema of the
    store, in the database and in the snapshot of an open transaction. *)
Theorem ctl_confined config command c r c' :
  ctl_run config command c = (r, c') ->
  if reads_only command then view c' = view c
  else if edits_files command then db (c_store c') = db (c_store c) /\ saved (c_store c') = saved (c_store c)
  else fs (c_files c') = fs (c_files c) /\ (inv wf_db (c_store c) -> inv wf_db (c_store c')).
Proof.
  intros Hr. destruct (reads_only command) eqn:Er; [by rewrite (quiet_run config command Er c r c' Hr)|].
  destruct (edits_files command) eqn:Ee; [exact (files_run config command Ee c r c' Hr)|].
  assert (Hs : csteps on_store_only (ctl_run config command)).
  { destruct command as [|a|a|a|a|a|a|u m|rc n ad am i|a| |]; try done; cbn [ctl_run];
      [by destruct a | apply store_settings | apply store_user | apply store_share | apply store_keyring
      | by destruct a | apply store_tx | apply store_send]. }
  destruct (Hs c r c' Hr) as [Hf Hi]. split; [exact Hf|]. exact (Hi (faults (c_store c))).
Qed.

End commands.
