(* ===== verification/AccountFacts.v ===== *)
(** * Accounts and app passwords, from the tool to the IMAP login

    What [talkctl] creates and changes is what the IMAP session accepts: accounts
    and their passwords, app passwords until they are revoked. *)

From S2P Require Export CtlFacts ImapSessionFacts.

(** [OsRng::fill_bytes] fills the buffer. *)
Class OutsideLaws `{Outside} : Prop := { entropy_length : forall t n, length (entropy t n) = n }.

(** ** Running the tool without faults *)

Definition put_store (s : Store) (c : Cli) : Cli := set_world (set_store (c_world c) s) c.
Definition ticked (n : nat) (c : Cli) : Cli := set_world (tick n (c_world c)) c.
Definition said (t : str) (c : Cli) : Cli := mkCli (c_world c) (c_files c) (c_stdin c) (c_stdout c ++ t).

Lemma put_store_same c : put_store (c_store c) c = c.
Proof. by destruct c as [[] ? ? ?]. Qed.

Lemma on_db_calm {A} (m : M A) c x s : m (c_store c) = (Ok x, s) -> on_db m c = (Ok x, put_store s c).
Proof. intros Hm. unfold on_db, st_map_err, on_world, on_store. unfold c_store in Hm. by rewrite Hm. Qed.
Lemma on_db_query {A} (f : Db -> A) c :
  faults (c_store c) = [] -> on_db (query f) c = (Ok (f (db (c_store c))), c).
Proof. intros Hf. rewrite (on_db_calm _ _ _ _ (query_calm f _ Hf)). by rewrite put_store_same. Qed.

Section tool.
Context `{Signing} `{Encodings} `{RowIds} `{Argon2} `{Outside} `{KeyCrypto} `{ConfigParser} `{IoTexts}
  `{!CtlOutside} `{Json RegistrationAttestation}.

(** Nothing fails, and the configuration file loads. *)
Record calm_ctl (config : option str) (ctx : Ctx) (c : Cli) : Prop := {
  cc_store : faults (c_store c) = [];
  cc_files : fs_faults (c_files c) = [];
  cc_config : exists f, fs (c_files c) !! default #"config.toml" config = Some f
    /\ utf8_valid (f_bytes f) = true /\ parse (f_bytes f) = Ok (cfg ctx);
  cc_open : open_store (mailbox_db (cfg ctx)) = Ok tt;
}.

Lemma ctx_load_calm config ctx c : calm_ctl config ctx c -> ctx_load config c = (Ok ctx, c).
Proof.
  intros [_ Hf (f & Hp & Hu & Hc) Ho]. unfold ctx_load.
  assert (Hl : st_map_err CeConfig (on_files (Config.load (default #"config.toml" config))) c = (Ok (cfg ctx), c)).
  { unfold st_map_err, on_files, Config.load. unfold mbind at 1, st_bind at 1, st_map_err.
    unfold fs_read_to_string, mbind, st_bind. rewrite fs_read_calm by done. rewrite Hp, Hu. cbn.
    unfold lift. rewrite (proj2 (parse_path _ _ _) Hc). by destruct c. }
  rewrite (st_bind_Ok _ _ _ _ _ Hl). rewrite Ho. by destruct ctx.
Qed.

Lemma require_user_calm ctx username local row c :
  faults (c_store c) = [] -> local_username username (ctx_domain ctx) = Some local ->
  user_named local (db (c_store c)) = Some row -> require_user ctx username c = (Ok (row_to_user row), c).
Proof.
  intros Hf Hl Hr. unfold require_user. rewrite Hl. unfold get_user.
  rewrite (st_bind_Ok _ _ _ _ _ (on_db_query _ _ Hf)). unfold user_named in Hr. by rewrite Hr.
Qed.

(** The calm stays with what the commands do. *)
Lemma calm_said config ctx t c : calm_ctl config ctx c -> calm_ctl config ctx (said t c).
Proof. by intros []. Qed.
Lemma calm_put config ctx s c : faults s = [] -> calm_ctl config ctx c -> calm_ctl config ctx (put_store s c).
Proof. by intros Hs []. Qed.
Lemma calm_ticked config ctx n c : calm_ctl config ctx c -> calm_ctl config ctx (ticked n c).
Proof. by intros []. Qed.

(** ** The shares of [init_shares] *)

Definition drawn (t n len : nat) : list str := map (fun i => entropy i len) (seq t n).
Definition drawn_pairs (t n : nat) : list (str * str) :=
  map (fun i => (entropy (t + 2 * i) 16, entropy (S (t + 2 * i)) 12)) (seq 0 n).

Lemma draws_eq {E} n len w : draws (E := E) n len w = (Ok (drawn (w_ticks w) n len), tick n w).
Proof.
  revert w. induction n as [|n IH]; intros w; [by destruct w|]. cbn [draws]. unfold mbind, st_bind.
  cbn [draw]. unfold draw. rewrite IH. cbn. unfold tick. cbn. by rewrite Nat.add_succ_r.
Qed.
Lemma drawn_pairs_S t n : drawn_pairs t (S n) = (entropy t 16, entropy (S t) 12) :: drawn_pairs (S (S t)) n.
Proof.
  unfold drawn_pairs. cbn [seq map]. rewrite Nat.mul_0_r, Nat.add_0_r. f_equal.
  rewrite <- seq_shift, map_map. apply map_ext. intros i. f_equal; f_equal; lia.
Qed.
Lemma draw_pairs_eq {E} n w : draw_pairs (E := E) n w = (Ok (drawn_pairs (w_ticks w) n), tick (2 * n) w).
Proof.
  revert w. induction n as [|n IH]; intros w; [by destruct w|]. cbn [draw_pairs]. unfold mbind, st_bind, draw.
  rewrite IH, drawn_pairs_S. unfold tick, mret, st_ret. cbn [w_ticks w_store w_events w_clock]. do 2 f_equal. lia.
Qed.

Definition share_id_of (p : Share * WrappedByShare) : str := hex_encode (share_id (snd p)).
Definition share_row_of (uid : Z) (p : Share * WrappedByShare) : share_row :=
  mkShareRow uid (share_id_of p) (wrapped (snd p)) 0.

Definition with_shares (rows : list share_row) (s : Store) : Store :=
  mkStore (set_shares (db s) (shares (db s) ++ rows)) (saved s) [].

Lemma add_shares_calm uid l c :
  faults (c_store c) = [] -> exists_row (fun r => u_id r =? uid)%Z (users (db (c_store c))) = true ->
  NoDup (map share_id_of l) ->
  (forall p, p ∈ l -> exists_row (share_key uid (share_id_of p)) (shares (db (c_store c))) = false) ->
  for_each l (fun '(share, wrapper) =>
    _ ← on_db (add_share uid (hex_encode (share_id wrapper)) (wrapped wrapper));
    println (share_line (hex_encode (share_id wrapper)) share)) c
  = (Ok tt, said (concat (map (fun p => share_line (share_id_of p) (fst p) ++ [b_nl]) l))
              (put_store (with_shares (map (share_row_of uid) l) (c_store c)) c)).
Proof.
  revert c. induction l as [|[sh w] l IH]; intros c Hf Hu Hn Hfresh.
  - cbn. unfold said, put_store, with_shares, c_store in *. cbn. rewrite !app_nil_r.
    destruct c as [[[d sv fs0] ? ? ?] ? ? ?]. cbn in *. subst. by destruct d.
  - cbn [for_each]. cbn [map] in Hn. apply NoDup_cons in Hn as [Hni Hn].
    assert (Ha : on_db (add_share uid (hex_encode (share_id w)) (wrapped w)) c
      = (Ok tt, put_store (with_shares [share_row_of uid (sh, w)] (c_store c)) c)).
    { apply on_db_calm. unfold add_share. rewrite exec_calm by done. unfold insert_share.
      specialize (Hfresh (sh, w) (list_elem_of_here _ _)). unfold share_id_of in Hfresh. cbn [snd] in Hfresh.
      rewrite Hfresh, Hu. done. }
    erewrite st_bind_Ok by (rewrite (st_bind_Ok _ _ _ _ _ Ha); reflexivity).
    match goal with |- for_each _ _ ?c1 = _ => rewrite (IH c1) end; [| | |done|].
    + cbn [map concat fst]. unfold said, put_store, with_shares, c_store, set_world, set_store.
      cbn. rewrite <- !app_assoc. done.
    + done.
    + exact Hu.
    + intros p Hp. cbn. unfold exists_row. rewrite existsb_app. apply orb_false_iff. split.
      * apply Hfresh. by right.
      * cbn. rewrite orb_false_r. unfold share_key. cbn. rewrite Z.eqb_refl. cbn.
        apply bool_decide_eq_false. intros He. apply Hni. apply list_elem_of_fmap. exists p. split; [|done].
        exact He.
Qed.

(** The ids and the secrets issued from tick [t] on. *)
Definition issue (t n : nat) : list (str * Share) :=
  zip (map (fun p => hex_encode (fst p)) (drawn_pairs (S t + n) n)) (drawn (S t) n 32).

Definition wrapped_shares (t n : nat) : list (Share * WrappedByShare) :=
  let secrets := drawn (S t) n 32 in
  zip secrets (wrappers (share_wrap (fun i => nth i (drawn_pairs (S t + n) n) ([], [])) (entropy t 32) secrets)).

Lemma lookup_drawn_pairs t n i : (i < n)%nat -> is_Some (drawn_pairs t n !! i).
Proof. intros Hi. apply lookup_lt_is_Some. unfold drawn_pairs. by rewrite length_map, length_seq. Qed.

Lemma wrapped_lookup t n i p :
  wrapped_shares t n !! i = Some p ->
  exists id nonce, drawn (S t) n 32 !! i = Some (fst p) /\ drawn_pairs (S t + n) n !! i = Some (id, nonce)
    /\ snd p = mkWrapped id (aead_seal nonce (fst p) (entropy t 32)).
Proof.
  unfold wrapped_shares. cbv zeta. cbn [wrappers share_wrap]. rewrite lookup_zip_with, list_lookup_imap.
  generalize (drawn_pairs (S t + n) n) as rand, (lookup_drawn_pairs (S t + n) n i). intros rand Hrand.
  destruct (drawn (S t) n 32 !! i) as [sh|] eqn:Es; cbn; [|done]. intros [= <-].
  assert (Hi : (i < n)%nat).
  { apply lookup_lt_Some in Es. unfold drawn in Es. by rewrite length_map, length_seq in Es. }
  destruct (Hrand Hi) as [[id nonce] Hp]. exists id, nonce. by rewrite nth_lookup, Hp.
Qed.

Lemma zip_share_ids rand dk (secrets : list Share) :
  length rand = length secrets ->
  map (fun p => (share_id_of p, fst p)) (zip secrets (wrappers (share_wrap (fun i => nth i rand ([], [])) dk secrets)))
  = zip (map (fun p => hex_encode (fst p)) rand) secrets.
Proof.
  intros Hl. apply list_eq. intros i. cbn [wrappers share_wrap].
  rewrite list_lookup_fmap, !lookup_zip_with, list_lookup_imap, list_lookup_fmap.
  destruct (secrets !! i) as [s|] eqn:Es; cbn.
  - destruct (lookup_lt_is_Some_2 rand i) as [p Hp]; [apply lookup_lt_Some in Es; lia|].
    rewrite nth_lookup, Hp. done.
  - by destruct (rand !! i).
Qed.
Lemma wrapped_issue t n : map (fun p => (share_id_of p, fst p)) (wrapped_shares t n) = issue t n.
Proof. apply zip_share_ids. unfold drawn_pairs, drawn. by rewrite !length_map, !length_seq. Qed.

Definition issue_lines (l : list (str * Share)) : str := concat (map (fun p => share_line (fst p) (snd p) ++ [b_nl]) l).
Definition after_init (uid : Z) (n : nat) (c : Cli) : Cli :=
  let t := w_ticks (c_world c) in
  said ( #"ok: registered " ++ show_nat n ++ #" shares" ++ [b_nl]) (said (issue_lines (issue t n))
    (put_store (with_shares (map (share_row_of uid) (wrapped_shares t n)) (c_store c)) (ticked (1 + n + 2 * n) c))).

Lemma init_shares_calm uid n c :
  faults (c_store c) = [] -> exists_row (fun r => u_id r =? uid)%Z (users (db (c_store c))) = true ->
  NoDup (map fst (issue (w_ticks (c_world c)) n)) ->
  (forall id, id ∈ map fst (issue (w_ticks (c_world c)) n) -> exists_row (share_key uid id) (shares (db (c_store c))) = false) ->
  init_shares uid n c = (Ok tt, after_init uid n c).
Proof.
  intros Hf Hu Hn Hfresh. set (t := w_ticks (c_world c)) in *.
  assert (Hids : map fst (issue t n) = map share_id_of (wrapped_shares t n)).
  { rewrite <- wrapped_issue, map_map. done. }
  rewrite Hids in Hn, Hfresh. unfold init_shares, after_init. fold t.
  assert (Hd : on_world (draw (E := CtlError) 32) c = (Ok (entropy t 32), ticked 1 c)) by done.
  rewrite (st_bind_Ok _ _ _ _ _ Hd). clear Hd.
  assert (Hd : on_world (draws (E := CtlError) n 32) (ticked 1 c) = (Ok (drawn (S t) n 32), ticked (1 + n) c)).
  { unfold on_world. rewrite draws_eq. unfold ticked, set_world, tick. cbn. do 4 f_equal. unfold t. lia. }
  rewrite (st_bind_Ok _ _ _ _ _ Hd). clear Hd.
  assert (Hd : on_world (draw_pairs (E := CtlError) n) (ticked (1 + n) c) = (Ok (drawn_pairs (S t + n) n), ticked (1 + n + 2 * n) c)).
  { unfold on_world. rewrite draw_pairs_eq. unfold ticked, set_world, tick. cbn [c_world w_store w_events w_clock w_ticks c_files c_stdin c_stdout].
    replace (1 + n + w_ticks (c_world c))%nat with (S t + n)%nat by (unfold t; lia).
    f_equal. f_equal. f_equal. unfold t. lia. }
  rewrite (st_bind_Ok _ _ _ _ _ Hd). clear Hd. cbv zeta. fold (wrapped_shares t n).
  change (zip (drawn (S t) n 32) _) with (wrapped_shares t n).
  rewrite (st_bind_Ok _ _ _ _ _ (add_shares_calm uid (wrapped_shares t n) (ticked (1 + n + 2 * n) c) Hf Hu Hn
    (fun p Hp => Hfresh _ (list_elem_of_fmap_2 share_id_of _ _ Hp)))).
  unfold println, print, said at 1 4. f_equal. unfold said, put_store, issue_lines. cbn [c_world c_files c_stdin c_stdout set_world].
  rewrite <- wrapped_issue, map_map. rewrite <- !app_assoc. done.
Qed.

(** [share revoke] marks the wrapper. *)
Definition revoked (uid : Z) (id : str) (rows : list share_row) : list share_row :=
  update_where (share_key uid id) (fun r => mkShareRow (s_user_id r) (s_share_id r) (s_wrapped_dk r) 1) rows.

Lemma revoke_calm uid id s :
  faults s = [] -> exists_row (share_key uid id) (shares (db s)) = true ->
  revoke_share uid id s = (Ok tt, mkStore (set_shares (db s) (revoked uid id (shares (db s)))) (saved s) []).
Proof.
  intros Hf Hx. unfold revoke_share, execute_n, mbind, st_bind. rewrite exec_calm by done.
  destruct (count_where _ _) eqn:En; [|done]. apply count_where_0 in En. congruence.
Qed.

Lemma share_init_calm config ctx username local row n c :
  calm_ctl config ctx c -> local_username username (ctx_domain ctx) = Some local ->
  user_named local (db (c_store c)) = Some row -> (0 < n)%nat ->
  NoDup (map fst (issue (w_ticks (c_world c)) n)) ->
  (forall id, id ∈ map fst (issue (w_ticks (c_world c)) n) -> exists_row (share_key (u_id row) id) (shares (db (c_store c))) = false) ->
  share_run config (ShInit username n) c = (Ok tt, after_init (u_id row) n c).
Proof.
  intros Hc Hl Hr Hn Hnd Hfresh. unfold share_run.
  rewrite (st_bind_Ok _ _ _ _ _ (ctx_load_calm _ _ _ Hc)).
  rewrite (st_bind_Ok _ _ _ _ _ (require_user_calm _ _ _ _ _ (cc_store _ _ _ Hc) Hl Hr)).
  destruct (Nat.eqb_spec n 0); [lia|]. apply init_shares_calm; [by destruct Hc| |done|done].
  apply exists_row_true. exists row. split; [|apply Z.eqb_refl]. unfold user_named in Hr.
  apply head_Some_elem_of in Hr. by apply elem_of_select in Hr as [].
Qed.

Lemma share_revoke_calm config ctx username local row id c :
  calm_ctl config ctx c -> local_username username (ctx_domain ctx) = Some local ->
  user_named local (db (c_store c)) = Some row -> exists_row (share_key (u_id row) id) (shares (db (c_store c))) = true ->
  exists c', share_run config (ShRevoke username id) c = (Ok tt, c')
    /\ db (c_store c') = set_shares (db (c_store c)) (revoked (u_id row) id (shares (db (c_store c)))).
Proof.
  intros Hc Hl Hr Hx. unfold share_run. eexists.
  rewrite (st_bind_Ok _ _ _ _ _ (ctx_load_calm _ _ _ Hc)).
  rewrite (st_bind_Ok _ _ _ _ _ (require_user_calm _ _ _ _ _ (cc_store _ _ _ Hc) Hl Hr)).
  rewrite (st_bind_Ok _ _ _ _ _ (on_db_calm _ _ _ _ (revoke_calm _ _ _ (cc_store _ _ _ Hc) Hx))). by split.
Qed.
End tool.

(** ** Credentials *)

Section credentials.
Context `{ErrorTexts} `{EncodingsLaws} `{KeyCryptoLaws} `{Argon2} `{OsGroups} `{TimeFormat}.

(** A wrapper of the user, not revoked, that a share opens. *)
Definition opens (uid : Z) (share : Share) (r : share_row) : bool :=
  (s_user_id r =? uid)%Z && (s_revoked r =? 0)%Z && is_ok (share_unwrap share (mkWrapped [] (s_wrapped_dk r))).

Lemma share_accepted_iff d uid p :
  share_accepted d uid p = true <-> exists share r, parse_share p = Some share /\ r ∈ shares d /\ opens uid share r = true.
Proof.
  unfold share_accepted. destruct (parse_share p) as [share|]; [|naive_solver]. fold (opens uid share).
  rewrite (exists_row_true (opens uid share)). naive_solver.
Qed.

Lemma parse_share_hex share : length share = 32%nat -> parse_share (hex_encode share) = Some share.
Proof. intros Hl. unfold parse_share. rewrite hex_encode_lower, hex_decode_lower. cbn. by rewrite bool_decide_eq_true_2. Qed.

(** On a session that is not logged in, a right user name and password log in. *)
Lemma login_works tag s w u p row :
  im_state s = NotAuthenticated -> faults w = [] ->
  authenticates (im_auth_mode s) (im_domain s) (db w) u p = Some row ->
  exists text, imap_handle (mkParsed tag #"LOGIN" [u; p]) (s, w)
    = (tagged tag StOk text, (set_user (u_id row) (u_username row) s, w)).
Proof.
  intros Hs Hf Ha. pose proof (dispatch_login (mkParsed tag #"LOGIN" [u; p]) s w Hs) as Hl.
  change (login_request _) with (Some (u, p)) in Hl. cbn [pc_tag] in Hl.
  destruct (login_spec tag s w u p) as (w' & (Hd & Hsv & Hq) & [(text & row' & Hr & Hx)|[Hn _]]).
  - rewrite Ha in Hr. injection Hr as <-. exists text. unfold imap_handle, reply_of. rewrite Hl, Hx.
    specialize (Hq Hf). by destruct w, w'; cbn in *; subst.
  - rewrite Ha in Hn. by destruct Hn.
Qed.

Lemma app_password_authenticates mode dom d u local row share r :
  local_username u dom = Some local -> user_named local d = Some row ->
  r ∈ shares d -> opens (u_id row) share r = true -> length share = 32%nat ->
  authenticates mode dom d (u ++ #":app") (hex_encode share) = Some row.
Proof.
  intros Hl Hr Hin Ho Hlen. unfold authenticates. rewrite (proj2 (strip_suffix_Some _ _ u) eq_refl), Hl. cbn. rewrite Hr. cbn.
  assert (Ha : share_accepted d (u_id row) (hex_encode share) = true); [|by rewrite Ha].
  apply share_accepted_iff. exists share, r. by rewrite parse_share_hex.
Qed.

Lemma opens_revoked uid id share rows :
  (exists r, r ∈ revoked uid id rows /\ opens uid share r = true)
  <-> exists r, r ∈ rows /\ opens uid share r = true /\ s_share_id r <> id.
Proof.
  unfold revoked. setoid_rewrite elem_of_update_where. split.
  - intros (r & (r0 & Hr0 & ->) & Ho). exists r0. destruct (share_key uid id r0) eqn:Ek.
    + unfold opens in Ho. cbn in Ho. by rewrite andb_false_r in Ho.
    + split; [done|]. split; [done|]. intros <-. unfold share_key in Ek.
      rewrite str_eqb_refl, andb_true_r in Ek. unfold opens in Ho. by rewrite Ek in Ho.
  - intros (r & Hr & Ho & Hne). exists r. split; [|done]. exists r. split; [done|].
    unfold share_key. by rewrite (bool_decide_eq_false_2 (s_share_id r = id)), andb_false_r by done.
Qed.
End credentials.

(** ** Properties *)

Section properties.
Context `{Signing} `{EncodingsLaws} `{RowIds} `{Templates} `{Argon2} `{OutsideLaws} `{KeyCryptoLaws} `{ConfigParser} `{IoTexts}
  `{!CtlOutside} `{!DnsExternals} `{DaemonSocket} `{TomlText} `{OsGroups} `{TimeFormat}
  `{Json Attestation} `{Json RegistrationAttestation} `{Json EmulatePayload}.

(** C31: the life of an app password. When nothing fails and the drawn ids are new,
    [share init] for a user of the local domain prints one line for each share with
    its id and secret; every secret printed then logs in over IMAP as the user name
    with the suffix, under either authentication mode, and what logged in before
    still does. After [share revoke] of one of the ids a password is accepted exactly
    when another wrapper of the user that is not revoked opens under it. *)
Theorem app_passwords config ctx username local row n c :
  calm_ctl config ctx c -> local_username username (ctx_domain ctx) = Some local ->
  user_named local (db (c_store c)) = Some row -> (0 < n)%nat ->
  let issued := issue (w_ticks (c_world c)) n in
  NoDup (map fst issued) ->
  (forall id, id ∈ map fst issued -> exists_row (share_key (u_id row) id) (shares (db (c_store c))) = false) ->
  exists c', ctl_run config (CtlShare (ShInit username n)) c = (Ok tt, c')
  /\ c_stdout c' = c_stdout c ++ issue_lines issued ++ #"ok: registered " ++ show_nat n ++ #" shares" ++ [b_nl]
  /\ (forall tag id share s, (id, share) ∈ issued -> im_state s = NotAuthenticated -> im_domain s = ctx_domain ctx ->
      exists text, imap_handle (mkParsed tag #"LOGIN" [username ++ #":app"; hex_encode share]) (s, c_store c')
        = (tagged tag StOk text, (set_user (u_id row) (u_username row) s, c_store c')))
  /\ (forall uid p, share_accepted (db (c_store c)) uid p = true -> share_accepted (db (c_store c')) uid p = true)
  /\ (forall id, id ∈ map fst issued -> exists c'',
      ctl_run config (CtlShare (ShRevoke username id)) c' = (Ok tt, c'')
      /\ forall p, share_accepted (db (c_store c'')) (u_id row) p = true <->
           exists share r, parse_share p = Some share /\ r ∈ shares (db (c_store c'))
             /\ opens (u_id row) share r = true /\ s_share_id r <> id).
Proof.
  intros Hc Hl Hr Hn issued Hnd Hfresh. exists (after_init (u_id row) n c).
  set (t := w_ticks (c_world c)) in *.
  assert (Hadd : forall r, r ∈ shares (db (c_store c)) ++ map (share_row_of (u_id row)) (wrapped_shares t n) ->
    r ∈ shares (db (c_store (after_init (u_id row) n c)))) by done.
  assert (Hiss : forall id share, (id, share) ∈ issued -> exists p, p ∈ wrapped_shares t n
    /\ share_id_of p = id /\ fst p = share).
  { intros id share Hin. unfold issued in Hin. rewrite <- wrapped_issue in Hin.
    apply list_elem_of_fmap in Hin as (p & [= -> ->] & Hp). eauto. }
  split; [exact (share_init_calm _ _ _ _ _ _ _ Hc Hl Hr Hn Hnd Hfresh)|]. split; [|split; [|split]].
  - unfold after_init, said. cbn. by rewrite <- !app_assoc.
  - intros tag id share s Hin Hs Hd. destruct (Hiss _ _ Hin) as (p & Hp & _ & <-).
    apply login_works; [done|done|]. rewrite Hd.
    pose proof (list_elem_of_lookup_1 _ _ Hp) as [i Hi]. destruct (wrapped_lookup _ _ _ _ Hi) as (wid & nonce & Hs1 & Hw & Hp2).
    assert (Hlen : length (fst p) = 32%nat).
    { apply list_elem_of_lookup_2, list_elem_of_fmap in Hs1 as (j & -> & _). apply entropy_length. }
    apply (app_password_authenticates _ _ _ _ local _ _ (share_row_of (u_id row) p)); try done.
    + apply Hadd, elem_of_app. right. apply list_elem_of_fmap. eauto.
    + unfold opens, share_row_of. cbn. rewrite Z.eqb_refl, Hp2. unfold share_unwrap. cbn [wrapped].
      rewrite open_sealed_key; [done| |apply entropy_length].
      apply list_elem_of_lookup_2, list_elem_of_fmap in Hw as (j & [= _ ->] & _). apply entropy_length.
  - intros uid p (share & r & Hps & Hin & Ho)%share_accepted_iff. apply share_accepted_iff. exists share, r.
    split; [done|]. split; [|done]. apply Hadd, elem_of_app. by left.
  - intros ? ([id share] & -> & Hin)%list_elem_of_fmap. destruct (Hiss _ _ Hin) as (p & Hp & Hid & _).
    cbn [fst]. rewrite <- Hid. clear Hid.
    destruct (share_revoke_calm config ctx username local row (share_id_of p) (after_init (u_id row) n c)) as (c'' & Hrun & Hdb).
    + by apply calm_said, calm_said, calm_put, calm_ticked.
    + done.
    + done.
    + apply exists_row_true. exists (share_row_of (u_id row) p). split.
      * apply Hadd, elem_of_app. right. apply list_elem_of_fmap. eauto.
      * unfold share_key. cbn. by rewrite Z.eqb_refl, str_eqb_refl.
    + exists c''. split; [done|]. intros q. rewrite share_accepted_iff, Hdb.
      cbn [shares set_shares]. split.
      * intros (sh & r & Hq & Hr1 & Ho). destruct (proj1 (opens_revoked _ _ sh _) (ex_intro _ r (conj Hr1 Ho))) as (r' & ?). naive_solver.
      * intros (sh & r & Hq & Hr1). destruct (proj2 (opens_revoked (u_id row) (share_id_of p) sh _) (ex_intro _ r Hr1)) as (r' & ?). naive_solver.
Qed.
End properties.
