(* ===== verification/KeyFacts.v ===== *)
(** * Key files and sealed files

    What the key commands write, and that what is sealed to a key file is unsealed
    with it. *)

From S2P Require Export KeyCmd AccountFacts.

(** ** File operations of the tool, without faults *)

Definition put_files (x : Files) (c : Cli) : Cli := set_files x c.
Definition wrote (path bytes : str) (c : Cli) : Cli := set_files (put path bytes (c_files c)) c.
Definition moded (path : str) (mode : Z) (c : Cli) : Cli :=
  match fs (c_files c) !! path with
  | Some f => set_files (set_fs (<[path := mkFile (f_bytes f) mode]> (fs (c_files c))) (c_files c)) c
  | None => c
  end.
Definition bytes_at (path : str) (c : Cli) : option str := f_bytes <$> fs (c_files c) !! path.

Lemma bytes_at_wrote path bytes c : bytes_at path (wrote path bytes c) = Some bytes.
Proof. unfold bytes_at, wrote, put, set_fs, set_files. cbn. by rewrite lookup_insert_eq. Qed.
Lemma bytes_at_wrote_ne path path' bytes c : path' <> path -> bytes_at path' (wrote path bytes c) = bytes_at path' c.
Proof. intros Hne. unfold bytes_at, wrote, put, set_fs, set_files. cbn. by rewrite lookup_insert_ne. Qed.

Section calm.
Context `{IoTexts}.

Lemma read_named_calm what path b c :
  fs_faults (c_files c) = [] -> bytes_at path c = Some b -> read_named what path c = (Ok b, c).
Proof.
  intros Hf Hc. unfold bytes_at in Hc. unfold read_named, st_map_err, Cli.on_files. rewrite fs_read_calm by done.
  destruct (fs (c_files c) !! path) as [f|]; [|done]. injection Hc as <-. by destruct c.
Qed.
Lemma write_calm path bytes c :
  fs_faults (c_files c) = [] -> on_fs (fs_write path bytes) c = (Ok tt, wrote path bytes c).
Proof. intros Hf. unfold on_fs, st_map_err, Cli.on_files. by rewrite fs_write_calm. Qed.
Lemma exists_calm path c :
  fs_faults (c_files c) = [] -> on_fs (fs_exists path) c = (Ok (bool_decide (is_Some (bytes_at path c))), c).
Proof.
  intros Hf. unfold on_fs, st_map_err, Cli.on_files. rewrite fs_exists_calm by done. unfold bytes_at.
  destruct (fs (c_files c) !! path); by destruct c.
Qed.
Lemma set_mode_calm path mode c :
  fs_faults (c_files c) = [] -> is_Some (bytes_at path c) -> on_fs (fs_set_mode path mode) c = (Ok tt, moded path mode c).
Proof.
  intros Hf [b Hc]. unfold bytes_at in Hc. unfold on_fs, st_map_err, Cli.on_files, moded.
  destruct (fs (c_files c) !! path) as [f|] eqn:E; [|done]. by rewrite (fs_set_mode_calm _ _ _ f).
Qed.

Lemma load_key_calm path priv c :
  fs_faults (c_files c) = [] -> bytes_at path c = Some priv -> length priv = 32%nat ->
  load_private_key path c = (Ok priv, c).
Proof.
  intros Hf Hc Hl. unfold load_private_key. rewrite (st_bind_Ok _ _ _ _ _ (read_named_calm _ _ _ _ Hf Hc)). by rewrite Hl.
Qed.

Lemma write_new_calm path bytes mode force c :
  fs_faults (c_files c) = [] ->
  write_new path bytes mode force c =
    if bool_decide (is_Some (bytes_at path c)) && negb force
    then (Err (CeMessage (path ++ #" already exists (use --force to overwrite)")), c)
    else (Ok tt, moded path mode (wrote path bytes c)).
Proof.
  intros Hf. unfold write_new. rewrite (st_bind_Ok _ _ _ _ _ (exists_calm _ _ Hf)).
  destruct (bool_decide _ && _); [done|]. rewrite (st_bind_Ok _ _ _ _ _ (write_calm _ bytes _ Hf)).
  rewrite set_mode_calm; [done|done|]. rewrite bytes_at_wrote. by eexists.
Qed.
End calm.

Section properties.
Context `{KeyCryptoLaws} `{EncodingsLaws} `{OutsideLaws} `{IoTexts}.

(** What [key generate --out p --pub-out q] leaves. *)
Definition generated (p q : str) (secret : str) (c c' : Cli) : Prop :=
  fs (c_files c') !! p = Some (mkFile secret OWNER_ONLY)
  /\ fs (c_files c') !! q = Some (mkFile (x25519_public secret) WORLD_READABLE)
  /\ (forall r, r <> p -> r <> q -> fs (c_files c') !! r = fs (c_files c) !! r).

Lemma moded_wrote path bytes mode c :
  fs (c_files (moded path mode (wrote path bytes c))) = <[path := mkFile bytes mode]> (fs (c_files c))
  /\ fs_faults (c_files (moded path mode (wrote path bytes c))) = fs_faults (c_files c)
  /\ c_world (moded path mode (wrote path bytes c)) = c_world c.
Proof. unfold moded, wrote, put, set_fs, set_files. cbn. rewrite lookup_insert_eq. cbn. by rewrite insert_insert_eq. Qed.

Lemma generate_calm p q force c :
  p <> q -> fs_faults (c_files c) = [] ->
  if bool_decide (is_Some (bytes_at p c)) && negb force
  then exists c', key_run (KeyGenerate (Some p) (Some q) force) c
         = (Err (CeMessage (p ++ #" already exists (use --force to overwrite)")), c') /\ c_files c' = c_files c
  else bool_decide (is_Some (bytes_at q c)) && negb force = false ->
       exists c', key_run (KeyGenerate (Some p) (Some q) force) c = (Ok tt, c')
         /\ generated p q (entropy (w_ticks (c_world c)) 32) c c'.
Proof.
  intros Hpq Hf. cbn [key_run]. unfold key_generate. set (secret := entropy (w_ticks (c_world c)) 32).
  rewrite (st_bind_Ok (on_world (draw 32)) _ c secret (ticked 1 c)) by done. cbn [generate_master_pair private public].
  pose proof (write_new_calm p secret OWNER_ONLY force (ticked 1 c) Hf) as Hw.
  change (bytes_at p (ticked 1 c)) with (bytes_at p c) in Hw. destruct (bool_decide (is_Some (bytes_at p c)) && negb force).
  - rewrite (st_bind_Err _ _ _ _ _ Hw). by eexists.
  - rewrite (st_bind_Ok _ _ _ _ _ Hw). intros Hq. destruct (moded_wrote p secret OWNER_ONLY (ticked 1 c)) as (Hfs & Hfa & _).
    set (c1 := moded _ _ _) in *.
    pose proof (write_new_calm q (x25519_public secret) WORLD_READABLE force c1 ltac:(by rewrite Hfa)) as Hw2.
    assert (Hcq : bytes_at q c1 = bytes_at q c) by (unfold bytes_at; by rewrite Hfs, lookup_insert_ne).
    rewrite Hcq, Hq in Hw2. rewrite (st_bind_Ok _ _ _ _ _ Hw2).
    destruct (moded_wrote q (x25519_public secret) WORLD_READABLE c1) as (Hfs2 & _ & _).
    eexists. split; [reflexivity|]. unfold generated. cbn [c_files]. rewrite Hfs2, Hfs.
    split; [by rewrite lookup_insert_ne, lookup_insert_eq|]. split; [by rewrite lookup_insert_eq|].
    intros r Hrp Hrq. by rewrite !lookup_insert_ne.
Qed.

Lemma hex_32_key k c :
  some_or (hex_32 (hex_encode (master_pubkey k))) #"--to must be 32 bytes of hex" c = (Ok (master_pubkey k) : result CtlError str, c).
Proof.
  unfold hex_32. rewrite hex_encode_lower, hex_decode_lower. cbn.
  by rewrite bool_decide_eq_true_2 by apply public_length.
Qed.

End properties.
