(* ===== verification/ConfigFacts.v ===== *)
(** * Editing the configuration

    Reading back what was set, and that an edit the configuration refuses is not
    written. *)

From S2P Require Export ConfigCmd KeyFacts.

(** ** Trees of values *)

Lemma assoc_insert_eq {A} (k : str) (v : A) l : is_Some (assoc_get k l) ->
  assoc_get k (map (fun e => if fst e ≟ k then (k, v) else e) l) = Some v.
Proof.
  induction l as [|[k' v'] l IH]; intros Hs; [by destruct Hs|]. cbn [map assoc_get fst] in *.
  destruct (k' ≟ k) eqn:E; cbn [assoc_get]; [by rewrite str_eqb_refl|]. rewrite E in *. by apply IH.
Qed.
Lemma assoc_insert_ne {A} (k k' : str) (v : A) l : k' <> k ->
  assoc_get k' (map (fun e => if fst e ≟ k then (k, v) else e) l) = assoc_get k' l.
Proof.
  intros Hne. induction l as [|[k0 v0] l IH]; [done|]. cbn [map assoc_get fst].
  destruct (bool_decide_reflect (k0 = k)) as [->|Hk]; cbn [assoc_get].
  - by rewrite (bool_decide_eq_false_2 (k = k')) by congruence.
  - by rewrite IH.
Qed.

(** What an assignment through a path comes to, whatever its errors are called. *)
Definition assigned (v cur : Toml) (parts : list str) (new : Toml) : Prop :=
  (forall p, get_parts p new parts = Ok v) /\ (forall p, is_ok (get_parts p cur parts) = true)
  /\ forall p parts', ~ parts `prefix_of` parts' -> ~ parts' `prefix_of` parts -> get_parts p new parts' = get_parts p cur parts'.

Lemma assigned_leaf v l part :
  is_Some (assoc_get part l) -> assigned v (TTable l) [part] (TTable (table_insert part v l)).
Proof.
  intros Hs. split; [|split].
  - intros p. cbn. unfold table_insert. by rewrite assoc_insert_eq.
  - intros p. cbn. by destruct Hs as [x ->].
  - intros p [|b rest'] Hn1 Hn2; [destruct Hn2; apply prefix_nil|]. cbn. unfold table_insert. rewrite assoc_insert_ne; [done|].
    intros ->. apply Hn1. by exists rest'.
Qed.
Lemma assigned_node v l part sub rest new :
  assoc_get part l = Some sub -> assigned v sub rest new -> assigned v (TTable l) (part :: rest) (TTable (table_insert part new l)).
Proof.
  intros Hs (Hg & Ho & Hd). split; [|split].
  - intros p. cbn. unfold table_insert. rewrite assoc_insert_eq by (by rewrite Hs). apply Hg.
  - intros p. cbn. rewrite Hs. apply Ho.
  - intros p [|b rest'] Hn1 Hn2; [destruct Hn2; apply prefix_nil|]. cbn. unfold table_insert.
    destruct (decide (b = part)) as [->|Hb].
    + rewrite assoc_insert_eq by (by rewrite Hs). rewrite Hs. cbn. apply Hd.
      * intros Hp. by apply Hn1, prefix_cons.
      * intros Hp. by apply Hn2, prefix_cons.
    + by rewrite assoc_insert_ne.
Qed.

Lemma set_parts_spec path v parts : forall cur new, set_parts path v cur parts = Ok new -> assigned v cur parts new.
Proof.
  induction parts as [|part rest IH]; intros cur new; [done|]. cbn [set_parts].
  destruct cur as [| l |]; cbn [as_table ok_or mbind result_bind]; try done.
  destruct (assoc_get part l) as [sub|] eqn:Es; cbn [ok_or mbind result_bind]; [|done].
  destruct (bool_decide_reflect (rest = [])) as [->|Hne].
  - intros [= <-]. apply assigned_leaf. by rewrite Es.
  - destruct (set_parts path v sub rest) as [new'|] eqn:Er; cbn; [|done]. intros [= <-].
    eapply assigned_node; [done|]. by apply IH.
Qed.
Lemma assign_parts_spec path v parts : forall cur new, assign_parts path v cur parts = Ok new -> assigned v cur parts new.
Proof.
  induction parts as [|part rest IH]; intros cur new; [done|]. cbn [assign_parts].
  destruct cur as [| l |]; cbn [as_table ok_or mbind result_bind]; try done.
  destruct (assoc_get part l) as [sub|] eqn:Es; cbn [ok_or mbind result_bind]; [|done].
  destruct (bool_decide_reflect (rest = [])) as [->|Hne].
  - intros [= <-]. apply assigned_leaf. by rewrite Es.
  - destruct (assign_parts path v sub rest) as [new'|] eqn:Er; cbn; [|done]. intros [= <-].
    eapply assigned_node; [done|]. by apply IH.
Qed.

(** A key that can be read can be set and redacted. *)
Lemma set_parts_ok path path' v parts : forall cur, parts <> [] ->
  is_ok (get_parts path cur parts) = true -> is_ok (set_parts path' v cur parts) = true /\ is_ok (assign_parts path' v cur parts) = true.
Proof.
  induction parts as [|part rest IH]; intros cur Hne; [done|]. cbn [get_parts set_parts assign_parts].
  destruct cur as [| l |]; cbn [as_table ok_or mbind result_bind]; try done.
  destruct (assoc_get part l) as [sub|]; cbn [ok_or mbind result_bind]; [|done].
  destruct (bool_decide_reflect (rest = [])) as [->|Hr]; [done|]. intros Hg.
  destruct (IH sub Hr Hg) as [H1 H2]. by destruct (set_parts path' v sub rest), (assign_parts path' v sub rest).
Qed.

(** The path [a] leads to another part of the tree than [b]. *)
Definition apart (a b : str) : Prop :=
  ~ split "."%char a `prefix_of` split "."%char b /\ ~ split "."%char b `prefix_of` split "."%char a.

Lemma set_path_spec root key v new :
  set_path root key v = Ok new ->
  get_path new key = Ok v /\ is_ok (get_path root key) = true
  /\ forall key', apart key key' -> get_path new key' = get_path root key'.
Proof.
  intros (Hg & Ho & Hd)%set_parts_spec. unfold get_path. split; [done|]. split; [done|].
  intros key' [H1 H2]. by apply Hd.
Qed.
Lemma redact_spec root key :
  if is_ok (get_path root key)
  then get_path (redact root key) key = Ok (TString #"***")
       /\ forall key', apart key key' -> get_path (redact root key) key' = get_path root key'
  else redact root key = root.
Proof.
  unfold redact, get_path. destruct (is_ok (get_parts key root (split "."%char key))) eqn:Eo.
  - destruct (set_parts_ok key key (TString #"***") (split "."%char key) root (split_not_nil _ _) Eo) as [_ Ha].
    destruct (assign_parts _ _ _ _) as [new|] eqn:E; [|done]. apply assign_parts_spec in E as (Hg & _ & Hd).
    split; [done|]. intros key' [H1 H2]. by apply Hd.
  - destruct (assign_parts _ _ _ _) as [new|] eqn:E; [|done]. apply assign_parts_spec in E as (_ & Ho & _). by rewrite Ho in Eo.
Qed.

(** ** The commands *)

(** The documentation of [toml]: a document is a table, and what is printed is read
    back. *)
Class TomlLaws `{TomlText} : Prop := {
  toml_document_table : forall s v, toml_value s = Ok v -> exists l, v = TTable l;
  toml_reads_back : forall v s, toml_pretty v = Ok s -> utf8_valid s = true /\ toml_value s = Ok v;
}.

Section commands.
Context `{ConfigParser} `{IoTexts} `{TomlLaws}.

Lemma read_toml_calm path raw root c :
  fs_faults (c_files c) = [] -> bytes_at path c = Some raw -> utf8_valid raw = true -> toml_value raw = Ok root ->
  read_toml path c = (Ok root, c).
Proof.
  intros Hf Hc Hu Ht. unfold bytes_at in Hc. unfold read_toml.
  rewrite (st_bind_Ok _ _ c raw c); [unfold lift; by rewrite Ht|].
  unfold st_map_err, Cli.on_files, fs_read_to_string.
  rewrite (st_bind_Ok _ _ (c_files c) raw (c_files c)); [rewrite Hu; by destruct c|].
  rewrite fs_read_calm by done. destruct (fs (c_files c) !! path); by simplify_eq/=.
Qed.

(** What [config get] does over a tree. *)
Definition got (root : Toml) (key : str) (c : Cli) : result CtlError unit * Cli :=
  match get_path root key with
  | Ok v => (Ok tt, said (toml_display v ++ [b_nl]) c)
  | Err e => (Err (CeMessage e), c)
  end.
Lemma config_get_calm config key raw root c :
  fs_faults (c_files c) = [] -> bytes_at (resolve_path config) c = Some raw -> utf8_valid raw = true -> toml_value raw = Ok root ->
  config_run config (CfgGet key) c = got root key c.
Proof.
  intros Hf Hc Hu Ht. cbn [config_run]. rewrite (st_bind_Ok _ _ _ _ _ (read_toml_calm _ _ _ _ Hf Hc Hu Ht)).
  unfold got. by destruct (get_path root key).
Qed.

(** The new tree and its text, if it is accepted. *)
Definition edit_config (root : Toml) (key value : str) : result CtlError (Toml * str) :=
  new ← set_path root key (parse_value value);
  out ← map_err CeMessage (toml_pretty new);
  _ ← map_err (fun e => CeMessage ( #"refusing to write invalid config: " ++ config_error_str e)) (parse out);
  Ok (new, out).

Lemma config_set_eq config key value raw root c :
  fs_faults (c_files c) = [] -> bytes_at (resolve_path config) c = Some raw -> utf8_valid raw = true -> toml_value raw = Ok root ->
  config_run config (CfgSet key value) c =
    match edit_config root key value with
    | Err e => (Err e, c)
    | Ok (_, out) => (_ ← on_fs (fs_write (resolve_path config) out);
                      println ( #"ok: " ++ key ++ #" = " ++ value ++ #" (" ++ resolve_path config ++ #")")) c
    end.
Proof.
  intros Hf Hc Hu Ht. cbn [config_run]. rewrite (st_bind_Ok _ _ _ _ _ (read_toml_calm _ _ _ _ Hf Hc Hu Ht)).
  unfold edit_config. destruct (set_path root key (parse_value value)) as [new|]; cbn [mbind result_bind]; [|done].
  rewrite (st_bind_Ok (lift (Ok new)) _ c new c) by done.
  destruct (toml_pretty new) as [out|]; cbn [map_err mbind result_bind]; [|done].
  rewrite (st_bind_Ok (lift (Ok out)) _ c out c) by done.
  by destruct (parse out).
Qed.

Lemma parse_value_shape value : (exists s, parse_value value = TString s) \/ exists l, parse_value value = TTable l.
Proof.
  unfold parse_value. destruct (_ ≟ _); [eauto|]. destruct (toml_value value) as [v|] eqn:E; [|eauto].
  apply toml_document_table in E. auto.
Qed.

Lemma load_calm path raw cfg c :
  fs_faults c = [] -> f_bytes <$> fs c !! path = Some raw -> utf8_valid raw = true -> parse raw = Ok cfg ->
  Config.load path c = (Ok cfg, c).
Proof.
  intros Hf Hp Hu Hc. unfold Config.load. rewrite (st_bind_Ok _ _ c raw c).
  - unfold lift. by rewrite (proj2 (parse_path _ _ _) Hc).
  - unfold st_map_err, fs_read_to_string. rewrite (st_bind_Ok _ _ c raw c); [by rewrite Hu|].
    rewrite fs_read_calm by done. destruct (fs c !! path); by simplify_eq/=.
Qed.

Lemma said_nothing c : said [] c = c.
Proof. unfold said. rewrite app_nil_r. by destruct c. Qed.

Lemma edit_config_Ok root key value new out :
  edit_config root key value = Ok (new, out) ->
  set_path root key (parse_value value) = Ok new /\ toml_pretty new = Ok out /\ is_ok (parse out) = true.
Proof.
  unfold edit_config. destruct (set_path root key (parse_value value)) as [new'|]; cbn; [|done].
  destruct (toml_pretty new') as [out'|] eqn:Ep; cbn; [|done]. destruct (parse out') eqn:Eo; cbn; [|done].
  intros [= <- <-]. by rewrite Ep, Eo.
Qed.

(** The write that stops half-way. *)
Lemma config_set_cut config key value raw root c n new out :
  bytes_at (resolve_path config) c = Some raw -> utf8_valid raw = true -> toml_value raw = Ok root ->
  edit_config root key value = Ok (new, out) ->
  bytes_at (resolve_path config) (snd (config_run config (CfgSet key value)
    (set_files (mkFiles (fs (c_files c)) [NoFault; StopsAfter n] (fs_default_mode (c_files c))) c))) = Some (take n out).
Proof.
  intros Hc Hu Ht (Hs & Hp & Hv)%edit_config_Ok. cbn [config_run].
  unfold bytes_at in Hc. destruct (fs (c_files c) !! resolve_path config) as [f|] eqn:Ef; [|done]. injection Hc as <-.
  set (c0 := set_files _ _). set (c1 := set_files (mkFiles (fs (c_files c)) [StopsAfter n] (fs_default_mode (c_files c))) c).
  assert (Hr : read_toml (resolve_path config) c0 = (Ok root, c1)).
  { unfold read_toml. rewrite (st_bind_Ok _ _ c0 (f_bytes f) c1); [unfold lift; by rewrite Ht|].
    unfold st_map_err, Cli.on_files, fs_read_to_string, mbind, st_bind, fs_read. cbn. rewrite Ef. cbn. by rewrite Hu. }
  rewrite (st_bind_Ok _ _ _ _ _ Hr). rewrite Hs. rewrite (st_bind_Ok (lift (Ok new)) _ c1 new c1) by done.
  rewrite Hp. cbn [map_err]. rewrite (st_bind_Ok (lift (Ok out)) _ c1 out c1) by done.
  destruct (parse out) as [cfg|]; [|done]. cbn [map_err]. rewrite (st_bind_Ok (lift (Ok cfg)) _ c1 cfg c1) by done.
  rewrite (st_bind_Err _ _ c1 (CeIo IoFailed) (wrote (resolve_path config) (take n out)
    (set_files (mkFiles (fs (c_files c)) [] (fs_default_mode (c_files c))) c))) by done.
  apply bytes_at_wrote.
Qed.

(** C34: editing the configuration. When nothing fails, [config set] either answers an
    error and changes nothing, as it does for a key that is not there and for a change
    that the configuration does not accept, or it writes the configuration file and
    no other: the new file loads, [config get] of the key shows the value, and every
    key apart from it is shown as before. The value is a string, or a table if the
    argument is a document; so a setting of another type cannot be set. A passphrase
    is not in what [config show] prints. If the write stops half-way the file is cut
    off. *)
Theorem config_set_spec config key value raw root c :
  fs_faults (c_files c) = [] -> bytes_at (resolve_path config) c = Some raw -> utf8_valid raw = true ->
  toml_value raw = Ok root ->
  match edit_config root key value with
  | Err e => config_run config (CfgSet key value) c = (Err e, c)
  | Ok (new, out) => is_ok (get_path root key) = true /\ exists c', config_run config (CfgSet key value) c = (Ok tt, c')
      /\ bytes_at (resolve_path config) c' = Some out
      /\ (forall p, p <> resolve_path config -> bytes_at p c' = bytes_at p c)
      /\ (exists cfg, Config.load (resolve_path config) (c_files c') = (Ok cfg, c_files c'))
      /\ config_run config (CfgGet key) c' = (Ok tt, said (toml_display (parse_value value) ++ [b_nl]) c')
      /\ (forall key', apart key key' -> exists r t,
            config_run config (CfgGet key') c = (r, said t c) /\ config_run config (CfgGet key') c' = (r, said t c'))
      /\ forall n, bytes_at (resolve_path config) (snd (config_run config (CfgSet key value)
           (set_files (mkFiles (fs (c_files c)) [NoFault; StopsAfter n] (fs_default_mode (c_files c))) c))) = Some (take n out)
  end
  /\ (forall t, parse_value value <> TOther t)
  /\ (let hidden := redact root #"mailbox.passphrase" in
      config_run config CfgShow c = (match toml_pretty hidden with
                                     | Ok t => (Ok tt, said (t ++ [b_nl]) c)
                                     | Err e => (Err (CeMessage e), c)
                                     end)
      /\ (is_ok (get_path root #"mailbox.passphrase") = true ->
          get_path hidden #"mailbox.passphrase" = Ok (TString #"***"))).
Proof.
  intros Hf Hc Hu Ht. split; [|split; [|split]].
  - rewrite (config_set_eq _ _ _ _ _ _ Hf Hc Hu Ht).
    destruct (edit_config root key value) as [[new out]|e] eqn:Ee; [|done].
    pose proof (edit_config_Ok _ _ _ _ _ Ee) as (Hs & Hp & Hv). destruct (set_path_spec _ _ _ _ Hs) as (Hg & Ho & Hd).
    destruct (parse out) as [cfg|] eqn:Ev; [|done]. destruct (toml_reads_back _ _ Hp) as [Hu' Ht'].
    split; [done|]. rewrite (st_bind_Ok _ _ _ _ _ (write_calm _ out _ Hf)). eexists. split; [reflexivity|].
    match goal with |- bytes_at _ ?x = _ /\ _ => set (c' := x) end.
    assert (Hc' : bytes_at (resolve_path config) c' = Some out) by (exact (bytes_at_wrote _ _ _)).
    assert (Hf' : fs_faults (c_files c') = []) by exact Hf.
    split; [exact Hc'|]. split; [intros p Hne; exact (bytes_at_wrote_ne _ _ _ _ Hne)|].
    split; [exists cfg; by apply (load_calm _ out)|]. split; [|split].
    + rewrite (config_get_calm _ _ _ _ _ Hf' Hc' Hu' Ht'). unfold got. by rewrite Hg.
    + intros key' Ha. rewrite (config_get_calm _ _ _ _ _ Hf' Hc' Hu' Ht'), (config_get_calm _ _ _ _ _ Hf Hc Hu Ht).
      unfold got. rewrite (Hd key' Ha). destruct (get_path root key') as [v|e]; do 2 eexists; [done|].
      by rewrite <- (said_nothing c) at 1; rewrite <- (said_nothing c') at 1.
    + intros n. by eapply config_set_cut.
  - intros t Hp. destruct (parse_value_shape value) as [[s Hs]|[l Hl]]; congruence.
  - cbn [config_run]. rewrite (st_bind_Ok _ _ _ _ _ (read_toml_calm _ _ _ _ Hf Hc Hu Ht)).
    by destruct (toml_pretty _).
  - intros Ho. pose proof (redact_spec root #"mailbox.passphrase") as Hr. rewrite Ho in Hr. apply Hr.
Qed.
End commands.
