(* ===== verification/LedgerFacts.v ===== *)
(** * What the tool's commands do to the ledger

    Each command on one transaction is a list of edits of its row, one statement
    each; and sending without the daemon is the daemon's own SEND. *)

From S2P Require Export CtlFacts.

Lemma st_bind_assoc {S E A B D} (m : st S E A) (f : A -> st S E B) (g : B -> st S E D) s :
  ((m ≫= f) ≫= g) s = (m ≫= (fun x => f x ≫= g)) s.
Proof. unfold mbind, st_bind. by destruct (m s) as [[]]. Qed.

Lemma st_bind_ext {S E A B} (m : st S E A) (f g : A -> st S E B) s :
  (forall x s, f x s = g x s) -> (m ≫= f) s = (m ≫= g) s.
Proof. intros Hfg. unfold mbind, st_bind. by destruct (m s) as [[]]. Qed.

(** ** One edit at a time *)

Definition edit_tx (id : Z) (edits : list (tx_row -> tx_row)) (d : Db) : Db :=
  fold_left (fun d f => set_transactions d (update_where (fun r => t_id r =? id)%Z f (transactions d))) edits d.
Definition find_tx (id : Z) (d : Db) : option tx_row := head (select (fun r => t_id r =? id)%Z (transactions d)).

(** The database of a state is the one before with some of the edits, none of them
    lost unless a statement failed. *)
Definition edited (id : Z) (edits : list (tx_row -> tx_row)) (k : nat) (c c' : Cli) : Prop :=
  db (c_store c') = edit_tx id (take k edits) (db (c_store c)) /\ saved (c_store c') = saved (c_store c)
  /\ c_files c' = c_files c.

Section edits.
Context `{RowIds}.

Lemma count_tx id d r :
  find_tx id d = Some r -> count_where (fun r => t_id r =? id)%Z (transactions d) <> 0%nat.
Proof.
  intros Hr H0. apply count_where_0 in H0. unfold find_tx in Hr. rewrite <- not_true_iff_false in H0. apply H0.
  apply head_select in Hr as [Hin Hid]. apply exists_row_true. eauto.
Qed.

Lemma found_edited id f d r :
  find_tx id d = Some r -> (forall r, t_id (f r) = t_id r) -> is_Some (find_tx id (edit_tx id [f] d)).
Proof.
  intros Hr Hf. unfold find_tx in *. apply head_select in Hr as [Hin Hid].
  destruct (head _) eqn:E; [done|]. exfalso. cbn in E.
  destruct (select (fun r => t_id r =? id)%Z (update_where (fun r => t_id r =? id)%Z f (transactions d))) as [|x l] eqn:Es;
    [|by unfold select in Es; rewrite Es in E].
  assert (Hx : f r ∈ select (fun r => t_id r =? id)%Z (update_where (fun r => t_id r =? id)%Z f (transactions d))).
  { apply elem_of_select. rewrite Hf. split; [|done]. apply elem_of_update_where. exists r. split; [done|]. by rewrite Hid. }
  rewrite Es in Hx. by apply not_elem_of_nil in Hx.
Qed.

(** The statement of an edit: it fails, or edits. *)
Lemma edit_step id (f : Z -> tx_row -> tx_row) e c :
  is_Some (find_tx id (db (c_store c))) ->
  exists c', w_clock (c_world c') = w_clock (c_world c) /\ w_ticks (c_world c') = S (w_ticks (c_world c))
  /\ ((exists x, on_db_now (fun now => n ← with_tx (f now) id; found n e) c = (Err x, c')
        /\ edited id [] 0 c c' /\ faults (c_store c) <> [])
      \/ (on_db_now (fun now => n ← with_tx (f now) id; found n e) c = (Ok tt, c')
          /\ edited id [f (w_clock (c_world c) (w_ticks (c_world c)))] 1 c c'
          /\ (faults (c_store c) = [] -> faults (c_store c') = []))).
Proof.
  intros [r Hr]. unfold on_db_now, st_map_err, on_world, on_store_now, mbind at 1 3, st_bind at 1 3, now_secs, on_store,
    with_tx, execute_n, exec. cbn [w_store].
  unfold c_store in *. destruct (w_store (c_world c)) as [d sv fs0] eqn:Ew. cbn [db saved faults] in *.
  pose proof (count_tx _ _ _ Hr) as Hn. unfold mbind, st_bind. cbn [w_store faults db saved].
  destruct fs0 as [|[] fs0]; cbn [tail]; rewrite ?Ew; cbn [faults db saved tail].
  - eexists. do 2 (split; [shelve|]). right. unfold found. rewrite bool_decide_eq_false_2 by done.
    split; [reflexivity|]. unfold edited, c_store. rewrite Ew. done. Unshelve. all: done.
  - eexists. do 2 (split; [shelve|]). left. eexists. split; [reflexivity|]. unfold edited, c_store. rewrite Ew. done.
    Unshelve. all: done.
  - eexists. do 2 (split; [shelve|]). right. unfold found. rewrite bool_decide_eq_false_2 by done.
    split; [reflexivity|]. unfold edited, c_store. rewrite Ew. done. Unshelve. all: done.
Qed.


(** Edits in a row; the clock is read for each. *)
Fixpoint edit_all (id : Z) (e : StoreError) (fs : list (Z -> tx_row -> tx_row)) : C unit :=
  match fs with
  | [] => mret tt
  | f :: fs => _ ← on_db_now (fun now => n ← with_tx (f now) id; found n e); edit_all id e fs
  end.
Definition at_ticks (c : Cli) (fs : list (Z -> tx_row -> tx_row)) : list (tx_row -> tx_row) :=
  imap (fun i f => f (w_clock (c_world c) (w_ticks (c_world c) + i)%nat)) fs.

Lemma at_ticks_cons c c' f fs :
  w_clock (c_world c') = w_clock (c_world c) -> w_ticks (c_world c') = S (w_ticks (c_world c)) ->
  at_ticks c (f :: fs) = f (w_clock (c_world c) (w_ticks (c_world c))) :: at_ticks c' fs.
Proof.
  intros Hc Ht. unfold at_ticks. rewrite imap_cons, Nat.add_0_r. f_equal. apply imap_ext. intros i g _.
  cbn. rewrite Hc, Ht. do 2 f_equal. lia.
Qed.

Lemma edit_all_spec id e fs c :
  is_Some (find_tx id (db (c_store c))) -> Forall (fun f => forall now r, t_id (f now r) = t_id r) fs ->
  exists k c' r, edit_all id e fs c = (r, c') /\ edited id (at_ticks c fs) k c c' /\ (k <= length fs)%nat
  /\ (r = Ok tt /\ k = length fs \/ is_ok r = false /\ (k < length fs)%nat /\ faults (c_store c) <> []).
Proof.
  intros Hs Hid. revert c Hs. induction Hid as [|f fs Hf Hid IH]; intros c Hs.
  - exists 0%nat, c, (Ok tt). by repeat split; auto.
  - cbn [edit_all]. destruct (edit_step id f e c Hs) as (c1 & Hck & Ht & [(x & Hx & Hed & Hfa)|(Hx & Hed & Hfa)]).
    + exists 0%nat, c1, (Err x). rewrite (st_bind_Err _ _ _ _ _ Hx). split; [done|]. split; [done|]. split; [lia|].
      right. cbn. split; [done|]. split; [lia|done].
    + rewrite (at_ticks_cons c c1) by done. rewrite (st_bind_Ok _ _ _ _ _ Hx). destruct Hed as (Hd & Hsv & Hfl).
      destruct (IH c1) as (k & c' & r & Hr & (Hd' & Hsv' & Hfl') & Hk & Hres).
      { rewrite Hd. destruct Hs as [r Hr]. by eapply found_edited. }
      exists (S k), c', r. split; [done|]. split; [|cbn; split; [lia|]].
      * split; [rewrite Hd', Hd; done|]. split; congruence.
      * destruct Hres as [[-> ->]|(Hr0 & Hk0 & Hf0)]; [by left|]. right. split; [done|]. split; [lia|]. auto.
Qed.
End edits.

(** ** The commands as plans *)

Section commands.
Context `{Signing} `{Encodings} `{RowIdsLaws} `{Templates} `{Argon2} `{Outside} `{KeyCrypto} `{ConfigParser} `{IoTexts}
  `{!CtlOutside} `{!DnsExternals} `{DaemonSocket} `{TomlText}
  `{Json Attestation} `{Json RegistrationAttestation} `{Json EmulatePayload}.

(** The commands that edit a row: its id, the state it ends in and a binding. *)
Inductive TxEdit := EdResolve (binding : option str) | EdSpent | EdFail.
Definition action_of (id : Z) (a : TxEdit) : TxAction :=
  match a with EdResolve b => TxResolve id b | EdSpent => TxMarkSpent id | EdFail => TxFail id end.
Definition end_state (a : TxEdit) : TxState :=
  match a with EdResolve _ => Resolved | EdSpent => Spent | EdFail => Failed end.

(** What the command plans on a row: a refusal, or edits. *)
Definition tx_plan (a : TxEdit) (r : tx_row) : result str (list (Z -> tx_row -> tx_row)) :=
  let inbound := dir_parse (t_direction r) ≟ Some Out in
  match a with
  | EdResolve b =>
      if inbound then Err #"only inbound transactions can be resolved"
      else Ok (match b with Some _ => [tx_with_binding b] | None => [] end ++ [tx_with_state Resolved])
  | EdSpent =>
      if inbound then Err #"only inbound transactions can be spent" else Ok [tx_with_state Spent]
  | EdFail => Ok [tx_with_state Failed]
  end.

Lemma row_inbound r : negb (tx_direction (row_to_tx r) ≟ MailStore.In) = (dir_parse (t_direction r) ≟ Some Out).
Proof. unfold row_to_tx. cbn [tx_direction]. by destruct (dir_parse _) as [[]|]. Qed.

Lemma edit_all_cons id e f fs (k : C unit) c :
  (_ ← edit_all id e (f :: fs); k) c
  = (_ ← on_db_now (fun now => n ← with_tx (f now) id; found n e); _ ← edit_all id e fs; k) c.
Proof. cbn [edit_all]. by rewrite st_bind_assoc. Qed.

(** The command is its plan. *)
Lemma tx_run_plan config ctx id a c c1 r :
  ctx_load config c = (Ok ctx, c) -> require_tx id c = (Ok (row_to_tx r), c1) ->
  tx_run config (action_of id a) c =
    (match tx_plan a r with
     | Err m => fail m
     | Ok fs => _ ← edit_all id (UserNotFound (show_Z id)) fs; println (moved id (end_state a))
     end) c1.
Proof.
  intros Hl Hr. unfold tx_run. rewrite (st_bind_Ok _ _ _ _ _ Hl).
  destruct a as [b| |]; cbn [action_of tx_plan end_state];
    unfold cmd_tx_resolve, cmd_tx_spent, cmd_tx_fail; rewrite (st_bind_Ok _ _ _ _ _ Hr), ?row_inbound.
  - destruct (_ ≟ Some Out); [done|]. destruct b as [b|]; cbn [app]; rewrite edit_all_cons; [|done].
    apply st_bind_ext. intros [] c2. by rewrite edit_all_cons.
  - destruct (_ ≟ Some Out); [done|]. by rewrite edit_all_cons.
  - by rewrite edit_all_cons.
Qed.

(** Reading the row: the statement fails, or the answer is what the database holds. *)
Lemma require_tx_cases id c :
  exists c1, edited id [] 0 c c1 /\ w_clock (c_world c1) = w_clock (c_world c) /\ w_ticks (c_world c1) = w_ticks (c_world c)
  /\ ((exists x, require_tx id c = (Err x, c1)) /\ faults (c_store c) <> []
      \/ (faults (c_store c) = [] -> faults (c_store c1) = [])
         /\ require_tx id c = (match find_tx id (db (c_store c)) with
                               | Some r => Ok (row_to_tx r)
                               | None => Err (CeMessage ( #"no such transaction: " ++ show_Z id))
                               end, c1)).
Proof.
  unfold require_tx, on_db, tx_get, st_map_err, on_world, on_store, query, exec, edited, c_store, mbind, st_bind.
  destruct (w_store (c_world c)) as [d sv [|[] fs0]] eqn:E; cbn [faults db saved tail].
  all: eexists; split; [shelve|]; do 2 (split; [shelve|]).
  - right. split; [shelve|]. unfold find_tx. destruct (head _); reflexivity.
  - left. split; [by eexists|done].
  - right. split; [shelve|]. unfold find_tx. destruct (head _); reflexivity.
    Unshelve. all: cbn; by rewrite ?E.
Qed.

(** C33: what the commands on one transaction do to the ledger, whatever statements
    fail. An unknown id is refused, and so is resolving or spending an outbound
    transaction, and nothing changes. Otherwise the command edits the row of this id
    and nothing else: first the binding, if one is given, then the state and with each
    the time; whatever the state was before. If a statement fails the edits before it
    stay, so a transaction can be bound and not resolved; the command succeeds if and
    only if it has made every edit, and without failures it does. *)
Theorem ledger_commands config ctx id a c r c' :
  ctx_load config c = (Ok ctx, c) ->
  ctl_run config (CtlTx (action_of id a)) c = (r, c') ->
  let plan := row ← ok_or (find_tx id (db (c_store c))) ( #"no such transaction: " ++ show_Z id); tx_plan a row in
  match plan with
  | Err m => edited id [] 0 c c' /\ is_ok r = false /\ (faults (c_store c) = [] -> r = Err (CeMessage m))
  | Ok fs => exists k, (k <= length fs)%nat /\ edited id (at_ticks c fs) k c c'
      /\ (r = Ok tt <-> k = length fs) /\ (faults (c_store c) = [] -> r = Ok tt)
  end.
Proof.
  intros Hl Hr plan. cbn [ctl_run] in Hr.
  destruct (require_tx_cases id c) as (c1 & (Hd & Hs & Hfl) & Hck & Ht & [((x & Hx) & Hfa)|(Hfa & Hx)]).
  - assert (Hrun : tx_run config (action_of id a) c = (Err x, c1)).
    { unfold tx_run. rewrite (st_bind_Ok _ _ _ _ _ Hl). destruct a; by apply st_bind_Err. }
    rewrite Hrun in Hr. injection Hr as <- <-. destruct plan as [fs|m] eqn:Ep; [|done].
    exists 0%nat. split; [lia|]. split; [done|]. split; [|done].
    assert (Hne : fs <> []).
    { unfold plan in Ep. destruct (find_tx _ _) as [row|]; cbn in Ep; [|done]. revert Ep. by destruct a as [[]| |]; cbn; repeat case_match; intros [= <-]. }
    destruct fs; [done|]. by split.
  - unfold plan. destruct (find_tx id (db (c_store c))) as [row|] eqn:Ef; cbn [ok_or].
    2: { assert (Hrun : tx_run config (action_of id a) c = (Err (CeMessage ( #"no such transaction: " ++ show_Z id)), c1)).
         { unfold tx_run. rewrite (st_bind_Ok _ _ _ _ _ Hl). destruct a; by apply st_bind_Err. }
         rewrite Hrun in Hr. by injection Hr as <- <-. }
    rewrite (tx_run_plan _ _ _ _ _ _ _ Hl Hx) in Hr. change (mbind _ (Ok row)) with (tx_plan a row).
    destruct (tx_plan a row) as [fs|m] eqn:Ep; [|by injection Hr as <- <-].
    assert (Hid : Forall (fun f => forall now r, t_id (f now r) = t_id r) fs).
    { revert Ep. destruct a as [[b|]| |]; cbn; repeat case_match; intros [= <-]; by repeat constructor. }
    destruct (edit_all_spec id (UserNotFound (show_Z id)) fs c1) as (k & c2 & r2 & Hr2 & (Hd2 & Hs2 & Hf2) & Hk & Hres).
    { by rewrite Hd; cbn; rewrite Ef. }
    { done. }
    exists k. split; [done|].
    assert (Hat : at_ticks c1 fs = at_ticks c fs).
    { unfold at_ticks. apply imap_ext. intros i f _. by rewrite Hck, Ht. }
    assert (Hed : edited id (at_ticks c fs) k c c2).
    { rewrite <- Hat. split; [rewrite Hd2, Hd; done|]. split; congruence. }
    destruct Hres as [[-> ->]|(Hr0 & Hk0 & Hf0)].
    + rewrite (st_bind_Ok _ _ _ _ _ Hr2) in Hr. injection Hr as <- <-. split; [exact Hed|]. by repeat split.
    + destruct r2 as [|x]; [done|]. rewrite (st_bind_Err _ _ _ _ _ Hr2) in Hr. injection Hr as <- <-.
      split; [done|]. split; [split; [done|intros; lia]|]. intros Hf. exfalso. auto.
Qed.
End commands.
