(* ===== verification/Capture.v ===== *)
(** * Transcripts of IMAP connections ([talk-imap/src/capture.rs])

    A connection wrapped so that every chunk read from it and written to it is
    appended to a file.  The wrapped stream is an interface with the polling
    operations of [tokio]; the file is written through [std::io::BufWriter]. *)

From S2P Require Import Template.
From S2P Require Export Files.

(** ** [BufWriter<File>]: a buffer before a file, which is written at a position *)

Record BufWriter := mkBuf { bw_path : str; bw_pos : nat; bw_buf : str }.
Definition BUF_CAPACITY : nat := Z.to_nat 8192.

(** Bytes at a position of a file; a gap before it is filled with zeros. *)
Definition overwrite (pos : nat) (b content : str) : str :=
  take pos (content ++ replicate (pos - length content) b_nul) ++ b ++ drop (pos + length b) content.
Definition put_at (path : str) (pos : nat) (b : str) (s : Files) : Files :=
  match fs s !! path with
  | Some f => set_fs (<[path := mkFile (overwrite pos b (f_bytes f)) (f_mode f)]> (fs s)) s
  | None => s
  end.

(** [File::create]. *)
Definition fs_create (path : str) : F unit := fun s =>
  let '(x, s) := next_fault s in
  match x with NoFault => (Ok tt, put path [] s) | _ => (Err IoFailed, s) end.

(** [File::write_all]: whether it worked, and how many bytes are in the file. *)
Definition file_write (path : str) (pos : nat) (b : str) (s : Files) : (bool * nat) * Files :=
  let '(x, s) := next_fault s in
  let '(good, n) :=
    match x with
    | NoFault => (true, length b)
    | Fails => (false, 0%nat)
    | StopsAfter n => (false, Nat.min n (length b))
    end in
  ((good, n), put_at path pos (take n b) s).

Abbreviation W A := (st (BufWriter * Files) IoError A).

Definition flush_buf : W unit := fun '(w, s) =>
  if bw_buf w ≟ [] then (Ok tt, (w, s))
  else
    let '((good, n), s) := file_write (bw_path w) (bw_pos w) (bw_buf w) s in
    (if good : bool then Ok tt else Err IoFailed, (mkBuf (bw_path w) (bw_pos w + n) (drop n (bw_buf w)), s)).
Definition push_buf (b : str) : W unit :=
  modify (fun '(w, s) => (mkBuf (bw_path w) (bw_pos w) (bw_buf w ++ b), s)).
Definition write_direct (b : str) : W unit := fun '(w, s) =>
  let '((good, n), s) := file_write (bw_path w) (bw_pos w) b s in
  (if good : bool then Ok tt else Err IoFailed, (mkBuf (bw_path w) (bw_pos w + n) (bw_buf w), s)).

(** [BufWriter::write_all]; a text as long as the buffer goes past it. *)
Definition buf_write_all (b : str) : W unit :=
  room ← gets (fun ws => (BUF_CAPACITY - length (bw_buf (fst ws)))%nat);
  if (length b <? room)%nat then push_buf b
  else
    _ ← (if (room <? length b)%nat then flush_buf else mret tt);
    if (BUF_CAPACITY <=? length b)%nat then write_direct b else push_buf b.

(** [write!]: the pieces of a format, up to the first that fails. *)
Fixpoint write_fmt (pieces : list str) : W unit :=
  match pieces with [] => mret tt | p :: r => _ ← buf_write_all p; write_fmt r end.

(** ** [CaptureFile] *)

(** The texts of the [time] crate for a time. *)
Class CaptureTime := { compact_utc : Z -> option str; rfc3339_utc : Z -> option str }.
Class CaptureTimeLaws `{CaptureTime} := { rfc3339_line t s : rfc3339_utc t = Some s -> b_nl ∉ s }.

Record CaptureFile := mkCapture { cf_file : BufWriter; cf_path : str; cf_finished : bool }.

(** [let _ = ...]: an error of writing is dropped. *)
Definition attempt (cs : CaptureFile * Files) (m : W unit) : CaptureFile * Files :=
  let '(c, s) := cs in
  let '(_, (w, s)) := m (cf_file c, s) in (mkCapture w (cf_path c) (cf_finished c), s).
Definition attempts (ms : list (W unit)) (cs : CaptureFile * Files) : CaptureFile * Files := foldl attempt cs ms.

Section capture.
Context `{CaptureTime}.

Definition now_compact (t : Z) : str := default #"unknown" (compact_utc t).
Definition now_rfc3339 (t : Z) : str := default #"unknown" (rfc3339_utc t).

(** [{seq:05}]. *)
Definition five_digits (seq : Z) : str :=
  let s := show_Z seq in replicate (5 - length s) "0"%char ++ s.
Definition capture_path (dir : str) (seq t : Z) : str :=
  path_join dir (#"imap-" ++ now_compact t ++ #"-" ++ five_digits seq ++ #".pcap.txt").

Definition record (direction : ascii) (b : str) : CaptureFile * Files -> CaptureFile * Files :=
  attempts [write_fmt [ [b_nl]; [direction]; #"> "; show_nat (length b); #" bytes" ++ [b_nl] ];
            buf_write_all b;
            write_fmt [ [b_nl] ];
            write_fmt [ [direction]; #"> hex: "; hex b; [b_nl] ];
            flush_buf].

Definition finish (t : Z) (cs : CaptureFile * Files) : CaptureFile * Files :=
  let '(c, s) := cs in
  if cf_finished c then (c, s)
  else attempts [write_fmt [ b_nl :: #"# ended="; now_rfc3339 t; [b_nl] ]; flush_buf]
         (mkCapture (cf_file c) (cf_path c) true, s).

(** [CaptureFile::open]; the clock is read for the name and for the header. *)
Definition write_header (peer : str) (t : Z) : CaptureFile * Files -> CaptureFile * Files := fun '(c, s) =>
  attempts [write_fmt [ #"# talkd IMAP session capture" ++ [b_nl] ];
            write_fmt [ #"# file="; from_utf8_lossy (cf_path c); [b_nl] ];
            write_fmt [ #"# peer="; peer; [b_nl] ];
            write_fmt [ #"# started="; now_rfc3339 t; [b_nl] ];
            flush_buf] (c, s).
Definition capture_open (dir : str) (seq : Z) (peer : str) (t0 t1 : Z) : F CaptureFile := fun s =>
  let path := capture_path dir seq t0 in
  match fs_create path s with
  | (Ok _, s) => let '(c, s) := write_header peer t1 (mkCapture (mkBuf path 0 []) path false, s) in (Ok c, s)
  | (Err e, s) => (Err e, s)
  end.

(** [Drop] of the [BufWriter]. *)
Definition capture_drop (c : CaptureFile) (s : Files) : Files := snd (attempt (c, s) flush_buf).

End capture.

(** ** [Captured]: a stream and its transcript *)

Inductive Poll (A : Type) := Ready (x : A) | Pending.
Arguments Ready {A} x.
Arguments Pending {A}.
(** [ReadBuf]: what is filled, and how much room there is behind it. *)
Record ReadBuf := mkReadBuf { rb_filled : str; rb_room : nat }.

(** [AsyncRead] and [AsyncWrite]. *)
Class AsyncStream (T : Type) := {
  poll_read : ReadBuf -> T -> Poll (result IoError unit) * ReadBuf * T;
  poll_write : str -> T -> Poll (result IoError nat) * T;
  poll_flush : T -> Poll (result IoError unit) * T;
  poll_shutdown : T -> Poll (result IoError unit) * T;
}.

(** The stream, its transcript, and the files and the clock of the machine. *)
Record Captured (T : Type) := mkCaptured {
  inner : T;
  capture : CaptureFile;
  c_files : Files;
  c_clock : nat -> Z;
  c_ticks : nat;
}.
Arguments mkCaptured {T}. Arguments inner {T}. Arguments capture {T}. Arguments c_files {T}.
Arguments c_clock {T}. Arguments c_ticks {T}.

Section captured.
Context `{CaptureTime} {T : Type} `{!AsyncStream T}.

Definition set_inner (i : T) (c : Captured T) : Captured T := mkCaptured i (capture c) (c_files c) (c_clock c) (c_ticks c).
Definition captured_record (direction : ascii) (b : str) (c : Captured T) : Captured T :=
  let '(cf, s) := record direction b (capture c, c_files c) in mkCaptured (inner c) cf s (c_clock c) (c_ticks c).
Definition captured_finish (c : Captured T) : Captured T :=
  let '(cf, s) := finish (c_clock c (c_ticks c)) (capture c, c_files c) in
  mkCaptured (inner c) cf s (c_clock c) (S (c_ticks c)).

#[export] Instance captured_stream : AsyncStream (Captured T) := {|
  poll_read := fun buf c =>
    let before := length (rb_filled buf) in
    let '(res, buf, i) := poll_read buf (inner c) in
    let c := set_inner i c in
    let c := match res with
             | Ready (Ok _) =>
                 let got := drop before (rb_filled buf) in
                 if got ≟ [] then c else captured_record "C" got c
             | _ => c
             end in
    (res, buf, c);
  poll_write := fun b c =>
    let '(res, i) := poll_write b (inner c) in
    let c := set_inner i c in
    match res with
    | Ready (Ok n) => (Ready (Ok n), captured_record "S" (take n b) c)
    | other => (other, c)
    end;
  poll_flush := fun c => let '(res, i) := poll_flush (inner c) in (res, set_inner i c);
  poll_shutdown := fun c =>
    let '(res, i) := poll_shutdown (inner c) in
    let c := set_inner i c in
    (res, match res with Ready _ => captured_finish c | Pending => c end);
|}.

End captured.
