(* ===== verification/Listeners.v ===== *)
(** * Listeners ([talk-imap/src/server.rs], [talk-protocol/src/server.rs])

    The accept loops of the daemon and what they do with a connection: TLS, the
    transcript, and the connection itself, which is a program on a stream. *)

From S2P Require Import Daemon ImapServer.
From S2P Require Export Capture.

(** ** A program on a stream *)

Inductive PollOp := PRead (buf : ReadBuf) | PWrite (b : str) | PFlush | PShutdown.
Inductive Answer :=
  | AnRead (r : Poll (result IoError unit)) (buf : ReadBuf)
  | AnWrite (r : Poll (result IoError nat))
  | AnDone (r : Poll (result IoError unit)).

Definition poll {T} `{!AsyncStream T} (op : PollOp) (t : T) : Answer * T :=
  match op with
  | PRead buf => let '(r, buf, t) := poll_read buf t in (AnRead r buf, t)
  | PWrite b => let '(r, t) := poll_write b t in (AnWrite r, t)
  | PFlush => let '(r, t) := poll_flush t in (AnDone r, t)
  | PShutdown => let '(r, t) := poll_shutdown t in (AnDone r, t)
  end.

(** A program: from its state the next poll, unless it has ended, and from the answer
    its next state. *)
Record Program := mkProgram { p_state : Type; p_next : p_state -> option PollOp; p_resume : p_state -> Answer -> p_state }.

(** Its first [n] polls and their answers. *)
Fixpoint run_polls {T} `{!AsyncStream T} (g : Program) (n : nat) (p : p_state g) (t : T)
    : p_state g * list (PollOp * Answer) * T :=
  match n with
  | 0%nat => (p, [], t)
  | S n =>
      match p_next g p with
      | None => (p, [], t)
      | Some op =>
          let '(a, t) := poll op t in
          let '(p, l, t) := run_polls g n (p_resume g p a) t in (p, (op, a) :: l, t)
      end
  end.

(** ** [serve_conn] of the IMAP server *)

Section serve_conn.
Context `{CaptureTime} {T : Type} `{!AsyncStream T}.

(** What a connection leaves: where its program is, its polls, the stream, and the
    files. [n] is the number of polls until [serve_connection] returns. *)
Definition serve_conn (capture_dir : option str) (g : Program) (n : nat) (p : p_state g) (stream : T)
    (peer : str) (seq : Z) (clock : nat -> Z) (k : nat) (s : Files)
    : (p_state g * list (PollOp * Answer) * T) * Files :=
  match capture_dir with
  | Some dir =>
      match capture_open dir seq peer (clock k) (clock (S k)) s with
      | (Ok c, s) =>
          let '(p, l, captured) := run_polls g n p (mkCaptured stream c s clock (S (S k))) in
          let captured := captured_finish captured in
          ((p, l, inner captured), capture_drop (capture captured) (c_files captured))
      | (Err _, s) => (run_polls g n p stream, s)
      end
  | None => (run_polls g n p stream, s)
  end.

End serve_conn.

(** ** Accept loops *)

Section accept.
Context {A T : Type}.

(** A task of an accepted connection: with TLS nothing is served when the handshake
    fails. *)
Definition handshake (tls : option (A -> result IoError T)) (plain : A -> T) (x : A) : option T :=
  match tls with Some acceptor => ok (acceptor x) | None => Some (plain x) end.

(** [ImapServer::listen]: the connections with their numbers; the first error of
    [accept] ends the loop. *)
Fixpoint imap_accept (seq : Z) (accepted : list (result IoError A)) : list (A * Z) * option IoError :=
  match accepted with
  | [] => ([], None)
  | Ok x :: l => let '(tasks, e) := imap_accept (wrap 64 (seq + 1)) l in ((x, seq) :: tasks, e)
  | Err e :: _ => ([], Some e)
  end.
Definition imap_listen (bound : result IoError unit) (capture_dir : option str) (accepted : list (result IoError A))
    : F (list (A * Z) * option IoError) :=
  _ ← lift bound;
  _ ← (match capture_dir with Some dir => fs_create_dir_all dir | None => mret tt end);
  mret (imap_accept 0 accepted).

(** [serve] and [serve_tcp] of ZSMTP: an error of [accept] is logged. *)
Fixpoint zsmtp_accept (accepted : list (result IoError A)) : list A :=
  match accepted with
  | [] => []
  | Ok x :: l => x :: zsmtp_accept l
  | Err _ :: l => zsmtp_accept l
  end.

End accept.

(** The connections of the two ZSMTP listeners, by the bytes that arrive on them. *)
Definition zsmtp_serve (accepted : list (result IoError str)) : list Arrival :=
  map ZsmtpConnection (zsmtp_accept accepted).
Definition zsmtp_serve_tcp (tls : option (str -> result IoError str)) (accepted : list (result IoError str)) : list Arrival :=
  map ZsmtpConnection (omap (handshake tls id) (zsmtp_accept accepted)).
(** The loop of [talkd/src/main.rs] over the control socket. *)
Definition control_serve (accepted : list (result IoError str)) : list Arrival :=
  map ControlConnection (zsmtp_accept accepted).

(** ** What the loops serve *)

(** Every accepted connection of ZSMTP is served, whatever accepts fail. *)
Lemma zsmtp_accept_all {A} (accepted : list (result IoError A)) : zsmtp_accept accepted = omap ok accepted.
Proof. induction accepted as [|[x|e] l IH]; cbn; [done|by rewrite IH|done]. Qed.

(** IMAP serves the connections up to the first accept that fails, and none after. *)
Lemma imap_accept_stops {A} seq (xs : list A) e l :
  fst <$> fst (imap_accept seq (map Ok xs ++ Err e :: l)) = xs
  /\ snd (imap_accept seq (map Ok xs ++ Err e :: l)) = Some e.
Proof.
  revert seq. induction xs as [|x xs IH]; intros seq; [done|]. cbn [map app imap_accept].
  destruct (IH (wrap 64 (seq + 1))) as [IH1 IH2].
  destruct (imap_accept (wrap 64 (seq + 1)) (map Ok xs ++ Err e :: l)) as [tasks o]. cbn in *. by rewrite IH1.
Qed.
