(* ===== verification/CaptureFacts.v ===== *)
(** * What capturing a connection does

    A captured connection behaves as the connection does, whatever fails in writing
    the transcript; and without failures the transcript is exactly what went over it. *)

From S2P Require Export Listeners.

(** ** What a transcript says *)

Inductive Item := Entry (direction : ascii) (b : str) | Ended (at_time : str).

Definition item_text (i : Item) : str :=
  match i with
  | Entry d b =>
      [b_nl; d] ++ #"> " ++ show_nat (length b) ++ #" bytes" ++ [b_nl] ++ b
      ++ [b_nl; d] ++ #"> hex: " ++ hex b ++ [b_nl]
  | Ended t => b_nl :: #"# ended=" ++ t ++ [b_nl]
  end.

(** Reading an item back: the length says where the bytes end. *)
Definition next_item (t : str) : option (Item * str) :=
  match strip_prefix (b_nl :: #"# ended=") t with
  | Some t => '(at_time, t) ← split_once b_nl t; Some (Ended at_time, t)
  | None =>
      match t with
      | _ :: d :: t =>
          t ← strip_prefix #"> " t;
          '(digits, t) ← split_once b_sp t;
          n ← parse_digits 0 digits;
          t ← strip_prefix ( #"bytes" ++ [b_nl]) t;
          let b := take (Z.to_nat n) t in
          t ← strip_prefix ([b_nl; d] ++ #"> hex: " ++ hex b ++ [b_nl]) (drop (Z.to_nat n) t);
          Some (Entry d b, t)
      | _ => None
      end
  end.
Fixpoint read_items (fuel : nat) (t : str) : list Item :=
  match fuel with
  | 0%nat => []
  | S fuel => match next_item t with Some (i, t) => i :: read_items fuel t | None => [] end
  end.

(** A transcript behind its header. *)
Definition read_transcript (t : str) : list Item := read_items (length t) t.

Section items.
Context `{CaptureTime}.

(** What a poll adds to the transcript, and whether it ends it. *)
Definition chunk_of (x : PollOp * Answer) : list Item :=
  match x with
  | (PRead buf, AnRead (Ready (Ok _)) buf') =>
      let got := drop (length (rb_filled buf)) (rb_filled buf') in if got ≟ [] then [] else [Entry "C" got]
  | (PWrite b, AnWrite (Ready (Ok n))) => [Entry "S" (take n b)]
  | _ => []
  end.
Definition ends (x : PollOp * Answer) : bool :=
  match x with (PShutdown, AnDone (Ready _)) => true | _ => false end.

(** The items of a run, from a clock read [k] times. *)
Definition step_items (clock : nat -> Z) (k : nat) (finished : bool) (x : PollOp * Answer) : list Item :=
  if ends x then if finished then [] else [Ended (now_rfc3339 (clock k))] else chunk_of x.
Fixpoint items_of (clock : nat -> Z) (k : nat) (finished : bool) (l : list (PollOp * Answer)) : list Item :=
  match l with
  | [] => []
  | x :: l => step_items clock k finished x ++ items_of clock (if ends x then S k else k) (finished || ends x) l
  end.
Definition items_text (l : list Item) : str := concat (map item_text l).

Definition header (path peer : str) (t : Z) : str :=
  #"# talkd IMAP session capture" ++ [b_nl] ++ #"# file=" ++ from_utf8_lossy path ++ [b_nl]
  ++ #"# peer=" ++ peer ++ [b_nl] ++ #"# started=" ++ now_rfc3339 t ++ [b_nl].

End items.

(** ** Writing without failures *)

Lemma overwrite_end y b : overwrite (length y) b y = y ++ b.
Proof.
  unfold overwrite. rewrite Nat.sub_diag. cbn. rewrite app_nil_r, firstn_all, drop_ge, app_nil_r by lia. done.
Qed.

(** The file [p] of [m0], with mode [md], holds [x] once the buffer is written. *)
Definition wrote (p : str) (m0 : gmap str File) (md : Z) (x : str) (ws : BufWriter * Files) : Prop :=
  bw_path (fst ws) = p /\ fs_faults (snd ws) = [] /\
  exists y, fs (snd ws) = <[p := mkFile y md]> m0 /\ bw_pos (fst ws) = length y /\ x = y ++ bw_buf (fst ws).

Lemma file_write_calm p m0 md y b s :
  fs_faults s = [] -> fs s = <[p := mkFile y md]> m0 ->
  exists s', file_write p (length y) b s = ((true, length b), s') /\ fs_faults s' = []
    /\ fs s' = <[p := mkFile (y ++ b) md]> m0.
Proof.
  intros Hf Hs. unfold file_write, next_fault. rewrite Hf. eexists. split; [done|].
  unfold put_at. rewrite Hs, lookup_insert_eq. cbn. rewrite firstn_all, overwrite_end, insert_insert_eq. done.
Qed.

Lemma flush_calm p m0 md x ws :
  wrote p m0 md x ws -> exists ws', flush_buf ws = (Ok tt, ws') /\ wrote p m0 md x ws' /\ bw_buf (fst ws') = [].
Proof.
  destruct ws as [[q pos buf] s]. intros (Hp & Hf & y & Hs & Hpos & ->); cbn in *. subst q pos.
  unfold flush_buf. cbn. destruct (bool_decide_reflect (buf = [])) as [->|Hb].
  - eexists. split; [done|]. split; [|done]. split; [done|]. split; [done|]. by exists y.
  - destruct (file_write_calm p m0 md y buf s Hf Hs) as (s' & -> & Hf' & Hs'). eexists. split; [done|].
    cbn. rewrite drop_all. split; [|done]. split; [done|]. split; [done|]. exists (y ++ buf).
    by rewrite length_app, app_nil_r.
Qed.

Definition appends (m : W unit) (b : str) : Prop := forall p m0 md x ws,
  wrote p m0 md x ws -> exists ws', m ws = (Ok tt, ws') /\ wrote p m0 md (x ++ b) ws'.

Lemma appends_flush : appends flush_buf [].
Proof. intros p m0 md x ws Hw. destruct (flush_calm _ _ _ _ _ Hw) as (ws' & ? & ? & _). rewrite app_nil_r. eauto. Qed.

Lemma push_calm p m0 md x b ws : wrote p m0 md x ws ->
  exists ws', push_buf b ws = (Ok tt, ws') /\ wrote p m0 md (x ++ b) ws'.
Proof.
  destruct ws as [w s]. intros (Hp & Hf & y & Hs & Hpos & ->). eexists. split; [done|].
  split; [done|]. split; [done|]. exists y. cbn. by rewrite <- app_assoc.
Qed.

Lemma direct_calm p m0 md x b ws : wrote p m0 md x ws -> bw_buf (fst ws) = [] ->
  exists ws', write_direct b ws = (Ok tt, ws') /\ wrote p m0 md (x ++ b) ws'.
Proof.
  destruct ws as [[q pos buf] s]. intros (Hp & Hf & y & Hs & Hpos & ->) Hb; cbn in *. subst q pos buf.
  unfold write_direct. cbn. destruct (file_write_calm p m0 md y b s Hf Hs) as (s' & -> & Hf' & Hs').
  eexists. split; [done|]. split; [done|]. split; [done|]. exists (y ++ b). cbn.
  by rewrite length_app, !app_nil_r.
Qed.

Lemma appends_write_all b : appends (buf_write_all b) b.
Proof.
  intros p m0 md x ws Hw. unfold buf_write_all, gets, mbind, st_bind. cbn [fst].
  set (room := (BUF_CAPACITY - length (bw_buf (fst ws)))%nat).
  destruct (Nat.ltb_spec (length b) room) as [_|Hr]; [by apply push_calm|].
  destruct (Nat.ltb_spec room (length b)) as [Hl|Hl].
  - destruct (flush_calm _ _ _ _ _ Hw) as (ws' & -> & Hw' & Hb).
    destruct (_ <=? _)%nat; [by apply direct_calm|by apply push_calm].
  - cbn. destruct (Nat.leb_spec BUF_CAPACITY (length b)) as [Hc|Hc]; [|by apply push_calm].
    apply direct_calm; [done|]. apply nil_length_inv. subst room.
    assert (0 < BUF_CAPACITY)%nat by (vm_compute; lia). lia.
Qed.

Lemma appends_fmt pieces : appends (write_fmt pieces) (concat pieces).
Proof.
  induction pieces as [|b r IH]; intros p m0 md x ws Hw; cbn [write_fmt concat].
  - eexists. split; [done|]. by rewrite app_nil_r.
  - destruct (appends_write_all b p m0 md x ws Hw) as (ws' & Hb & Hw').
    rewrite (st_bind_Ok _ _ _ _ _ Hb), app_assoc. by apply IH.
Qed.
#[export] Hint Resolve appends_flush appends_write_all appends_fmt : talk.

(** ** [CaptureFile], without failures *)

(** The transcript [p] among the files [m0] holds [x], all of it written. *)
Definition holds (p : str) (m0 : gmap str File) (md : Z) (fin : bool) (x : str) (cs : CaptureFile * Files) : Prop :=
  wrote p m0 md x (cf_file (fst cs), snd cs) /\ cf_path (fst cs) = p /\ cf_finished (fst cs) = fin
  /\ bw_buf (cf_file (fst cs)) = [].

Lemma attempts_calm p m0 md fin ms bs x c s :
  Forall2 appends ms bs -> wrote p m0 md x (cf_file c, s) -> cf_path c = p -> cf_finished c = fin ->
  holds p m0 md fin (x ++ concat bs) (attempts (ms ++ [flush_buf]) (c, s)).
Proof.
  intros Hm. revert x c s. induction Hm as [|m b ms bs Ha Hm IH]; intros x c s Hw Hp Hf; cbn [app attempts foldl concat].
  - rewrite app_nil_r. unfold attempt. destruct (flush_calm _ _ _ _ _ Hw) as ([w s'] & -> & Hw' & Hb). done.
  - destruct (Ha _ _ _ _ _ Hw) as ([w s'] & Hr & Hw'). unfold attempt at 2. rewrite Hr, app_assoc. by apply IH.
Qed.

Section calm.
Context `{CaptureTime}.

Lemma captured_calm p m0 md fin x d b cs :
  holds p m0 md fin x cs -> holds p m0 md fin (x ++ item_text (Entry d b)) (record d b cs).
Proof.
  destruct cs as [c s]. intros (Hw & Hp & Hf & _). cbn in Hp, Hf.
  assert (Hx : item_text (Entry d b)
    = concat [concat [ [b_nl]; [d]; #"> "; show_nat (length b); #" bytes" ++ [b_nl] ]; b; concat [ [b_nl] ];
              concat [ [d]; #"> hex: "; hex b; [b_nl] ] ]).
  { cbn [item_text concat]. rewrite !app_nil_r. cbn [app]. by rewrite <- !app_assoc. }
  rewrite Hx. refine (attempts_calm _ _ _ _ [_; _; _; _] _ _ _ _ _ Hw Hp Hf). repeat constructor; auto with talk.
Qed.

Lemma finish_calm p m0 md fin x t cs :
  holds p m0 md fin x cs ->
  holds p m0 md true (x ++ if fin then [] else item_text (Ended (now_rfc3339 t))) (finish t cs).
Proof.
  destruct cs as [c s]. intros (Hw & Hp & Hf & Hb). cbn in Hp, Hf, Hb. unfold finish. rewrite Hf. destruct fin.
  - rewrite app_nil_r. by split.
  - assert (Hx : item_text (Ended (now_rfc3339 t))
      = concat [concat [ b_nl :: #"# ended="; now_rfc3339 t; [b_nl] ] ]).
    { cbn [item_text concat]. by rewrite !app_nil_r. }
    rewrite Hx. refine (attempts_calm p m0 md true [_] _ x (mkCapture (cf_file c) (cf_path c) true) s _ Hw Hp eq_refl).
    repeat constructor; auto with talk.
Qed.

Definition mode_at (p : str) (s : Files) : Z := default (fs_default_mode s) (f_mode <$> fs s !! p).

Lemma open_calm dir seq peer t0 t1 s :
  fs_faults s = [] ->
  let p := capture_path dir seq t0 in
  exists c s', capture_open dir seq peer t0 t1 s = (Ok c, s') /\ holds p (fs s) (mode_at p s) false (header p peer t1) (c, s').
Proof.
  intros Hf p. unfold capture_open, fs_create, next_fault. rewrite Hf. fold p.
  set (c := mkCapture (mkBuf p 0 []) p false). set (s1 := put p [] s).
  assert (Hw : wrote p (fs s) (mode_at p s) [] (cf_file c, s1)) by (split; [done|]; split; [done|]; by exists []).
  assert (Hh : header p peer t1 = [] ++ concat [concat [ #"# talkd IMAP session capture" ++ [b_nl] ];
     concat [ #"# file="; from_utf8_lossy p; [b_nl] ]; concat [ #"# peer="; peer; [b_nl] ];
     concat [ #"# started="; now_rfc3339 t1; [b_nl] ] ]).
  { cbn [concat]. unfold header. rewrite !app_nil_r. cbn [app]. by rewrite <- !app_assoc. }
  assert (Hr : holds p (fs s) (mode_at p s) false (header p peer t1) (write_header peer t1 (c, s1))).
  { rewrite Hh. refine (attempts_calm _ _ _ _ [_; _; _; _] _ _ _ _ _ Hw eq_refl eq_refl).
    repeat constructor; auto with talk. }
  destruct (write_header peer t1 (c, s1)) as [c' s']. eauto.
Qed.

(** ** With failures: only the transcript's file is touched *)

Definition stays (p : str) (m : W unit) : Prop := forall ws, bw_path (fst ws) = p ->
  bw_path (fst (snd (m ws))) = p /\ delete p (fs (snd (snd (m ws)))) = delete p (fs (snd ws)).

Lemma file_write_stays p pos b s : delete p (fs (snd (file_write p pos b s))) = delete p (fs s).
Proof.
  unfold file_write. destruct (next_fault s) as [x s1] eqn:En.
  assert (Hs : fs s1 = fs s) by (revert En; unfold next_fault; destruct (fs_faults s); by intros [= <- <-]).
  destruct (match x with NoFault => _ | Fails => _ | StopsAfter _ => _ end) as [good n]. cbn. unfold put_at.
  rewrite Hs. destruct (fs s !! p); cbn; [apply delete_insert_eq|by rewrite Hs].
Qed.
Lemma stays_flush p : stays p flush_buf.
Proof.
  intros [w s] Hp. cbn in Hp. unfold flush_buf. destruct (_ ≟ _); [done|].
  pose proof (file_write_stays p (bw_pos w) (bw_buf w) s) as Hs. rewrite Hp. by destruct (file_write _ _ _ _) as [[??]?].
Qed.
Lemma stays_direct p b : stays p (write_direct b).
Proof.
  intros [w s] Hp. cbn in Hp. unfold write_direct.
  pose proof (file_write_stays p (bw_pos w) b s) as Hs. rewrite Hp. by destruct (file_write _ _ _ _) as [[??]?].
Qed.
Lemma stays_push p b : stays p (push_buf b).
Proof. by intros [w s]. Qed.
Lemma stays_bind {A} p (m : W unit) (f : unit -> W A) ws :
  stays p m -> bw_path (fst ws) = p ->
  (forall ws', bw_path (fst ws') = p ->
     bw_path (fst (snd (f tt ws'))) = p /\ delete p (fs (snd (snd (f tt ws')))) = delete p (fs (snd ws'))) ->
  bw_path (fst (snd ((m ≫= f) ws))) = p /\ delete p (fs (snd (snd ((m ≫= f) ws)))) = delete p (fs (snd ws)).
Proof.
  intros Hm Hp Hf. destruct (Hm ws Hp) as [Hp' Hd]. unfold mbind, st_bind.
  destruct (m ws) as [[[]|e] ws']; cbn in *; [|done]. destruct (Hf ws' Hp') as [? ->]. done.
Qed.
Lemma stays_write_all p b : stays p (buf_write_all b).
Proof.
  intros ws Hp. unfold buf_write_all, gets. unfold mbind at 1 3. unfold st_bind at 1 3.
  destruct (_ <? _)%nat; [by apply stays_push|]. apply stays_bind; [|done|].
  - destruct (_ <? _)%nat; [apply stays_flush|by intros ?].
  - intros ws' Hp'. destruct (_ <=? _)%nat; [by apply stays_direct|by apply stays_push].
Qed.
Lemma stays_fmt p pieces : stays p (write_fmt pieces).
Proof.
  induction pieces as [|b r IH]; intros ws Hp; [done|]. cbn [write_fmt].
  apply stays_bind; [apply stays_write_all|done|]. intros ws' Hp'. by apply IH.
Qed.

Definition apart (p : str) (cs cs' : CaptureFile * Files) : Prop :=
  bw_path (cf_file (fst cs')) = p /\ delete p (fs (snd cs')) = delete p (fs (snd cs)).

Lemma attempts_stays p ms cs :
  Forall (stays p) ms -> bw_path (cf_file (fst cs)) = p -> apart p cs (attempts ms cs).
Proof.
  intros Hm. revert cs. induction Hm as [|m ms Hs Hm IH]; intros [c s] Hp; [done|]. cbn [attempts foldl].
  destruct (Hs (cf_file c, s) Hp) as [Hp' Hd]. unfold attempt at 2.
  destruct (m (cf_file c, s)) as [r [w s']]. cbn in Hp', Hd. destruct (IH (mkCapture w (cf_path c) (cf_finished c), s') Hp') as [? Hd'].
  split; [done|]. unfold attempts in Hd'. rewrite Hd'. exact Hd.
Qed.
Lemma record_stays p d b cs : bw_path (cf_file (fst cs)) = p -> apart p cs (record d b cs).
Proof. apply attempts_stays. repeat first [apply Forall_nil_2 | apply Forall_cons_2]; auto using stays_fmt, stays_write_all, stays_flush. Qed.
Lemma finish_stays p t cs : bw_path (cf_file (fst cs)) = p -> apart p cs (finish t cs).
Proof.
  destruct cs as [c s]. intros Hp. unfold finish. destruct (cf_finished c); [done|].
  apply (attempts_stays p [_; _] (mkCapture (cf_file c) (cf_path c) true, s)); [|done].
  repeat first [apply Forall_nil_2 | apply Forall_cons_2]; auto using stays_fmt, stays_flush.
Qed.

End calm.

(** ** Reading a transcript *)

Definition item_ok (i : Item) : Prop := match i with Ended t => b_nl ∉ t | Entry _ _ => True end.

Lemma strip_prefix_None p t : (forall r, t <> p ++ r) -> strip_prefix p t = None.
Proof. intros Ht. destruct (strip_prefix p t) as [r|] eqn:E; [|done]. apply strip_prefix_Some in E. by destruct (Ht r). Qed.
Lemma show_nat_no_sp n : b_sp ∉ show_nat n.
Proof.
  intros Hc. by apply (forallb_all _ _ (show_N_digits (N.of_nat n))) in Hc.
Qed.

Lemma next_item_text i rest : item_ok i -> next_item (item_text i ++ rest) = Some (i, rest).
Proof.
  intros Hi. unfold next_item. destruct i as [d b|t]; cbn [item_text].
  - rewrite <- !app_assoc. rewrite strip_prefix_None by (intros r Hr; unfold lit in Hr; cbn in Hr; congruence).
    cbn [app]. rewrite strip_prefix_app. cbn [mbind option_bind].
    change ( #" bytes" ++ b_nl :: ?r) with (b_sp :: ( #"bytes" ++ [b_nl]) ++ r).
    rewrite split_once_app by apply show_nat_no_sp. cbn [mbind option_bind].
    unfold show_nat. rewrite parse_digits_show. cbn [mbind option_bind].
    rewrite strip_prefix_app. cbn [mbind option_bind].
    replace (Z.to_nat (Z.of_N (N.of_nat (length b)))) with (length b) by lia.
    rewrite take_app_length, drop_app_length.
    replace (b_nl :: d :: #"> hex: " ++ hex b ++ b_nl :: rest)
      with (([b_nl; d] ++ #"> hex: " ++ hex b ++ [b_nl]) ++ rest) by (cbn [app]; by rewrite <- !app_assoc).
    by rewrite strip_prefix_app.
  - replace (_ ++ rest) with ((b_nl :: #"# ended=") ++ t ++ b_nl :: rest)
      by (cbn [app]; by rewrite <- !app_assoc).
    rewrite strip_prefix_app. cbn [mbind option_bind]. by rewrite split_once_app.
Qed.

Lemma read_items_text l fuel : Forall item_ok l -> (length l <= fuel)%nat -> read_items fuel (items_text l) = l.
Proof.
  intros Hl. revert fuel. induction Hl as [|i l Hi Hl IH]; intros [|fuel] Hf; cbn in Hf; try done; try lia.
  change (items_text (i :: l)) with (item_text i ++ items_text l). cbn [read_items].
  rewrite next_item_text by done. by rewrite IH by lia.
Qed.
Lemma items_text_length l : (length l <= length (items_text l))%nat.
Proof.
  induction l as [|i l IH]; [done|]. change (items_text (i :: l)) with (item_text i ++ items_text l).
  rewrite length_app. cbn [length]. enough (1 <= length (item_text i))%nat by lia. destruct i; cbn; lia.
Qed.
Lemma read_transcript_text l : Forall item_ok l -> read_transcript (items_text l) = l.
Proof. intros Hl. apply read_items_text; [done|apply items_text_length]. Qed.

Lemma now_rfc3339_line `{CaptureTimeLaws} t : b_nl ∉ now_rfc3339 t.
Proof.
  unfold now_rfc3339. destruct (rfc3339_utc t) as [s|] eqn:E; [by apply (rfc3339_line t)|]. by apply not_in_lit.
Qed.
Lemma items_of_ok `{CaptureTimeLaws} clock k fin l : Forall item_ok (items_of clock k fin l).
Proof.
  revert k fin. induction l as [|x l IH]; intros k fin; cbn [items_of]; [done|]. apply Forall_app. split; [|apply IH].
  unfold step_items. destruct (ends x); [destruct fin; [done|]; repeat constructor; apply now_rfc3339_line|].
  unfold chunk_of. repeat (case_match; try done). all: repeat constructor.
Qed.

(** ** The captured stream *)

Section simulation.
Context `{CaptureTime} {T : Type} `{!AsyncStream T}.

Lemma captured_record_eq d b (c : Captured T) :
  captured_record d b c = mkCaptured (inner c) (fst (record d b (capture c, c_files c)))
    (snd (record d b (capture c, c_files c))) (c_clock c) (c_ticks c).
Proof. unfold captured_record. by destruct (record _ _ _). Qed.
Lemma captured_finish_eq (c : Captured T) :
  captured_finish c = mkCaptured (inner c) (fst (finish (c_clock c (c_ticks c)) (capture c, c_files c)))
    (snd (finish (c_clock c (c_ticks c)) (capture c, c_files c))) (c_clock c) (S (c_ticks c)).
Proof. unfold captured_finish. by destruct (finish _ _). Qed.

(** What a poll of the captured stream does beside the poll of the stream itself. *)
Definition noted (x : PollOp * Answer) (c : Captured T) : Captured T :=
  if ends x then captured_finish c
  else match chunk_of x with [Entry d b] => captured_record d b c | _ => c end.

Lemma poll_captured op (c : Captured T) :
  poll op c = (fst (poll op (inner c)), noted (op, fst (poll op (inner c))) (set_inner (snd (poll op (inner c))) c)).
Proof.
  destruct op as [buf|b| |]; cbn [poll captured_stream poll_read poll_write poll_flush poll_shutdown].
  - destruct (poll_read buf (inner c)) as [[[[[]|e]|] buf'] i]; cbn; try done.
    unfold noted, chunk_of, ends. by destruct (_ ≟ []).
  - by destruct (poll_write b (inner c)) as [[[n|e]|] i].
  - by destruct (poll_flush (inner c)) as [[r|] i].
  - by destruct (poll_shutdown (inner c)) as [[r|] i].
Qed.

Lemma noted_keeps x (c : Captured T) :
  inner (noted x c) = inner c /\ c_clock (noted x c) = c_clock c
  /\ c_ticks (noted x c) = (if ends x then S (c_ticks c) else c_ticks c).
Proof.
  unfold noted. destruct (ends x); [by rewrite captured_finish_eq|].
  destruct (chunk_of x) as [|[] []]; try done. by rewrite captured_record_eq.
Qed.

Lemma noted_stays p x (c : Captured T) :
  bw_path (cf_file (capture c)) = p ->
  bw_path (cf_file (capture (noted x c))) = p /\ delete p (fs (c_files (noted x c))) = delete p (fs (c_files c)).
Proof.
  intros Hp. unfold noted. destruct (ends x).
  - rewrite captured_finish_eq. by apply (finish_stays p _ (capture c, c_files c)).
  - destruct (chunk_of x) as [|[] []]; try done. rewrite captured_record_eq.
    by apply (record_stays p _ _ (capture c, c_files c)).
Qed.

Lemma noted_calm p m0 md fin t x (c : Captured T) :
  holds p m0 md fin t (capture c, c_files c) ->
  holds p m0 md (fin || ends x) (t ++ items_text (step_items (c_clock c) (c_ticks c) fin x))
    (capture (noted x c), c_files (noted x c)).
Proof.
  intros Hh. unfold noted, step_items. destruct (ends x) eqn:Ex.
  - rewrite captured_finish_eq, orb_true_r. cbn [capture c_files]. rewrite <- surjective_pairing.
    pose proof (finish_calm p m0 md fin t (c_clock c (c_ticks c)) _ Hh) as Hf. destruct fin; [exact Hf|].
    unfold items_text. cbn [map concat]. by rewrite app_nil_r.
  - rewrite orb_false_r. assert (Hc : chunk_of x = [] \/ exists d b, chunk_of x = [Entry d b]).
    { unfold chunk_of. repeat (case_match; try (by left)). all: right; eauto. }
    destruct Hc as [->|(d & b & ->)]; [cbn; by rewrite app_nil_r|].
    rewrite captured_record_eq. cbn [capture c_files]. rewrite <- surjective_pairing.
    unfold items_text. cbn [map concat]. rewrite app_nil_r. by apply captured_calm.
Qed.

End simulation.

(** ** A connection with and without its transcript *)

Section connection.
Context `{CaptureTimeLaws} {T : Type} `{!AsyncStream T}.

Lemma run_captured g n q (c : Captured T) :
  let '(q1, l1, i) := run_polls g n q (inner c) in
  let '(q2, l2, c') := run_polls g n q c in
  q2 = q1 /\ l2 = l1 /\ inner c' = i /\ c_clock c' = c_clock c
  /\ (forall p, bw_path (cf_file (capture c)) = p ->
        bw_path (cf_file (capture c')) = p /\ delete p (fs (c_files c')) = delete p (fs (c_files c)))
  /\ (existsb ends l1 = false -> c_ticks c' = c_ticks c)
  /\ (forall p m0 md fin t, holds p m0 md fin t (capture c, c_files c) ->
        holds p m0 md (fin || existsb ends l1)
          (t ++ items_text (items_of (c_clock c) (c_ticks c) fin l1)) (capture c', c_files c')).
Proof.
  revert q c. induction n as [|n IH]; intros q c; cbn [run_polls].
  { do 4 (split; [done|]). split; [by intros p|]. split; [done|]. intros p m0 md fin t Hh. cbn. by rewrite app_nil_r, orb_false_r. }
  destruct (p_next g q) as [op|].
  2:{ do 4 (split; [done|]). split; [by intros p|]. split; [done|]. intros p m0 md fin t Hh. cbn. by rewrite app_nil_r, orb_false_r. }
  rewrite poll_captured. destruct (poll op (inner c)) as [a i]. cbn [fst snd].
  set (x := (op, a)). set (c1 := set_inner i c).
  destruct (noted_keeps x c1) as (Hi & Hk & Ht). specialize (IH (p_resume g q a) (noted x c1)).
  rewrite Hi in IH. change (inner c1) with i in IH.
  destruct (run_polls g n (p_resume g q a) i) as [[q1 l1] i1].
  destruct (run_polls g n (p_resume g q a) (noted x c1)) as [[q2 l2] c'].
  destruct IH as (-> & -> & ? & Hc & Hst & Hti & Hca). split; [done|]. split; [done|]. split; [done|].
  split; [by rewrite Hc, Hk|]. split; [|split].
  - intros p Hp. destruct (noted_stays p x c1 Hp) as [Hp1 Hd]. destruct (Hst p Hp1) as [? Hd']. split; [done|].
    rewrite Hd', Hd. done.
  - cbn [existsb]. intros [Hx Hl]%orb_false_iff. rewrite Hti by done. by rewrite Ht, Hx.
  - intros p m0 md fin t Hh. pose proof (Hca _ _ _ _ _ (noted_calm p m0 md fin t x c1 Hh)) as Hf.
    cbn [items_of existsb]. rewrite Hk, Ht in Hf. rewrite <- app_assoc in Hf. rewrite orb_assoc.
    unfold items_text in *. rewrite map_app, concat_app. exact Hf.
Qed.

Lemma open_stays dir seq peer t0 t1 s :
  let p := capture_path dir seq t0 in
  let '(r, s') := capture_open dir seq peer t0 t1 s in
  delete p (fs s') = delete p (fs s) /\ (forall c, r = Ok c -> bw_path (cf_file c) = p).
Proof.
  cbn zeta. set (p := capture_path dir seq t0). unfold capture_open, fs_create. fold p.
  destruct (next_fault s) as [x s1] eqn:En.
  assert (Hs : fs s1 = fs s) by (revert En; unfold next_fault; destruct (fs_faults s); by intros [= <- <-]).
  destruct x; [|by rewrite Hs..].
  set (c := mkCapture (mkBuf p 0 []) p false).
  assert (Ha : apart p (c, put p [] s1) (write_header peer t1 (c, put p [] s1))).
  { apply attempts_stays; [|done]. repeat first [apply Forall_nil_2 | apply Forall_cons_2]; auto using stays_fmt, stays_flush. }
  destruct (write_header peer t1 (c, put p [] s1)) as [c' s2]. destruct Ha as [Hp Hd]. cbn in Hp, Hd.
  split; [|by intros ? [= <-]]. rewrite Hd. rewrite delete_insert_eq. by rewrite Hs.
Qed.

(** What the transcript of a run says behind its header. *)
Definition transcript_of (clock : nat -> Z) (k : nat) (l : list (PollOp * Answer)) : list Item :=
  items_of clock k false l ++ (if existsb ends l then [] else [Ended (now_rfc3339 (clock k))]).

(** C38: transcripts. Whatever fails in creating and writing the transcript, a
    connection that is captured polls its stream, gets the answers and leaves the
    stream as the connection that is not captured does, and no file is touched but
    the transcript. When nothing fails the transcript is, behind its header, exactly
    the chunks that were read and written, in order, with the time of the end, and it
    can be read back from the file; an earlier file of its name is lost. *)
Theorem capture_faithful dir g n q (stream : T) peer seq clock k s :
  let plain := run_polls g n q stream in
  let '(outcome, s') := serve_conn (Some dir) g n q stream peer seq clock k s in
  let path := capture_path dir seq (clock k) in
  outcome = plain
  /\ delete path (fs s') = delete path (fs s)
  /\ (fs_faults s = [] -> exists text,
       f_bytes <$> fs s' !! path = Some (header path peer (clock (S k)) ++ text)
       /\ read_transcript text = transcript_of clock (S (S k)) (snd (fst plain))).
Proof.
  cbn zeta. unfold serve_conn. set (p := capture_path dir seq (clock k)).
  pose proof (open_stays dir seq peer (clock k) (clock (S k)) s) as Hos. cbn zeta in Hos. fold p in Hos.
  pose proof (open_calm dir seq peer (clock k) (clock (S k)) s) as Hoc. cbn zeta in Hoc. fold p in Hoc.
  destruct (capture_open dir seq peer (clock k) (clock (S k)) s) as [[c|e] s1]; destruct Hos as [Hd Hp].
  2:{ split; [done|]. split; [done|]. intros Hf. by destruct (Hoc Hf) as (? & ? & ? & _). }
  pose proof (run_captured g n q (mkCaptured stream c s1 clock (S (S k)))) as Hr. cbn [inner] in Hr.
  destruct (run_polls g n q stream) as [[q1 l1] i].
  destruct (run_polls g n q (mkCaptured stream c s1 clock (S (S k)))) as [[q2 l2] c'].
  destruct Hr as (-> & -> & <- & Hk & Hst & Hti & Hca). cbn [c_clock c_ticks capture c_files fst snd] in *.
  rewrite captured_finish_eq. cbn [inner capture c_files]. unfold capture_drop. rewrite <- surjective_pairing.
  destruct (Hst p (Hp c eq_refl)) as [Hp' Hd'].
  pose proof (finish_stays p (c_clock c' (c_ticks c')) (capture c', c_files c') Hp') as [Hp2 Hd2].
  assert (Hfin : forall md t, holds p (fs s) md (existsb ends l1) t (capture c', c_files c') -> _)
    by (intros md t; exact (finish_calm p (fs s) md _ t (c_clock c' (c_ticks c')) (capture c', c_files c'))).
  revert Hp2 Hd2 Hfin. generalize (finish (c_clock c' (c_ticks c')) (capture c', c_files c')). intros [cf sf] Hp2 Hd2 Hfin.
  cbn in Hp2, Hd2. split; [done|]. split.
  - destruct (attempts_stays p [flush_buf] (cf, sf)) as [_ Hd3]; [by repeat constructor; apply stays_flush|done|].
    cbn [attempts foldl snd] in Hd3. cbn [fst snd]. by rewrite Hd3, Hd2, Hd', Hd.
  - intros Hf. destruct (Hoc Hf) as (c0 & s0 & [= <- <-] & Hh). apply Hca, Hfin in Hh as ((_ & _ & y & Hs & _ & Hx) & _ & _ & Hb).
    exists (items_text (transcript_of clock (S (S k)) l1)). split.
    2:{ apply read_transcript_text. unfold transcript_of. apply Forall_app. split; [apply items_of_ok|].
        destruct (existsb ends l1); [done|]. repeat constructor. apply now_rfc3339_line. }
    cbn in Hs, Hx, Hb. cbn [fst snd]. unfold attempt, flush_buf. rewrite Hb. cbn. rewrite Hs, lookup_insert_eq. cbn.
    rewrite Hb, app_nil_r in Hx. rewrite <- Hx. f_equal. rewrite <- app_assoc. f_equal.
    unfold transcript_of, items_text. rewrite map_app, concat_app. f_equal.
    destruct (existsb ends l1) eqn:Ee; [done|]. rewrite Hti by done. rewrite Hk. cbn [map concat]. by rewrite app_nil_r.
Qed.

End connection.

(** ** A small captured connection *)

Module ToyCapture.

(** A stream that hands out its chunks one by one and takes at most four bytes. *)
#[export] Instance chunk_stream : AsyncStream (list str * str) := {|
  poll_read := fun buf '(l, out) =>
    match l with
    | [] => (Pending, buf, (l, out))
    | x :: r => (Ready (Ok tt), mkReadBuf (rb_filled buf ++ x) (rb_room buf), (r, out))
    end;
  poll_write := fun b '(l, out) => (Ready (Ok (length (take 4 b))), (l, out ++ take 4 b));
  poll_flush := fun t => (Ready (Ok tt), t);
  poll_shutdown := fun t => (Ready (Ok tt), t);
|}.
(** The program that makes the listed polls. *)
Definition script : Program :=
  mkProgram (list PollOp) (fun l => head l) (fun l _ => tail l).
#[export] Instance capture_time : CaptureTime := {|
  compact_utc := fun t => Some (show_Z t); rfc3339_utc := fun t => Some (show_Z t) |}.
#[export] Instance capture_time_laws : CaptureTimeLaws.
Proof. constructor. intros t s [= <-]. by apply show_Z_not_in. Qed.

Definition polls : list PollOp :=
  [PRead (mkReadBuf [] 9); PWrite #"S: hello"; PRead (mkReadBuf #"C:" 9); PRead (mkReadBuf [] 9); PFlush].
Definition disk : Files := mkFiles {[ #"other" := mkFile #"x" 420]} [] 420.
Definition captured_run :=
  serve_conn (Some #"/log") script 9 polls ([ #"a1 NOOP"; #"b2"], []) #"peer" 3 (fun n => 1000 + Z.of_nat n)%Z 0 disk.

(** The transcript of a run on disk is the traffic, and the run is the plain one. *)
Lemma capture_faithful_witness :
  fst captured_run = run_polls script 9 polls ([ #"a1 NOOP"; #"b2"], [])
  /\ exists text, f_bytes <$> fs (snd captured_run) !! #"/log/imap-1000-00003.pcap.txt"
       = Some (header #"/log/imap-1000-00003.pcap.txt" #"peer" 1001 ++ text)
     /\ read_transcript text = [Entry "C" #"a1 NOOP"; Entry "S" #"S: h"; Entry "C" #"b2"; Ended #"1002"].
Proof.
  pose proof (capture_faithful #"/log" script 9 polls ([ #"a1 NOOP"; #"b2"], []) #"peer" 3
    (fun n => 1000 + Z.of_nat n)%Z 0 disk) as Hx.
  unfold captured_run. cbn zeta in Hx. destruct (serve_conn _ _ _ _ _ _ _ _ _ _) as [outcome s'].
  destruct Hx as (Ho & _ & Ht). destruct (Ht eq_refl) as (text & Hb & Hr).
  split; [exact Ho|]. exists text. split; [exact Hb|]. exact Hr.
Defined.

End ToyCapture.
