(* ===== verification/Tls.v ===== *)
(** * TLS certificates ([talk-imap/src/tls.rs])

    PEM parsing and [rustls] are an interface. *)

From S2P Require Export Files.

Class TlsParser := {
  Cert : Type;
  PrivateKey : Type;
  ServerConfig : Type;
  (** [rustls_pemfile::certs] collected, and [rustls_pemfile::private_key] *)
  pem_certs : str -> option (list Cert);
  pem_private_key : str -> option (option PrivateKey);
  (** [with_no_client_auth().with_single_cert(..)] *)
  single_cert : list Cert -> PrivateKey -> option ServerConfig;
}.

Inductive TlsError :=
  | TlsIo (path : str) (source : IoError)
  | NoCertificates (path : str)
  | NoPrivateKey (path : str)
  | InvalidPrivateKey (path : str).

Section tls.
Context `{TlsParser}.

Definition load_server_config (cert_path key_path : str) : st Files TlsError ServerConfig :=
  raw ← st_map_err (TlsIo cert_path) (fs_read cert_path);
  certs ← lift (ok_or (pem_certs raw) (TlsIo cert_path IoInvalidData));
  match certs with
  | [] => raise (NoCertificates cert_path)
  | _ =>
      raw ← st_map_err (TlsIo key_path) (fs_read key_path);
      key ← lift (ok_or (pem_private_key raw) (TlsIo key_path IoInvalidData));
      key ← lift (ok_or key (NoPrivateKey key_path));
      lift (ok_or (single_cert certs key) (InvalidPrivateKey key_path))
  end.

End tls.
