(* ===== verification/Talkd.v ===== *)
(** * The daemon's start ([talkd/src/main.rs])

    From a configuration to the parts of the running daemon: the sockets, the domain
    key, the store, the delivery sink, the control service and the IMAP servers. *)

From S2P Require Export Daemon ImapServer LedgerFacts Sockets Tls.

(** The world, and the files and sockets of the machine. *)
Record Machine := mkMachine { m_world : World; m_local : Local }.
Definition on_local {E A} (m : st Local E A) : st Machine E A := fun s =>
  let '(r, x) := m (m_local s) in (r, mkMachine (m_world s) x).
Definition on_machine_world {E A} (m : st World E A) : st Machine E A := fun s =>
  let '(r, w) := m (m_world s) in (r, mkMachine w (m_local s)).
Definition on_machine_files {A} (m : F A) : st Machine IoError A := on_local (Sockets.on_files m).

Class TalkdOutside := {
  (** [SocketListener::to_tokio], [TcpListener::bind] *)
  to_tokio : SocketListener -> result IoError unit;
  bind_tcp : str -> result IoError unit;
}.

Inductive StartError :=
  | StSocket (e : SocketError)
  | StIo (e : IoError)
  | StStore (e : StoreError).

Section start.
Context `{Signing} `{Encodings} `{RowIds} `{Templates} `{Argon2} `{Outside} `{KeyCrypto} `{ConfigParser} `{IoTexts}
  `{!CtlOutside} `{!DnsExternals} `{TlsParser} `{TalkdOutside}
  `{Json Attestation} `{Json RegistrationAttestation} `{Json EmulatePayload}.

(** ** The domain key ([talkd/src/sink.rs]) *)

Definition load_or_create_domain_key (data_dir : str) : st Machine IoError SigningKey :=
  let path := path_join data_dir #"domainkey" in
  try_with (on_machine_files (fs_read path))
    (fun raw => if length raw ≟ 32%nat then mret (signing_key_of raw) else raise IoInvalidData)
    (fun _ =>
       secret ← on_machine_world (draw 32);
       _ ← on_machine_files (fs_create_dir_all data_dir);
       _ ← on_machine_files (fs_write path secret);
       mret (signing_key_of secret)).

(** ** The parts of the daemon *)

Record Talkd := mkTalkd {
  td_domain : str;
  td_key : SigningKey;
  td_sink : StoreDeliverySink;
  td_service : SecureMailboxService;
  td_imap : ImapServer;
  (** the address of the IMAP server, and where the IMAP servers keep their transcripts *)
  td_imap_listen : str;
  td_capture_dir : option str;
  (** [td_tls] is shared by the IMAP server and ZSMTP over TCP *)
  td_tls : option ServerConfig;
  (** the plaintext IMAP server and its address *)
  td_plain : option (ImapServer * str);
  td_secure_mailbox : SocketListener;
  td_zsmtp : SocketListener;
}.

Definition imap_auth (m : ConfigAuthMode) : AuthMode :=
  match m with CfgDatabase => Database | CfgLocalAuth => LocalAuth end.
Definition send_override (c : Config) : option str :=
  let e := n_send_endpoint (network c) in if e ≟ [] then None else Some e.

(** [SecureMailboxService::new], [with_sink], [with_template]. *)
Definition service_new (sender_domain : str) (send_endpoint : option str) (domain_key : SigningKey) : SecureMailboxService :=
  mkService sender_domain send_endpoint (doh_resolving_key DOH_ENDPOINT) (doh_resolve_endpoint DOH_ENDPOINT)
    domain_key sink_new None [].
Definition service_with_sink (v : SecureMailboxService) (k : StoreDeliverySink) : SecureMailboxService :=
  mkService (sv_sender_domain v) (sv_send_endpoint v) (sv_resolver v) (sv_endpoint_resolver v) (sv_domain_key v) k
    (sv_template_path v) (sv_data_dir v).
Definition service_with_template (v : SecureMailboxService) (path : option str) (dir : str) : SecureMailboxService :=
  mkService (sv_sender_domain v) (sv_send_endpoint v) (sv_resolver v) (sv_endpoint_resolver v) (sv_domain_key v)
    (sv_sink v) path dir.

Definition imap_of (c : Config) : ImapServer :=
  with_auth_mode (with_domain (server_new #"talkd") (g_domain (general c))) (imap_auth (au_mode (auth c))).
Definition sink_of (c : Config) : StoreDeliverySink :=
  with_template (with_events sink_new) (mc_template_path (mailbox c)) (g_data_dir (general c)).
Definition service_of (c : Config) (key : SigningKey) : SecureMailboxService :=
  service_with_template
    (service_with_sink (service_new (g_domain (general c)) (send_override c) key) (sink_of c))
    (mc_template_path (mailbox c)) (g_data_dir (general c)).

(** [UNSAFE_NO_TLS]: another server, with a channel of its own. *)
Definition plain_imap (c : Config) : option (ImapServer * str) :=
  match env_var #"UNSAFE_NO_TLS" with
  | None => None
  | Some _ =>
      let port := default 143%Z (p ← env_var #"UNSAFE_IMAP_PORT"; parse_u16 p) in
      Some (with_domain (with_auth_mode (server_new #"talkd") (imap_auth (au_mode (auth c)))) (g_domain (general c)),
            #"127.0.0.1:" ++ show_Z port)
  end.

(** Certificate and key, when both files are there; an error leaves TLS off. *)
Definition tls_of (c : Config) : st Machine StartError (option ServerConfig) :=
  cert ← on_local (path_exists (tls_cert (tls c)));
  key ← (if cert : bool then on_local (path_exists (tls_key (tls c))) else mret false);
  if key : bool then
    try_with (on_local (Sockets.on_files (load_server_config (tls_cert (tls c)) (tls_key (tls c)))))
      (fun x => mret (Some x)) (fun _ => mret None)
  else mret None.

(** [?] while a socket listener is held: on an error it is dropped. *)
Definition holding {A} (l : SocketListener) (m : st Machine StartError A) : st Machine StartError A := fun s =>
  let '(r, s) := m s in
  match r with Ok x => (Ok x, s) | Err e => (Err e, mkMachine (m_world s) (Sockets.drop l (m_local s))) end.

(** [run], up to the loops, with [k1] and [k2] as the listeners of the two sockets. *)
Definition talkd_run (k1 k2 : nat) (capture_dir : option str) (c : Config) : st Machine StartError Talkd :=
  secure_mailbox ← st_map_err StSocket (on_local (Sockets.bind k1 (so_secure_mailbox (sockets c))));
  holding secure_mailbox (
    key ← st_map_err StIo (load_or_create_domain_key (g_data_dir (general c)));
    _ ← lift (map_err StStore (open_store (mailbox_db c)));
    zsmtp ← st_map_err StSocket (on_local (Sockets.bind k2 (so_zsmtp (sockets c))));
    holding zsmtp (
      _ ← lift (map_err StIo (to_tokio zsmtp));
      config ← tls_of c;
      _ ← lift (map_err StIo (to_tokio secure_mailbox));
      _ ← lift (map_err StIo (bind_tcp (so_zsmtp_listen (sockets c))));
      mret (mkTalkd (g_domain (general c)) key (sink_of c) (service_of c key) (imap_of c) (so_imap_listen (sockets c))
              capture_dir config (plain_imap c) secure_mailbox zsmtp))).

(** The end of [run], after the shutdown signal. *)
Definition talkd_stop (d : Talkd) (s : Machine) : Machine :=
  mkMachine (m_world s) (Sockets.drop (td_zsmtp d) (Sockets.drop (td_secure_mailbox d) (m_local s))).

(** The process is killed: its listeners are closed, the socket files stay. *)
Definition talkd_kill (d : Talkd) (s : Machine) : Machine :=
  let l := m_local s in
  mkMachine (m_world s) (mkLocal (l_files l) (l_socks l)
    (l_open l ∖ {[sl_listener (td_secure_mailbox d); sl_listener (td_zsmtp d)]})).

(** The connections the daemon serves. *)
Definition talkd_arrive (d : Talkd) (a : Arrival) (w : World) : World :=
  arrive (td_domain d) (td_key d) (td_sink d) (td_service d) a w.

End start.
