(* ===== verification/TalkdFacts.v ===== *)
(** * The running daemon and the tool

    The tool without the daemon against the daemon: one key, one way to send; and which
    domains either can send to. *)

From S2P Require Export AccountFacts Talkd.

Section facts.
Context `{Signing} `{Encodings} `{RowIds} `{Templates} `{Argon2} `{Outside} `{KeyCrypto} `{ConfigParser} `{IoTexts}
  `{!CtlOutside} `{!DnsExternals} `{TlsParser} `{TalkdOutside} `{DaemonSocket} `{TomlText}
  `{Json Attestation} `{Json RegistrationAttestation} `{Json EmulatePayload}.

(** ** Recording never fails *)

Definition succeeds {S E A} (m : st S E A) : Prop := forall s, exists x s', m s = (Ok x, s').
Lemma succeeds_ret {S E A} (x : A) : succeeds (mret x : st S E A).
Proof. intros s. by do 2 eexists. Qed.
Lemma succeeds_bind {S E A B} (m : st S E A) (f : A -> st S E B) :
  succeeds m -> (forall x, succeeds (f x)) -> succeeds (m ≫= f).
Proof. intros Hm Hf s. destruct (Hm s) as (x & s1 & E1). rewrite (st_bind_Ok _ _ _ _ _ E1). apply Hf. Qed.
Lemma succeeds_st_ok {E F A} (m : st World E A) : succeeds (st_ok m : st World F _).
Proof. intros s. unfold st_ok. destruct (m s). by do 2 eexists. Qed.
Lemma succeeds_ignore {E F A} (m : st World E A) : succeeds (Sink.ignore m : st World F unit).
Proof. intros s. unfold Sink.ignore. destruct (m s). by do 2 eexists. Qed.
Lemma succeeds_now {E} : succeeds (now_secs : st World E Z).
Proof. intros s. by do 2 eexists. Qed.
Hint Resolve succeeds_ret succeeds_bind succeeds_st_ok succeeds_ignore succeeds_now : talk.

Lemma record_succeeds svc su rc mid p body x w :
  record_outbound_tx svc su rc mid p body x w = (Ok tt, snd (record_outbound_tx svc su rc mid p body x w)).
Proof.
  assert (Hs : succeeds (record_outbound_tx svc su rc mid p body x)).
  { unfold record_outbound_tx, outbound_row, sent_copy.
    repeat first [ apply succeeds_bind; [|intros ?] | case_match ]; auto with talk. }
  destruct (Hs w) as ([] & w' & E). by rewrite E.
Qed.

(** The tool records as the daemon does. *)
Lemma record_same c key su rc mid p body x w :
  record_outbound c su rc mid p body x w = record_outbound_tx (service_of c key) su rc mid p body x w.
Proof. by destruct p. Qed.

(** The endpoint the daemon uses. *)
Definition endpoint_of (c : Config) (dom : str) : result ResolverError str :=
  match doh_resolve_endpoint DOH_ENDPOINT dom with
  | Ok ep => Ok ep
  | Err e => ok_or (send_override c) e
  end.

Lemma choose_endpoint_of c dom cli :
  choose_endpoint (mkCtx c) dom cli =
    (match endpoint_of c dom with
     | Ok ep => Ok ep
     | Err _ => Err (CeMessage #"cannot resolve endpoint (no SRV, no send_endpoint override)")
     end, cli).
Proof.
  unfold choose_endpoint, endpoint_of, send_override. destruct (doh_resolve_endpoint _ _); [done|]. cbv zeta.
  by destruct (_ ≟ []).
Qed.

(** C32: sending without the daemon is the daemon's SEND. With the same configuration,
    for a named sender, [talkctl send] on its own and the control service do the same:
    once connected to the receiver's daemon they leave the same store, the same
    events and clock, and agree on success and on the text of the error. They differ
    before that: where the receiver's key or endpoint is not found the daemon records
    the invoice as failed and the tool records nothing; where the connection fails the
    daemon records it for a retry, the tool as the error says, which is as failed
    unless the server asked to come back. *)
Theorem direct_send_is_send c key su rc mid p body cli :
  su <> [] ->
  let '(rd, wd) := Secure.send (service_of c key) su rc mid p body (c_world cli) in
  let '(rt, ct) := deliver_invoice (mkCtx c) su rc mid p body cli in
  let record x := snd (record_outbound_tx (service_of c key) su rc mid p body x (c_world cli)) in
  match nth_error (split b_at rc) 1 with
  | None => rd = Err #"malformed recipient mailbox" /\ rt = Err (CeMessage #"malformed recipient mailbox")
      /\ wd = c_world cli /\ ct = cli
  | Some dom =>
      match doh_resolving_key DOH_ENDPOINT dom, endpoint_of c dom with
      | Err e, _ => rd = Err ( #"cannot resolve domain key: " ++ resolver_error_str e)
          /\ rt = Err (CeMessage ( #"cannot resolve domain key: " ++ resolver_error_str e))
          /\ wd = record Failed /\ ct = cli
      | Ok _, Err e => rd = Err ( #"cannot resolve endpoint: " ++ resolver_error_str e)
          /\ rt = Err (CeMessage #"cannot resolve endpoint (no SRV, no send_endpoint override)")
          /\ wd = record Failed /\ ct = cli
      | Ok pub, Ok ep =>
          match (strm ← dial ep dom; fst (connect strm (g_domain (general c)))) with
          | Err e => rd = Err ( #"connect: " ++ client_error_str e)
              /\ rt = Err (CeMessage ( #"deliver: " ++ client_error_str e))
              /\ wd = record Retrying /\ ct = set_world (record (delivery_state (Err e))) cli
          | Ok _ => ct = set_world wd cli
              /\ match rd, rt with
                 | Ok text, Ok x => text = #"delivered " ++ mid ++ #" to " ++ rc /\ x = Sent
                 | Err text, Err e => e = CeMessage text
                 | _, _ => False
                 end
          end
      end
  end.
Proof.
  intros Hsu. unfold Secure.send, deliver_invoice. rewrite bool_decide_eq_false_2 by done.
  destruct (nth_error (split b_at rc) 1) as [dom|]; [|done].
  rewrite (st_bind_Ok (some_or _ _) _ cli dom cli) by done.
  change (sv_resolver (service_of c key) dom) with (doh_resolving_key DOH_ENDPOINT dom).
  change (sv_endpoint_resolver (service_of c key) dom) with (doh_resolve_endpoint DOH_ENDPOINT dom).
  change (sv_send_endpoint (service_of c key)) with (send_override c).
  change (sv_sender_domain (service_of c key)) with (g_domain (general c)). fold (endpoint_of c dom).
  destruct (doh_resolving_key DOH_ENDPOINT dom) as [pub|e].
  2: { by rewrite (st_bind_Ok _ _ _ _ _ (record_succeeds _ _ _ _ _ _ _ _)). }
  rewrite (st_bind_Ok _ _ cli pub cli) by done. pose proof (choose_endpoint_of c dom cli) as Hep.
  destruct (endpoint_of c dom) as [ep|e].
  2: { rewrite (st_bind_Ok _ _ _ _ _ (record_succeeds _ _ _ _ _ _ _ _)). by rewrite (st_bind_Err _ _ _ _ _ Hep). }
  rewrite (st_bind_Ok _ _ _ _ _ Hep). clear Hep. cbv zeta. unfold deliver.
  cbn [si_endpoint si_receiver_domain si_sender_domain]. unfold ctx_domain. cbn [cfg].
  destruct (mbind _ (dial ep dom)) as [client|e].
  2: { rewrite (st_bind_Ok _ _ _ _ _ (record_succeeds _ _ _ _ _ _ _ _)).
       rewrite (st_bind_Ok _ _ cli (Err e) cli) by (by destruct cli).
       rewrite (st_bind_Ok _ _ cli tt (set_world (snd (record_outbound_tx (service_of c key) su rc mid p body (delivery_state (Err e)) (c_world cli))) cli)).
       - done.
       - unfold in_world, st_map_err, on_world. rewrite (record_same _ key), record_succeeds. done. }
  cbn [si_sender_username si_recipient_user si_receiver_pub si_message_id si_payload si_body].
  set (w1 := tick 3 (c_world cli)).
  match goal with |- context [deliver_over client su ?user pub mid p body] =>
    pose proof (deliver_over_eq client su user pub mid p body (c_world cli)) as Hd end.
  fold w1 in Hd. rewrite (st_bind_Ok _ _ _ _ _ Hd).
  match type of Hd with _ = (Ok ?r0, _) => set (r := r0) in *; clearbody r end.
  rewrite (st_bind_Ok _ _ cli r (set_world w1 cli)) by (unfold in_world, st_map_err, on_world; by rewrite Hd).
  assert (Hrec : forall x, in_world (record_outbound c su rc mid p body x) (set_world w1 cli)
    = (Ok tt, set_world (snd (record_outbound_tx (service_of c key) su rc mid p body x w1)) cli)).
  { intros x. unfold in_world, st_map_err, on_world. cbn [c_world set_world]. by rewrite (record_same _ key), record_succeeds. }
  rewrite (st_bind_Ok _ _ _ _ _ (Hrec (delivery_state r))).
  destruct r as [[]|e]; rewrite (st_bind_Ok _ _ _ _ _ (record_succeeds _ _ _ _ _ _ _ _)); [done|].
  split; [|done]. by destruct e.
Qed.

(** ** The domain key *)

Definition with_files (x : Files) (s : Machine) : Machine := mkMachine (m_world s) (set_l_files x (m_local s)).
Definition m_files (s : Machine) : Files := l_files (m_local s).
Definition key_path (dir : str) : str := path_join dir #"domainkey".

Lemma machine_read path s :
  on_machine_files (fs_read path) s = (fst (fs_read path (m_files s)), with_files (snd (fs_read path (m_files s))) s).
Proof. unfold on_machine_files, on_local, Sockets.on_files, with_files, m_files. by destruct (fs_read _ _). Qed.
Lemma with_same_files s : with_files (m_files s) s = s.
Proof. by destruct s as [w [? ? ?]]. Qed.

Lemma load_key dir s f :
  fs_faults (m_files s) = [] -> fs (m_files s) !! key_path dir = Some f ->
  load_or_create_domain_key dir s =
    (if length (f_bytes f) ≟ 32%nat then Ok (signing_key_of (f_bytes f)) else Err IoInvalidData, s).
Proof.
  intros Hf Hp. unfold load_or_create_domain_key, try_with. rewrite machine_read, fs_read_calm by done.
  fold (key_path dir). rewrite Hp. cbn [fst snd]. rewrite with_same_files. by destruct (_ ≟ _).
Qed.

(** Creating the key, over the files that the failed read leaves. *)
Lemma create_key dir s :
  fs_faults (snd (fs_read (key_path dir) (m_files s))) = [] -> is_ok (fst (fs_read (key_path dir) (m_files s))) = false ->
  let secret := entropy (w_ticks (m_world s)) 32 in
  load_or_create_domain_key dir s =
    (Ok (signing_key_of secret),
     with_files (put (key_path dir) secret (snd (fs_read (key_path dir) (m_files s)))) (mkMachine (tick 1 (m_world s)) (m_local s))).
Proof.
  intros Hf Hr secret. unfold load_or_create_domain_key, try_with. rewrite machine_read. fold (key_path dir).
  destruct (fs_read (key_path dir) (m_files s)) as [[b|e] x]; cbn [fst snd is_ok] in *; [done|].
  set (s1 := with_files x s). rewrite (st_bind_Ok _ _ s1 secret (mkMachine (tick 1 (m_world s)) (m_local s1))) by done.
  set (s2 := mkMachine _ _).
  rewrite (st_bind_Ok _ _ s2 tt s2).
  2: { unfold on_machine_files, on_local, Sockets.on_files. rewrite fs_create_dir_all_calm by done. done. }
  rewrite (st_bind_Ok _ _ s2 tt (with_files (put (key_path dir) secret x) s2)).
  2: { unfold on_machine_files, on_local, Sockets.on_files. rewrite fs_write_calm by done. done. }
  done.
Qed.

Lemma tool_key dir c cli f :
  g_data_dir (general c) = dir -> fs_faults (c_files cli) = [] -> fs (c_files cli) !! key_path dir = Some f ->
  length (f_bytes f) = 32%nat -> domain_key (mkCtx c) cli = (Ok (signing_key_of (f_bytes f)), cli).
Proof.
  intros <- Hf Hp Hl. unfold domain_key, data_dir. cbn [cfg]. fold (key_path (g_data_dir (general c))).
  rewrite (st_bind_Ok _ _ cli (f_bytes f) cli).
  - by rewrite Hl.
  - unfold st_map_err, Cli.on_files. rewrite fs_read_calm, Hp by done. by destruct cli.
Qed.

(** The domain key. When no file operation fails, the first start draws 32 bytes and
    keeps them in the data directory; every start after it and the tool use that key
    and change nothing; a file of any other length is refused and left alone. But a
    key that is there is replaced by a new one when reading it fails for whatever
    reason, and the attestations under the old one no longer verify. *)
Theorem domain_key_kept `{!OutsideLaws} dir s :
  fs_faults (m_files s) = [] ->
  let key_is b s := load_or_create_domain_key dir s = (Ok (signing_key_of b), s)
    /\ forall c cli, g_data_dir (general c) = dir -> c_files cli = m_files s ->
         domain_key (mkCtx c) cli = (Ok (signing_key_of b), cli) in
  let secret := entropy (w_ticks (m_world s)) 32 in
  match fs (m_files s) !! key_path dir with
  | None => exists s', load_or_create_domain_key dir s = (Ok (signing_key_of secret), s') /\ key_is secret s'
      /\ forall p, p <> key_path dir -> fs (m_files s') !! p = fs (m_files s) !! p
  | Some f =>
      (if length (f_bytes f) ≟ 32%nat then key_is (f_bytes f) s
       else load_or_create_domain_key dir s = (Err IoInvalidData, s))
      /\ exists s', load_or_create_domain_key dir (with_files (mkFiles (fs (m_files s)) [Fails] (fs_default_mode (m_files s))) s)
           = (Ok (signing_key_of secret), s') /\ fs (m_files s') !! key_path dir = Some (mkFile secret (f_mode f))
  end.
Proof.
  intros Hf key_is secret. destruct (fs (m_files s) !! key_path dir) as [f|] eqn:Hp.
  - split.
    + pose proof (load_key dir s f Hf Hp) as Hl. destruct (length (f_bytes f) ≟ 32%nat) eqn:El; [|done].
      apply bool_decide_eq_true in El. split; [done|]. intros c cli Hd Hc. by apply (tool_key dir); rewrite ?Hc.
    + rewrite create_key; [|done..]. eexists. split; [done|]. cbn. rewrite lookup_insert_eq. by rewrite Hp.
  - pose proof (fs_read_calm (key_path dir) _ Hf) as Hr. rewrite Hp in Hr.
    rewrite create_key by (by rewrite Hr). rewrite Hr. eexists. split; [done|]. fold secret. set (s' := with_files _ _).
    assert (Hk : fs (m_files s') !! key_path dir = Some (mkFile secret (fs_default_mode (m_files s)))).
    { cbn. by rewrite lookup_insert_eq, Hp. }
    split; [split|].
    + rewrite (load_key dir s' _ Hf Hk). cbn [f_bytes]. unfold secret. by rewrite entropy_length.
    + intros c cli Hd Hc. refine (tool_key dir c cli (mkFile secret _) Hd _ _ (entropy_length _ _)); by rewrite Hc.
    + intros p Hne. cbn. by rewrite lookup_insert_ne.
Qed.
End facts.

(** ** What discovery can reach

    The daemon and the tool find other domains through DNS over HTTPS only, whose replies
    [dns.rs] reads under other names than the service writes. *)

Section discovery.
Context `{Signing} `{Encodings} `{RowIds} `{Templates} `{Argon2} `{Outside} `{KeyCrypto} `{ConfigParser} `{IoTexts}
  `{!CtlOutside} `{!DnsExternals} `{TlsParser} `{TalkdOutside} `{DaemonSocket} `{TomlText}
  `{Json Attestation} `{Json RegistrationAttestation} `{Json EmulatePayload}.

(** C40: who can be sent to. As long as the DNS service replies in its documented format,
    with a field Status and a field Answer, no domain but the counterparty of the
    environment is found: the daemon refuses every SEND to another domain, and records the
    invoice as failed; the tool on its own refuses it too, and changes nothing. The key is
    not found, the request fails, or its reply is no JSON; an answer is never read. *)
Theorem discovery_only_counterparty c key su rc mid p body dom :
  service_format -> su <> [] -> nth_error (split b_at rc) 1 = Some dom -> is_counterparty dom = false ->
  exists e, doh_resolving_key DOH_ENDPOINT dom = Err e /\ (e = NotFound dom \/ exists m, e = Http m \/ e = Malformed m)
  /\ (forall w, Secure.send (service_of c key) su rc mid p body w
        = (Err (#"cannot resolve domain key: " ++ resolver_error_str e),
           snd (record_outbound_tx (service_of c key) su rc mid p body Failed w)))
  /\ (forall cli, deliver_invoice (mkCtx c) su rc mid p body cli
        = (Err (CeMessage (#"cannot resolve domain key: " ++ resolver_error_str e)), cli)).
Proof.
  intros Hs Hsu Hd Hc. destruct (proj1 (doh_finds_nothing DOH_ENDPOINT dom Hs Hc)) as (e & He & Hkind).
  exists e. split; [exact He|]. split; [exact Hkind|]. split.
  - intros w. unfold Secure.send. rewrite bool_decide_eq_false_2 by done. rewrite Hd.
    change (sv_resolver (service_of c key) dom) with (doh_resolving_key DOH_ENDPOINT dom). rewrite He.
    by rewrite (st_bind_Ok _ _ _ _ _ (record_succeeds _ _ _ _ _ _ _ _)).
  - intros cli. unfold deliver_invoice. rewrite Hd. rewrite (st_bind_Ok (some_or _ _) _ cli dom cli) by done. by rewrite He.
Qed.
End discovery.
