(* ===== verification/Restart.v ===== *)
(** * Starting, stopping and starting again

    What [run] of the daemon does to the machine, and that a daemon which was stopped or
    killed comes back as it was. *)

From S2P Require Export TalkdFacts.

(** ** Sets of listeners *)

Lemma open_again (k1 k2 : nat) (o : gset nat) : k1 ∈ o -> k2 ∈ o -> {[k2]} ∪ ({[k1]} ∪ o ∖ {[k1; k2]}) = o.
Proof.
  intros. apply set_eq. intros x. destruct (decide (x = k1)) as [->|]; [set_solver|].
  destruct (decide (x = k2)) as [->|]; set_solver.
Qed.
Lemma closed_listeners (k k1 k2 : nat) (o : gset nat) : k = k1 \/ k = k2 -> k ∉ o ∖ {[k1; k2]}.
Proof. set_solver. Qed.
Lemma still_open (k k' : nat) (o : gset nat) : k' <> k -> k' ∈ {[k]} ∪ o <-> k' ∈ o.
Proof. set_solver. Qed.

Section restart.
Context `{Signing} `{Encodings} `{RowIds} `{Templates} `{Argon2} `{Outside} `{KeyCrypto} `{ConfigParser} `{IoTexts}
  `{!CtlOutside} `{!DnsExternals} `{TlsParser} `{TalkdOutside} `{DaemonSocket}
  `{Json Attestation} `{Json RegistrationAttestation} `{Json EmulatePayload}.

(** ** A start leaves the world as it is but for the entropy it draws *)

Definition same_world (w w' : World) : Prop :=
  w_store w' = w_store w /\ w_events w' = w_events w /\ w_clock w' = w_clock w.
#[local] Instance same_world_preorder : PreOrder same_world.
Proof. split; [by intros w|]. intros a b c (? & ? & ?) (? & ? & ?). repeat split; congruence. Qed.

Definition mkeeps {E A} (m : st Machine E A) : Prop :=
  forall s r s', m s = (r, s') -> same_world (m_world s) (m_world s').

Lemma mkeeps_ret {E A} (x : A) : mkeeps (E := E) (mret x).
Proof. by intros s r s' [= _ <-]. Qed.
Lemma mkeeps_raise {E A} (e : E) : mkeeps (A := A) (raise e).
Proof. by intros s r s' [= _ <-]. Qed.
Lemma mkeeps_lift {E A} (x : result E A) : mkeeps (lift x).
Proof. by intros s r s' [= _ <-]. Qed.
Lemma mkeeps_local {E A} (m : st Local E A) : mkeeps (on_local m).
Proof. intros s r s'. unfold on_local. destruct (m (m_local s)). by intros [= _ <-]. Qed.
Lemma mkeeps_draw {E} n : mkeeps (E := E) (on_machine_world (draw n)).
Proof. by intros s r s' [= _ <-]. Qed.
Lemma mkeeps_try {E G A B} (m : st Machine E A) (f : A -> st Machine G B) g :
  mkeeps m -> (forall x, mkeeps (f x)) -> (forall e, mkeeps (g e)) -> mkeeps (try_with m f g).
Proof.
  intros Hm Hf Hg s r s'. unfold try_with. destruct (m s) as [[x|e] s1] eqn:E1; intros E2.
  - transitivity (m_world s1); [by eapply Hm | by eapply Hf].
  - transitivity (m_world s1); [by eapply Hm | by eapply Hg].
Qed.
Lemma mkeeps_bind {E A B} (m : st Machine E A) (f : A -> st Machine E B) :
  mkeeps m -> (forall x, mkeeps (f x)) -> mkeeps (m ≫= f).
Proof. intros Hm Hf. apply (mkeeps_try m f raise); [done..|]. intros e. apply mkeeps_raise. Qed.
Lemma mkeeps_map_err {E G A} (f : E -> G) (m : st Machine E A) : mkeeps m -> mkeeps (st_map_err f m).
Proof.
  intros Hm. exact (mkeeps_try m mret (fun e => raise (f e)) Hm (fun x => mkeeps_ret x) (fun e => mkeeps_raise (f e))).
Qed.
Lemma mkeeps_holding {A} l (m : st Machine StartError A) : mkeeps m -> mkeeps (holding l m).
Proof.
  intros Hm s r s'. unfold holding. destruct (m s) as [[x|e] s1] eqn:E1; intros [= _ <-]; by apply Hm in E1.
Qed.
Hint Resolve mkeeps_ret mkeeps_raise mkeeps_lift mkeeps_local mkeeps_draw mkeeps_try mkeeps_bind mkeeps_map_err
  mkeeps_holding : talk.

Lemma mkeeps_run k1 k2 cap c : mkeeps (talkd_run k1 k2 cap c).
Proof.
  unfold talkd_run, load_or_create_domain_key, tls_of, on_machine_files.
  repeat first [ progress auto with talk | apply mkeeps_bind; [|intros ?] | apply mkeeps_holding | apply mkeeps_map_err
    | apply mkeeps_try; [|intros ?|intros ?] | case_match ].
Qed.

(** ** A start without faults *)

(** The TLS configuration that is found on a machine. *)
Definition tls_found (c : Config) (l : Local) : option ServerConfig :=
  if there (tls_cert (tls c)) l && there (tls_key (tls c)) l
  then ok (fst (load_server_config (tls_cert (tls c)) (tls_key (tls c)) (l_files l))) else None.

Lemma load_server_config_same cert key x : fs_faults x = [] -> snd (load_server_config cert key x) = x.
Proof.
  intros Hf. unfold load_server_config, mbind, st_bind, st_map_err. rewrite fs_read_calm by done.
  destruct (fs x !! cert); [|done]. unfold lift. destruct (pem_certs _) as [[|a l]|]; [done| |done]. cbn [ok_or].
  rewrite fs_read_calm by done. destruct (fs x !! key); [|done].
  destruct (pem_private_key _) as [[k|]|]; [|done..]. cbn [ok_or]. by destruct (single_cert _ _).
Qed.
Lemma on_local_exists path s :
  fs_faults (m_files s) = [] -> on_local (E := StartError) (path_exists path) s = (Ok (there path (m_local s)), s).
Proof. intros Hf. unfold on_local. rewrite path_exists_calm by done. by destruct s. Qed.
Lemma tls_of_calm c s : fs_faults (m_files s) = [] -> tls_of c s = (Ok (tls_found c (m_local s)), s).
Proof.
  intros Hf. unfold tls_of, tls_found. rewrite (st_bind_Ok _ _ _ _ _ (on_local_exists _ s Hf)).
  destruct (there (tls_cert (tls c)) (m_local s)); cbn [andb].
  - rewrite (st_bind_Ok _ _ _ _ _ (on_local_exists _ s Hf)). destruct (there (tls_key (tls c)) (m_local s)); [|done].
    unfold try_with, on_local, Sockets.on_files.
    pose proof (load_server_config_same (tls_cert (tls c)) (tls_key (tls c)) (l_files (m_local s)) Hf) as Hx.
    destruct (load_server_config _ _ _) as [r x]. cbn in Hx. subst x. destruct s as [w [x m o]]. by destruct r.
  - by rewrite (st_bind_Ok _ _ s false s).
Qed.
(** It depends on the files and socket files alone. *)
Lemma tls_found_ext c l l' : l_files l = l_files l' -> l_socks l = l_socks l' -> tls_found c l = tls_found c l'.
Proof. intros Hf Hs. unfold tls_found, there. by rewrite Hf, Hs. Qed.

(** The daemon that a start makes of a configuration. *)
Definition started (k1 k2 : nat) (cap : option str) (c : Config) (key : SigningKey) (t : option ServerConfig) : Talkd :=
  mkTalkd (g_domain (general c)) key (sink_of c) (service_of c key) (imap_of c) (so_imap_listen (sockets c)) cap t
    (plain_imap c) (mkListener (so_secure_mailbox (sockets c)) k1) (mkListener (so_zsmtp (sockets c)) k2).

(** What the start needs of the outside. *)
Record reachable (k1 k2 : nat) (c : Config) : Prop := {
  re_store : open_store (mailbox_db c) = Ok tt;
  re_mailbox : to_tokio (mkListener (so_secure_mailbox (sockets c)) k1) = Ok tt;
  re_zsmtp : to_tokio (mkListener (so_zsmtp (sockets c)) k2) = Ok tt;
  re_tcp : bind_tcp (so_zsmtp_listen (sockets c)) = Ok tt;
}.

Definition at_local (l : Local) (s : Machine) : Machine := mkMachine (m_world s) l.
Lemma on_local_bind k path s :
  fs_faults (m_files s) = [] ->
  st_map_err StSocket (on_local (Sockets.bind k path)) s =
    if listening path (m_local s) then (Err (StSocket (Bind path IoFailed)), s)
    else (Ok (mkListener path k), at_local (bound k path (without path (m_local s))) s).
Proof. intros Hf. unfold st_map_err, on_local. rewrite bind_calm by done. destruct s. by destruct (listening _ _). Qed.

Section config.
Context (k1 k2 : nat) (cap : option str) (c : Config).
Let p1 := so_secure_mailbox (sockets c).
Let p2 := so_zsmtp (sockets c).
Let dir := g_data_dir (general c).

(** A start succeeds exactly when the outside is reachable, nothing listens on its sockets,
    and the key is there or made. *)
Lemma run_calm s :
  fs_faults (m_files s) = [] ->
  let s0 := at_local (bound k1 p1 (without p1 (m_local s))) s in
  (forall key s2, fs_faults (m_files s2) = [] -> load_or_create_domain_key dir s0 = (Ok key, s2) ->
     listening p1 (m_local s) = false -> listening p2 (m_local s2) = false -> reachable k1 k2 c ->
     let l3 := bound k2 p2 (without p2 (m_local s2)) in
     talkd_run k1 k2 cap c s = (Ok (started k1 k2 cap c key (tls_found c l3)), at_local l3 s2))
  /\ (forall d s1, talkd_run k1 k2 cap c s = (Ok d, s1) ->
     (forall key s2, load_or_create_domain_key dir s0 = (Ok key, s2) -> fs_faults (m_files s2) = []) ->
     listening p1 (m_local s) = false /\ reachable k1 k2 c
     /\ exists key s2, load_or_create_domain_key dir s0 = (Ok key, s2) /\ listening p2 (m_local s2) = false).
Proof.
  intros Hf s0. split.
  - intros key s2 Hf2 Hk Hl1 Hl2 [Ho Hm Hz Ht] l3. unfold talkd_run. pose proof (on_local_bind k1 p1 s Hf) as Hb.
    rewrite Hl1 in Hb. fold s0 in Hb. rewrite (st_bind_Ok _ _ _ _ _ Hb). unfold holding at 1.
    rewrite (st_bind_Ok _ _ s0 key s2) by (unfold st_map_err; fold dir; by rewrite Hk).
    rewrite (st_bind_Ok _ _ s2 tt s2) by (unfold lift; cbv delta [p1 p2]; by rewrite Ho).
    pose proof (on_local_bind k2 p2 s2 Hf2) as Hb2. rewrite Hl2 in Hb2. rewrite (st_bind_Ok _ _ _ _ _ Hb2). fold l3.
    set (s3 := at_local l3 s2). unfold holding.
    rewrite (st_bind_Ok _ _ s3 tt s3) by (unfold lift; cbv delta [p1 p2]; by rewrite Hz).
    rewrite (st_bind_Ok _ _ s3 _ s3 (tls_of_calm c s3 Hf2)).
    rewrite (st_bind_Ok _ _ s3 tt s3) by (unfold lift; cbv delta [p1 p2]; by rewrite Hm).
    by rewrite (st_bind_Ok _ _ s3 tt s3) by (unfold lift; cbv delta [p1 p2]; by rewrite Ht).
  - intros d s1 Hr Hfk. unfold talkd_run in Hr. pose proof (on_local_bind k1 p1 s Hf) as Hb.
    destruct (listening p1 (m_local s)); [by rewrite (st_bind_Err _ _ _ _ _ Hb) in Hr|]. fold s0 in Hb.
    rewrite (st_bind_Ok _ _ _ _ _ Hb) in Hr. split; [done|]. unfold holding at 1 in Hr.
    match type of Hr with (let '(_, _) := ?m in _) = _ => destruct m as [[d0|e] s5] eqn:Em end; [|done].
    apply st_bind_inv in Em as (key & s2 & Hk & Em). unfold st_map_err in Hk. fold dir in Hk.
    destruct (load_or_create_domain_key dir s0) as [[key0|e] s2'] eqn:Ek; [|done]. injection Hk as -> ->.
    pose proof (Hfk key s2 eq_refl) as Hf2.
    apply st_bind_inv in Em as (? & ? & Ho & Em). unfold lift in Ho. destruct (open_store _) as [[]|] eqn:Eo; [|done].
    injection Ho as <- <-. pose proof (on_local_bind k2 p2 s2 Hf2) as Hb2.
    destruct (listening p2 (m_local s2)) eqn:E2; [by rewrite (st_bind_Err _ _ _ _ _ Hb2) in Em|].
    rewrite (st_bind_Ok _ _ _ _ _ Hb2) in Em. set (s3 := at_local _ s2) in Em. unfold holding in Em.
    match type of Em with (let '(_, _) := ?m in _) = _ => destruct m as [[d1|e] s6] eqn:En end; [|done].
    apply st_bind_inv in En as (? & ? & Hz & En). unfold lift in Hz. fold p2 in Hz.
    destruct (to_tokio (mkListener p2 k2)) as [[]|] eqn:Ez; [|done]. injection Hz as <- <-.
    rewrite (st_bind_Ok _ _ s3 _ s3 (tls_of_calm c s3 Hf2)) in En.
    apply st_bind_inv in En as (? & ? & Hm & En). unfold lift in Hm. fold p1 in Hm.
    destruct (to_tokio (mkListener p1 k1)) as [[]|] eqn:Et; [|done]. injection Hm as <- <-.
    apply st_bind_inv in En as (? & ? & Ht & En). unfold lift in Ht. destruct (bind_tcp _) as [[]|] eqn:Eb; [|done].
    split; [by constructor|]. by exists key, s2.
Qed.
End config.

(** The key of a start is in its file afterwards, and nothing else changes. *)
Lemma key_started `{!OutsideLaws} dir s key s2 :
  fs_faults (m_files s) = [] -> load_or_create_domain_key dir s = (Ok key, s2) ->
  exists f, length (f_bytes f) = 32%nat /\ key = signing_key_of (f_bytes f)
    /\ (fs (m_files s) !! key_path dir = None \/ fs (m_files s) !! key_path dir = Some f)
    /\ m_local s2 = set_l_files (set_fs (<[key_path dir := f]> (fs (m_files s))) (m_files s)) (m_local s).
Proof.
  intros Hf Hk. destruct (fs (m_files s) !! key_path dir) as [f|] eqn:Hp.
  - rewrite (load_key dir s f Hf Hp) in Hk. destruct (bool_decide_reflect (length (f_bytes f) = 32%nat)) as [Hl|]; [|done].
    injection Hk as <- <-. exists f. split; [done|]. split; [done|]. split; [by right|].
    rewrite insert_id by done. by destruct s as [w [[] ? ?]].
  - pose proof (fs_read_calm (key_path dir) _ Hf) as Hr. rewrite Hp in Hr.
    rewrite create_key in Hk by (by rewrite Hr). rewrite Hr in Hk. injection Hk as <- <-.
    eexists (mkFile _ _). split; [apply entropy_length|]. split; [done|]. split; [by left|done].
Qed.

(** A machine whose daemon is gone: its files, and no open listener of the daemon. *)
Record gone (k1 k2 : nat) (p1 p2 : str) (l l' : Local) : Prop := {
  go_files : l_files l' = l_files l;
  go_socks : delete p2 (delete p1 (l_socks l')) = delete p2 (delete p1 (l_socks l));
  go_open : l_open l' = l_open l ∖ {[k1; k2]};
  go_first : l_socks l' !! p1 = None \/ l_socks l' !! p1 = Some k1;
  go_second : l_socks l' !! p2 = None \/ l_socks l' !! p2 = Some k2;
}.

Lemma bound_again k1 k2 p1 p2 l l' :
  gone k1 k2 p1 p2 l l' -> p1 <> p2 -> fs (l_files l) !! p1 = None -> fs (l_files l) !! p2 = None ->
  l_socks l !! p1 = Some k1 -> l_socks l !! p2 = Some k2 -> k1 ∈ l_open l -> k2 ∈ l_open l ->
  bound k2 p2 (without p2 (bound k1 p1 (without p1 l'))) = l.
Proof.
  intros [Hf Hs Ho _ _] Hp Hn1 Hn2 Hs1 Hs2 Ho1 Ho2. unfold bound, without. cbn. rewrite Hf, Ho.
  destruct l as [[m fl md] ss op]. cbn in *. f_equal.
  - unfold set_fs. cbn. by rewrite !delete_id by (by rewrite ?lookup_delete_ne).
  - rewrite !insert_delete_eq. apply map_eq. intros i.
    destruct (decide (i = p2)) as [->|Hi2]; [by rewrite lookup_insert_eq|]. rewrite lookup_insert_ne by done.
    destruct (decide (i = p1)) as [->|Hi1]; [by rewrite lookup_insert_eq|]. rewrite lookup_insert_ne by done.
    apply (f_equal (lookup i)) in Hs. by rewrite !lookup_delete_ne in Hs by done.
  - by apply open_again.
Qed.

Lemma gone_silent k1 k2 p1 p2 l l' : gone k1 k2 p1 p2 l l' -> listening p1 l' = false /\ listening p2 l' = false.
Proof.
  intros [_ _ Ho Hl1 Hl2]. unfold listening. rewrite Ho.
  split; [destruct Hl1 as [->| ->]|destruct Hl2 as [->| ->]]; try done; apply bool_decide_eq_false, closed_listeners; auto.
Qed.
Lemma listening_other k p q l : p <> q -> l_socks l !! q <> Some k -> listening q (bound k p (without p l)) = listening q l.
Proof.
  intros Hp Hq. unfold listening, bound, without. cbn. rewrite lookup_insert_ne, lookup_delete_ne by done.
  destruct (l_socks l !! q) as [k'|]; [|done]. apply bool_decide_ext, still_open. congruence.
Qed.

(** Where a daemon is gone, it comes back. *)
Lemma start_again k1 k2 cap c key (f : File) l s :
  let p1 := so_secure_mailbox (sockets c) in
  let p2 := so_zsmtp (sockets c) in
  gone k1 k2 p1 p2 l (m_local s) -> k1 <> k2 -> p1 <> p2 -> key_path (g_data_dir (general c)) <> p1 ->
  reachable k1 k2 c -> fs_faults (l_files l) = [] ->
  fs (l_files l) !! p1 = None -> fs (l_files l) !! p2 = None ->
  fs (l_files l) !! key_path (g_data_dir (general c)) = Some f -> length (f_bytes f) = 32%nat -> key = signing_key_of (f_bytes f) ->
  l_socks l !! p1 = Some k1 -> l_socks l !! p2 = Some k2 -> k1 ∈ l_open l -> k2 ∈ l_open l ->
  talkd_run k1 k2 cap c s = (Ok (started k1 k2 cap c key (tls_found c l)), at_local l s).
Proof.
  intros p1 p2 Hg Hk Hp Hkp Hre Hf Hn1 Hn2 Hkf Hlen -> Hs1 Hs2 Ho1 Ho2. pose proof (gone_silent _ _ _ _ _ _ Hg) as [Hq1 Hq2].
  assert (Hfs : fs_faults (m_files s) = []) by (unfold m_files; by rewrite (go_files _ _ _ _ _ _ Hg)).
  destruct (run_calm k1 k2 cap c s Hfs) as [Hrun _]. set (s0 := at_local _ s) in Hrun.
  specialize (Hrun (signing_key_of (f_bytes f)) s0 Hfs). cbv zeta in Hrun.
  cbn [m_local at_local s0] in Hrun. rewrite (bound_again _ _ _ _ l) in Hrun by done. apply Hrun; try done.
  - rewrite (load_key _ s0 f Hfs).
    + by rewrite bool_decide_eq_true_2.
    + cbn. rewrite lookup_delete_ne by done. by rewrite (go_files _ _ _ _ _ _ Hg).
  - assert (Hx : l_socks (m_local s) !! p2 <> Some k1) by (destruct (go_second _ _ _ _ _ _ Hg) as [->| ->]; congruence).
    exact (eq_trans (listening_other k1 p1 p2 _ Hp Hx) Hq2).
Qed.

(** Dropping and killing. *)
Lemma drop_calm p k l :
  fs_faults (l_files l) = [] -> there p l = true ->
  Sockets.drop (mkListener p k) l = mkLocal (set_fs (delete p (fs (l_files l))) (l_files l)) (delete p (l_socks l)) (l_open l ∖ {[k]}).
Proof. intros Hf Ht. unfold Sockets.drop. cbn [sl_path sl_listener]. by rewrite remove_calm. Qed.

Lemma stop_local k1 k2 cap c key t s :
  let p1 := so_secure_mailbox (sockets c) in
  let p2 := so_zsmtp (sockets c) in
  let l := m_local s in
  p1 <> p2 -> fs_faults (l_files l) = [] -> l_socks l !! p1 = Some k1 -> l_socks l !! p2 = Some k2 ->
  fs (l_files l) !! p1 = None -> fs (l_files l) !! p2 = None ->
  m_local (talkd_stop (started k1 k2 cap c key t) s)
  = mkLocal (l_files l) (delete p2 (delete p1 (l_socks l))) (l_open l ∖ {[k1; k2]}).
Proof.
  intros p1 p2 l Hp Hf Hs1 Hs2 Hn1 Hn2. unfold talkd_stop. cbn [td_zsmtp td_secure_mailbox started m_local].
  fold p1 p2 l. assert (Ht : forall p l0, is_Some (l_socks l0 !! p) -> there p l0 = true).
  { intros p l0 Hi. unfold there. rewrite (bool_decide_eq_true_2 _ Hi). apply orb_true_r. }
  rewrite (drop_calm p1) by (done || by apply Ht; rewrite Hs1).
  rewrite drop_calm by (done || apply Ht; cbn; by rewrite lookup_delete_ne, Hs2). cbn.
  destruct l as [[m fl md] ss op]. cbn in *. unfold set_fs. cbn. rewrite !delete_id by (by rewrite ?lookup_delete_ne).
  f_equal. apply difference_difference_l_L.
Qed.

(** C12: starting, stopping and starting again. When no call of the machine fails, a start
    leaves the store, the events and the clock as they are; while the daemon runs, a
    second start of the same configuration is refused and changes nothing; and when the
    daemon has been stopped, or killed with its socket files left behind, the same start
    brings back the same daemon on the same machine. Its domain key is the one in the
    file, made if there was none, and the tool has the same key. A stop leaves every file
    and every socket file as it was before the start, but for the domain key and for what
    was at the two socket paths, where nothing is left. *)
Theorem daemon_restarts `{!OutsideLaws} k1 k2 cap c s d s1 :
  let p1 := so_secure_mailbox (sockets c) in
  let p2 := so_zsmtp (sockets c) in
  let kp := key_path (g_data_dir (general c)) in
  fs_faults (m_files s) = [] -> k1 <> k2 -> p1 <> p2 -> kp <> p1 -> kp <> p2 ->
  talkd_run k1 k2 cap c s = (Ok d, s1) ->
  same_world (m_world s) (m_world s1)
  /\ (forall k3 k4 cap', talkd_run k3 k4 cap' c s1 = (Err (StSocket (Bind p1 IoFailed)), s1))
  /\ talkd_run k1 k2 cap c (talkd_stop d s1) = (Ok d, s1)
  /\ talkd_run k1 k2 cap c (talkd_kill d s1) = (Ok d, s1)
  /\ (exists f, fs (m_files s1) !! kp = Some f /\ length (f_bytes f) = 32%nat /\ td_key d = signing_key_of (f_bytes f)
        /\ (fs (m_files s) !! kp = None \/ fs (m_files s) !! kp = Some f))
  /\ (forall cli, c_files cli = m_files s1 -> domain_key (mkCtx c) cli = (Ok (td_key d), cli))
  /\ there p1 (m_local (talkd_stop d s1)) = false /\ there p2 (m_local (talkd_stop d s1)) = false
  /\ (forall p, p <> p1 -> p <> p2 -> p <> kp ->
        fs (m_files (talkd_stop d s1)) !! p = fs (m_files s) !! p
        /\ l_socks (m_local (talkd_stop d s1)) !! p = l_socks (m_local s) !! p).
Proof.
  intros p1 p2 kp Hf Hk Hp Hk1 Hk2 Hr. split; [by eapply mkeeps_run|].
  destruct (run_calm k1 k2 cap c s Hf) as [Hfwd Hinv]. set (s0 := at_local _ s) in *.
  destruct (Hinv d s1 Hr) as (Hl1 & Hre & key & s2 & Hkey & Hl2).
  { intros key s2 (f & _ & _ & _ & Hl)%key_started; [|done]. unfold m_files. by rewrite Hl. }
  destruct (key_started _ _ _ _ (Hf : fs_faults (m_files s0) = []) Hkey) as (f & Hlen & -> & Hold & Hl).
  assert (Hf2 : fs_faults (m_files s2) = []) by (unfold m_files; by rewrite Hl).
  pose proof (Hfwd _ s2 Hf2 Hkey Hl1 Hl2 Hre) as Hr'. cbv zeta in Hr'. rewrite Hr in Hr'. injection Hr' as -> ->.
  fold p1 p2 in Hl |- *. set (l := bound k2 p2 (without p2 (m_local s2))).
  fold kp in Hl. assert (Hs : l_socks l !! p1 = Some k1 /\ l_socks l !! p2 = Some k2 /\ k1 ∈ l_open l /\ k2 ∈ l_open l
    /\ fs (l_files l) !! p1 = None /\ fs (l_files l) !! p2 = None /\ fs (l_files l) !! kp = Some f /\ fs_faults (l_files l) = []).
  { subst l. rewrite Hl. cbn. rewrite lookup_insert_ne, lookup_delete_ne, !lookup_insert_eq by done.
    rewrite lookup_delete_ne, lookup_insert_ne, lookup_delete_eq, lookup_delete_eq by done.
    rewrite lookup_delete_ne, lookup_insert_eq by done. repeat split; (done || set_solver). }
  destruct Hs as (Hs1 & Hs2 & Ho1 & Ho2 & Hn1 & Hn2 & Hkf & Hfl).
  pose proof (stop_local k1 k2 cap c (signing_key_of (f_bytes f)) (tls_found c l) (at_local l s2) Hp Hfl Hs1 Hs2 Hn1 Hn2) as Hstop.
  fold p1 p2 in Hstop. cbn [m_local at_local] in Hstop.
  split; [|split; [|split; [|split; [|split; [|split; [|split]]]]]].
  - intros k3 k4 cap'. unfold talkd_run. fold p1. pose proof (on_local_bind k3 p1 (at_local l s2) Hfl) as Hb.
    cbn [m_local at_local] in Hb. unfold listening in Hb. rewrite Hs1, bool_decide_eq_true_2 in Hb by done.
    by rewrite (st_bind_Err _ _ _ _ _ Hb).
  - rewrite (start_again k1 k2 cap c (signing_key_of (f_bytes f)) f l); try done. rewrite Hstop. constructor; cbn; try done.
    + rewrite (delete_id (delete p2 _) p1) by (by rewrite lookup_delete_ne, lookup_delete_eq). by rewrite delete_delete_eq.
    + left. by rewrite lookup_delete_ne, lookup_delete_eq.
    + left. by rewrite lookup_delete_eq.
  - rewrite (start_again k1 k2 cap c (signing_key_of (f_bytes f)) f l); try done. constructor; cbn; try done; by right.
  - exists f. split; [exact Hkf|]. split; [exact Hlen|]. split; [done|].
    cbn in Hold. rewrite lookup_delete_ne in Hold by done. exact Hold.
  - intros cli Hc. apply (tool_key _ c cli f eq_refl); [by rewrite Hc|by rewrite Hc|exact Hlen].
  - rewrite Hstop. unfold there. cbn [l_files l_socks]. by rewrite Hn1, lookup_delete_ne, lookup_delete_eq.
  - rewrite Hstop. unfold there. cbn [l_files l_socks]. by rewrite Hn2, lookup_delete_eq.
  - intros p Hp1 Hp2 Hpk. unfold m_files. rewrite Hstop. subst l. rewrite Hl. cbn.
    apply not_eq_sym in Hp1, Hp2, Hpk. fold p1.
    split.
    + rewrite lookup_delete_ne, lookup_insert_ne, lookup_delete_ne; done.
    + rewrite !lookup_delete_ne, lookup_insert_ne, lookup_delete_ne, lookup_insert_ne, lookup_delete_ne; done.
Qed.
End restart.
