(* ===== verification/Programs.v ===== *)
(** * The two programs ([talkd/src/main.rs], [talk-ctl/src/main.rs], [talk-core/src/logging.rs])

    From the arguments of a process to its exit code.  The parsers that clap derives from
    the structs of the arguments, and the filters of tracing, are interfaces. *)

From S2P Require Export Restart.

(** ** Logging *)

Class Tracing := {
  EnvFilter : Type;
  (** [EnvFilter::try_from_default_env().ok()] and [EnvFilter::new] *)
  filter_from_env : option EnvFilter;
  filter_new : str -> EnvFilter;
}.
(** The global subscriber of the process, once it is set. *)
Record Subscriber `{Tracing} := mkSubscriber { sb_filter : EnvFilter; sb_target : bool }.

(** [logging::init]: [try_init] fails when there is a subscriber, which is ignored. *)
Definition logging_init `{Tracing} (level : str) (global : option Subscriber) : option Subscriber :=
  let filter := default (filter_new level) filter_from_env in
  match global with Some s => Some s | None => Some (mkSubscriber _ filter true) end.

(** The level of the configuration counts only when the environment names no filter and
    nothing was set before; once set, the subscriber stays. *)
Lemma logging_level `{Tracing} level global s :
  logging_init level global = Some s ->
  (global = None -> sb_filter s = default (filter_new level) filter_from_env)
  /\ (forall level', logging_init level' (Some s) = Some s).
Proof. destruct global; intros [= <-]; done. Qed.

(** ** Arguments *)

(** [Cli] of the tool and of the daemon; [config] of the daemon has a default. *)
Record CtlCli := mkCtlCli { cc_config : option str; cc_command : CtlCommand }.
Record DaemonCli := mkDaemonCli { dc_config : str; dc_capture_dir : option str }.
(** A process that ends: its exit code and what it writes to its error stream. *)
Record Exit := mkExit { ex_code : Z; ex_stderr : str }.

Class ArgParsers := {
  (** [Cli::parse]: the arguments, or how the process ends, for a help text or an error *)
  parse_ctl : list str -> result Exit CtlCli;
  parse_daemon : list str -> result Exit DaemonCli;
}.

Section programs.
Context `{Signing} `{Encodings} `{RowIds} `{Templates} `{Argon2} `{Outside} `{KeyCrypto} `{ConfigParser} `{IoTexts}
  `{!CtlOutside} `{!DnsExternals} `{TlsParser} `{TalkdOutside} `{DaemonSocket} `{TomlText} `{ArgParsers} `{Tracing}
  `{Json Attestation} `{Json RegistrationAttestation} `{Json EmulatePayload}.

(** [main] of the tool. *)
Definition ctl_main (args : list str) (c : Cli) : Exit * Cli :=
  match parse_ctl args with
  | Err e => (e, c)
  | Ok cli =>
      match ctl_run (cc_config cli) (cc_command cli) c with
      | (Ok _, c) => (mkExit 0 [], c)
      | (Err e, c) => (mkExit 1 (#"talkctl: " ++ ctl_error_str e ++ [b_nl]), c)
      end
  end.

(** [main] of the daemon, up to the shutdown signal: the daemon that serves, or how the
    process ends. *)
Definition talkd_main (k1 k2 : nat) (args : list str) (log : option Subscriber) (s : Machine)
    : result Exit Talkd * option Subscriber * Machine :=
  match parse_daemon args with
  | Err e => (Err e, log, s)
  | Ok cli =>
      match on_local (Sockets.on_files (Config.load (dc_config cli))) s with
      | (Err e, s) => (Err (mkExit 1 (#"config error: " ++ config_error_str e ++ [b_nl])), log, s)
      | (Ok cfg, s) =>
          let log := logging_init (g_log_level (general cfg)) log in
          match talkd_run k1 k2 (dc_capture_dir cli) cfg s with
          | (Err _, s) => (Err (mkExit 1 []), log, s)
          | (Ok d, s) => (Ok d, log, s)
          end
      end
  end.
(** After the signal [run] returns and the process ends well. *)
Definition talkd_shutdown (d : Talkd) (s : Machine) : Exit * Machine := (mkExit 0 [], talkd_stop d s).

(** The tool ends with 0 exactly when its command succeeds, and then says nothing on its
    error stream; when it fails the store and the files are as the command left them. *)
Lemma ctl_main_code args cli c :
  parse_ctl args = Ok cli ->
  let '(r, c1) := ctl_run (cc_config cli) (cc_command cli) c in
  let '(e, c2) := ctl_main args c in
  c2 = c1 /\ (ex_code e = 0%Z <-> is_ok r = true) /\ (ex_code e = 0%Z <-> ex_stderr e = []).
Proof.
  intros Hp. unfold ctl_main. rewrite Hp. by destruct (ctl_run _ _ c) as [[[]|e] c1].
Qed.

(** Whether the daemon comes to serve or not, its start leaves the store, the events and
    the clock as they were. *)
Lemma talkd_main_store k1 k2 args log s r log' s' :
  talkd_main k1 k2 args log s = (r, log', s') -> same_world (m_world s) (m_world s').
Proof.
  unfold talkd_main. destruct (parse_daemon args) as [cli|e]; [|by intros [= _ _ <-]].
  destruct (on_local _ s) as [[cfg|e] s1] eqn:E1; apply mkeeps_local in E1; [|by intros [= _ _ <-]].
  destruct (talkd_run _ _ _ _ s1) as [[d|e] s2] eqn:E2; apply mkeeps_run in E2; intros [= _ _ <-];
    destruct E1 as (? & ? & ?), E2 as (? & ? & ?); repeat split; congruence.
Qed.

End programs.
