(* ===== verification/AccountLife.v ===== *)
(** * The life of an account

    From [talkctl user create] over a change of the password to the deletion, as the
    IMAP login sees it. *)

From S2P Require Export TalkdFacts.

(** ** Rows of users *)

Lemma user_named_app name rows r d :
  user_named name (set_users d (rows ++ [r])) =
    match user_named name (set_users d rows) with
    | Some x => Some x
    | None => if u_username r ≟ name then Some r else None
    end.
Proof.
  unfold user_named. cbn [users set_users]. rewrite select_app.
  destruct (select (fun r => u_username r ≟ name) rows); [|done]. cbn [app].
  unfold select. rewrite filter_cons. by destruct (u_username r ≟ name).
Qed.

Lemma select_updated {R} (p : R -> bool) f rows :
  (forall r, p r = true -> p (f r) = true) -> select p (update_where p f rows) = map f (select p rows).
Proof.
  intros Hf. unfold select. induction rows as [|r rows IH]; [done|].
  change (update_where p f (r :: rows)) with ((if p r then f r else r) :: update_where p f rows).
  destruct (p r) eqn:E.
  - rewrite !filter_cons_True by auto. cbn [map]. by rewrite IH.
  - rewrite !filter_cons_False by congruence. by rewrite IH.
Qed.

Lemma user_named_password name other hash d :
  user_named other (set_users d (update_where (fun r => u_username r ≟ name) (with_password hash) (users d)))
  = (if other ≟ name then with_password hash <$> user_named other d else user_named other d).
Proof.
  unfold user_named. cbn [users set_users]. destruct (bool_decide_reflect (other = name)) as [->|Hne].
  - rewrite select_updated by done. by destruct (select _ _).
  - unfold select. rewrite filter_update_where; [done|].
    intros r Hr%bool_decide_eq_true. cbn. rewrite Hr. split; intros Hx%bool_decide_eq_true; congruence.
Qed.

Section life.
Context `{Signing} `{EncodingsLaws} `{RowIdsLaws} `{Templates} `{Argon2Laws} `{OutsideLaws} `{KeyCryptoLaws} `{ConfigParser} `{IoTexts}
  `{!CtlOutside} `{!DnsExternals} `{TlsParser} `{TalkdOutside} `{DaemonSocket} `{TomlText} `{OsGroups} `{TimeFormat}
  `{Json Attestation} `{Json RegistrationAttestation} `{Json EmulatePayload}.

(** Logins of everybody else. *)
Definition logins_of_others (name dom : str) (d d' : Db) : Prop :=
  forall mode u p row, u_username row <> name ->
    authenticates mode dom d u p = Some row <-> authenticates mode dom d' u p = Some row.

Lemma others_login name dom d d' :
  (forall other, other <> name -> user_named other d' = user_named other d) -> shares d' = shares d ->
  logins_of_others name dom d d'.
Proof.
  intros Hn Hs mode u p row Hrow. unfold authenticates.
  destruct (match strip_suffix #":app" u with Some b => (b, true) | None => (u, false) end) as [base is_app].
  destruct (local_username base dom) as [local|]; cbn [mbind option_bind]; [|done].
  destruct (decide (local = name)) as [->|Hne].
  - assert (Hno : forall d0 r b, user_named name d0 = Some r -> (if b : bool then Some r else None) = Some row -> False).
    { intros d0 r b Hr. destruct b; [|done]. intros [= ->]. by apply Hrow, (user_named_name _ d0). }
    split; intros Ha; exfalso; [destruct (user_named name d) eqn:E|destruct (user_named name d') eqn:E]; cbn in Ha;
      try done; (eapply Hno; [exact E|exact Ha]).
  - rewrite (Hn local Hne). unfold share_accepted. by rewrite Hs.
Qed.

(** The password of a name that is not an app password's. *)
Lemma authenticates_plain dom d name p row :
  strip_suffix #":app" name = None -> local_username name dom = Some name -> user_named name d = Some row ->
  authenticates Database dom d name p = if password_accepted Database row p then Some row else None.
Proof. intros Hs Hl Hr. unfold authenticates. rewrite Hs, Hl. cbn. by rewrite Hr. Qed.

Lemma plain_name name : (":"%char ∉ name) -> strip_suffix #":app" name = None.
Proof.
  intros Hn. destruct (strip_suffix #":app" name) as [b|] eqn:E; [|done]. apply strip_suffix_Some in E as ->.
  destruct Hn. apply elem_of_app. right. left.
Qed.

(** Who authenticates is a user. *)
Lemma authenticates_user mode dom d u p r :
  authenticates mode dom d u p = Some r -> r ∈ users d /\ exists local, user_named local d = Some r.
Proof.
  unfold authenticates. destruct (match strip_suffix _ u with Some b => (b, true) | None => (u, false) end) as [base is_app].
  destruct (local_username base dom) as [local|]; [|done]. cbn.
  destruct (user_named local d) as [x|] eqn:Ex; [|done]. cbn. intros Ha.
  assert (x = r) as -> by (by destruct (if is_app then _ else _); simplify_eq).
  split; [by apply head_select in Ex as [Hin _]|by exists local].
Qed.

(** A new row that is changed by its name and deleted by its id leaves nobody of the name. *)
Lemma erased_nobody name row (f : user_row -> user_row) rows r :
  exists_row (fun r => u_username r ≟ name) rows = false -> (forall x, u_id (f x) = u_id x /\ u_username (f x) = u_username x) ->
  r ∈ delete_where (fun r => u_id r =? u_id row)%Z (update_where (fun r => u_username r ≟ name) f (rows ++ [row])) ->
  u_username r <> name.
Proof.
  intros Hfree Hf [(r0 & Hin & ->)%elem_of_update_where Hid]%elem_of_delete_where Hr.
  assert (Hn : u_username r0 = name) by (by destruct (bool_decide _); rewrite <- ?Hr, ?(proj2 (Hf r0))).
  apply elem_of_app in Hin as [Hin|Hin%list_elem_of_singleton].
  - apply (proj1 (exists_row_false _ _) Hfree) in Hin. by apply bool_decide_eq_false in Hin.
  - subst r0. apply Z.eqb_neq in Hid. apply Hid. destruct (bool_decide _); [apply Hf|done].
Qed.

(** ** The commands without faults *)

Lemma hash_new_calm password h c :
  argon2_hash (entropy (w_ticks (c_world c)) 16) password = Ok h -> hash_new password c = (Ok h, ticked 1 c).
Proof.
  intros Hh. unfold hash_new. rewrite (st_bind_Ok (on_world (draw 16)) _ c _ (ticked 1 c)) by done.
  unfold lift, hash_password. by rewrite Hh.
Qed.

Lemma set_password_calm name hash s row :
  faults s = [] -> user_named name (db s) = Some row ->
  set_password name hash s = (Ok tt, mkStore (set_users (db s)
    (update_where (fun r => u_username r ≟ name) (with_password hash) (users (db s)))) (saved s) []).
Proof.
  intros Hf Hr. unfold set_password, update_users, execute_n, mbind, st_bind. rewrite exec_calm by done.
  destruct (count_where _ _) eqn:E; [|done]. apply count_where_0 in E. exfalso.
  rewrite <- not_true_iff_false in E. apply E. unfold user_named in Hr. apply head_select in Hr as [Hin Hn].
  apply exists_row_true. eauto.
Qed.

(** Nothing fails, the configuration loads, and the domain key is there. *)
Record calm_tool (config : option str) (ctx : Ctx) (f : File) (c : Cli) : Prop := {
  ct_calm : calm_ctl config ctx c;
  ct_key : fs (c_files c) !! key_path (data_dir ctx) = Some f;
  ct_length : length (f_bytes f) = 32%nat;
}.

Lemma user_create_calm config ctx f name pw key_hex pk h c :
  calm_tool config ctx f c -> wf_db (db (c_store c)) ->
  hex_32 key_hex = Some pk -> name <> [] -> (b_at ∉ name) -> (":"%char ∉ name) -> pw <> [] ->
  argon2_hash (entropy (w_ticks (c_world c)) 16) pw = Ok h ->
  exists_row (fun r => u_username r ≟ name) (users (db (c_store c))) = false ->
  exists now reg c', user_run config (UCreate name (Some pw) key_hex None 0) c = (Ok tt, c') /\ calm_tool config ctx f c'
    /\ saved (c_store c') = saved (c_store c)
    /\ db (c_store c') = created now name h pk None (Some reg) (db (c_store c)).
Proof.
  intros [Hc Hk Hl] Hwf Hpk Hne Hat Hcol Hpw Hh Hfree. unfold user_run.
  rewrite (st_bind_Ok _ _ _ _ _ (ctx_load_calm _ _ _ Hc)). unfold user_create. cbn [default].
  rewrite (st_bind_Ok _ _ c pk c) by (by rewrite Hpk). rewrite (st_bind_Ok _ _ c None c) by done.
  rewrite !(bool_decide_eq_false_2 (_ = [])) by done. cbn [orb].
  rewrite (st_bind_Ok (validate_username name) _ c tt c).
  2: { unfold validate_username. by rewrite !bool_decide_eq_false_2. }
  rewrite (st_bind_Ok _ _ _ _ _ (hash_new_calm _ _ _ Hh)).
  pose proof (tool_key (data_dir ctx) (cfg ctx) (ticked 1 c) f eq_refl (cc_files _ _ _ Hc) Hk Hl) as Hdk.
  destruct ctx as [cf]. cbn [cfg] in Hdk. rewrite (st_bind_Ok _ _ _ _ _ Hdk).
  set (t := w_ticks (c_world c)). set (w := c_world c).
  rewrite (st_bind_Ok (on_world now_secs) _ (ticked 1 c) (w_clock w (S t)) (ticked 2 c)) by done. cbv zeta.
  set (reg := reg_to_json _). set (now := w_clock w (S (S t))).
  assert (Hcr : on_db_now (fun now => create_user_full now name h pk None (Some reg)) (ticked 2 c)
    = (Ok (mkUser (new_uid (db (c_store c))) name pk None (Some reg)),
       put_store (mkStore (created now name h pk None (Some reg) (db (c_store c))) (saved (c_store c)) []) (ticked 3 c))).
  { unfold on_db_now, st_map_err, on_world, on_store_now, mbind, st_bind, now_secs, on_store.
    cbn [w_store c_world ticked set_world tick]. fold w t now. fold (c_store c).
    destruct (c_store c) as [d sv fs0] eqn:Es. pose proof (cc_store _ _ _ Hc) as Hfa. rewrite Es in Hfa. cbn in Hfa. subst fs0.
    unfold c_store in Es. fold w in Es. rewrite Es. rewrite create_calm by done. done. }
  rewrite (st_bind_Ok _ _ _ _ _ Hcr). eexists now, reg, _. split; [reflexivity|].
  split; [|done]. constructor; [|done|done]. apply calm_said, calm_put; [done|]. by apply calm_ticked.
Qed.

Lemma user_passwd_calm config ctx f name pw h row c :
  calm_tool config ctx f c -> local_username name (ctx_domain ctx) = Some name -> user_named name (db (c_store c)) = Some row ->
  argon2_hash (entropy (w_ticks (c_world c)) 16) pw = Ok h ->
  exists c', user_run config (UPasswd name (Some pw)) c = (Ok tt, c') /\ calm_tool config ctx f c'
    /\ saved (c_store c') = saved (c_store c)
    /\ db (c_store c') = set_users (db (c_store c))
         (update_where (fun r => u_username r ≟ name) (with_password h) (users (db (c_store c)))).
Proof.
  intros [Hc Hk Hl] Hloc Hr Hh. unfold user_run. rewrite (st_bind_Ok _ _ _ _ _ (ctx_load_calm _ _ _ Hc)).
  rewrite (st_bind_Ok _ _ _ _ _ (require_user_calm _ _ _ _ _ (cc_store _ _ _ Hc) Hloc Hr)). cbn [default].
  rewrite (st_bind_Ok _ _ _ _ _ (hash_new_calm _ _ _ Hh)).
  pose proof (set_password_calm name h (c_store c) row (cc_store _ _ _ Hc) Hr) as Hs.
  rewrite (st_bind_Ok _ _ _ _ _ (on_db_calm _ (ticked 1 c) _ _ Hs)). eexists. split; [reflexivity|].
  split; [|done]. constructor; [|done|done]. apply calm_said, calm_put; [done|]. by apply calm_ticked.
Qed.

Lemma user_delete_calm config ctx f name row c :
  calm_tool config ctx f c -> saved (c_store c) = None -> user_named name (db (c_store c)) = Some row ->
  exists c', user_run config (UDelete name) c = (Ok tt, c')
    /\ db (c_store c') = erase (u_id row) name (db (c_store c)).
Proof.
  intros [Hc Hk Hl] Hsv Hr. unfold user_run. rewrite (st_bind_Ok _ _ _ _ _ (ctx_load_calm _ _ _ Hc)).
  pose proof (delete_user_calm name (c_store c) row (conj (cc_store _ _ _ Hc) Hsv) Hr) as Hs.
  rewrite (st_bind_Ok _ _ _ _ _ (on_db_calm _ c _ _ Hs)). by eexists.
Qed.

End life.
