(* ===== verification/System.v ===== *)
(** * The whole system

    The machine with its store: the daemon, which is started, stopped and killed, with its
    ZSMTP, control and IMAP connections, and the tool run beside it.  A connection is a
    task of the daemon: a step handles its next command (ZSMTP, control) or its next
    input (IMAP), and connections interleave at these steps; a run of the tool is one
    step. *)

From S2P Require Import Listeners.
From S2P Require Export ImapServerFacts Restart.

Section system.
Context `{Signing} `{Encodings} `{RowIds} `{Templates} `{Argon2} `{Outside} `{KeyCrypto} `{ConfigParser} `{IoTexts}
  `{!CtlOutside} `{!DnsExternals} `{TlsParser} `{TalkdOutside} `{DaemonSocket} `{TomlText} `{Broadcast} `{OsGroups} `{TimeFormat}
  `{Json Attestation} `{Json RegistrationAttestation} `{Json EmulatePayload}.

(** The running daemon, its ZSMTP connections with their sessions and its control
    connections with the bytes that are still to be read, its IMAP connections and its
    IMAP listeners that have ended. An IMAP connection or listener is one of the main
    server or of the plaintext one; only connections of the main server receive the
    events of the delivery sink. *)
Record Sys := mkSys {
  sy_world : World;
  sy_local : Local;
  sy_daemon : option Talkd;
  sy_zsmtp : list (ZsmptSession World * conn);
  sy_control : list conn;
  sy_conns : list (bool * Conn);
  sy_ended : list bool;
}.

Definition sy_store (s : Sys) : Store := w_store (sy_world s).

(** The tasks of the daemon stay, the machine changes. *)
Definition on_machine (w : World) (l : Local) (s : Sys) : Sys :=
  mkSys w l (sy_daemon s) (sy_zsmtp s) (sy_control s) (sy_conns s) (sy_ended s).
Definition set_zsmtp (zs : list (ZsmptSession World * conn)) (s : Sys) : Sys :=
  mkSys (sy_world s) (sy_local s) (sy_daemon s) zs (sy_control s) (sy_conns s) (sy_ended s).
Definition set_control (cs : list conn) (s : Sys) : Sys :=
  mkSys (sy_world s) (sy_local s) (sy_daemon s) (sy_zsmtp s) cs (sy_conns s) (sy_ended s).
Definition set_conns (ks : list (bool * Conn)) (s : Sys) : Sys :=
  mkSys (sy_world s) (sy_local s) (sy_daemon s) (sy_zsmtp s) (sy_control s) ks (sy_ended s).

(** The events broadcast by a step, at each connection of the main server. *)
Definition notify (es : list MailboxEvent) (x : bool * Conn) : bool * Conn :=
  if fst x then (true, foldl (fun k e => set_events (sent e (cn_events k)) k) (snd x) es) else x.
Definition broadcasting (w : World) (s : Sys) : Sys :=
  set_conns (map (notify (drop (length (w_events (sy_world s))) (w_events w))) (sy_conns s)) (on_machine w (sy_local s) s).

(** A task that goes on, or is over. *)
Definition next {A} (i : nat) (x : A) (over : bool) (l : list A) : list A := if over then delete i l else <[i := x]> l.

(** The session of a ZSMTP connection; a connection begins with its greeting. *)
Definition session_of (d : Talkd) : ZsmptSession World :=
  connection_session (td_domain d) (td_key d) (store_sink (td_sink d)) store_user_directory.
Definition begin (d : Talkd) (s : Sys) (a : Arrival) : Sys :=
  match a with
  | ZsmtpConnection bytes =>
      match write_line (greeting (session_of d)) (mkConn bytes []) with
      | (Ok _, c) => set_zsmtp (sy_zsmtp s ++ [(session_of d, c)]) s
      | (Err _, _) => s
      end
  | ControlConnection bytes => set_control (sy_control s ++ [mkConn bytes []]) s
  end.

(** What a listener of the daemon makes of what its [accept] returns; on TCP, over TLS
    when there is a configuration. *)
Inductive Listener := ZsmtpSocket | ZsmtpTcp | ControlSocket.
Definition accepted_by (d : Talkd) (acceptor : ServerConfig -> str -> result IoError str) (l : Listener)
    (x : result IoError str) : list Arrival :=
  match l with
  | ZsmtpSocket => zsmtp_serve [x]
  | ZsmtpTcp => zsmtp_serve_tcp (acceptor <$> td_tls d) [x]
  | ControlSocket => control_serve [x]
  end.

(** The server of a connection. *)
Definition server_of (s : Sys) (main : bool) : option ImapServer :=
  d ← sy_daemon s; if main : bool then Some (td_imap d) else fst <$> td_plain d.

(** A connection to the database that is closed rolls its transaction back. *)
Definition closed (s : Store) : Store := mkStore (durable s) None (faults s).
Definition close_store (w : World) : World := set_store w (closed (w_store w)).
Definition machine_of (s : Sys) : Machine := mkMachine (sy_world s) (sy_local s).
Definition without_daemon (m : Machine) : Sys := mkSys (close_store (m_world m)) (m_local m) None [] [] [] [].

Inductive sys_step (s : Sys) : Sys -> Prop :=
  (** the daemon is started, which may fail *)
  | sys_start k1 k2 cap c r m : sy_daemon s = None -> talkd_run k1 k2 cap c (machine_of s) = (r, m) ->
      sys_step s (mkSys (m_world m) (m_local m) (ok r) [] [] [] [])
  (** the daemon is stopped, or killed; its tasks end with it *)
  | sys_stop d : sy_daemon s = Some d -> sys_step s (without_daemon (talkd_stop d (machine_of s)))
  | sys_kill d : sy_daemon s = Some d -> sys_step s (without_daemon (talkd_kill d (machine_of s)))
  (** a ZSMTP or a control connection is accepted, with the bytes it will bring; or the
      accept or the TLS handshake fails *)
  | sys_arrival d acceptor l x : sy_daemon s = Some d -> sys_step s (foldl (begin d) s (accepted_by d acceptor l x))
  (** a ZSMTP connection handles its next command, a control connection its next line *)
  | sys_zsmtp i z c o z' w' c' : sy_zsmtp s !! i = Some (z, c) -> run_step z (sy_world s) c = (o, z', w', c') ->
      sys_step s (set_zsmtp (next i (z', c') (bool_decide (is_Some o)) (sy_zsmtp s)) (broadcasting w' s))
  | sys_control_line d i c o w' c' : sy_daemon s = Some d -> sy_control s !! i = Some c ->
      SecureMailbox.serve_step (service_handler (td_service d)) (sy_world s) c = (o, w', c') ->
      sys_step s (set_control (next i c' (bool_decide (is_Some o)) (sy_control s)) (broadcasting w' s))
  (** an IMAP client connects, as long as no accept has failed *)
  | sys_accept main v : server_of s main = Some v -> main ∉ sy_ended s ->
      sys_step s (set_conns (sy_conns s ++ [(main, accept v (sy_store s))]) s)
  | sys_accept_fails main v : server_of s main = Some v ->
      sys_step s (mkSys (sy_world s) (sy_local s) (sy_daemon s) (sy_zsmtp s) (sy_control s) (sy_conns s) (main :: sy_ended s))
  (** an IMAP connection handles its next input on the store *)
  | sys_imap i main k k' : sy_conns s !! i = Some (main, k) -> own_step (set_cn_store (sy_store s) k) k' ->
      sys_step s (set_conns (<[i := (main, k')]> (sy_conns s)) (on_machine (set_store (sy_world s) (cn_store k')) (sy_local s) s))
  (** a command of the tool, which closes its connection to the database at the end *)
  | sys_tool config command input r c' :
      ctl_run config command (mkCli (sy_world s) (l_files (sy_local s)) input []) = (r, c') ->
      sys_step s (on_machine (close_store (c_world c')) (set_l_files (c_files c') (sy_local s)) s)
  (** statements and file operations to come fail *)
  | sys_faults fs1 fs2 :
      sys_step s (on_machine (set_store (sy_world s) (mkStore (db (sy_store s)) (saved (sy_store s)) fs1))
        (set_l_files (mkFiles (fs (l_files (sy_local s))) fs2 (fs_default_mode (l_files (sy_local s)))) (sy_local s)) s).

End system.

Section facts.
Context `{Signing} `{Encodings} `{RowIdsLaws} `{Templates} `{Argon2} `{Outside} `{KeyCrypto} `{ConfigParser} `{IoTexts}
  `{!CtlOutside} `{!DnsExternals} `{TlsParser} `{TalkdOutside} `{DaemonSocket} `{TomlText} `{Broadcast} `{OsGroups} `{TimeFormat}
  `{Json Attestation} `{Json RegistrationAttestation} `{Json EmulatePayload}.

Lemma notify_session es x : cn_session (snd (notify es x)) = cn_session (snd x) /\ fst (notify es x) = fst x.
Proof.
  destruct x as [[] k]; [|done]. cbn. split; [|done]. revert k. induction es as [|e es IH]; intros k; cbn; [done|]. by rewrite IH.
Qed.

(** Who a connection acts for: nobody yet, or a user authenticated on a store the
    system had on the way, under the daemon that runs now. *)
Definition vouched (s0 s : Sys) (x : bool * Conn) : Prop :=
  exists v, server_of s (fst x) = Some v
  /\ im_auth_mode (cn_session (snd x)) = is_auth_mode v /\ im_domain (cn_session (snd x)) = is_domain v
  /\ (im_state (cn_session (snd x)) = NotAuthenticated -> cn_session (snd x) = new_session v)
  /\ (im_state (cn_session (snd x)) <> NotAuthenticated -> exists s1 u p row,
       rtc sys_step s0 s1 /\ rtc sys_step s1 s /\ sy_daemon s1 = sy_daemon s
       /\ authenticates (is_auth_mode v) (is_domain v) (db (sy_store s1)) u p = Some row
       /\ im_user_id (cn_session (snd x)) = u_id row /\ im_username (cn_session (snd x)) = u_username row).

Lemma vouched_step s0 s s' x x' :
  vouched s0 s x -> sys_step s s' -> sy_daemon s' = sy_daemon s ->
  cn_session (snd x') = cn_session (snd x) -> fst x' = fst x -> vouched s0 s' x'.
Proof.
  intros (v & Hv & Hm & Hd & Hn & Ha) Hs Hsame Hx Hf. exists v. unfold server_of. rewrite Hx, Hf, Hsame. repeat (split; [done|]).
  intros Hl. destruct (Ha Hl) as (s1 & u & p & row & ? & ? & ? & ?). exists s1, u, p, row.
  split; [done|]. split; [|done]. by eapply rtc_r.
Qed.

Lemma vouched_own s0 s s' main k k' :
  rtc sys_step s0 s -> sys_step s s' -> sy_daemon s' = sy_daemon s -> vouched s0 s (main, k) ->
  safe (cn_session k, sy_store s) (cn_session k', cn_store k') -> vouched s0 s' (main, k').
Proof.
  intros Hr Hs Hsame (v & Hv & Hm & Hd & Hn & Ha) [_ Lg No Au [Cm Cd]]; cbn in *. exists v. unfold server_of. cbn. rewrite Hsame.
  split; [done|]. split; [congruence|]. split; [congruence|]. split.
  - intros Hn'. destruct (No Hn') as [He _]. rewrite He. apply Hn. by rewrite <- He.
  - intros Hl'. destruct (decide (im_state (cn_session k) = NotAuthenticated)) as [Hc|Hc].
    + destruct (Au Hc Hl') as (u & p & row & Hau & Hi & Hu). exists s, u, p, row. rewrite <- Hm, <- Hd.
      repeat split; [done| |done..]. by apply rtc_once.
    + destruct (Ha Hc) as (s1 & u & p & row & ? & ? & ? & ? & ? & ?). destruct (Lg Hc) as (Li & Lu & _).
      exists s1, u, p, row. repeat split; [done| |done|done|congruence..]. by eapply rtc_r.
Qed.

(** Closing keeps the schema. *)
Lemma inv_closed s : inv wf_db s -> inv wf_db (closed s).
Proof.
  intros [Hd Hs]. split; [|done]. unfold closed, durable. cbn. destruct (saved s) as [d|]; [by apply Hs|done].
Qed.

(** Accepted connections. *)
Definition same_but_tasks (s s' : Sys) : Prop :=
  sy_world s' = sy_world s /\ sy_local s' = sy_local s /\ sy_daemon s' = sy_daemon s /\ sy_conns s' = sy_conns s.
Lemma begin_same d arrivals s : same_but_tasks s (foldl (begin d) s arrivals).
Proof.
  revert s. induction arrivals as [|a arrivals IH]; intros s; cbn; [done|].
  assert (Hb : same_but_tasks s (begin d s a)) by (unfold begin; repeat case_match; done).
  destruct Hb as (? & ? & ? & ?), (IH (begin d s a)) as (? & ? & ? & ?). repeat split; congruence.
Qed.

(** A ZSMTP connection has a session of the running daemon, that is authenticated exactly
    while it has a peer. *)
Definition served (s : Sys) : Prop := forall i z c, sy_zsmtp s !! i = Some (z, c) ->
  exists d, sy_daemon s = Some d /\ same_config (session_of d) z /\ session_ok z.
Lemma session_of_ok d : session_ok (session_of d).
Proof. split; [split|]; intros Hx; try discriminate Hx; by destruct Hx. Qed.

Lemma begin_served d arrivals s : sy_daemon s = Some d -> served s -> served (foldl (begin d) s arrivals).
Proof.
  revert s. induction arrivals as [|a arrivals IH]; intros s Hd Hs; cbn; [done|].
  destruct (begin_same d [a] s) as (_ & _ & Hd' & _). cbn in Hd'. apply IH; [congruence|].
  destruct a as [bytes|bytes]; cbn [begin]; [|done].
  destruct (write_line _ _) as [[u|e] c0]; [|done]. intros i z c. cbn [set_zsmtp sy_zsmtp sy_daemon]. intros [Hz|[_ Hz]]%lookup_app_Some.
  - exact (Hs i z c Hz).
  - apply list_lookup_singleton_Some in Hz as [_ [= <- <-]]. exists d. split; [done|]. split; [done|]. apply session_of_ok.
Qed.

Lemma next_lookup {A} i j (x y : A) over l : next i x over l !! j = Some y -> y = x \/ exists k, l !! k = Some y.
Proof.
  unfold next. destruct over.
  - intros Hy%list_elem_of_lookup_2. right. apply list_elem_of_lookup.
    exact (elem_of_sublist _ _ _ Hy (sublist_delete l i)).
  - intros [(-> & <- & _)|[_ Hy]]%list_lookup_insert_Some; eauto.
Qed.

(** What a step keeps. *)
Lemma step_keeps s s' : sys_step s s' -> inv wf_db (sy_store s) /\ served s -> inv wf_db (sy_store s') /\ served s'.
Proof.
  intros Hs [Hi Hv]. destruct Hs as [k1 k2 cap c r m Hn Hr|d Hd|d Hd|d acceptor l x Hd|i z c o z' w' c' Hz Hr
    |d i c o w' c' Hd Hc Hr|main v Hx He|main v Hx|i main k k' Hk Hown|config command input r c' Hr|fs1 fs2];
    try (split; [|exact Hv]); try done; try (split; [by apply inv_closed|by intros ? ? ?]).
  - split; [|by intros ? ? ?]. apply mkeeps_run in Hr as [Hs _]. unfold sy_store in *. cbn in *. by rewrite Hs.
  - split; [|by apply begin_served]. destruct (begin_same d (accepted_by d acceptor l x) s) as (Hw & _).
    unfold sy_store. by rewrite Hw.
  - destruct (Hv i z c Hz) as (d & Hd & Hc & Ho).
    destruct (run_step_preserves (fun z w => (daemon_objects (td_sink d) z /\ inv wf_db (w_store w))
      /\ same_config (session_of d) z /\ session_ok z) z (sy_world s) c o z' w' c') as ([_ Hi'] & Hc' & Ho').
    + intros cmd z0 w0 r0 z1 w1 Hh (Hobj & Hsame & Hok). split; [by eapply handle_keeps|].
      split; [|by eapply handle_session_ok]. etrans; [exact Hsame|]. by eapply handle_config.
    + exact Hr.
    + split; [|done]. split; [|done]. destruct Hc as (_ & _ & ? & ? & ?). by repeat split.
    + split; [done|]. intros j z2 c2. cbn. intros [[= -> ->]|[k Hk]]%next_lookup; [eauto|exact (Hv k z2 c2 Hk)].
  - by eapply control_step_keeps.
  - apply own_step_safe in Hown as [[Hsv Hc] _ _ _ _]; cbn in *. destruct Hi as [Hd Hs].
    split; [by apply (cf_schema _ _ _ Hc)|]. cbn. by rewrite Hsv.
  - apply inv_closed. pose proof (ctl_confined config command _ r c' Hr) as Hc. unfold sy_store in *. cbn in *.
    destruct (reads_only command); [|destruct (edits_files command)].
    + injection Hc as Hd Hs _. unfold inv, c_store in *. cbn in *. by rewrite Hd, Hs.
    + destruct Hc as [Hd Hs]. unfold inv, c_store in *. cbn in *. by rewrite Hd, Hs.
    + by apply Hc.
Qed.

(** Connections are vouched for along the way. *)
Lemma conns_vouched s0 s s' :
  rtc sys_step s0 s -> sys_step s s' -> (forall i x, sy_conns s !! i = Some x -> vouched s0 s x) ->
  forall i x, sy_conns s' !! i = Some x -> vouched s0 s' x.
Proof.
  intros Hr Hs IH i x Hx. pose proof Hs as Hs0.
  assert (Hmap : forall es, sy_daemon s' = sy_daemon s -> sy_conns s' = map (notify es) (sy_conns s) -> vouched s0 s' x).
  { intros es Hd He. rewrite He, list_lookup_fmap in Hx. destruct (sy_conns s !! i) as [x0|] eqn:Ex; [|done]. cbn in Hx. injection Hx as <-.
    destruct (notify_session es x0) as [? ?]. by eapply vouched_step; [by eapply IH|..]. }
  destruct Hs as [k1 k2 cap c r m Hn Hrun|d Hd|d Hd|d acceptor l y Hd|j z c o z' w' c' Hz Hrun
    |d j c o w' c' Hd Hc Hrun|main v Hv He|main v Hv|j main k k' Hk Hown|config command input r c' Hrun|fs1 fs2];
    try done; try (by eapply vouched_step; [by eapply IH|..]); try (by eapply Hmap).
  - destruct (begin_same d (accepted_by d acceptor l y) s) as (_ & _ & Hd' & Hc'). rewrite Hc' in Hx. by eapply vouched_step; [by eapply IH|..].
  - apply lookup_app_Some in Hx as [Hx|[_ Hx]].
    + by eapply vouched_step; [by eapply IH|..].
    + apply list_lookup_singleton_Some in Hx as [_ <-]. exists v. by repeat split.
  - cbn [set_conns sy_conns] in Hx. destruct (decide (i = j)) as [->|Hne].
    + rewrite list_lookup_insert_eq in Hx by (by eapply lookup_lt_Some). injection Hx as <-.
      eapply vouched_own; [exact Hr|exact Hs0|done|by eapply IH|]. exact (own_step_safe _ _ Hown).
    + rewrite list_lookup_insert_ne in Hx by done. by eapply vouched_step; [by eapply IH|..].
Qed.

(** A turn of a session that is not authenticated leaves the machine alone. *)
Lemma turn_unauthenticated (z : ZsmptSession World) w c o z' w' c' :
  run_step z w c = (o, z', w', c') -> state z <> Authenticated -> w' = w.
Proof.
  intros Hr Hn. apply run_step_handles in Hr as [[_ ->]|(line & cmd & r & _ & Hh)]; [done|]. by eapply handle_unauthenticated.
Qed.

(** A connection that nothing interrupts is served as a whole: [talkd_arrive] is one of the
    ways the system can go. *)
Definition left_by (s s' : Sys) (w : World) : Prop :=
  rtc sys_step s s' /\ sy_world s' = w /\ sy_local s' = sy_local s /\ sy_daemon s' = sy_daemon s.
Lemma next_last {A} (l : list A) (x y : A) over :
  next (length l) y over (l ++ [x]) = if over then l else l ++ [y].
Proof.
  unfold next. destruct over.
  - rewrite delete_middle. apply app_nil_r.
  - rewrite insert_app_r_alt by lia. by rewrite Nat.sub_diag.
Qed.
Lemma zsmtp_alone fuel s zs z c r z' w' c' :
  sy_zsmtp s = zs ++ [(z, c)] -> run_loop fuel z (sy_world s) c = Some (r, z', w', c') ->
  exists s', left_by s s' w' /\ sy_zsmtp s' = zs /\ sy_control s' = sy_control s.
Proof.
  revert s z c. induction fuel as [|f IH]; intros s z c Hz; [done|]. cbn [run_loop].
  destruct (run_step z (sy_world s) c) as [[[o z1] w1] c1] eqn:E. intros Hr.
  assert (Hs : sys_step s (set_zsmtp (if bool_decide (is_Some o) then zs else zs ++ [(z1, c1)]) (broadcasting w1 s))).
  { rewrite <- (next_last zs (z, c)), <- Hz. eapply sys_zsmtp; [|exact E]. by rewrite Hz, list_lookup_middle. }
  destruct o as [x|].
  - injection Hr as -> -> -> ->. eexists. split; [split; [by apply rtc_once|]|]; done.
  - destruct (IH (set_zsmtp (zs ++ [(z1, c1)]) (broadcasting w1 s)) z1 c1) as (s' & (Ht & ? & ? & ?) & ? & ?); [done|done|].
    exists s'. split; [split; [by eapply rtc_l|]|]; done.
Qed.
Lemma control_alone fuel s d cs c r w' c' :
  sy_daemon s = Some d -> sy_control s = cs ++ [c] -> serve_loop (service_handler (td_service d)) fuel (sy_world s) c = Some (r, w', c') ->
  exists s', left_by s s' w' /\ sy_zsmtp s' = sy_zsmtp s /\ sy_control s' = cs.
Proof.
  revert s c. induction fuel as [|f IH]; intros s c Hd Hc; [done|]. cbn [serve_loop].
  destruct (SecureMailbox.serve_step (service_handler (td_service d)) (sy_world s) c) as [[o w1] c1] eqn:E. intros Hr.
  assert (Hs : sys_step s (set_control (if bool_decide (is_Some o) then cs else cs ++ [c1]) (broadcasting w1 s))).
  { rewrite <- (next_last cs c), <- Hc. eapply sys_control_line; [exact Hd| |exact E]. by rewrite Hc, list_lookup_middle. }
  destruct o as [x|].
  - injection Hr as -> -> ->. eexists. split; [split; [by apply rtc_once|]|]; done.
  - destruct (IH (set_control (cs ++ [c1]) (broadcasting w1 s)) c1) as (s' & (Ht & ? & ? & ?) & ? & ?); [done|done|done|].
    exists s'. split; [split; [by eapply rtc_l|]|]; done.
Qed.
Lemma arrival_alone s d acceptor l x a :
  sy_daemon s = Some d -> accepted_by d acceptor l x = [a] ->
  exists s', left_by s s' (talkd_arrive d a (sy_world s)) /\ sy_zsmtp s' = sy_zsmtp s /\ sy_control s' = sy_control s.
Proof.
  intros Hd Ha. pose proof (sys_arrival s d acceptor l x Hd) as Hs. rewrite Ha in Hs. cbn [foldl] in Hs.
  destruct a as [bytes|bytes]; cbn [begin] in Hs; unfold talkd_arrive, arrive.
  - destruct (run_total (session_of d) (sy_world s) (mkConn bytes [])) as [[[[r z'] w'] c'] Hr].
    unfold serve_connection. fold (session_of d). rewrite Hr. unfold run in Hr.
    destruct (write_line _ _) as [[u|e] c]; [|injection Hr as _ _ <- _; by exists s].
    destruct (zsmtp_alone _ (set_zsmtp (sy_zsmtp s ++ [(session_of d, c)]) s) _ _ _ _ _ _ _ eq_refl Hr) as (s' & (Ht & ? & ? & ?) & ? & ?).
    exists s'. split; [split; [by eapply rtc_l|]|]; done.
  - destruct (serve_loop_total (service_handler (td_service d)) (S (length bytes)) (sy_world s) (mkConn bytes [])) as [[[r w'] c'] Hr];
      [cbn; lia|]. unfold SecureMailbox.serve. cbn [rx] in *. rewrite Hr.
    destruct (control_alone _ (set_control (sy_control s ++ [mkConn bytes []]) s) d _ _ _ _ _ Hd eq_refl Hr) as (s' & (Ht & ? & ? & ?) & ? & ?).
    exists s'. split; [split; [by eapply rtc_l|]|]; done.
Qed.

End facts.
