(* ===== verification/ToyCtl.v ===== *)
(** * A small system with the tool

    Implementations of the interfaces of the tool and of the daemon's start, and the
    inputs on which the theorems about them are applied. *)

From S2P Require Import Sink.
From S2P Require Export ToyImap KeyFacts ConfigFacts AccountLife System.

Module ToyCtl.
Import Toy ToyJson ToyKeys ToyStore ToyDelivery ToyDaemon ToyImap.

(** Random bytes that differ from draw to draw, and a peer that only greets. *)
#[export] Instance outside : Outside := {|
  entropy := fun t n => take n (show_nat t ++ replicate n "r"%char);
  dial := fun _ _ => Ok (mkConn (line_bytes #"ZSMTP 1.0 b.org") []);
  outside_texts := {| io_text := #"io"; sql_text := fun _ => #"sql" |}; version := #"0.1.0" |}.
#[export] Instance outside_laws : OutsideLaws.
Proof. constructor. intros t n. cbn. rewrite length_take, length_app, length_replicate. lia. Qed.

(** The counterparty from the environment; a plaintext IMAP server is asked for. *)
#[export] Instance dns : DnsExternals := {|
  env_var := fun n =>
    if n ≟ COUNTERPARTY_DOMAIN_ENV then Some #"b.org"
    else if n ≟ COUNTERPARTY_PORT_SMTP then Some #"2525"
    else if n ≟ COUNTERPARTY_DOMAINKEY_HEX then Some (hex (pad32 #"key of b"))
    else if n ≟ #"UNSAFE_NO_TLS" then Some #"1" else None;
  http_get := fun _ => Err #"down";
  json_tree := fun _ => Err #"no json"; json_mismatch := [];
  key_from_bytes := fun b => Ok (vkey b);
  hex_message := fun _ => []; b64_message := fun _ => [] |}.

(** Documents are flat tables of strings, written as a list of fields. *)
Fixpoint pairs (l : list str) : list (str * Toml) :=
  match l with k :: v :: r => (k, TString v) :: pairs r | _ => [] end.
Fixpoint flat (l : list (str * Toml)) : option (list str) :=
  match l with
  | [] => Some []
  | (k, TString v) :: r => f ← flat r; Some (k :: v :: f)
  | _ => None
  end.
Lemma pairs_flat l f : flat l = Some f -> pairs f = l.
Proof.
  revert f. induction l as [|[k [v| |]] l IH]; intros f; cbn; [by intros [= <-]| |done|done].
  destruct (flat l) as [g|]; [|done]. intros [= <-]. cbn. by rewrite (IH g).
Qed.
#[export] Instance toml : TomlText := {|
  toml_value := fun s => match dec_fields s with Some l => Ok (TTable (pairs l)) | None => Err #"no document" end;
  toml_pretty := fun v => match v with
                          | TTable l => match flat l with Some f => Ok (enc_fields f) | None => Err #"cannot print" end
                          | _ => Err #"cannot print"
                          end;
  toml_display := fun v => match v with TString s => s | _ => #"?" end |}.
#[export] Instance toml_laws : TomlLaws.
Proof.
  split.
  - intros s v. cbn. destruct (dec_fields s) as [l|]; [|done]. intros [= <-]. eauto.
  - intros [s|l|t] out; cbn; try done. destruct (flat l) as [f|] eqn:E; [|done]. intros [= <-].
    split; [apply utf8_valid_ascii, enc_fields_ascii|]. rewrite dec_enc_fields. by rewrite (pairs_flat _ _ E).
Qed.

Definition field (k : str) (l : list str) : str :=
  match assoc_get k (pairs l) with Some (TString v) => v | _ => [] end.
#[export] Instance parser : ConfigParser := {|
  toml_document := fun s => match dec_fields s with
    | None => Err #"no document"
    | Some l => Ok (mkDocument (field #"data_dir" l) (field #"domain" l) None (mkNetwork #"idx" (field #"endpoint" l))
                      (mkSockets #"/run/s" #"/run/z" #"0.0.0.0:465" #"0.0.0.0:993") (mkTls #"cert" #"key") None None #"w" None None)
    end;
  custom_error := fun _ s => s; escape_char := fun s => s |}.
#[export] Instance io_texts : IoTexts := {| io_error_text := fun _ => #"io" |}.
#[export] Instance ctl_outside : CtlOutside := {|
  open_store := fun _ => Ok tt; prompt_password := fun _ => []; signing_key_of := skey; verifying_key_bytes := fun k => k |}.
#[export] Instance daemon_socket : DaemonSocket := {| connect_socket := fun _ => Err #"refused" |}.
#[export] Instance tls_parser : TlsParser := {|
  Cert := str; PrivateKey := str; ServerConfig := str;
  pem_certs := fun s => Some [s]; pem_private_key := fun s => Some (Some s); single_cert := fun _ k => Some k |}.
#[export] Instance talkd_outside : TalkdOutside := {| to_tokio := fun _ => Ok tt; bind_tcp := fun _ => Ok tt |}.

(** ** A machine *)

Definition config_text : str := enc_fields [ #"data_dir"; #"/d"; #"domain"; #"a.org"].
Definition the_config : Config := match parse config_text with Ok c => c | Err _ => mkConfig (mkGeneral [] [] []) (mkNetwork [] []) (mkSockets [] [] [] []) (mkTls [] []) (mkMailboxCfg false [] [] None) (mkAuth CfgDatabase) end.
Definition key_file : File := mkFile (pad32 #"domain key") OWNER_ONLY.
Definition files0 : Files := mkFiles
  (<[ #"config.toml" := mkFile config_text WORLD_READABLE]> (<[ #"/d/domainkey" := key_file]>
    (<[ #"plain" := mkFile #"some data" WORLD_READABLE]> ∅))) [] WORLD_READABLE.
Definition world1 : World := mkWorld store1 [] (fun n => 4000 + Z.of_nat n)%Z 0.
Definition cli0 : Cli := mkCli world1 files0 [] [].
Definition ctx0 : Ctx := mkCtx the_config.

Lemma config_text_utf8 : utf8_valid config_text = true.
Proof. by vm_compute. Qed.

Lemma calm0 : calm_ctl None ctx0 cli0.
Proof.
  constructor; [by vm_compute|done| |done].
  exists (mkFile config_text WORLD_READABLE). split; [by vm_compute|]. split; [exact config_text_utf8|by vm_compute].
Qed.
Lemma calm_tool0 : calm_tool None ctx0 key_file cli0.
Proof. constructor; [exact calm0|by vm_compute|done]. Qed.
Lemma loads0 : ctx_load None cli0 = (Ok ctx0, cli0).
Proof. apply ctx_load_calm, calm0. Qed.

(** ** The tool *)

(** A command that only shows changes nothing. *)
Lemma ctl_confined_witness :
  view (snd (ctl_run None (CtlUser (UShow alice)) cli0)) = view cli0
  /\ is_ok (fst (ctl_run None (CtlUser (UShow alice)) cli0)) = true
  /\ inv wf_db (c_store (snd (ctl_run None (CtlUser (UDelete alice)) cli0))).
Proof.
  split; [|split; [by vm_compute|]].
  - exact (ctl_confined None (CtlUser (UShow alice)) cli0 _ _ (surjective_pairing _)).
  - exact (proj2 (ctl_confined None (CtlUser (UDelete alice)) cli0 _ _ (surjective_pairing _)) store1_inv).
Defined.

Lemma store1_no_shares : shares (db store1) = [].
Proof. by vm_compute. Qed.

Lemma app_passwords_witness :
  exists c', ctl_run None (CtlShare (ShInit alice 2)) cli0 = (Ok tt, c')
  /\ c_stdout c' = c_stdout cli0 ++ issue_lines (AccountFacts.issue 0 2) ++ #"ok: registered " ++ show_nat 2 ++ #" shares" ++ [b_nl].
Proof.
  destruct (app_passwords None ctx0 alice alice (mkUserRow 1 alice #"salt$secret" #"k1" 1000 None None) 2 cli0 calm0) as (c' & Hr & Ho & _).
  - by vm_compute.
  - by vm_compute.
  - lia.
  - apply (bool_decide_unpack _). by vm_compute.
  - intros id _. change (shares (db (c_store cli0))) with (shares (db store1)). by rewrite store1_no_shares.
  - exists c'. by split.
Defined.

(** An inbound and an outbound transaction. *)
Definition ops2 : list Op :=
  [OpTxCreate 3000 (mkNewTx MailStore.In Opaque #"bob@b.org" #"alice@a.org" #"5" None #"m-in" None #"sealed");
   OpTxCreate 3001 (mkNewTx Out Sent #"alice@a.org" #"bob@b.org" #"7" None #"m-out" (Some #"body") #"sealed")].
Definition with_store (s : Store) : Cli := set_world (set_store world1 s) cli0.
Definition cli2 : Cli := with_store (mkStore (db (run_ops ops2 store1)) None []).

Lemma loads2 fs : ctx_load None (with_store (mkStore (db (run_ops ops2 store1)) None fs)) =
  (Ok ctx0, with_store (mkStore (db (run_ops ops2 store1)) None fs)).
Proof. reflexivity. Qed.

(** Resolving with a binding, with the third statement failing: bound, not resolved. *)
Definition cut : Cli := with_store (mkStore (db (run_ops ops2 store1)) None [false; false; true]).
Lemma ledger_commands_witness :
  (exists r c', ctl_run None (CtlTx (action_of 1 (EdResolve (Some #"u1")))) cut = (r, c')
    /\ is_ok r = false
    /\ db (c_store c') = edit_tx 1 [tx_with_binding (Some #"u1") 4000] (db (c_store cut)))
  /\ fst (ctl_run None (CtlTx (action_of 2 EdSpent)) cli2) = Err (CeMessage #"only inbound transactions can be spent").
Proof.
  split.
  - destruct (ctl_run None (CtlTx (action_of 1 (EdResolve (Some #"u1")))) cut) as [r c'] eqn:E.
    pose proof (ledger_commands None ctx0 1 (EdResolve (Some #"u1")) cut r c' (loads2 [false; false; true]) E) as Hl.
    assert (Hr : is_ok r = false) by (change r with (fst (r, c')); rewrite <- E; by vm_compute).
    assert (Hp : (row ← ok_or (find_tx 1 (db (c_store cut))) ( #"no such transaction: " ++ show_Z 1); tx_plan (EdResolve (Some #"u1")) row)
      = Ok [tx_with_binding (Some #"u1"); tx_with_state Resolved]) by (by vm_compute).
    cbv zeta in Hl. rewrite Hp in Hl. destruct Hl as (k & Hk & (Hd & _ & _) & Hiff & _).
    assert (Hone : transactions (db (c_store c')) = transactions (edit_tx 1 [tx_with_binding (Some #"u1") 4000] (db (c_store cut))))
      by (change c' with (snd (r, c')); rewrite <- E; by vm_compute).
    exists r, c'. split; [exact eq_refl|]. split; [exact Hr|].
    clear E Hp. destruct k as [|[|[|k]]]; [| |exfalso; rewrite (proj2 Hiff eq_refl) in Hr; discriminate Hr|cbn in Hk; lia].
    + exfalso. rewrite Hd in Hone. revert Hone. vm_compute. done.
    + rewrite Hd. reflexivity.
  - destruct (ctl_run None (CtlTx (action_of 2 EdSpent)) cli2) as [r c'] eqn:E.
    pose proof (ledger_commands None ctx0 2 EdSpent cli2 r c' (loads2 []) E) as Hl.
    assert (Hp : (row ← ok_or (find_tx 2 (db (c_store cli2))) ( #"no such transaction: " ++ show_Z 2); tx_plan EdSpent row)
      = Err #"only inbound transactions can be spent") by (by vm_compute).
    cbv zeta in Hl. rewrite Hp in Hl. exact (proj2 (proj2 Hl) eq_refl).
Defined.

(** The tool alone and the daemon, with a peer that greets and then is silent. *)
Lemma direct_send_is_send_witness :
  snd (deliver_invoice ctx0 alice #"bob@b.org" #"m9" Sealed #"blob" cli0)
  = set_world (snd (Secure.send (service_of the_config (skey #"key of a")) alice #"bob@b.org" #"m9" Sealed #"blob" world1)) cli0.
Proof.
  pose proof (direct_send_is_send the_config (skey #"key of a") alice #"bob@b.org" #"m9" Sealed #"blob" cli0 ltac:(done)) as Hx.
  change (c_world cli0) with world1 in Hx. change (mkCtx the_config) with ctx0 in Hx.
  destruct (Secure.send _ _ _ _ _ _ world1) as [rd wd]. destruct (deliver_invoice ctx0 _ _ _ _ _ _) as [rt ct].
  cbv zeta in Hx.
  change (nth_error (split b_at #"bob@b.org") 1) with (Some #"b.org") in Hx. cbv beta iota in Hx.
  assert (Hk : doh_resolving_key DOH_ENDPOINT #"b.org" = Ok (vkey (pad32 #"key of b"))) by (by vm_compute).
  assert (Hep : endpoint_of the_config #"b.org" = Ok #"127.0.0.1:2525") by (by vm_compute).
  rewrite Hk, Hep in Hx. cbv beta iota in Hx.
  destruct (mbind _ (dial #"127.0.0.1:2525" #"b.org")) as [client|e] eqn:Ec; [exact (proj1 Hx)|].
  revert Ec. vm_compute. done.
Defined.

(** ** Files *)


(** A new domain is written and read back; an empty one is refused. *)
Lemma config_set_spec_witness :
  (exists c', config_run None (CfgSet #"domain" #"c.org") cli0 = (Ok tt, c')
    /\ config_run None (CfgGet #"domain") c' = (Ok tt, said ( #"c.org" ++ [b_nl]) c'))
  /\ exists e, config_run None (CfgSet #"domain" []) cli0 = (Err e, cli0).
Proof.
  assert (Hu := config_text_utf8).
  assert (Ht : toml_value config_text = Ok (TTable [( #"data_dir", TString #"/d"); ( #"domain", TString #"a.org")])) by (by vm_compute).
  split.
  - pose proof (proj1 (config_set_spec None #"domain" #"c.org" config_text _ cli0 eq_refl ltac:(by vm_compute) Hu Ht)) as Hx.
    destruct Hx as (_ & c' & Hr & _ & _ & _ & Hget & _). exists c'. split; [exact Hr|].
    assert (Hp : parse_value #"c.org" = TString #"c.org") by (by vm_compute). rewrite Hp in Hget. exact Hget.
  - pose proof (proj1 (config_set_spec None #"domain" [] config_text _ cli0 eq_refl ltac:(by vm_compute) Hu Ht)) as Hx.
    eexists. exact Hx.
Defined.

(** ** Accounts *)


(** ** The daemon *)

Lemma domain_key_kept_witness :
  exists s', load_or_create_domain_key #"/new" (mkMachine world1 (mkLocal files0 ∅ ∅)) = (Ok (signing_key_of (entropy 0 32)), s')
  /\ load_or_create_domain_key #"/new" s' = (Ok (signing_key_of (entropy 0 32)), s').
Proof.
  pose proof (domain_key_kept #"/new" (mkMachine world1 (mkLocal files0 ∅ ∅)) eq_refl) as Hx. cbv zeta in Hx.
  assert (Hn : fs (m_files (mkMachine world1 (mkLocal files0 ∅ ∅))) !! key_path #"/new" = None) by (by vm_compute).
  rewrite Hn in Hx. destruct Hx as (s' & H1 & [H2 _] & _). exists s'. by split.
Defined.

Lemma bind_keeps_live_witness :
  exists schedule s', race #"/run/s" (mkLocal files0 {[ #"/run/s" := 7%nat ]} ∅) schedule
    = (BindDone (Ok (mkListener #"/run/s" 1)), BindDone (Ok (mkListener #"/run/s" 2)), s')
  /\ l_socks s' !! #"/run/s" = Some 2%nat /\ 1%nat ∈ l_open s'.
Proof.
  apply (proj2 (proj2 (bind_keeps_live #"/run/s"))); [done|by vm_compute|by vm_compute].
Defined.

(** The service answers as documented, with the key of the domain: it is not found. *)
Definition dns_service : DnsExternals := {|
  env_var := fun _ => None;
  http_get := fun _ => Ok #"reply";
  json_tree := fun _ => Ok (JvObject [( #"Status", JvInt 0); ( #"TC", JvBool false);
    ( #"Answer", JvArray [JvObject [( #"name", JvString #"_zpayments._tcp.c.org"); ( #"type", JvInt 16); ( #"TTL", JvInt 300);
       ( #"data", JvString (b64_encode (pad32 #"key of c")))]])]);
  json_mismatch := [];
  key_from_bytes := fun b => Ok (vkey b);
  hex_message := fun _ => []; b64_message := fun _ => [] |}.
Lemma discovery_only_counterparty_witness :
  exists w, Secure.send (@service_of _ _ dns_service the_config (skey #"domain key")) alice #"bob@c.org" #"m9" Sealed #"body" world1
    = (Err #"cannot resolve domain key: no domain key found for c.org", w)
  /\ is_ok (@doh_resolving_key _ dns_service _ DOH_ENDPOINT #"c.org") = false.
Proof.
  destruct (@discovery_only_counterparty _ _ _ _ _ dns_service _ the_config (skey #"domain key")
    alice #"bob@c.org" #"m9" Sealed #"body" #"c.org") as (e & He & _ & Hsend & _).
  - intros url b tree _ [= <-]. by vm_compute.
  - done.
  - by vm_compute.
  - by vm_compute.
  - assert (e = NotFound #"c.org") as -> by (vm_compute in He; by injection He as <-).
    eexists. split; [exact (Hsend world1)|by vm_compute].
Defined.

(** The daemon starts, is refused a second time, is killed and starts again. *)
Definition machine0 : Machine := mkMachine world1 (mkLocal files0 ∅ ∅).
(** The daemon and the machine after the start, evaluated. *)
Definition run0 : result StartError Talkd * Machine := talkd_run 1 2 None the_config machine0.
Definition key1 : SigningKey :=
  Eval vm_compute in (match fst run0 with Ok d => td_key d | Err _ => skey [] end).
Definition daemon1 : Talkd := started 1 2 None the_config key1 None.
Definition local1 : Local := Eval vm_compute in m_local (snd run0).
Definition ticks1 : nat := Eval vm_compute in w_ticks (m_world (snd run0)).
Definition machine1 : Machine := mkMachine (mkWorld store1 [] (w_clock world1) ticks1) local1.
Lemma start0 : talkd_run 1 2 None the_config machine0 = (Ok daemon1, machine1).
Proof. by vm_compute. Qed.

Lemma daemon_restarts_witness :
  fst (talkd_run 3 4 None the_config machine1) = Err (StSocket (Bind #"/run/s" IoFailed))
  /\ talkd_run 1 2 None the_config (talkd_kill daemon1 machine1) = (Ok daemon1, machine1).
Proof.
  destruct (daemon_restarts 1 2 None the_config machine0 daemon1 machine1) as (_ & Href & _ & Hkill & _);
    [by vm_compute..|exact start0|].
  split; [by rewrite Href|exact Hkill].
Defined.

(** A daemon is started and killed and another one started. A line arrives on the control
    channel, and a server of another domain says HELLO; between these an IMAP client
    connects and logs in. *)
Definition sys0 : Sys := mkSys world1 (mkLocal files0 ∅ ∅) None [] [] [] [].
End ToyCtl.
