(* ===== verification/TestsBase.v ===== *)
(** * What the unit tests share

    A test of the repository is here its program with the assertions joined, a [bool]. *)

From S2P Require Export Externals.

(** [unwrap] and [unwrap_err] with what follows them. *)
Definition unwrap {E A} (r : result E A) (k : A -> bool) : bool := match r with Ok a => k a | Err _ => false end.
Definition unwrap_err {E A} (r : result E A) (k : E -> bool) : bool := match r with Ok _ => false | Err e => k e end.
Definition is_err {E A} (r : result E A) : bool := negb (is_ok r).

(** A checksum that tells the inputs of the tests apart, in place of the hashes and tags. *)
Definition checksum (s : str) : str :=
  be_bytes 32 (foldl (fun a c => (a * 257 + byte c + 1) `mod` (2 ^ 255 - 19))%Z 1%Z s).

(** [bytes[i] ^= 0xff]. *)
Definition flip_byte (i : nat) (s : str) : str := alter (fun c => of_byte (Z.lxor (byte c) 255)) i s.
(** The last byte of a text. *)
Definition flip_last (s : str) : str := flip_byte (pred (length s)) s.
