(* ===== verification/TestsProtocol.v ===== *)
(** * The unit tests of the protocol, on the model

    The tests of [talk-protocol]: status.rs, envelope.rs, framing.rs, codec.rs,
    handshake.rs, attestation.rs, session.rs and tests/client.rs.  Each is the program of the test with
    its assertions joined, and evaluates to [true].  Keys, nonces and the clock, which the
    tests draw, are fixed values. *)

From S2P Require Export TestsBase Session.

(** ** Stand-ins for the crates *)

Module Fixture.
Import Toy ToyJson.

#[export] Instance test_signing : Signing := {|
  SigningKey := str; VerifyingKey := str; verifying_key := fun k => k;
  sign_bytes := fun k m => checksum (k ++ m) ++ checksum (m ++ k);
  verify_bytes := fun k m sg => sg ≟ checksum (k ++ m) ++ checksum (m ++ k);
  sha256 := checksum |}.
#[export] Existing Instance toy_encodings.
#[export] Existing Instance attestation_json.
#[export] Existing Instance registration_json.

(** [DomainKey::generate] with a key for each domain. *)
Definition generate (dom : str) : DomainKey := mkDomainKey dom (( #"key of " ++ dom) : SigningKey).
Definition now : Z := 1700000000.
Definition nonce1 : str := #"0123456789abcdef".
Definition issued (sd rd : str) : Challenge := issue nonce1 now sd rd.
End Fixture.
Import Fixture.

(** ** status.rs *)

Definition class_classification : bool :=
  is_success OK && is_transient TRY_LATER && is_permanent PERM_REJECT && negb (is_success CONTINUE).
Definition status_renders : bool := render (mkStatus OK #"accepted into inbox") ≟ #"250 accepted into inbox".
Definition status_code_display : bool := (show_Z (value OK) ≟ #"250") && (show_Z (value PERM_REJECT) ≟ #"550").

Lemma status_tests_pass : forallb id [class_classification; status_renders; status_code_display] = true.
Proof. vm_compute. reflexivity. Qed.

(** ** envelope.rs *)

Definition test_env (mid : str) : Envelope :=
  envelope_new now #"sender.example.com" mid (mkRecipient #"alice@example.com") Sealed.
Definition envelope_has_default_version : bool :=
  let e := test_env #"msg-1" in (env_version e ≟ #"1.0") && (0 <? env_created_at e)%Z.
Definition duplicate_detection : bool :=
  let a := test_env #"msg-1" in
  let b := test_env #"msg-1" in
  let c := test_env #"msg-2" in
  let d := envelope_new now #"other.example.com" #"msg-1" (env_recipient a) (env_payload a) in
  is_duplicate_of a b && negb (is_duplicate_of a c) && negb (is_duplicate_of a d).

Lemma envelope_tests_pass : forallb id [envelope_has_default_version; duplicate_detection] = true.
Proof. vm_compute. reflexivity. Qed.

(** ** framing.rs: what one end writes is what the other reads *)

(** The bytes [w] writes, read by [r]. *)
Definition piped {A} (w : io unit) (r : io A) : result FramingError A :=
  let '(_, c) := w (mkConn [] []) in fst (r (mkConn (tx c) [])).

Definition line_roundtrip : bool :=
  unwrap (piped (write_line #"ZSMTP 1.0") read_line) (fun l => l ≟ #"ZSMTP 1.0").
Definition line_split_across_reads : bool :=
  unwrap (piped (_ ← write_all #"HELO exam"; write_all ( #"ple.com" ++ crlf)) read_line) (fun l => l ≟ #"HELO example.com").
Definition blob_roundtrip_binary : bool :=
  let data := map (fun n => of_byte (Z.of_nat n)) (seq 0 100) in
  unwrap (piped (write_blob data) read_blob) (fun got => got ≟ data).
Definition empty_blob_roundtrip : bool := unwrap (piped (write_blob []) read_blob) (fun got => got ≟ []).
Definition blob_wrong_header_fails : bool := is_err (piped (write_all ( #"NOTABLOB" ++ crlf)) read_blob).
Definition blob_too_large_rejected : bool :=
  unwrap_err (piped (write_all ( #"BLOB 99999999" ++ crlf)) read_blob)
    (fun e => match e with BlobTooLarge _ => true | _ => false end).
Definition framed_status_roundtrip : bool :=
  unwrap (piped (write_status (mkStatus OK #"queued")) read_line) (fun l => l ≟ #"250 queued").
Definition eof_mid_line_is_protocol_error : bool :=
  unwrap_err (piped (mret tt) read_line) (fun e => match e with Protocol _ => true | _ => false end).

Lemma framing_tests_pass :
  forallb id [line_roundtrip; line_split_across_reads; blob_roundtrip_binary; empty_blob_roundtrip;
    blob_wrong_header_fails; blob_too_large_rejected; framed_status_roundtrip; eof_mid_line_is_protocol_error] = true.
Proof. vm_compute. reflexivity. Qed.

(** ** codec.rs *)

(** A command encodes to the line and is decoded from it. *)
Definition codec_roundtrip (c : Command) (line : str) : bool :=
  unwrap (encode_line c) (fun l => (l ≟ line) && unwrap (decode_line l) (fun back => back ≟ c)).

Definition hello_roundtrip : bool := codec_roundtrip (Hello #"example.com") #"HELLO example.com".
Definition auth_roundtrip_preserves_bytes : bool :=
  let ch := map of_byte [1; 2; 3; 255; 0]%Z in
  unwrap (encode_line (Auth ch)) (fun l => starts_with #"AUTH " l && unwrap (decode_line l) (fun back => back ≟ Auth ch)).
Definition addr_modes : bool :=
  codec_roundtrip (Addr AmEphemeral #"bob@example.com") #"ADDR ephemeral bob@example.com"
  && codec_roundtrip (Addr AmAttested #"bob@example.com") #"ADDR attested bob@example.com".
Definition invoice_roundtrip : bool :=
  codec_roundtrip (Invoice #"alice" #"msg-42" Sealed []) #"INVOICE alice msg-42 sealed".
Definition status_roundtrip : bool :=
  codec_roundtrip (StatusCmd 550 #"permanently rejected") #"STATUS 550 permanently rejected".
Definition quit_roundtrip : bool := codec_roundtrip Quit #"QUIT".
Definition unknown_verb : bool := is_err (decode_line #"FROBNICATE").
Definition malformed_addr_mode : bool := is_err (decode_line #"ADDR bogus user").
Definition bad_base64_auth : bool := is_err (decode_line #"AUTH !!!").
Definition addr_accepts_lowercase_mode : bool :=
  unwrap (decode_line #"ADDR ephemeral user") (fun back => back ≟ Addr AmEphemeral #"user").
Definition invoice_accepts_lowercase_payload : bool :=
  unwrap (decode_line #"INVOICE alice mid plaintext") (fun back => back ≟ Invoice #"alice" #"mid" Plaintext []).

Lemma codec_tests_pass :
  forallb id [hello_roundtrip; auth_roundtrip_preserves_bytes; addr_modes; invoice_roundtrip; status_roundtrip;
    quit_roundtrip; unknown_verb; malformed_addr_mode; bad_base64_auth; addr_accepts_lowercase_mode;
    invoice_accepts_lowercase_payload] = true.
Proof. vm_compute. reflexivity. Qed.

(** ** handshake.rs *)

Definition MAX_AGE : Z := 300.
Definition test_sender : DomainKey := generate #"sender.example.com".
Definition test_receiver : DomainKey := generate #"receiver.example.org".
Definition test_challenge : Challenge := issued (dk_domain test_sender) (dk_domain test_receiver).

Definition challenge_wire_roundtrip : bool := from_wire (to_wire test_challenge) ≟ Some test_challenge.
Definition challenge_wire_rejects_garbage : bool := (from_wire [] ≟ None) && (from_wire #"a|b|zzzz|1" ≟ None).
Definition challenge_digest_is_deterministic : bool :=
  let c := issued #"a.com" #"b.org" in digest c ≟ digest c.
Definition challenge_digest_binds_domains_and_nonce : bool :=
  let c := issued #"a.com" #"b.org" in
  let other := mkChallenge (sender_domain c) #"evil.org" (nonce c) (issued_at c) in
  let flip := match nonce c with a :: n => of_byte (Z.lxor (byte a) 1) :: n | [] => [] end in
  let other2 := mkChallenge (sender_domain c) (receiver_domain c) flip (issued_at c) in
  negb (digest c ≟ digest other) && negb (digest c ≟ digest other2).
Definition happy_path_respond_and_verify : bool :=
  is_ok (verify now (respond test_challenge (signing test_receiver)) (verifying test_receiver) MAX_AGE).
Definition verify_rejects_wrong_key : bool :=
  let attacker := generate #"attacker.example.net" in
  verify now (respond test_challenge (signing attacker)) (verifying test_receiver) MAX_AGE ≟ Err BadSignature.
Definition verify_rejects_tampered_domain : bool :=
  let r := respond test_challenge (signing test_receiver) in
  let c := challenge r in
  let r := mkResponse (mkChallenge (sender_domain c) #"evil.org" (nonce c) (issued_at c)) (signature r) in
  verify now r (verifying test_receiver) MAX_AGE ≟ Err BadSignature.
(** The verdict on a challenge issued at another time. *)
Definition verdict_at (t : Z) : result HandshakeError unit :=
  let c := mkChallenge (sender_domain test_challenge) (receiver_domain test_challenge) (nonce test_challenge) t in
  verify now (respond c (signing test_receiver)) (verifying test_receiver) MAX_AGE.
Definition verify_rejects_stale_challenge : bool := verdict_at (now - 3600) ≟ Err (Stale MAX_AGE).
Definition verify_rejects_future_challenge : bool := verdict_at (now + 100) ≟ Err (Stale MAX_AGE).
Definition verify_rejects_truncated_signature : bool :=
  let r := respond test_challenge (signing test_receiver) in
  verify now (mkResponse (challenge r) (take 32 (signature r))) (verifying test_receiver) MAX_AGE ≟ Err BadSignature.
Definition domain_keys_generate_distinct_verifying_keys : bool :=
  negb ((verifying (generate #"a.com") : str) ≟ verifying (generate #"b.com")).

Lemma handshake_tests_pass :
  forallb id [challenge_wire_roundtrip; challenge_wire_rejects_garbage; challenge_digest_is_deterministic;
    challenge_digest_binds_domains_and_nonce; happy_path_respond_and_verify; verify_rejects_wrong_key;
    verify_rejects_tampered_domain; verify_rejects_stale_challenge; verify_rejects_future_challenge;
    verify_rejects_truncated_signature; domain_keys_generate_distinct_verifying_keys] = true.
Proof. vm_compute. reflexivity. Qed.

(** ** attestation.rs *)

Definition keypair : @SigningKey Fixture.test_signing := #"a key".
Definition other_pair : @SigningKey Fixture.test_signing := #"another key".
Definition signed_attestation (mode : AttestationMode) : Attestation :=
  att_sign #"example.org" #"alice" mode #"taddr-abc" #"def" keypair.
Definition test_att : Attestation := signed_attestation Ephemeral.

Definition sign_and_verify : bool := is_ok (att_verify test_att (verifying_key keypair) #"example.org").
Definition verify_rejects_wrong_domain : bool :=
  att_verify test_att (verifying_key keypair) #"evil.org" ≟ Err AttDomainMismatch.
Definition verify_rejects_tampered_pubkey : bool :=
  let a := mkAttestation (att_domain test_att) (att_user test_att) (att_mode test_att) (att_address test_att) #"tampered" (att_signature test_att) in
  att_verify a (verifying_key keypair) #"example.org" ≟ Err AttBadSignature.
Definition att_verify_rejects_wrong_key : bool :=
  att_verify test_att (verifying_key other_pair) #"example.org" ≟ Err AttBadSignature.
Definition digest_binds_all_fields : bool :=
  let b := test_att in
  let other := mkAttestation (att_domain b) #"bob" (att_mode b) (att_address b) (att_pubkey b) (att_signature b) in
  let other2 := mkAttestation (att_domain b) (att_user b) Attested (att_address b) (att_pubkey b) (att_signature b) in
  negb (canonical_digest b ≟ canonical_digest other) && negb (canonical_digest b ≟ canonical_digest other2).
Definition json_roundtrip_att : bool :=
  let att := signed_attestation Attested in
  unwrap (att_from_json (att_to_json att)) (fun back => back ≟ att).
Definition json_from_garbage_fails : bool := is_err (att_from_json #"not json").
Definition placeholder_pubkey_is_hex : bool :=
  let pk := placeholder_pubkey (checksum #"random") in
  (length pk ≟ 64%nat) && forallb (fun c => bool_decide (is_Some (hex_val c))) pk.
Definition mint_pair_produces_distinct_ephemeral_addresses : bool :=
  negb (fst (mint_pair (checksum #"one") Ephemeral) ≟ fst (mint_pair (checksum #"two") Ephemeral)).
Definition registration_attestation_signs_and_roundtrips : bool :=
  let r := reg_sign #"example.org" #"alice" (replicate 32 (of_byte 7)) (Some #"ivk-hex") 1234 keypair in
  let tampered := mkReg (reg_domain r) #"bob" (reg_master_pubkey r) (reg_ivk_commitment r) (reg_registered_at r) (reg_signature r) in
  verify_bytes (verifying_key keypair) (reg_digest r) (reg_signature r)
  && negb (verify_bytes (verifying_key keypair) (reg_digest tampered) (reg_signature tampered))
  && unwrap (reg_from_json (reg_to_json r)) (fun back =>
       (reg_domain back ≟ reg_domain r) && (reg_username back ≟ reg_username r) && (reg_master_pubkey back ≟ reg_master_pubkey r)
       && (reg_ivk_commitment back ≟ reg_ivk_commitment r) && (reg_registered_at back ≟ reg_registered_at r)%Z
       && (reg_signature back ≟ reg_signature r)).

Lemma attestation_tests_pass :
  forallb id [sign_and_verify; verify_rejects_wrong_domain; verify_rejects_tampered_pubkey; att_verify_rejects_wrong_key;
    digest_binds_all_fields; json_roundtrip_att; json_from_garbage_fails; placeholder_pubkey_is_hex;
    mint_pair_produces_distinct_ephemeral_addresses; registration_attestation_signs_and_roundtrips] = true.
Proof. vm_compute. reflexivity. Qed.

(** ** session.rs

    The world is the number of draws made and the deliveries; a sink keeps what it is
    given. *)

Definition Call : Type := str * str * str * str.
Definition World : Type := Z * list Call.
Definition test_provider : AddressProvider World :=
  placeholder_provider (fun w => (be_bytes 32 (fst w), (fst w + 1, snd w)%Z)).
(** [ZsmptSession::new]. *)
Definition new_session (dom : str) : ZsmptSession World := with_domain_key test_provider dom (signing (generate dom)).
Definition world0 : World := (1%Z, []).

(** [s.handle(cmd).unwrap()], with the session and the world behind it. *)
Definition handled (s : ZsmptSession World) (w : World) (cmd : Command) (k : Reply -> ZsmptSession World -> World -> bool) : bool :=
  let '(r, s, w) := handle cmd s w in unwrap r (fun rep => k rep s w).
Definition replied (s : ZsmptSession World) (w : World) (cmd : Command) (c : StatusCode) (m : str) : bool :=
  handled s w cmd (fun rep _ _ => rep ≟ ReplyStatus (mkStatus c m)).
Definition handle_err (s : ZsmptSession World) (cmd : Command) (part : str) : bool :=
  let '(r, _, _) := handle cmd s world0 in unwrap_err r (fun '(StateError what) => starts_with part what).

Definition session_challenge : Challenge := issued #"sender.example.com" #"receiver.example.org".
Definition authenticated_session : ZsmptSession World :=
  let '(_, s, w) := handle (Hello #"sender.example.com") (new_session #"receiver.example.org") world0 in
  let '(_, s, _) := handle (Auth (to_wire session_challenge)) s w in s.
(** An invoice with the body of the tests. *)
Definition test_invoice : Command := Invoice #"alice" #"m1" Sealed (map of_byte [1; 2; 3]%Z).

Definition greeting_banner : bool :=
  let s := new_session #"example.org" in (greeting s ≟ #"ZSMTP 1.0 example.org") && (state s ≟ Greeting).
Definition hello_sets_state : bool :=
  handled (new_session #"example.org") world0 (Hello #"sender.example.com") (fun rep s _ =>
    (rep ≟ ReplyStatus (mkStatus OK #"Hello sender.example.com")) && (state s ≟ AwaitingAuth)).
Definition hello_requires_domain : bool :=
  replied (new_session #"example.org") world0 (Hello []) SYNTAX #"HELLO requires a domain".
Definition double_hello_is_state_error : bool :=
  handled (new_session #"example.org") world0 (Hello #"a.com") (fun _ s _ => handle_err s (Hello #"b.com") #"HELLO already sent").
Definition auth_signs_challenge_and_authenticates : bool :=
  handled (new_session #"receiver.example.org") world0 (Hello #"sender.example.com") (fun _ s w =>
  handled s w (Auth (to_wire session_challenge)) (fun rep s _ =>
    match rep with
    | StatusWithBlob status blob =>
        is_success (code status) && (state s ≟ Authenticated) && (peer_domain s ≟ Some #"sender.example.com")
        && match rsplit_once bar blob with
           | Some (chal_wire, sig_hex) =>
               (chal_wire ≟ to_wire session_challenge)
               && match hex_decode sig_hex, from_wire chal_wire with
                  | Some sg, Some c => is_ok (verify now (mkResponse c sg) (verifying (domain_key s)) 300)
                  | _, _ => false
                  end
           | None => false
           end
    | _ => false
    end)).
Definition auth_out_of_sequence : bool :=
  replied (new_session #"example.org") world0 (Auth #"x") BAD_SEQUENCE #"AUTH not expected now".
Definition addr_requires_auth : bool :=
  handled (new_session #"example.org") world0 (Hello #"a.com") (fun _ s w =>
    replied s w (Addr AmEphemeral #"alice@example.org") NOT_AUTHED #"authenticate first").
Definition addr_returns_signed_attestation : bool :=
  handled authenticated_session world0 (Addr AmEphemeral #"alice") (fun rep s _ =>
    match rep with
    | StatusWithBlob status blob =>
        is_success (code status)
        && match att_from_json blob with
           | Ok att =>
               (att_domain att ≟ #"receiver.example.org") && (att_user att ≟ #"alice") && (att_mode att ≟ Ephemeral)
               && starts_with #"taddr-" (att_address att) && (length (att_pubkey att) ≟ 64%nat)
               && is_ok (att_verify att (verifying (domain_key s)) #"receiver.example.org")
           | Err _ => false
           end
    | _ => false
    end).
Definition invoice_requires_auth : bool :=
  handled (new_session #"example.org") world0 (Hello #"a.com") (fun _ s w =>
    replied s w test_invoice NOT_AUTHED #"authenticate first").
Definition invoice_accepted_when_authenticated : bool :=
  handled authenticated_session world0 (Addr AmEphemeral #"alice") (fun _ s w =>
    replied s w test_invoice OK_QUEUED #"accepted into inbox (m1)").
Definition invoice_without_addr_is_sequence_error : bool :=
  replied authenticated_session world0 test_invoice BAD_SEQUENCE #"INVOICE requires a prior ADDR".

(** The sink of the test. *)
Definition recording_sink : DeliverySink World :=
  mkSink (fun sender message_id mailbox _ body w => (Accepted message_id, (fst w, snd w ++ [(sender, message_id, mailbox, body)]))).
Definition invoice_delivers_to_sink : bool :=
  handled (with_sink authenticated_session recording_sink) world0 (Addr AmEphemeral #"alice") (fun _ s w =>
  handled s w (Invoice #"alice" #"m42" Sealed #"blob") (fun _ _ w =>
    snd w ≟ [( #"alice@sender.example.com", #"m42", #"alice@receiver.example.org", #"blob")])).
Definition reject_sink : DeliverySink World := mkSink (fun _ _ _ _ _ w => (Rejected #"no such recipient", w)).
Definition invoice_rejected_by_sink_maps_to_550 : bool :=
  handled (with_sink authenticated_session reject_sink) world0 (Addr AmEphemeral #"ghost") (fun _ s w =>
    replied s w (Invoice #"alice" #"m1" Plaintext []) PERM_REJECT #"no such recipient").
Definition invoice_empty_message_id_is_syntax_error : bool :=
  handled authenticated_session world0 (Addr AmEphemeral #"alice") (fun _ s w =>
    replied s w (Invoice #"alice" [] Plaintext []) SYNTAX #"INVOICE requires a message id").
Definition quit_returns_221 : bool :=
  replied (new_session #"example.org") world0 Quit (mkCode 221) #"example.org closing connection".
Definition client_sending_status_is_error : bool :=
  handle_err (new_session #"example.org") (StatusCmd 250 #"x") #"unexpected STATUS".

(** The directory of the test. *)
Definition alice_directory : UserDirectory World := mkDirectory (fun u w => (u ≟ #"alice", w)).
Definition addr_rejects_unknown_user_with_directory : bool :=
  handled (with_directory authenticated_session alice_directory) world0 (Addr AmEphemeral #"alice") (fun rep s w =>
    match rep with StatusWithBlob st _ => is_success (code st) | _ => false end
    && replied s w (Addr AmEphemeral #"ghost") PERM_REJECT #"no such user: ghost").

(** *** Over a stream: the session runs on the bytes the client of the test writes, and
    the client reads what it wrote *)

Definition client_writes (l : list (io unit)) : str := foldl (fun out w => tx (snd (w (mkConn [] out)))) [] l.
Definition served (s : ZsmptSession World) (input : str) (k : World -> conn -> bool) : bool :=
  match run s world0 (mkConn input []) with Some (Ok _, _, w, c) => k w (mkConn (tx c) []) | _ => false end.
Definition reads_line (p : str -> bool) (k : conn -> bool) (c : conn) : bool :=
  match read_line c with (Ok l, c) => p l && k c | _ => false end.
Definition reads_blob (k : conn -> bool) (c : conn) : bool :=
  match read_blob c with (Ok b, c) => negb (b ≟ []) && k c | _ => false end.
Definition auth_line : str := #"AUTH " ++ b64_encode (to_wire session_challenge).
Definition finished (c : conn) : bool := rx c ≟ [].

Definition full_session_over_stream : bool :=
  served (new_session #"receiver.example.org")
    (client_writes [write_line #"HELLO sender.example.com"; write_line auth_line; write_line #"QUIT"]) (fun _ =>
    reads_line (fun l => l ≟ #"ZSMTP 1.0 receiver.example.org")
   (reads_line (starts_with #"250 Hello sender.example.com")
   (reads_line (starts_with #"250 authenticated")
   (reads_blob
   (reads_line (starts_with #"221") finished))))).

Definition stream_sink : DeliverySink World :=
  mkSink (fun _ _ _ _ body w => (Accepted #"m42", (fst w, [([], [], [], body)]))).
Definition invoice_blob_delivered_over_stream : bool :=
  served (with_sink (new_session #"receiver.example.org") stream_sink)
    (client_writes [write_line #"HELLO sender.example.com"; write_line auth_line; write_line #"ADDR ephemeral alice";
       write_line #"INVOICE alice m42 sealed"; write_blob #"opaque-body"; write_line #"QUIT"]) (fun w c =>
    (map snd (snd w) ≟ [ #"opaque-body"]) &&
    reads_line (fun l => l ≟ #"ZSMTP 1.0 receiver.example.org")
   (reads_line (starts_with #"250 Hello")
   (reads_line (starts_with #"250 authenticated")
   (reads_blob
   (reads_line (starts_with #"250 address attestation")
   (reads_blob
   (reads_line (starts_with #"250 accepted into inbox")
   (reads_line (starts_with #"221") finished))))))) c).

Lemma session_tests_pass :
  forallb id [greeting_banner; hello_sets_state; hello_requires_domain; double_hello_is_state_error;
    auth_signs_challenge_and_authenticates; auth_out_of_sequence; addr_requires_auth; addr_returns_signed_attestation;
    invoice_requires_auth; invoice_accepted_when_authenticated; invoice_without_addr_is_sequence_error;
    invoice_delivers_to_sink; invoice_rejected_by_sink_maps_to_550; invoice_empty_message_id_is_syntax_error;
    quit_returns_221; client_sending_status_is_error; full_session_over_stream; invoice_blob_delivered_over_stream;
    addr_rejects_unknown_user_with_directory] = true.
Proof. vm_compute. reflexivity. Qed.

(** ** tests/client.rs: a client and a server at the two ends of a stream *)

From S2P Require Import Connect.

(** What the server has written and the world it leaves once it has read the input; the
    client's program on what the server has written so far. *)
Definition server_end (s : ZsmptSession World) (input : str) : str * World :=
  match run s world0 (mkConn input []) with Some (_, _, w, c) => (tx c, w) | None => ([], world0) end.
Definition client_end {A} (m : cl A) (replies : str) : result ClientError A * option ZsmptClient :=
  match connect (mkConn replies []) #"sender.example.com" with
  | (Ok c, _) => let '(r, c) := m c in (r, Some c)
  | (Err e, _) => (Err e, None)
  end.
(** Both ends in turn, until neither waits for the other. *)
Fixpoint settle {A} (turns : nat) (m : cl A) (s : ZsmptSession World) (written : str) : result ClientError A * option ZsmptClient * World * str :=
  let '(replies, w) := server_end s written in
  let '(r, c) := client_end m replies in
  match turns with
  | O => (r, c, w, replies)
  | S turns => settle turns m s (match c with Some c => tx (stream c) | None => [] end)
  end.
Definition receiver : str := #"receiver.example.org".
Definition spawn_server (sk : DeliverySink World) : ZsmptSession World := with_sink (new_session receiver) sk.
Definition between {A} (m : cl A) (s : ZsmptSession World) (k : result ClientError A -> ZsmptClient -> World -> bool) : bool :=
  match settle 8 m s [] with (r, Some c, w, _) => k r c w | _ => false end.

Definition receiver_pub : VerifyingKey := verifying (generate receiver).
Definition auth_with (pub : VerifyingKey) : cl unit := authenticate nonce1 now now pub.
Definition the_flow (mid body : str) : cl Attestation :=
  _ ← hello;
  _ ← auth_with receiver_pub;
  att ← request_address #"alice" Ephemeral receiver_pub;
  _ ← send_invoice #"alice" mid Sealed body;
  _ ← Client.quit;
  mret att.

Definition full_round_trip : bool :=
  between (the_flow #"msg-1" #"opaque-body") (spawn_server recording_sink) (fun r c _ =>
    (cl_receiver_domain c ≟ receiver)
    && unwrap r (fun att => (att_user att ≟ #"alice") && (att_domain att ≟ receiver) && (att_mode att ≟ Ephemeral))).
Definition wrong_receiver_key_fails_auth : bool :=
  between (_ ← hello; auth_with (verifying (generate #"evil.example.net"))) (spawn_server recording_sink) (fun r c _ =>
    unwrap_err r (fun e => match e with ClAuth _ => true | _ => false end) && (cl_state c ≟ ClAwaitingAuth)).
Definition tampered_attestation_rejected : bool :=
  between (_ ← hello; auth_with ( #"another key" : VerifyingKey)) (spawn_server recording_sink) (fun r _ _ =>
    unwrap_err r (fun e => match e with ClAuth _ => true | _ => false end)).
Definition invoice_before_addr_is_order_error : bool :=
  between (_ ← hello; _ ← auth_with receiver_pub; send_invoice #"alice" #"msg-1" Sealed #"body") (spawn_server recording_sink)
    (fun r _ _ => unwrap_err r (fun e => match e with Order _ => true | _ => false end)).
Definition server_rejection_maps_to_client_error : bool :=
  between (_ ← hello; _ ← auth_with receiver_pub; _ ← request_address #"ghost" Ephemeral receiver_pub;
           send_invoice #"alice" #"msg-1" Sealed #"body") (spawn_server reject_sink)
    (fun r _ _ => unwrap_err r (fun e => match e with ClRejected _ => true | _ => false end)).
Definition delivered_body_reaches_sink : bool :=
  between (the_flow #"msg-42" #"THE-OPAQUE-BODY") (spawn_server recording_sink) (fun r _ w =>
    is_ok r && (map (fun '(_, mid, _, body) => (mid, body)) (snd w) ≟ [( #"msg-42", #"THE-OPAQUE-BODY")])).
(** A machine whose Unix socket leads to a server that has written these bytes. *)
Definition unix_with (replies : str) : Network := {|
  TcpStream := unit;
  unix_connect := fun _ => Ok (mkConn replies []); tcp_connect := fun _ => Err []; tcp_bytes := fun _ => mkConn [] [];
  server_name := fun n => Ok n; tls_connect := fun _ _ _ => Err [] |}.
Definition over_unix (m : cl Attestation) (replies : str) : bool :=
  unwrap (@connect_unix (unix_with replies) #"/tmp/zsmtp.sock" #"sender.example.com") (fun c =>
    let '(r, _) := m c in (cl_receiver_domain c ≟ receiver) && is_ok r).
Definition connect_unix_round_trip : bool :=
  over_unix (the_flow #"msg-1" #"body") (snd (settle 8 (the_flow #"msg-1" #"body") (spawn_server recording_sink) [])).
Definition fixed_provider : AddressProvider World := mkProvider (fun _ w => (mkMinted #"taddr-fixed" #"f00d" None, w)).
Definition custom_address_provider_used_by_session : bool :=
  handled (with_address_provider (new_session receiver) fixed_provider) world0 (Hello #"sender.example.com") (fun _ s w =>
  handled s w (Auth (to_wire session_challenge)) (fun _ s w => (state s ≟ Authenticated) &&
  handled s w (Addr AmEphemeral #"alice") (fun rep _ _ =>
    match rep with
    | StatusWithBlob _ blob => unwrap (att_from_json blob) (fun att => (att_address att ≟ #"taddr-fixed") && (att_pubkey att ≟ #"f00d"))
    | _ => false
    end))).

Lemma client_tests_pass :
  forallb id [full_round_trip; wrong_receiver_key_fails_auth; tampered_attestation_rejected;
    invoice_before_addr_is_order_error; server_rejection_maps_to_client_error; delivered_body_reaches_sink;
    connect_unix_round_trip; custom_address_provider_used_by_session] = true.
Proof. vm_compute. reflexivity. Qed.
