(* ===== verification/TestsKeys.v ===== *)
(** * The unit tests of the key ladder, on the model

    The tests of [talk-keys]: dk.rs, share.rs, resolver.rs and master.rs.  Each is the
    program of the test with its assertions joined, and evaluates to [true].  The draws of
    a test are the numbers of the draws, and the cipher of the fixture adds a checksum. *)

From S2P Require Export TestsBase Keys.

Module KeyFixture.
Definition xor_with (k : ascii) (m : str) : str := map (fun c => of_byte (Z.lxor (byte c) (byte k))) m.
Definition tag (key nonce m : str) : str := checksum (key ++ nonce ++ m).
#[export] Instance test_keys : KeyCrypto := {
  chacha_encrypt := fun key nonce m => xor_with "~" m ++ tag key nonce m;
  chacha_decrypt := fun key nonce c =>
    let n := (length c - 32)%nat in
    let m := xor_with "~" (take n c) in
    if drop n c ≟ tag key nonce m then Some m else None;
  x25519_public := fun k => xor_with "p" (take 32 (k ++ replicate 32 b_nul));
  diffie_hellman := fun a b => zip_with (fun x y => of_byte (Z.lxor (byte x) (byte y))) a (xor_with "p" b);
  hkdf_expand := fun s label => checksum (s ++ label);
}.

(** The draws of the generator: the i-th key, nonce and share id. *)
Definition drawn (n : nat) (i : nat) : str := be_bytes n (Z.of_nat i + 1).
Definition key_of (i : nat) : SecretKey := checksum (drawn 32 i).
Definition nonce_of (i : nat) : str := drawn 12 i.
(** The randomness of the i-th wrapping: an id and a nonce for each share. *)
Definition rng (i : nat) (j : nat) : str * str := (drawn 16 (100 * i + j), drawn 12 (100 * i + j)).
End KeyFixture.
Import KeyFixture.

(** ** dk.rs *)

Definition secret_key_roundtrip : bool :=
  let data := #"some mailbox data" in
  let sealed := aead_seal (nonce_of 0) (key_of 0) data in
  negb (drop 12 sealed ≟ data) && (aead_open (key_of 0) sealed ≟ Some data).
Definition wrong_key_fails : bool := aead_open (key_of 1) (aead_seal (nonce_of 0) (key_of 0) #"data") ≟ None.
Definition empty_plaintext_roundtrip : bool := aead_open (key_of 0) (aead_seal (nonce_of 0) (key_of 0) []) ≟ Some [].
Definition tampered_ciphertext_fails : bool :=
  aead_open (key_of 0) (flip_last (aead_seal (nonce_of 0) (key_of 0) #"authentic data")) ≟ None.
Definition truncated_ciphertext_fails : bool :=
  let sealed := aead_seal (nonce_of 0) (key_of 0) #"data" in
  aead_open (key_of 0) (take (length sealed - 1) sealed) ≟ None.
Definition too_short_ciphertext_fails : bool := aead_open (key_of 0) (replicate 11 b_nul) ≟ None.
Definition nonces_are_unique_across_seals : bool :=
  negb (take 12 (aead_seal (nonce_of 0) (key_of 0) #"x") ≟ take 12 (aead_seal (nonce_of 1) (key_of 0) #"x")).
Definition seal_is_not_identity_on_identical_input : bool :=
  let data := replicate 64 b_nul in negb (drop 12 (aead_seal (nonce_of 0) (key_of 0) data) ≟ data).

(** A part of the data of the test. *)
Definition large_data : str := map (fun i => of_byte (Z.of_nat i `mod` 256)) (seq 0 (50 * 80)).
Definition large_plaintext_roundtrip : bool :=
  match aead_open (key_of 0) (aead_seal (nonce_of 0) (key_of 0) large_data) with Some opened => opened ≟ large_data | None => false end.
Definition two_keys_generate_distinct_material : bool := negb (key_of 0 ≟ key_of 1).
Lemma dk_tests_pass :
  forallb id [secret_key_roundtrip; wrong_key_fails; empty_plaintext_roundtrip; tampered_ciphertext_fails;
    truncated_ciphertext_fails; too_short_ciphertext_fails; nonces_are_unique_across_seals;
    seal_is_not_identity_on_identical_input; large_plaintext_roundtrip; two_keys_generate_distinct_material] = true.
Proof. vm_compute. reflexivity. Qed.

(** ** share.rs *)

Definition test_dk : DataKey := key_of 50.
Definition test_shares (n : nat) : list Share := map key_of (seq 0 n).
Definition outsider : Share := key_of 60.
(** [scheme.wrap(&dk, &shares)] the i-th time. *)
Definition wrapped_set (i : nat) (shares : list Share) : WrappedDkSet := share_wrap (rng i) test_dk shares.
Definition unwraps (share : Share) (w : option WrappedByShare) (k : DataKey -> bool) : bool :=
  match w with Some w => unwrap (share_unwrap share w) k | None => false end.
Definition refuses (share : Share) (w : option WrappedByShare) : bool :=
  match w with Some w => match share_unwrap share w with Err ShareDecryptFailed => true | _ => false end | None => false end.
Definition is_dk (k : DataKey) : bool := k ≟ test_dk.

Definition wrap_and_unwrap_each_share : bool :=
  let shares := test_shares 8 in
  let set := wrapped_set 0 shares in
  (length (wrappers set) ≟ 8%nat) && forallb (fun '(s, w) => unwraps s (Some w) is_dk) (zip shares (wrappers set)).
Definition wrong_share_fails : bool := refuses outsider (head (wrappers (wrapped_set 0 (test_shares 2)))).
Definition rewrap_drops_revoked_share : bool :=
  let shares := test_shares 3 in
  let rewrapped := share_rewrap (rng 1) test_dk (drop 1 shares) in
  (length (wrappers rewrapped) ≟ 2%nat)
  && unwraps (key_of 1) (wrappers rewrapped !! 0%nat) (fun _ => true)
  && unwraps (key_of 2) (wrappers rewrapped !! 1%nat) (fun _ => true)
  && unwraps (key_of 0) (head (wrappers (wrapped_set 2 (take 1 shares)))) (fun _ => true).
Definition share_ids_are_unique_within_set : bool :=
  length (remove_dups (map share_id (wrappers (wrapped_set 0 (test_shares 8))))) ≟ 8%nat.
Definition share_ids_are_unique_across_wraps : bool :=
  let shares := test_shares 2 in
  forallb (fun a => forallb (fun b => negb (share_id a ≟ share_id b)) (wrappers (wrapped_set 1 shares)))
    (wrappers (wrapped_set 0 shares)).
Definition rewrap_preserves_dk : bool :=
  let shares := test_shares 4 in
  unwraps (key_of 0) (head (wrappers (wrapped_set 0 shares))) (fun original =>
  unwraps (key_of 1) (head (wrappers (share_rewrap (rng 1) test_dk (drop 1 shares)))) (fun rewrapped =>
    original ≟ rewrapped)).
Definition rewrap_with_zero_survivors_yields_empty_set : bool :=
  length (wrappers (share_rewrap (rng 0) test_dk [])) ≟ 0%nat.
Definition single_share_roundtrip : bool :=
  let set := wrapped_set 0 (test_shares 1) in
  (length (wrappers set) ≟ 1%nat) && unwraps (key_of 0) (head (wrappers set)) is_dk.
Definition tampered_wrapper_fails : bool :=
  let w := head (wrappers (wrapped_set 0 (test_shares 1))) in
  refuses (key_of 0) ((fun w => mkWrapped (share_id w) (flip_last (wrapped w))) <$> w).
Definition same_share_dk_wrappers_differ_each_time : bool :=
  let shares := test_shares 1 in
  negb ((wrapped <$> head (wrappers (wrapped_set 0 shares))) ≟ (wrapped <$> head (wrappers (wrapped_set 1 shares)))).
Definition unwrap_keeps_dk_binding : bool :=
  let w := head (wrappers (wrapped_set 0 (test_shares 1))) in
  unwraps (key_of 0) w (fun a => unwraps (key_of 0) w (fun b => a ≟ b)).

Lemma share_tests_pass :
  forallb id [wrap_and_unwrap_each_share; wrong_share_fails; rewrap_drops_revoked_share; share_ids_are_unique_within_set;
    share_ids_are_unique_across_wraps; rewrap_preserves_dk; rewrap_with_zero_survivors_yields_empty_set;
    single_share_roundtrip; tampered_wrapper_fails; same_share_dk_wrappers_differ_each_time; unwrap_keeps_dk_binding] = true.
Proof. vm_compute. reflexivity. Qed.

(** ** resolver.rs *)

Definition resolver_set : WrappedDkSet := wrapped_set 0 (test_shares 4).
Definition resolve (set : WrappedDkSet) (c : Credential) : result ResolverError DataKey :=
  share_resolver_unwrap PerShareWrapper set c.

Definition share_resolver_unlocks_with_any_share : bool :=
  forallb (fun s => unwrap (resolve resolver_set (ByShare s)) (fun dk => length dk ≟ 32%nat)) (test_shares 4).
Definition share_resolver_rejects_wrong_share : bool := is_err (resolve resolver_set (ByShare outsider)).
Definition share_resolver_rejects_master_credential : bool := is_err (resolve resolver_set (Master (key_of 70))).
Definition share_resolver_empty_set_rejects_everything : bool := is_err (resolve (mkDkSet []) (ByShare (key_of 0))).
Definition share_resolver_recovers_original_dk : bool :=
  unwrap (resolve (wrapped_set 0 (test_shares 3)) (ByShare (key_of 0))) is_dk.

Definition master_secret : SecretKey := key_of 80.
(** [resolver.wrap(&dk, &master_pub, &mut rng)] the i-th time. *)
Definition master_wrapped (i : nat) : WrappedByMaster :=
  master_wrap (key_of (90 + i)) (nonce_of i) test_dk (x25519_public master_secret).
Definition master_key_roundtrip : bool := unwrap (master_unwrap master_secret (master_wrapped 0)) is_dk.
Definition master_key_wrong_key_fails : bool := is_err (master_unwrap (key_of 81) (master_wrapped 0)).
Definition master_key_wrap_is_nondeterministic : bool :=
  let a := master_wrapped 0 in
  let b := master_wrapped 1 in
  negb (ephemeral_pub a ≟ ephemeral_pub b) && negb (wrapped_dk a ≟ wrapped_dk b).
Definition master_key_tampered_wrapped_fails : bool :=
  let w := master_wrapped 0 in is_err (master_unwrap master_secret (mkByMaster (ephemeral_pub w) (flip_last (wrapped_dk w)))).
Definition master_key_unwrap_deterministic_across_keys : bool :=
  unwrap (master_unwrap master_secret (master_wrapped 0)) (fun a =>
  unwrap (master_unwrap master_secret (master_wrapped 0)) (fun b => a ≟ b)).

Lemma resolver_tests_pass :
  forallb id [share_resolver_unlocks_with_any_share; share_resolver_rejects_wrong_share;
    share_resolver_rejects_master_credential; share_resolver_empty_set_rejects_everything;
    share_resolver_recovers_original_dk; master_key_roundtrip; master_key_wrong_key_fails;
    master_key_wrap_is_nondeterministic; master_key_tampered_wrapped_fails; master_key_unwrap_deterministic_across_keys] = true.
Proof. vm_compute. reflexivity. Qed.

(** ** master.rs *)

Definition pair_a : MasterKeyPair := generate_master_pair (key_of 10).
Definition pair_b : MasterKeyPair := generate_master_pair (key_of 11).
(** [seal_envelope(&pair.public, data, &mut rng)] the i-th time. *)
Definition sealed_to (i : nat) (p : MasterKeyPair) (data : str) : str :=
  seal_envelope (key_of (20 + i)) (nonce_of i) (public p) data.
Definition opens (p : MasterKeyPair) (envelope data : str) : bool := unwrap (open_envelope (private p) envelope) (fun d => d ≟ data).
Definition open_fails (p : MasterKeyPair) (envelope : str) (is_error : SealError -> bool) : bool :=
  unwrap_err (open_envelope (private p) envelope) is_error.
Definition decrypt_failed (e : SealError) : bool := match e with SealDecryptFailed => true | _ => false end.

Definition keypair_public_derives_from_private : bool := master_pubkey (private pair_a) ≟ public pair_a.
Definition seal_open_roundtrip : bool := opens pair_a (sealed_to 0 pair_a #"hello, sealed world") #"hello, sealed world".
Definition seal_open_roundtrip_binary : bool :=
  let data := map (fun n => of_byte (Z.of_nat n)) (seq 0 255) in opens pair_a (sealed_to 0 pair_a data) data.
Definition envelope_wrong_key_fails : bool := open_fails pair_b (sealed_to 0 pair_a #"data") decrypt_failed.
Definition envelope_tampered_ciphertext_fails : bool := open_fails pair_a (flip_last (sealed_to 0 pair_a #"data")) decrypt_failed.
Definition tampered_ephemeral_fails : bool := open_fails pair_a (flip_byte 5 (sealed_to 0 pair_a #"data")) decrypt_failed.
Definition bad_magic_and_short_rejected : bool :=
  open_fails pair_a #"nope" (fun e => match e with TooShort => true | _ => false end)
  && open_fails pair_a (<[0%nat := "X"%char]> (sealed_to 0 pair_a #"data")) (fun e => match e with BadMagic => true | _ => false end).
Definition bad_version_rejected : bool :=
  open_fails pair_a (<[4%nat := of_byte 99]> (sealed_to 0 pair_a #"data"))
    (fun e => match e with BadVersion v => (v =? 99)%Z | _ => false end).
Definition seal_is_nondeterministic : bool := negb (sealed_to 0 pair_a #"data" ≟ sealed_to 1 pair_a #"data").
Definition empty_data_roundtrip : bool := opens pair_a (sealed_to 0 pair_a []) [].

Lemma master_tests_pass :
  forallb id [keypair_public_derives_from_private; seal_open_roundtrip; seal_open_roundtrip_binary; envelope_wrong_key_fails;
    envelope_tampered_ciphertext_fails; tampered_ephemeral_fails; bad_magic_and_short_rejected; bad_version_rejected;
    seal_is_nondeterministic; empty_data_roundtrip] = true.
Proof. vm_compute. reflexivity. Qed.
