(* ===== verification/TestsImap.v ===== *)
(** * The unit tests of the IMAP server, on the model

    The tests of [talk-imap/src/parse.rs] and [response.rs]: each is the program of the
    test with its assertions joined, and evaluates to [true]. *)

From S2P Require Export ImapFetch.

(** [r.feed(data).unwrap()] with what follows it. *)
Definition fed (rd : CommandReader) (data : str) (k : list ParsedCommand -> CommandReader -> bool) : bool :=
  match feed rd data with Some (Ok cmds, rd') => k cmds rd' | _ => false end.
(** [r.feed(data).unwrap_err()]. *)
Definition feed_err (rd : CommandReader) (data : str) : option ParseError :=
  match feed rd data with Some (Err e, _) => Some e | _ => None end.
Definition line (s : string) : str := dq s ++ crlf.
Definition args_of (cmds : list ParsedCommand) : option (list str) := pc_args <$> head cmds.
Definition name_of (cmds : list ParsedCommand) : option str := pc_name <$> head cmds.
Definition tag_of (cmds : list ParsedCommand) : option str := pc_tag <$> head cmds.

Definition parses_basic_command : bool :=
  fed reader_default (line "A1 CAPABILITY") (fun cmds _ =>
    (length cmds ≟ 1%nat) && (tag_of cmds ≟ Some #"A1") && (name_of cmds ≟ Some #"CAPABILITY") && (args_of cmds ≟ Some [])).

Definition parses_arguments : bool :=
  fed reader_default (line "b2 SELECT INBOX") (fun cmds _ =>
    (tag_of cmds ≟ Some #"b2") && (name_of cmds ≟ Some #"SELECT") && (args_of cmds ≟ Some [ #"INBOX"])).

Definition parses_parenthesized_list : bool :=
  fed reader_default (line "C1 FETCH 1 (FLAGS UID)") (fun cmds _ => args_of cmds ≟ Some [ #"1"; #"(FLAGS UID)"]).

Definition parses_quoted_string : bool :=
  fed reader_default (line "D1 LOGIN ~alice~ ~hunter2~") (fun cmds _ => args_of cmds ≟ Some [ #"alice"; #"hunter2"]).

Definition handles_literal : bool :=
  fed reader_default (line "E1 LOGIN {5}") (fun cmds r => (cmds ≟ []) && needs_continuation r &&
  fed r (line "alice {6}") (fun cmds r => (cmds ≟ []) &&
  fed r #"hunter" (fun cmds r => (cmds ≟ []) && negb (needs_continuation r) &&
  fed r (line "2") (fun cmds r => (length cmds ≟ 1%nat) && (args_of cmds ≟ Some [ #"alice"; #"hunter2"]))))).

Definition rejects_bad_line_end : bool :=
  feed_err reader_default ( #"A1 NOOP" ++ [b_nl]) ≟ Some Unterminated.

Definition split_across_feeds : bool :=
  fed reader_default #"A1 C" (fun cmds r => (cmds ≟ []) &&
  fed r ( #"APABILITY" ++ crlf ++ #"B1 LOG") (fun cmds r => (length cmds ≟ 1%nat) && (name_of cmds ≟ Some #"CAPABILITY") &&
  fed r (line "OUT") (fun cmds _ => name_of cmds ≟ Some #"LOGOUT"))).

Definition rejects_huge_literal : bool :=
  fed reader_default (line "A1 FOO {999999999999}") (fun cmds _ =>
    (length cmds ≟ 1%nat) && (args_of cmds ≟ Some [ #"{999999999999}"])).

Definition command_name_is_uppercased : bool :=
  fed reader_default (line "a1 select inbox") (fun cmds _ =>
    (name_of cmds ≟ Some #"SELECT") && (args_of cmds ≟ Some [ #"inbox"])).

Definition multiple_commands_in_one_feed : bool :=
  fed reader_default (line "A1 NOOP" ++ line "A2 NOOP" ++ line "A3 LOGOUT") (fun cmds _ =>
    (length cmds ≟ 3%nat) && (map pc_tag cmds ≟ [ #"A1"; #"A2"; #"A3"])).

Definition escaped_quote_in_quoted_string : bool :=
  fed reader_default (line "A1 LOGIN ~a\~b~ pass") (fun cmds _ => args_of cmds ≟ Some [dq "a~b"; #"pass"]).

Definition nested_parentheses_are_single_token : bool :=
  fed reader_default (line "A1 FETCH 1 (BODY[HEADER] (FLAGS))") (fun cmds _ =>
    (args_of cmds ≫= fun l => l !! 1%nat) ≟ Some #"(BODY[HEADER] (FLAGS))").

Definition unclosed_quote_is_error : bool :=
  feed_err reader_default (line "A1 LOGIN ~unclosed") ≟ Some UnclosedQuote.

Definition unclosed_paren_is_error : bool :=
  feed_err reader_default (line "A1 FETCH 1 (FLAGS") ≟ Some UnclosedQuote.

Definition literal_reassembles_command_correctly : bool :=
  fed reader_default (line "X LOGIN {5}") (fun cmds r => (cmds ≟ []) &&
  fed r (line "alice {6}") (fun cmds r => (cmds ≟ []) &&
  fed r #"h" (fun cmds r => (cmds ≟ []) &&
  fed r (line "unter2") (fun cmds _ => (length cmds ≟ 1%nat) && (args_of cmds ≟ Some [ #"alice"; #"hunter2"]))))).

Definition literal_in_middle_of_args : bool :=
  fed reader_default (line "Y STORE 1 +FLAGS {5}") (fun cmds r => (cmds ≟ []) &&
  fed r #"(\Seen)" (fun cmds r => (cmds ≟ []) &&
  fed r crlf (fun cmds _ =>
    (length cmds ≟ 1%nat) && (name_of cmds ≟ Some #"STORE") && (args_of cmds ≟ Some [ #"1"; #"+FLAGS"; #"(\Seen)"])))).

Definition needs_continuation_true_until_literal_done : bool :=
  fed reader_default (line "A LOGIN {10}") (fun _ r => needs_continuation r &&
  fed r #"partial" (fun _ r => needs_continuation r &&
  fed r (line "data") (fun _ r => negb (needs_continuation r)))).

Definition zero_length_literal : bool :=
  fed reader_default (line "A LOGIN {0}") (fun _ r => needs_continuation r &&
  fed r crlf (fun cmds _ => (length cmds ≟ 1%nat) && (name_of cmds ≟ Some #"LOGIN"))).

Definition bare_atom_with_dot : bool :=
  fed reader_default (line "A1 SEARCH SUBJECT foo.bar") (fun cmds _ => args_of cmds ≟ Some [ #"SUBJECT"; #"foo.bar"]).

Definition single_token_is_tagless_command : bool :=
  fed reader_default (line "DONE") (fun cmds _ =>
    (length cmds ≟ 1%nat) && (name_of cmds ≟ Some #"DONE") && (tag_of cmds ≟ Some [])).

Lemma parse_tests_pass :
  forallb id [parses_basic_command; parses_arguments; parses_parenthesized_list; parses_quoted_string; handles_literal;
    rejects_bad_line_end; split_across_feeds; rejects_huge_literal; command_name_is_uppercased;
    multiple_commands_in_one_feed; escaped_quote_in_quoted_string; nested_parentheses_are_single_token;
    unclosed_quote_is_error; unclosed_paren_is_error; literal_reassembles_command_correctly; literal_in_middle_of_args;
    needs_continuation_true_until_literal_done; zero_length_literal; bare_atom_with_dot; single_token_is_tagless_command] = true.
Proof. vm_compute. reflexivity. Qed.

(** ** response.rs *)

Definition tagged_response_format : bool := tagged #"A1" StOk #"completed" ≟ #"A1 OK completed" ++ crlf.
Definition untagged_response_format : bool := untagged #"3 EXISTS" ≟ #"* 3 EXISTS" ++ crlf.
Definition select_responses_format : bool :=
  let s := select_responses 2 1 12345 42 in
  contains ( #"* 2 EXISTS" ++ crlf) s && contains #"OK [UNSEEN 1]" s && contains #"OK [UIDVALIDITY 12345]" s
  && contains #"OK [UIDNEXT 42]" s.
Definition quote_escapes : bool := (quote (dq "a~b") ≟ dq "~a\~b~") && (quote #"plain" ≟ dq "~plain~").

Lemma response_tests_pass :
  forallb id [tagged_response_format; untagged_response_format; select_responses_format; quote_escapes] = true.
Proof. vm_compute. reflexivity. Qed.
