(* ===== verification/TestsDaemon.v ===== *)
(** * The unit tests of the daemon, on the model

    The tests of dns.rs and emulate.rs ([talk-protocol]), lib.rs and password.rs
    ([talk-mailstore]), template.rs ([talk-core]), sink.rs and secure.rs ([talkd]), and
    tests/mailbox.rs, and the tests of [talk-wallet].  Each is
    the program of the test with its assertions joined, and evaluates to [true].  The
    fixture renders the few tags of Tera that the templates use. *)

From S2P Require Import TestsProtocol.
From S2P Require Export Daemon.

Module DaemonFixture.
Import Toy.
#[export] Existing Instance Fixture.test_signing.
#[export] Existing Instance toy_encodings.
#[export] Existing Instance ToyJson.attestation_json.
#[export] Existing Instance ToyJson.registration_json.
#[export] Existing Instance ToyStore.rowids.

(** The first occurrence of [p] in [s]. *)
Fixpoint find (p s : str) : option (str * str) :=
  match strip_prefix p s with
  | Some r => Some ([], r)
  | None => match s with [] => None | c :: s => match find p s with Some (a, b) => Some (c :: a, b) | None => None end end
  end.
Definition has (p s : str) : bool := bool_decide (is_Some (find p s)).

(** [{{ name }}], [{{ name | escape }}] and [{% if name %}..{% endif %}]; the values of the
    tests have nothing to escape. *)
Definition value_of (data : list (str * str)) (e : str) : str :=
  default [] (assoc_get (trim (default e (head (split "|"%char e)))) data).
Fixpoint tera (fuel : nat) (data : list (str * str)) (s : str) : result str str :=
  match fuel with
  | O => Err #"fuel"
  | S fuel =>
      match s with
      | [] => Ok []
      | c :: r =>
          match strip_prefix #"{{" s, strip_prefix #"{% if " s with
          | Some r, _ =>
              '(e, r) ← ok_or (find #"}}" r) #"unclosed tag";
              out ← tera fuel data r; Ok (value_of data e ++ out)
          | None, Some r =>
              '(name, r) ← ok_or (find #"%}" r) #"unclosed tag";
              '(inner, r) ← ok_or (find #"{% endif %}" r) #"no endif";
              shown ← (if value_of data name ≟ [] then Ok [] else tera fuel data inner);
              out ← tera fuel data r; Ok (shown ++ out)
          | None, None => out ← tera fuel data r; Ok (c :: out)
          end
      end
  end.

(** The files of the tests, with what the TOML parser makes of them. *)
Definition toml_a : str := #"toml of the sink's test".
Definition toml_b : str := #"toml of the service's test".
Definition toml_c : str := #"toml of the template's test".
Definition toml_other : str := #"toml without a section invoice".
#[export] Instance test_templates : Templates := {|
  read_to_string := fun path =>
    if path ≟ #"/sink/template.toml" then FileContent toml_a
    else if path ≟ #"/svc/template.toml" then FileContent toml_b
    else if path ≟ #"/tmp/template.toml" then FileContent toml_c
    else if path ≟ #"/other/template.toml" then FileContent toml_other
    else FileMissing;
  toml_specs := fun raw =>
    if raw ≟ toml_a then Ok [( #"invoice", mkSpec #"Pay from {{ sender_name }}"
      #"<html><body>Invoice: {{ invoice }}{% if amount %} Amount: {{ amount }} ZEC{% endif %}</body></html>")]
    else if raw ≟ toml_b then Ok [( #"invoice", mkSpec #"Money from {{ sender_name }}" #"AMOUNT: {{ amount }} ZEC")]
    else if raw ≟ toml_c then Ok [( #"invoice", mkSpec #"Hi {{ sender_name }}" #"Amt {{ amount }}")]
    else if raw ≟ toml_other then Ok [( #"other", mkSpec #"x" #"y")]
    else Err #"toml";
  one_off := fun t data => tera (S (length t)) data t;
  rfc3339 := show_Z |}.

#[export] Instance test_argon : Argon2 := {|
  argon2_hash := fun salt pw => Ok (hex salt ++ #"$" ++ hex (checksum (salt ++ pw)));
  phc_parses := fun h => has #"$" h;
  argon2_verify := fun pw h =>
    match split_once "$"%char h with
    | Some (s, d) => match unhex_pairs s with Some salt => d ≟ hex (checksum (salt ++ pw)) | None => false end
    | None => false
    end |}.

(** The environment as a list of variables. *)
Definition env_with (vars : list (str * str)) : DnsExternals := {|
  env_var := fun name => assoc_get name vars;
  http_get := fun _ => Err #"no network";
  json_tree := fun _ => Err #"no json"; json_mismatch := [];
  key_from_bytes := fun b => Ok (b : @VerifyingKey Fixture.test_signing);
  hex_message := fun _ => []; b64_message := fun _ => [] |}.

#[export] Instance test_emulate_json : Json EmulatePayload := {|
  to_json := fun p => enc_fields [ep_sender_name p; ep_sender_address p; ep_amount p; ep_invoice p];
  from_json := fun s => match dec_fields s with Some [n; a; x; i] => Some (mkEmulate n a x i) | _ => None end |}.

Definition texts : ErrorTexts := {| io_text := #"io";
  sql_text := fun e => match e with UniqueViolation => #"UNIQUE constraint failed" | _ => #"sql" end |}.
(** An outside whose peer sends the bytes given. *)
Definition outside_with (peer : option str) : Outside := {|
  entropy := fun tick n => be_bytes n (Z.of_nat tick + 7);
  dial := fun _ _ => match peer with Some bytes => Ok (mkConn bytes []) | None => Err (ClIo #"no route") end;
  outside_texts := texts; Secure.version := #"0.1.0" |}.
#[export] Instance alone : Outside := outside_with None.

Definition world_of (s : Store) : World := mkWorld s [] (fun n => 1700000000 + Z.of_nat n)%Z 0.
End DaemonFixture.
Import DaemonFixture.

(** ** dns.rs *)

Definition static_resolver_returns_inserted_key : bool :=
  let vk : @VerifyingKey Fixture.test_signing := #"a verifying key" in
  unwrap (static_resolving_key (static_insert [] #"example.org" vk) #"example.org") (fun k => (k : str) ≟ vk).
Definition static_resolver_missing_domain : bool :=
  unwrap_err (static_resolving_key [] #"nope.org") (fun e => match e with NotFound _ => true | _ => false end).
Definition parse_srv_standard : bool :=
  parse_srv #"10 0 8888 payments.stygian.io" ≟ Some (10, 0, 8888, #"payments.stygian.io")%Z.
Definition parse_srv_picks_lowest_priority : bool :=
  match parse_srv #"20 0 8888 a.example.org", parse_srv #"10 0 9999 b.example.org" with
  | Some a, Some b => (priority b <? priority a)%Z
  | _, _ => false
  end.
Definition parse_srv_rejects_malformed : bool :=
  (parse_srv #"10 0 8888" ≟ None) && (parse_srv #"not numbers" ≟ None) && (parse_srv #"10 0 8888 " ≟ None).
Definition static_endpoint_resolver : bool :=
  let r := static_insert [] #"example.org" #"payments.example.org:8888" in
  unwrap (static_resolve_endpoint r #"example.org") (fun ep => ep ≟ #"payments.example.org:8888")
  && unwrap_err (static_resolve_endpoint r #"nope.org") (fun e => match e with NoSrv _ => true | _ => false end).
Definition doh : str := #"https://cloudflare-dns.com/dns-query".
Definition endpoint_in (env : DnsExternals) (domain : str) : result ResolverError str :=
  @doh_resolve_endpoint _ env doh domain.
Definition counterparty_endpoint_from_env : bool :=
  let env := env_with [(COUNTERPARTY_PORT_SMTP, #"1465")] in
  unwrap (endpoint_in env COUNTERPARTY_DOMAIN) (fun ep => ep ≟ #"127.0.0.1:1465")
  && unwrap (endpoint_in env #"EXAMPLE.COM") (fun ep => ep ≟ #"127.0.0.1:1465").
Definition counterparty_endpoint_unset_is_nosrv : bool :=
  unwrap_err (endpoint_in (env_with []) COUNTERPARTY_DOMAIN) (fun e => match e with NoSrv _ => true | _ => false end).
Definition counterparty_key_from_env : bool :=
  let vk : @VerifyingKey Fixture.test_signing := checksum #"a key" in
  unwrap (@doh_resolving_key _ (env_with [(COUNTERPARTY_DOMAINKEY_HEX, hex_encode vk)]) _ doh COUNTERPARTY_DOMAIN)
    (fun k => (k : str) ≟ vk).
Definition counterparty_key_missing_errors : bool :=
  is_err (@doh_resolving_key _ (env_with []) _ doh COUNTERPARTY_DOMAIN).
Definition counterparty_domain_is_env_configurable : bool :=
  let unset := env_with [] in
  let set := env_with [(COUNTERPARTY_DOMAIN_ENV, #"stygian.io")] in
  @is_counterparty _ unset #"example.com" && negb (@is_counterparty _ unset #"stygian.io")
  && @is_counterparty _ set #"stygian.io" && @is_counterparty _ set #"STYGIAN.IO"
  && negb (@is_counterparty _ set #"example.com") && (@counterparty_domain _ set ≟ #"stygian.io").

Lemma dns_tests_pass :
  forallb id [static_resolver_returns_inserted_key; static_resolver_missing_domain; parse_srv_standard;
    parse_srv_picks_lowest_priority; parse_srv_rejects_malformed; static_endpoint_resolver; counterparty_endpoint_from_env;
    counterparty_endpoint_unset_is_nosrv; counterparty_key_from_env; counterparty_key_missing_errors;
    counterparty_domain_is_env_configurable] = true.
Proof. vm_compute. reflexivity. Qed.

(** ** [talk-mailstore]: lib.rs and password.rs *)

Definition bare_username_always_ok : bool :=
  (local_username #"alice" #"talk.local" ≟ Some #"alice") && (local_username #" alice " #"talk.local" ≟ Some #"alice").
Definition matching_domain_resolves_to_local_part : bool :=
  (local_username #"alice@talk.local" #"talk.local" ≟ Some #"alice")
  && (local_username #"alice@TALK.LOCAL" #"talk.local" ≟ Some #"alice").
Definition foreign_domain_rejected : bool :=
  (local_username #"alice@evil.org" #"talk.local" ≟ None) && (local_username #"alice@" #"talk.local" ≟ None).
Definition empty_rejected : bool := (local_username [] #"talk.local" ≟ None) && (local_username #"  " #"talk.local" ≟ None).

Definition hash_and_verify_roundtrip : bool :=
  unwrap (hash_password #"salt" #"correct horse") (fun hash =>
    negb (hash ≟ #"correct horse") && unwrap (verify_password #"correct horse" hash) id).
Definition wrong_password_fails : bool :=
  unwrap (hash_password #"salt" #"correct horse") (fun hash => unwrap (verify_password #"wrong" hash) negb).
Definition hashes_are_salted : bool :=
  unwrap (hash_password #"salt" #"same") (fun a => unwrap (hash_password #"other salt" #"same") (fun b => negb (a ≟ b))).

Lemma mailstore_tests_pass :
  forallb id [bare_username_always_ok; matching_domain_resolves_to_local_part; foreign_domain_rejected; empty_rejected;
    hash_and_verify_roundtrip; wrong_password_fails; hashes_are_salted] = true.
Proof. vm_compute. reflexivity. Qed.

(** ** template.rs *)

Definition context (name address amount invoice at_ : str) : list (str * str) := invoice_context name address amount invoice at_.
Definition rendered_spec (t : TemplateSpec) (data : list (str * str)) (k : str -> str -> bool) : bool :=
  unwrap (engine_render (spec_subject t) data) (fun subject => unwrap (engine_render (spec_body t) data) (fun body => k subject body)).
Definition two_lines : str := #"line one" ++ [b_nl] ++ #"line two".

Definition default_invoice_renders_fields : bool :=
  rendered_spec default_invoice (context #"Alice Smith" #"t1abc" #"1.5" two_lines #"2026-08-16") (fun subject body =>
    (subject ≟ #"Invoice from Alice Smith") && has #"<!DOCTYPE html>" body && has #"Alice Smith" body && has #"t1abc" body
    && has #"1.5 ZEC" body && has two_lines body && has #"Received 2026-08-16" body).
Definition default_invoice_omits_empty_amount : bool :=
  rendered_spec default_invoice (context #"bob@example.org" #"bob@example.org" [] #"invoice text" #"2026-08-16") (fun _ body =>
    has #"invoice text" body && negb (has #"Amount due" body) && negb (has #"ZEC" body)).
Definition bad_template_fails : bool :=
  unwrap_err (engine_render #"{{ sender_name" []) (fun e => match e with Render _ => true | _ => false end).
Definition template_spec_roundtrips_toml : bool :=
  unwrap (load #"/tmp/template.toml" #"invoice") (fun o => match o with
    | Some spec => (spec_subject spec ≟ #"Hi {{ sender_name }}") && (spec_body spec ≟ #"Amt {{ amount }}")
    | None => false end).
Definition missing_template_file_is_none : bool :=
  unwrap (load #"/tmp/nope.toml" #"invoice") (fun o => match o with None => true | _ => false end).
Definition template_toml_missing_key_is_error : bool := is_err (load #"/other/template.toml" #"invoice").

Lemma template_tests_pass :
  forallb id [default_invoice_renders_fields; default_invoice_omits_empty_amount; bad_template_fails;
    template_spec_roundtrips_toml; missing_template_file_is_none; template_toml_missing_key_is_error] = true.
Proof. vm_compute. reflexivity. Qed.

(** ** sink.rs *)

(** A store method of a test that must succeed. *)
Definition stored {A} (m : M A) (w : World) (k : A -> World -> bool) : bool :=
  match on_store m w with (Ok a, w) => k a w | _ => false end.
(** [store_with_user]: the store, and the id of alice. *)
Definition store_with_user (k : Z -> World -> bool) : bool :=
  unwrap (hash_password #"salt" #"pw") (fun hash =>
  stored (create_user 1600000000 #"alice" hash (replicate 32 b_nul)) (world_of ToyStore.start) (fun u w => k (user_id u) w)).
(** A delivery that is accepted. *)
Definition delivered (k : StoreDeliverySink) (sender mid : str) (p : Payload) (body : str) (w : World) (next : World -> bool) : bool :=
  match store_deliver k sender mid #"alice@example.org" p body w with (Accepted _, w) => next w | _ => false end.
Definition first_meta (uid : Z) (w : World) (k : MessageMeta -> bool) : bool :=
  stored (list_messages uid) w (fun l _ => match l with m :: _ => k m | [] => false end).
Definition first_message (uid : Z) (w : World) (k : Message -> bool) : bool :=
  first_meta uid w (fun m => stored (fetch_message uid (meta_id m)) w (fun msg _ => k msg)).

Definition unpinned_sender_is_unverified : bool :=
  store_with_user (fun uid w => delivered sink_new #"bob@example.org" #"m1" Sealed #"body" w (fun w =>
    first_meta uid w (fun m => (meta_sender m ≟ #"bob@example.org") && (meta_trust_state m ≟ #"unverified")))).
Definition deliver_records_inbound_transaction : bool :=
  store_with_user (fun uid w => delivered sink_new #"bob@example.org" #"tx-1" Plaintext #"body" w (fun w =>
    stored (tx_by_message_id MailStore.In #"tx-1") w (fun o _ => match o with
      | Some tx => (tx_state tx ≟ Opaque) && (tx_recipient_mailbox tx ≟ #"alice@example.org")
          && (tx_sender_mailbox tx ≟ #"bob@example.org") && (tx_amount tx ≟ [])
      | None => false end)
    && first_meta uid w (fun m => meta_tx_state m ≟ Some #"opaque"))).
Definition pinned_sender_is_trusted : bool :=
  store_with_user (fun uid w =>
  stored (keyring_set_trusted 1600000001 uid #"bob@example.org" #"pubkey" #"att") w (fun _ w =>
  delivered sink_new #"bob@example.org" #"m1" Sealed #"body" w (fun w =>
    first_meta uid w (fun m => meta_trust_state m ≟ #"trusted")))).
Definition anonymous_sender_is_unverified : bool :=
  store_with_user (fun uid w => delivered sink_new [] #"m1" Sealed #"body" w (fun w =>
    first_meta uid w (fun m => (meta_sender m ≟ []) && (meta_trust_state m ≟ #"unverified")))).
Definition deliver_renders_html_with_template : bool :=
  store_with_user (fun uid w =>
  delivered (with_template sink_new None #"/sink") #"bob@example.org" #"m-render" Sealed #"invoice body" w (fun w =>
    first_message uid w (fun msg =>
      (meta_subject (msg_meta msg) ≟ #"Pay from bob@example.org") && has #"<html><body>Invoice: invoice body" (msg_body msg)
      && negb (has #"Amount:" (msg_body msg))))).
Definition deliver_without_configured_template_uses_builtin_html : bool :=
  store_with_user (fun uid w => delivered sink_new #"bob@example.org" #"m-raw" Plaintext #"raw blob" w (fun w =>
    first_message uid w (fun msg =>
      (meta_subject (msg_meta msg) ≟ #"Invoice from bob@example.org") && has #"<!DOCTYPE html>" (msg_body msg)
      && has #"raw blob" (msg_body msg)))).

Lemma sink_tests_pass :
  forallb id [unpinned_sender_is_unverified; deliver_records_inbound_transaction; pinned_sender_is_trusted;
    anonymous_sender_is_unverified; deliver_renders_html_with_template;
    deliver_without_configured_template_uses_builtin_html] = true.
Proof. vm_compute. reflexivity. Qed.

(** ** secure.rs *)

Definition service_key : @SigningKey Fixture.test_signing := #"the daemon's key".
(** [service_with_store], with its sink and template settings. *)
Definition service_on (k : StoreDeliverySink) (template_path : option str) (dir : str) : SecureMailboxService :=
  mkService #"example.org" (Some #"receiver.example.org:2525") (fun d => Err (NotFound d)) (fun d => Err (NoSrv d))
    service_key k template_path dir.
Definition service : SecureMailboxService := service_on sink_new None [].
Definition fresh : World := world_of ToyStore.start.
Definition payload : EmulatePayload := mkEmulate #"Alice Smith" #"t1abc123" #"1.5" two_lines.

(** A call that succeeds, and the error of one that does not. *)
Definition called {A} (m : st World str A) (w : World) (k : A -> World -> bool) : bool :=
  match m w with (Ok a, w) => k a w | _ => false end.
Definition call_fails {A} (m : st World str A) (w : World) (part : str) : bool :=
  match m w with (Err e, _) => has part e | _ => false end.
Definition attested (mode : AttestationMode) (w : World) (k : Attestation -> World -> bool) : bool :=
  called (attest service #"alice" mode) w (fun blob w => unwrap (att_from_json blob) (fun a => k a w)).

Definition attest_produces_verifiable_signed_attestation : bool :=
  attested Ephemeral fresh (fun att _ =>
    (att_domain att ≟ #"example.org") && (att_user att ≟ #"alice") && (att_mode att ≟ Ephemeral)
    && (length (att_pubkey att) ≟ 64%nat) && is_ok (att_verify att (verifying_key service_key) #"example.org")).
Definition attest_rejects_empty_user : bool := call_fails (attest service [] Attested) fresh #"requires a user".
Definition attest_modes_differ : bool :=
  attested Ephemeral fresh (fun a w => attested Attested w (fun b _ =>
    negb (att_mode a ≟ att_mode b) && negb (att_address a ≟ att_address b))).
Definition register_creates_user_with_attestation_and_argon2 : bool :=
  let pubkey := replicate 32 (of_byte 7) in
  called (register service #"alice" #"s3cret" (hex pubkey) None) fresh (fun _ w =>
  stored (get_user #"alice") w (fun o _ => match o with
    | Some user =>
        (user_master_pubkey user ≟ pubkey) && (user_ivk_commitment user ≟ None) && negb (user_username user ≟ #"s3cret")
        && match user_registration_attestation user with
           | Some r_att => unwrap (reg_from_json r_att) (fun parsed =>
               (reg_domain parsed ≟ #"example.org") && (reg_username parsed ≟ #"alice")
               && (reg_master_pubkey parsed ≟ hex pubkey) && negb (reg_signature parsed ≟ []))
           | None => false
           end
    | None => false end)
  && stored (password_hash #"alice") w (fun h _ => match h with
       | Some h => unwrap (verify_password #"s3cret" h) id | None => false end)).
Definition register_rejects_bad_pubkey : bool := call_fails (register service #"bob" #"pw" #"nothex" None) fresh #"32 bytes".
Definition register_rejects_empty_username : bool :=
  call_fails (register service [] #"pw" (hex (replicate 32 b_nul)) None) fresh #"username".
Definition register_rejects_bad_ivk : bool :=
  call_fails (register service #"carol" #"pw" (hex (replicate 32 b_nul)) (Some #"nope")) fresh #"ivk".
Definition register_duplicate_username_fails : bool :=
  let pubkey := hex (replicate 32 (of_byte 1)) in
  called (register service #"dave" #"pw" pubkey None) fresh (fun _ w =>
    call_fails (register service #"dave" #"pw2" pubkey None) w #"UNIQUE").

(** Bob is registered, then the payment is emulated. *)
Definition with_bob (k : World -> bool) : bool :=
  called (register service #"bob" #"pw" (hex (replicate 32 (of_byte 3))) None) fresh (fun _ w => k w).
Definition emulated (svc : SecureMailboxService) (k : str -> World -> bool) : bool :=
  with_bob (fun w => called (emulate svc #"bob" payload) w k).
Definition bobs (w : World) (k : Z -> bool) : bool :=
  stored (get_user #"bob") w (fun o _ => match o with Some u => k (user_id u) | None => false end).

Definition emulate_delivers_rendered_message : bool :=
  emulated service (fun text w => has #"emul-" text && bobs w (fun bob =>
    stored (list_messages bob) w (fun l _ => length l ≟ 1%nat)
    && first_message bob w (fun msg =>
         (meta_subject (msg_meta msg) ≟ #"Invoice from Alice Smith") && (meta_trust_state (msg_meta msg) ≟ #"unverified")
         && has #"Alice Smith" (msg_body msg) && has #"t1abc123" (msg_body msg) && has #"1.5 ZEC" (msg_body msg)
         && has two_lines (msg_body msg)))).
Definition emulate_broadcasts_idle_event : bool :=
  emulated (service_on (with_events sink_new) None []) (fun _ w =>
    match w_events w with MessageAppended _ :: _ => true | [] => false end).
Definition emulate_unknown_user_errors : bool := call_fails (emulate service #"ghost" payload) fresh #"no such recipient".
Definition emulate_rejects_empty_recipient : bool := call_fails (emulate service [] payload) fresh #"recipient".
Definition emulate_creates_inbound_transaction_with_amount : bool :=
  emulated service (fun _ w => stored (tx_list (Some MailStore.In) None) w (fun txs _ => match txs with
    | [tx] => (tx_state tx ≟ Opaque) && (tx_amount tx ≟ #"1.5") && (tx_recipient_mailbox tx ≟ #"bob")
    | _ => false end)).
Definition emulate_uses_template_toml_override : bool :=
  emulated (service_on sink_new None #"/svc") (fun _ w => bobs w (fun bob => first_message bob w (fun msg =>
    (meta_subject (msg_meta msg) ≟ #"Money from Alice Smith") && (msg_body msg ≟ #"AMOUNT: 1.5 ZEC")))).
Definition emulate_explicit_template_path_missing_errors : bool :=
  call_fails (emulate (service_on sink_new (Some #"/nonexistent/template.toml") []) #"bob" payload) fresh #"template".

Lemma secure_tests_pass :
  forallb id [attest_produces_verifiable_signed_attestation; attest_rejects_empty_user; attest_modes_differ;
    register_creates_user_with_attestation_and_argon2; register_rejects_bad_pubkey; register_rejects_empty_username;
    register_rejects_bad_ivk; register_duplicate_username_fails; emulate_delivers_rendered_message;
    emulate_broadcasts_idle_event; emulate_unknown_user_errors; emulate_rejects_empty_recipient;
    emulate_creates_inbound_transaction_with_amount; emulate_uses_template_toml_override;
    emulate_explicit_template_path_missing_errors] = true.
Proof. vm_compute. reflexivity. Qed.

(** *** SEND to another daemon: the peer sends what its server answers to the client *)

(** The sink of the test stores a fixed body for the recipient's user. *)
Definition fixed_sink : DeliverySink World :=
  mkSink (fun _ message_id recipient _ _ w =>
    match on_store (get_user (default [] (head (split "@"%char recipient)))) w with
    | (Ok (Some u), w) => let '(_, w) := on_store (append_message 1700000000 (user_id u) (new_invoice message_id #"s" #"body")) w in
        (Accepted message_id, w)
    | (_, w) => (RetryLater [], w)
    end).
Definition receiver_key : @SigningKey Fixture.test_signing := #"the receiver's key".
Definition user_in (name : str) (k : World -> bool) : bool :=
  unwrap (hash_password #"salt" #"pw") (fun hash =>
    stored (create_user 1600000000 name hash (replicate 32 b_nul)) fresh (fun _ w => k w)).
(** What the client of SEND writes: its nonce and its clock are those of the first ticks. *)
Definition send_challenge : Challenge :=
  issue (be_bytes 16 7) 1700000001 #"sender.example.org" #"receiver.example.org".
Definition send_client_writes : str :=
  client_writes [write_line #"HELLO sender.example.org"; write_line ( #"AUTH " ++ b64_encode (to_wire send_challenge));
    write_line #"ADDR ephemeral bob"; write_line #"INVOICE alice msg-srv-1 sealed"; write_blob #"opaque"; write_line #"QUIT"].
Definition received (w : World) (k : World -> str -> bool) : bool :=
  match serve_connection #"receiver.example.org" receiver_key fixed_sink store_user_directory w (mkConn send_client_writes []) with
  | Some (Ok _, _, w, c) => k w (tx c)
  | _ => false
  end.
Definition sender_service : SecureMailboxService :=
  mkService #"sender.example.org" None
    (static_resolving_key (static_insert [] #"receiver.example.org" (verifying_key receiver_key)))
    (static_resolve_endpoint (static_insert [] #"receiver.example.org" #"127.0.0.1:2525"))
    #"the sender's key" sink_new None [].
Definition send_over (peer : str) : st World str str :=
  @send _ _ _ _ (outside_with (Some peer)) _ sender_service #"alice" #"bob@receiver.example.org" #"msg-srv-1" Sealed #"opaque".

Definition send_resolves_endpoint_via_srv_and_delivers_over_tls : bool :=
  user_in #"bob" (fun recv => received recv (fun recv peer =>
  bobs recv (fun bob => stored (list_messages bob) recv (fun msgs _ => length msgs ≟ 1%nat))
  && user_in #"alice" (fun w => called (send_over peer) w (fun _ w =>
     stored (tx_list (Some Out) None) w (fun out _ => match out with
       | [tx] => (tx_state tx ≟ MailStore.Sent) && (tx_recipient_mailbox tx ≟ #"bob@receiver.example.org")
                 && (tx_outbound_body tx ≟ Some #"opaque")
       | _ => false end)
     && stored (get_user #"alice") w (fun o _ => match o with
          | Some alice => stored (list_messages_in (user_id alice) SENT) w (fun sent _ => match sent with
              | [m] => meta_sender m ≟ #"bob@receiver.example.org"
              | _ => false end)
          | None => false end))))).

Lemma send_test_passes : send_resolves_endpoint_via_srv_and_delivers_over_tls = true.
Proof. vm_compute. reflexivity. Qed.

(** ** emulate.rs *)

Definition emulate_roundtrips (p : EmulatePayload) : bool :=
  match ep_from_json (ep_to_json p) with
  | Some back => (ep_sender_name back ≟ ep_sender_name p) && (ep_sender_address back ≟ ep_sender_address p)
                 && (ep_amount back ≟ ep_amount p) && (ep_invoice back ≟ ep_invoice p)
  | None => false
  end.
Definition payload_roundtrips : bool := emulate_roundtrips payload.
Definition payload_handles_arbitrary_ascii : bool :=
  emulate_roundtrips (mkEmulate #"exchange" #"t1xyz" #"0.001" (map of_byte [0; 1; 2]%Z ++ #"not ascii")).
Definition garbage_is_none : bool := match ep_from_json #"not json" with None => true | Some _ => false end.

Lemma emulate_tests_pass : forallb id [payload_roundtrips; payload_handles_arbitrary_ascii; garbage_is_none] = true.
Proof. vm_compute. reflexivity. Qed.

(** ** tests/mailbox.rs *)

(** The handler of the tests keeps what was sent and emulated. *)
Definition Kept : Type := list (str * str * str) * list (str * EmulatePayload).
Definition mock_handler : SecureMailboxHandler Kept := mkHandler _
  (fun _ recipient mid _ body w => (SendOk ( #"delivered " ++ mid), (w.1 ++ [(recipient, mid, body)], w.2)))
  (fun user _ w => (AttestOk ( #"attestation-for-" ++ user), w))
  (fun _ _ _ _ w => (RegisterOk, w))
  (fun _ => #"mock-ok")
  (fun user p w => (EmulateOk ( #"delivered to " ++ user), (w.1, w.2 ++ [(user, p)]))).
(** What the server makes of some bytes, and a client's program against it. *)
Definition mock_serves (input : str) : str * Kept :=
  match SecureMailbox.serve mock_handler ([], []) (mkConn input []) with Some (_, w, c) => (tx c, w) | None => ([], ([], [])) end.
Definition with_mock {A} (m : io A) (k : A -> Kept -> bool) : bool :=
  let '(replies, w) := mock_serves (tx (snd (m (mkConn [] [])))) in
  unwrap (fst (m (mkConn replies []))) (fun a => k a w).
Definition mock_replies (input part : str) : bool := has part (fst (mock_serves input)).

Definition send_command_reaches_handler : bool :=
  with_mock (mc_send #"alice" #"bob@example.org" #"msg-1" Sealed #"opaque") (fun reply w =>
    starts_with #"OK delivered msg-1" reply && (w.1 ≟ [( #"bob@example.org", #"msg-1", #"opaque")])).
(** The client waits for each reply; what it writes does not depend on them. *)
Definition status_and_quit : bool :=
  let '(replies, _) := mock_serves (client_writes [write_line #"STATUS"; write_line #"QUIT"]) in
  unwrap (fst ((status ← mc_status; quit ← mc_quit; mret (status, quit)) (mkConn replies [])))
    (fun '(status, quit) => starts_with #"OK mock-ok" status && starts_with #"OK bye" quit).
Definition unknown_command_errors : bool := mock_replies ( #"FROBNICATE" ++ crlf) #"ERR unknown command".
Definition malformed_send_errors : bool := mock_replies ( #"SEND alice@example.org msg-1 bogus" ++ crlf) #"ERR malformed SEND".
Definition register_command_reaches_handler : bool :=
  with_mock (mc_register #"alice" #"s3cret" #"abcd1234" None) (fun reply _ => starts_with #"OK registered" reply).
Definition register_with_ivk : bool :=
  with_mock (mc_register #"bob" #"pw" #"beef" (Some #"cafe")) (fun reply _ => starts_with #"OK registered" reply).
Definition emulate_command_reaches_handler : bool :=
  let invoice := #"line one" ++ [b_nl] ++ #"line two" in
  with_mock (mc_emulate #"bob" #"Alice Smith" #"t1abc123" #"1.5" invoice) (fun reply w =>
    starts_with #"OK delivered to bob" reply
    && match w.2 with
       | [(user, p)] => (user ≟ #"bob") && (ep_sender_name p ≟ #"Alice Smith") && (ep_sender_address p ≟ #"t1abc123")
                        && (ep_amount p ≟ #"1.5") && (ep_invoice p ≟ invoice)
       | _ => false
       end).
Definition emulate_missing_recipient_errors : bool := mock_replies ( #"EMULATE" ++ crlf) #"ERR EMULATE requires a recipient user".
Definition emulate_malformed_blob_errors : bool :=
  mock_replies ( #"EMULATE bob" ++ crlf ++ #"BLOB 4" ++ crlf ++ #"nope") #"ERR malformed EMULATE payload".

Lemma mailbox_tests_pass :
  forallb id [send_command_reaches_handler; status_and_quit; unknown_command_errors; malformed_send_errors;
    register_command_reaches_handler; register_with_ivk; emulate_command_reaches_handler;
    emulate_missing_recipient_errors; emulate_malformed_blob_errors] = true.
Proof. vm_compute. reflexivity. Qed.

(** ** tests/resolver.rs and client.rs ([talk-wallet]) *)

Definition wallet_world : World := fresh.

From S2P Require Import Wallet Indexer.

Definition resolver_maps_username_to_wallet_binding : bool :=
  let pubkey := replicate 32 (of_byte 9) in
  stored (create_user_full 1600000000 #"alice" #"a hash" pubkey (Some #"ivk-commit") None) wallet_world (fun _ w =>
    match wallet_resolve #"/tmp/wallets" #"alice" (w_store w) with
    | (Ok b, _) => (wb_username b ≟ #"alice") && (wb_master_pubkey b ≟ pubkey) && (wb_ivk_commitment b ≟ Some #"ivk-commit")
                   && ends_with #"/wallets/1/wallet.db" (wb_wallet_db_path b)
    | _ => false
    end).
Definition resolver_rejects_unknown_user : bool := is_err (fst (wallet_resolve #"/tmp/wallets" #"ghost" (w_store wallet_world))).
(** No server listens: the connection is refused. *)
Definition refusing : Grpc unit := {|
  GrpcEndpoint := str; GrpcChannel := unit; GrpcStream := unit; CompactBlock := unit; TransportError := str; GrpcStatus := str;
  from_shared := fun s => Ok s; channel_connect := fun _ w => (Err #"connection refused", w);
  get_latest_block := fun _ w => (Err [], w); get_block_range := fun _ _ w => (Err [], w); stream_message := fun _ w => (Err [], w);
  grpc_send_transaction := fun _ _ w => (Err [], w) |}.
Definition connect_fails_cleanly : bool := is_err (fst (@indexer_connect _ refusing #"http://127.0.0.1:1" tt)).

Lemma wallet_tests_pass :
  forallb id [resolver_maps_username_to_wallet_binding; resolver_rejects_unknown_user; connect_fails_cleanly] = true.
Proof. vm_compute. reflexivity. Qed.
