(* ===== verification/TestsSession.v ===== *)
(** * The tests of the IMAP session and server, on the model ([talk-imap/tests/session.rs], [server.rs])

    A test is a script of command lines; behind each stands what the test asserts of the
    reply, the session and the store. *)

From S2P Require Import TestsProtocol TestsKeys TestsDaemon ToyStore.
From S2P Require Export ImapServer.

Module SessionFixture.
#[export] Existing Instance DaemonFixture.texts.
#[export] Existing Instance Toy.toy_encodings.
#[export] Existing Instance KeyFixture.test_keys.
#[export] Existing Instance DaemonFixture.test_argon.
#[export] Existing Instance ToyStore.rowids.
#[export] Instance test_groups : OsGroups := {| getgrnam := fun _ => None |}.
#[export] Instance test_times : TimeFormat := {|
  internaldate_format := fun t => Some ( #"01-Jan-2024 at " ++ show_Z t ++ #" +0000");
  rfc2822_format := fun t => Some ( #"Mon, 01 Jan 2024 at " ++ show_Z t ++ #" +0000") |}.
End SessionFixture.
Import SessionFixture.

(** ** Scripts *)

Definition has (p s : str) : bool := DaemonFixture.has p s.
(** What a test asserts behind a command. *)
Definition check := str -> ImapSession -> Store -> bool.
Definition says (p : string) : check := fun out _ _ => has (dq p) out.
Definition says_not (p : string) : check := fun out _ _ => negb (has (dq p) out).
Definition in_state (x : ImapState) : check := fun _ s _ => im_state s ≟ x.
Definition as_user (name : str) : check := fun _ s _ => im_username s ≟ name.
Definition on_list (p : list MessageMeta -> bool) : check := fun _ s w =>
  match list_messages (im_user_id s) w with (Ok l, _) => p l | _ => false end.
Definition first_seen (x : bool) : check := on_list (fun l => match l with m :: _ => is_seen (meta_flags m) ≟ x | [] => false end).

(** [parse_cmd]. *)
Definition parse_cmd (line : str) : option ParsedCommand :=
  match feed reader_default (line ++ crlf) with Some (Ok (cmd :: _), _) => Some cmd | _ => None end.
Fixpoint play (script : list (str * list check)) (s : ImapSession) (w : Store) : bool :=
  match script with
  | [] => true
  | (line, checks) :: script =>
      match parse_cmd line with
      | None => false
      | Some cmd =>
          let '(out, (s, w)) := imap_handle cmd (s, w) in
          forallb (fun c => c out s w) checks && play script s w
      end
  end.
(** A line and its assertions; double quotes are tildes. *)
Definition cmd (line : string) (checks : list check) : str * list check := (dq line, checks).

(** [setup], [session_with]. *)
Definition alice_id : Z := 1.
Definition setup : Store :=
  let hash := match hash_password #"salt" #"secret" with Ok h => h | Err _ => [] end in
  let '(_, w) := create_user 1600000000 #"alice" hash (replicate 32 b_nul) ToyStore.start in
  snd (append_message 1600000001 alice_id (new_invoice #"msg-1" #"New sealed invoice" #"ciphertext-blob") w).
Definition session0 : ImapSession := mkImap NotAuthenticated [] 0 Database #"talk.local" INBOX.
Definition plays (script : list (str * list check)) : bool := play script session0 setup.

Definition logs_in : str * list check := cmd "A1 LOGIN alice secret" [].
Definition selects : str * list check := cmd "A2 SELECT INBOX" [].

(** ** The tests *)

Definition login_then_select_flow : bool := plays
  [cmd "A1 CAPABILITY" [says "CAPABILITY IMAP4rev1"; says "A1 OK"];
   cmd "A2 LOGIN alice secret" [says "A2 OK"; in_state ImAuthenticated; as_user #"alice"];
   cmd "A3 SELECT INBOX" [says "* 1 EXISTS"; says "A3 OK [READ-WRITE]"; in_state Selected]].
Definition login_rejected_for_unknown_user : bool := plays [cmd "A1 LOGIN eve secret" [says "A1 NO"; in_state NotAuthenticated]].
Definition login_with_local_domain_accepted : bool := plays
  [cmd "A1 LOGIN alice@talk.local secret" [says "A1 OK"; in_state ImAuthenticated; as_user #"alice"]].
Definition login_with_foreign_domain_rejected : bool := plays
  [cmd "A1 LOGIN alice@evil.org secret" [says "A1 NO"; in_state NotAuthenticated]].
Definition login_with_wrong_password_and_domain_rejected : bool := plays
  [cmd "A1 LOGIN alice@talk.local wrongpass" [says "A1 NO"; in_state NotAuthenticated]].

(** The store with a share of alice, and the login with a share as app password. *)
Definition share_store : Store :=
  let set := share_wrap (KeyFixture.rng 0) (KeyFixture.key_of 50) [KeyFixture.key_of 0] in
  match wrappers set with
  | w :: _ => snd (add_share alice_id #"share-1" (wrapped w) setup)
  | [] => setup
  end.
Definition app_login (name share : str) (checks : list check) : bool :=
  play [( #"A1 LOGIN " ++ name ++ #" " ++ hex share, checks)] session0 share_store.
Definition app_password_share_unlocks_dk : bool :=
  app_login #"alice:app" (KeyFixture.key_of 0) [says "A1 OK"; as_user #"alice"].
Definition app_password_with_local_domain_accepted : bool :=
  app_login #"alice@talk.local:app" (KeyFixture.key_of 0) [says "A1 OK"; as_user #"alice"].
Definition app_password_wrong_share_rejected : bool :=
  app_login #"alice:app" (KeyFixture.key_of 1) [says "A1 NO"; in_state NotAuthenticated].
Definition app_password_non_hex_rejected : bool := plays [cmd "A1 LOGIN alice:app not-hex!!" [says "A1 NO"]].

Definition select_requires_auth : bool := plays [cmd "A1 SELECT INBOX" [says "A1 BAD"]].
Definition fetch_returns_body_literal : bool := plays [logs_in; selects;
  cmd "A3 FETCH 1 BODY[]" [says "* 1 FETCH (FLAGS () UID 1 RFC822.SIZE 15 BODY[] {15}"; says "ciphertext-blob"; says "A3 OK FETCH completed"]].
Definition fetch_header_section_synthesizes_headers : bool := plays [logs_in; selects;
  cmd "A3 FETCH 1 (BODY.PEEK[HEADER])" [says "BODY[HEADER] {"; says "Subject: New sealed invoice"; says "Message-ID: <msg-1>"; says "A3 OK FETCH completed"]].
Definition fetch_header_fields_only_returns_listed : bool := plays [logs_in; selects;
  cmd "A3 FETCH 1 (BODY.PEEK[HEADER.FIELDS (SUBJECT)])"
    [says "BODY[HEADER.FIELDS (SUBJECT)] {"; says "Subject: New sealed invoice"; says_not "Message-ID"; says "A3 OK FETCH completed"]].
Definition fetch_text_section_returns_body : bool := plays [logs_in; selects;
  cmd "A3 FETCH 1 (BODY.PEEK[TEXT])" [says "BODY[TEXT] {15}"; says "ciphertext-blob"; says_not "Subject:"]].
Definition fetch_macros_full_fast_all : bool := plays [logs_in; selects;
  cmd "A3 FETCH 1 (FULL)" [says "FLAGS ()"; says "RFC822.SIZE 15"; says "INTERNALDATE"; says "ENVELOPE ("; says "BODY[] {15}"];
  cmd "A4 FETCH 1 (FAST)" [says "FLAGS ()"; says "RFC822.SIZE 15"; says_not "BODY["];
  cmd "A5 FETCH 1 (ALL)" [says "ENVELOPE ("; says "BODY[] {15}"]].
Definition fetch_rfc822_size_never_zero_without_body : bool := plays [logs_in; selects;
  cmd "A3 FETCH 1 (FLAGS RFC822.SIZE)" [says "RFC822.SIZE 15"; says_not "BODY["]].
Definition status_includes_recent : bool := plays [logs_in;
  cmd "A2 STATUS INBOX (MESSAGES RECENT UNSEEN UIDNEXT UIDVALIDITY)" [says "MESSAGES 1"; says "RECENT 0"; says "A2 OK STATUS completed"]].
Definition store_marks_seen : bool := plays [logs_in; selects;
  cmd "A3 STORE 1 +FLAGS (\Seen)" [says "A3 OK STORE completed"; first_seen true]].
Definition search_unseen : bool := plays [logs_in; selects; cmd "A3 SEARCH UNSEEN" [says "SEARCH 1"; says "A3 OK SEARCH completed"]].
Definition expunge_and_close : bool := plays [logs_in; selects;
  cmd "A3 STORE 1 +FLAGS (\Deleted)" [];
  cmd "A4 EXPUNGE" [says "* 1 EXPUNGE"; on_list (fun l => (length l =? 0)%nat)];
  cmd "A5 CLOSE" [says "A5 OK CLOSE completed"; in_state ImAuthenticated]].
Definition uid_fetch_and_uid_store : bool := plays [logs_in; selects;
  cmd "A3 UID FETCH 1 BODY[]" [says "BODY[] {15}"; says "ciphertext-blob"; says "A3 OK FETCH completed"];
  cmd "A4 UID STORE 1 +FLAGS (\Seen)" [says "A4 OK STORE completed"; first_seen true]].
Definition logout_sends_bye : bool := plays [cmd "A1 LOGOUT" [says "BYE"; says "A1 OK LOGOUT completed"]].
Definition unknown_command_is_bad : bool := plays [cmd "A1 FROBNICATE" [says "A1 BAD"]].
Definition response_helpers : bool :=
  (tagged #"A1" StOk #"done" ≟ #"A1 OK done" ++ crlf) && (untagged #"2 EXISTS" ≟ #"* 2 EXISTS" ++ crlf).
Definition login_with_wrong_user_rejected : bool := plays [cmd "A1 LOGIN nosuchuser secret" [says "A1 NO"; in_state NotAuthenticated]].
Definition login_with_empty_password_rejected : bool := plays [cmd "A1 LOGIN alice ~~" [says "A1 NO"]].
Definition double_login_is_bad : bool := plays [logs_in; cmd "A2 LOGIN alice secret" [says "A2 BAD"]].
Definition plain_token (s : str) (checks : list check) : bool := plays [( #"A1 AUTHENTICATE PLAIN " ++ b64_encode s, checks)].
Definition authenticate_plain_flow : bool :=
  plain_token (b_nul :: #"alice" ++ b_nul :: #"secret") [says "A1 OK"; in_state ImAuthenticated].
Definition authenticate_plain_malformed_payload : bool := plain_token #"too-few-parts" [says "A1 BAD"].
Definition authenticate_plain_bad_base64 : bool := plays [cmd "A1 AUTHENTICATE PLAIN !!!not-base64!!!" [says "A1 BAD"]].
Definition select_nonexistent_mailbox : bool := plays [logs_in; cmd "A2 SELECT NOSUCH" [says "A2 NO"; in_state ImAuthenticated]].
Definition list_shows_inbox : bool := plays [logs_in; cmd "A2 LIST ~~ ~*~" [says "INBOX"; says "A2 OK"]].
Definition list_requires_auth : bool := plays [cmd "A1 LIST ~~ ~*~" [says "A1 BAD"]].
Definition fetch_requires_selected : bool := plays [logs_in; cmd "A2 FETCH 1 BODY[]" [says "A2 BAD"]].
Definition fetch_empty_range_ok : bool := plays [logs_in; selects; cmd "A3 FETCH 999 BODY[]" [says "A3 OK FETCH completed"]].
Definition store_without_selected_is_bad : bool := plays [logs_in; cmd "A2 STORE 1 +FLAGS (\Seen)" [says "A2 BAD"]].
Definition store_unsupported_flag_is_bad : bool := plays [logs_in; selects; cmd "A3 STORE 1 +FLAGS (\NoSuchFlag)" [says "A3 BAD"]].
Definition store_remove_flag : bool := plays [logs_in; selects; cmd "A3 STORE 1 +FLAGS (\Seen)" [];
  cmd "A4 STORE 1 -FLAGS (\Seen)" [says "A4 OK STORE completed"; first_seen false]].
Definition search_all_matches_everything : bool := plays [logs_in; selects; cmd "A3 SEARCH ALL" [says "SEARCH 1"]].
Definition uid_search_unseen : bool := plays [logs_in; selects; cmd "A3 UID SEARCH UNSEEN" [says "SEARCH 1"; says "A3 OK"]].
Definition uid_fetch_lowercase_returns_flags_and_uid : bool := plays [logs_in; selects;
  cmd "A3 UID fetch 1:* (FLAGS)" [says "* 1 FETCH (FLAGS () UID 1"; says "A3 OK FETCH completed"]].
Definition uid_fetch_lowercase_sections : bool := plays [logs_in; selects;
  cmd "A3 UID fetch 1 (BODY.PEEK[HEADER.FIELDS (SUBJECT)])"
    [says "BODY[HEADER.FIELDS (SUBJECT)] {"; says "Subject: New sealed invoice"; says "A3 OK FETCH completed"]].
Definition uid_store_lowercase : bool := plays [logs_in; selects;
  cmd "A3 UID store 1 +FLAGS (\Seen)" [says "1 FETCH (FLAGS (\Seen))"; says "A3 OK STORE completed"];
  cmd "A4 UID search UNSEEN" [says "SEARCH "; says_not "SEARCH 1"]].
Definition uid_search_lowercase : bool := plays [logs_in; selects;
  cmd "A3 UID search ALL" [says "SEARCH 1"; says "A3 OK SEARCH completed"]].
Definition expunge_requires_selected : bool := plays [logs_in; cmd "A2 EXPUNGE" [says "A2 BAD"]].
Definition close_requires_selected : bool := plays [logs_in; cmd "A2 CLOSE" [says "A2 BAD"]].
Definition examine_is_like_select : bool := plays [logs_in;
  cmd "A2 EXAMINE INBOX" [says "* 1 EXISTS"; says "A2 OK"; in_state Selected]].
Definition idle_requires_selected : bool := plays [logs_in; cmd "A2 IDLE" [says "A2 BAD"]].
Definition noop_works_in_any_state : bool := plays [cmd "A1 NOOP" [says "A1 OK NOOP completed"]].
Definition capability_reports_imap4rev1 : bool := plays [cmd "A1 CAPABILITY" [says "IMAP4rev1"; says "IDLE"; says "AUTH=PLAIN"]].
Definition uid_fetch_range : bool := plays [logs_in; selects; cmd "A3 UID FETCH 1:2 BODY[]" [says "A3 OK FETCH completed"]].
Definition fetch_range_star : bool := plays [logs_in; selects;
  cmd "A3 FETCH * BODY[]" [says "* 1 FETCH"; says "A3 OK FETCH completed"]].
Definition namespace_returns_default : bool := plays [logs_in;
  cmd "A2 NAMESPACE" [says "NAMESPACE ((~~ ~/~)) NIL NIL"; says "A2 OK NAMESPACE completed"]].
Definition status_reports_counts : bool := plays [logs_in;
  cmd "A2 STATUS INBOX (MESSAGES UNSEEN)" [says "MESSAGES 1"; says "UNSEEN 1"; says "A2 OK STATUS completed"]].
Definition status_nonexistent_mailbox : bool := plays [logs_in; cmd "A2 STATUS NOSUCH (MESSAGES)" [says "A2 NO"]].
Definition unsupported_command_is_no_not_bad : bool := plays [logs_in;
  cmd "A2 MOVE 1 INBOX" [says "A2 NO command not supported"]].
Definition capability_advertises_namespace : bool := plays [cmd "A1 CAPABILITY" [says "NAMESPACE"]].

Definition sent_store (msg : NewMessage) : Store := snd (append_message_to 1600000002 alice_id SENT msg setup).
Definition from_bob (mid subject : str) : NewMessage :=
  let m := new_invoice mid subject #"b" in
  mkNewMessage (nm_message_id m) (nm_subject m) (nm_body m) (nm_flags m) #"bob@example.org" (nm_trust_state m).
Definition select_sent_and_fetch_per_mailbox : bool := play [logs_in;
  cmd "A2 LIST ~~ ~*~" [says "~INBOX~"; says "~Sent~"];
  cmd "A3 STATUS Sent (MESSAGES)" [says "MESSAGES 1"];
  cmd "A4 SELECT INBOX" [says "* 1 EXISTS"];
  cmd "A5 SELECT Sent" [says "* 1 EXISTS"];
  cmd "A6 FETCH 1 BODY[]" [says "sent-body"; says "BODY[] {9}"];
  cmd "A7 SELECT INBOX" [];
  cmd "A8 FETCH 1 BODY[]" [says "ciphertext-blob"]] session0 (sent_store (new_invoice #"sent-1" #"Sent invoice" #"sent-body")).
Definition select_unknown_mailbox_no : bool := plays [logs_in;
  cmd "A2 SELECT Nope" [says "A2 NO Mailbox does not exist"; in_state ImAuthenticated]].

(** The message linked to a resolved transaction. *)
Definition linked_store : Store :=
  let '(m, w) := append_message 1600000002 alice_id (new_invoice #"txm1" #"New sealed invoice" #"b") setup in
  let '(t, w) := tx_create 1600000003 (mkNewTx MailStore.In MailStore.Resolved #"bob@example.org" #"alice@talk.local" #"2.5"
                   None #"txm1" None #"sealed") w in
  match m, t with
  | Ok m, Ok t => snd (tx_link_message 1600000004 (tx_id t) (meta_id m) w)
  | _, _ => w
  end.
Definition header_includes_tx_status_when_linked : bool := play [logs_in; selects;
  cmd "A3 FETCH 2 (BODY.PEEK[HEADER])" [says "X-Talk-Txn-Status: resolved"; says "X-Talk-Txn-Id: 1"]] session0 linked_store.
Definition with_sender_store (mid : str) : Store :=
  snd (append_message 1600000002 alice_id (from_bob mid #"New sealed invoice") setup).
Definition header_has_from_to_reply_to_and_rfc2822_date : bool := play [logs_in; selects;
  cmd "A3 FETCH 2 (BODY.PEEK[HEADER])"
    [says "From: bob@example.org"; says "To: alice@talk.local"; says "Reply-To: bob@example.org"; says "Date: "; says ","; says " +0000"]]
  session0 (with_sender_store #"hdr-1").
Definition envelope_carries_from_and_to_addresses : bool := play [logs_in; selects;
  cmd "A3 FETCH 2 (ENVELOPE)" [says "((~bob~ NIL ~bob~ ~example.org~))"; says "((~alice~ NIL ~alice~ ~talk.local~))"]]
  session0 (with_sender_store #"env-1").
Definition sent_copy_identity_shows_local_sender : bool := play [logs_in; cmd "A2 SELECT Sent" [];
  cmd "A3 FETCH 1 (BODY.PEEK[HEADER])" [says "From: alice@talk.local"; says "To: bob@example.org"]]
  session0 (sent_store (from_bob #"sent-1" #"Sent invoice")).

Lemma login_tests_pass :
  forallb id [login_then_select_flow; login_rejected_for_unknown_user; login_with_local_domain_accepted;
    login_with_foreign_domain_rejected; login_with_wrong_password_and_domain_rejected; app_password_share_unlocks_dk;
    app_password_with_local_domain_accepted; app_password_wrong_share_rejected; app_password_non_hex_rejected;
    login_with_wrong_user_rejected; login_with_empty_password_rejected; double_login_is_bad; authenticate_plain_flow;
    authenticate_plain_malformed_payload; authenticate_plain_bad_base64] = true.
Proof. vm_compute. reflexivity. Qed.

Lemma fetch_tests_pass :
  forallb id [fetch_returns_body_literal; fetch_header_section_synthesizes_headers; fetch_header_fields_only_returns_listed;
    fetch_text_section_returns_body; fetch_macros_full_fast_all; fetch_rfc822_size_never_zero_without_body;
    fetch_empty_range_ok; uid_fetch_and_uid_store; uid_fetch_lowercase_returns_flags_and_uid; uid_fetch_lowercase_sections;
    uid_fetch_range; fetch_range_star; select_sent_and_fetch_per_mailbox; header_includes_tx_status_when_linked;
    header_has_from_to_reply_to_and_rfc2822_date; envelope_carries_from_and_to_addresses;
    sent_copy_identity_shows_local_sender] = true.
Proof. vm_compute. reflexivity. Qed.

Lemma command_tests_pass :
  forallb id [select_requires_auth; status_includes_recent; store_marks_seen; search_unseen; expunge_and_close;
    logout_sends_bye; unknown_command_is_bad; response_helpers; select_nonexistent_mailbox; list_shows_inbox;
    list_requires_auth; fetch_requires_selected; store_without_selected_is_bad; store_unsupported_flag_is_bad;
    store_remove_flag; search_all_matches_everything; uid_search_unseen; uid_store_lowercase; uid_search_lowercase;
    expunge_requires_selected; close_requires_selected; examine_is_like_select; idle_requires_selected;
    noop_works_in_any_state; capability_reports_imap4rev1; namespace_returns_default; status_reports_counts;
    status_nonexistent_mailbox; unsupported_command_is_no_not_bad; capability_advertises_namespace;
    select_unknown_mailbox_no] = true.
Proof. vm_compute. reflexivity. Qed.

(** ** tests/server.rs: whole connections *)

From S2P Require Import ToyImap Listeners.
#[local] Existing Instance ToyImap.broadcast.

Definition seed_store : Store :=
  let hash := match hash_password #"salt" #"secret" with Ok h => h | Err _ => [] end in
  let '(_, w) := create_user 1600000000 #"alice" hash (replicate 32 b_nul) ToyStore.start in
  snd (append_message 1600000001 alice_id (new_invoice #"msg-1" #"New sealed invoice" #"opaque-ciphertext") w).
Definition test_server : ImapServer := server_new #"talk.test".
(** The client sends a line; all that the server has written contains something. *)
Definition sends (l : string) (c : Conn) : Conn := on_read (dq l ++ crlf) c.
Definition got (c : Conn) (p : string) : bool := has (dq p) (cn_written c).

Definition full_client_session : bool :=
  let c := sends "A5 LOGOUT" (sends "A4 FETCH 1 BODY[]" (sends "A3 SELECT INBOX" (sends "A2 LOGIN alice secret"
             (sends "A1 CAPABILITY" (accept test_server seed_store))))) in
  forallb (got c) ["* OK"; "A1 OK CAPABILITY"; "A2 OK LOGIN"; "* 1 EXISTS"; "A3 OK [READ-WRITE]"; "opaque-ciphertext"; "A5 OK LOGOUT"]%string.
Definition listens_on_tcp : bool :=
  let c := accept test_server seed_store in got c "* OK" && got c "CAPABILITY".
Definition idle_receives_new_message_event : bool :=
  let c := sends "A3 IDLE" (sends "A2 SELECT INBOX" (sends "A1 LOGIN alice secret" (accept test_server seed_store))) in
  let w := snd (append_message 1600000002 alice_id (new_invoice #"msg-2" #"New sealed invoice" #"more") (cn_store c)) in
  let c1 := on_event (set_events (sent (MessageAppended alice_id) (cn_events c)) (set_cn_store w c)) in
  let c2 := sends "A4 LOGOUT" (sends "DONE" c1) in
  got c "+ idle" && negb (got c "2 EXISTS") && got c1 "* 2 EXISTS" && got c2 "A3 OK" && got c2 "A4 OK".

(** A stream with a line for each read; the writes of the connection are those of the
    model, a write for each line. *)
#[local] Instance lines_stream : AsyncStream (list str) := {|
  poll_read := fun buf t => match t with
    | [] => (Pending, buf, [])
    | l :: t => (Ready (Ok tt), mkReadBuf (rb_filled buf ++ l) (rb_room buf - length l), t)
    end;
  poll_write := fun b t => (Ready (Ok (length b)), t);
  poll_flush := fun t => (Ready (Ok tt), t);
  poll_shutdown := fun t => (Ready (Ok tt), t) |}.
#[local] Instance capture_times : CaptureTime := {|
  compact_utc := fun t => Some ( #"20260816T" ++ show_Z t); rfc3339_utc := fun t => Some ( #"2026-08-16T" ++ show_Z t) |}.
(** A program that makes these polls. *)
Definition fixed_polls : Program := mkProgram (list PollOp) head (fun l _ => tail l).
Fixpoint polls_of (c : Conn) (lines : list str) : list PollOp :=
  match lines with
  | [] => []
  | l :: lines =>
      let c' := on_read l c in
      PRead (mkReadBuf [] 4096) :: PWrite (drop (length (cn_written c)) (cn_written c')) :: polls_of c' lines
  end.
Definition capture_dir_writes_per_session_transcripts : bool :=
  let lines := [dq "A1 LOGIN alice secret" ++ crlf; dq "A2 SELECT INBOX" ++ crlf; dq "A3 LOGOUT" ++ crlf] in
  let c := accept test_server seed_store in
  let ops := PWrite (cn_written c) :: polls_of c lines in
  let '(_, s) := serve_conn (Some #"/tmp/caps") fixed_polls (length ops) ops lines #"127.0.0.1:40000" 0
                   (fun n => 100 + Z.of_nat n)%Z 0 (mkFiles ∅ [] 420) in
  match map_to_list (fs s) with
  | [(path, f)] =>
      starts_with #"/tmp/caps/imap-" path && ends_with #".pcap.txt" path
      && forallb (fun p => has (dq p) (f_bytes f))
           ["# talkd IMAP session capture"; "# peer="; "* OK [CAPABILITY"; "A1 LOGIN alice secret"; "LOGIN completed";
            "C> 23 bytes"; "C> hex: 4131204c4f47494e20"; "S> 172 bytes"; "# ended="]%string
  | _ => false
  end.

Lemma server_tests_pass :
  forallb id [full_client_session; listens_on_tcp; idle_receives_new_message_event;
    capture_dir_writes_per_session_transcripts] = true.
Proof. vm_compute. reflexivity. Qed.
