(* ===== verification/TestsStore.v ===== *)
(** * The tests of the mail store, on the model ([talk-mailstore/tests/mailstore.rs])

    A test is a program on the store that starts from an empty one; each method that the
    test expects to succeed is a step, and the assertions are joined at the end. *)

From S2P Require Import ToyStore.
From S2P Require Export UserLife.

Import ToyStore.

(** [assert!(x)] in the middle of a test, [result.is_err()] and what kind of error. *)
Definition assert (b : bool) : M unit := if b then mret tt else raise StoreIo.
Definition fails_with {A} (p : StoreError -> bool) (m : M A) : M unit := fun s =>
  match m s with (Err e, s) => if p e then (Ok tt, s) else (Err StoreIo, s) | (Ok _, s) => (Err StoreIo, s) end.
Definition fails {A} (m : M A) : M unit := fails_with (fun _ => true) m.
(** [.expect("exists")] of an option. *)
Definition expect {A} (o : option A) : M A := match o with Some a => mret a | None => raise StoreIo end.
Definition passes {A} (m : M A) : bool := is_ok (fst (m start)).

Definition now : Z := 1600000000.
Definition make_user (name : str) : M Z := u ← create_user now name #"hash" (replicate 32 b_nul); mret (user_id u).
Definition append (uid : Z) (msg : NewMessage) : M MessageMeta := append_message now uid msg.
Definition mk (mid : str) : NewMessage := new_invoice mid #"s" #"b".
Definition first_of {A} (l : list A) : M A := expect (head l).
Definition with_sender (sender trust : str) (m : NewMessage) : NewMessage :=
  mkNewMessage (nm_message_id m) (nm_subject m) (nm_body m) (nm_flags m) sender trust.

Definition open_creates_schema : bool := passes (
  id ← make_user #"alice"; o ← get_user #"alice"; u ← expect o;
  assert ((0 <? id)%Z && (user_username u ≟ #"alice"))).
Definition duplicate_username_rejected : bool := passes (
  _ ← make_user #"bob";
  fails_with (fun e => match e with Storage _ => true | _ => false end) (create_user now #"bob" #"hash" (replicate 32 b_nul))).
Definition append_and_list_messages : bool := passes (
  u ← make_user #"carol"; meta ← append u (new_invoice #"abc-1" #"New sealed invoice" #"ciphertext-blob");
  l ← list_messages u; m ← first_of l;
  assert ((meta_uid meta =? 1)%Z && (meta_size meta =? 15)%Z && (length l =? 1)%nat
          && (meta_message_id m ≟ #"abc-1") && (meta_uidvalidity m =? meta_uidvalidity meta)%Z)).
Definition uid_increments_per_mailbox : bool := passes (
  u ← make_user #"dave"; a ← append u (mk #"a"); b ← append u (mk #"b");
  other ← make_user #"erin"; c ← append other (mk #"c");
  assert ((meta_uid a =? 1)%Z && (meta_uid b =? 2)%Z && (meta_uid c =? 1)%Z)).
Definition duplicate_message_id_rejected : bool := passes (
  u ← make_user #"frank"; _ ← append u (mk #"dup");
  fails_with (fun e => match e with DuplicateMessage _ => true | _ => false end) (append u (mk #"dup"))).
Definition fetch_returns_body : bool := passes (
  u ← make_user #"grace"; meta ← append u (new_invoice #"m" #"s" #"secret-blob"); f ← fetch_message u (meta_id meta);
  assert (msg_body f ≟ #"secret-blob")).
Definition flags_and_expunge : bool := passes (
  u ← make_user #"heidi"; meta ← append u (mk #"m"); _ ← set_flags u (meta_id meta) SEEN true;
  l ← list_messages u; m ← first_of l; _ ← assert (is_seen (meta_flags m));
  _ ← set_flags u (meta_id meta) DELETED true; expunged ← expunge u; l ← list_messages u;
  assert ((expunged ≟ [1%Z]) && (length l =? 0)%nat)).
Definition users_are_isolated : bool := passes (
  alice ← make_user #"alice2"; bob ← make_user #"bob2"; _ ← append alice (mk #"alice-1"); _ ← append bob (mk #"bob-1");
  la ← list_messages alice; lb ← list_messages bob;
  assert ((map meta_message_id la ≟ [ #"alice-1"]) && (map meta_message_id lb ≟ [ #"bob-1"]))).
Definition list_is_newest_first : bool := passes (
  u ← make_user #"newest"; _ ← append u (mk #"first"); _ ← append u (mk #"second"); l ← list_messages u;
  assert (map meta_message_id l ≟ [ #"second"; #"first"])).
Definition uid_continues_after_delete : bool := passes (
  u ← make_user #"uidcont"; a ← append u (mk #"a"); _ ← set_flags u (meta_id a) DELETED true; _ ← expunge u;
  b ← append u (mk #"b"); assert (meta_uid b =? 2)%Z).
Definition uid_validity_stable_for_user : bool := passes (
  u ← make_user #"uidval"; a ← append u (mk #"a"); b ← append u (mk #"b");
  assert (meta_uidvalidity a =? meta_uidvalidity b)%Z).
Definition unknown_user_append_fails : bool := passes (fails (append 999 (mk #"x"))).
Definition unknown_user_list_is_empty_error : bool := passes (fails (list_messages 999)).
Definition fetch_missing_message_fails : bool := passes (u ← make_user #"missing"; fails (fetch_message u 12345)).
Definition set_flags_missing_message_is_ok_noop : bool := passes (u ← make_user #"noop"; set_flags u 9999 SEEN true).
Definition message_id_unique_across_users : bool := passes (
  alice ← make_user #"dup-a"; bob ← make_user #"dup-b"; _ ← append alice (mk #"shared-id"); append bob (mk #"shared-id")).
Definition flags_mask_operations : bool := passes (
  u ← make_user #"flags"; meta ← append u (mk #"m"); _ ← set_flags u (meta_id meta) SEEN true;
  _ ← set_flags u (meta_id meta) SEEN false; l ← list_messages u; m ← first_of l; assert (negb (is_seen (meta_flags m)))).
Definition empty_expunge_is_noop : bool := passes (u ← make_user #"emptydel"; uids ← expunge u; assert (uids ≟ [])).
Definition expunge_returns_sorted_uids : bool := passes (
  u ← make_user #"sorted"; a ← append u (mk #"a"); b ← append u (mk #"b"); _ ← set_flags u (meta_id a) DELETED true;
  _ ← set_flags u (meta_id b) DELETED true; uids ← expunge u; assert (uids ≟ [1; 2]%Z)).
Definition expunge_keeps_undeleted : bool := passes (
  u ← make_user #"partial"; keep ← append u (mk #"keep"); del ← append u (mk #"del");
  _ ← set_flags u (meta_id del) DELETED true; uids ← expunge u; l ← list_messages u;
  assert ((uids ≟ [2%Z]) && (map meta_id l ≟ [meta_id keep]))).
Definition message_stores_sender : bool := passes (
  u ← make_user #"sender-test"; _ ← append u (with_sender #"alice@example.org" #"unverified" (mk #"m1"));
  l ← list_messages u; m ← first_of l;
  assert ((meta_sender m ≟ #"alice@example.org") && (meta_trust_state m ≟ #"unverified"))).
Definition keyring_pin_and_lookup : bool := passes (
  u ← make_user #"kr"; k ← keyring_sender_key u #"alice@example.org"; _ ← assert (k ≟ None);
  _ ← keyring_set_trusted now u #"alice@example.org" #"pubkey-hex" #"attestation";
  k ← keyring_sender_key u #"alice@example.org"; _ ← assert (k ≟ Some #"pubkey-hex");
  other ← make_user #"kr2"; k ← keyring_sender_key other #"alice@example.org"; assert (k ≟ None)).
Definition keyring_pin_updates_existing : bool := passes (
  u ← make_user #"kr3"; _ ← keyring_set_trusted now u #"bob@example.org" #"key1" #"att1";
  _ ← keyring_set_trusted now u #"bob@example.org" #"key2" #"att2";
  k ← keyring_sender_key u #"bob@example.org"; assert (k ≟ Some #"key2")).
Definition message_trust_state_roundtrip : bool := passes (
  u ← make_user #"ts"; _ ← append u (with_sender #"alice@example.org" #"trusted" (mk #"m1"));
  l ← list_messages u; m ← first_of l;
  assert ((meta_sender m ≟ #"alice@example.org") && (meta_trust_state m ≟ #"trusted"))).
Definition list_users_reports_summaries : bool := passes (
  _ ← make_user #"zeta";
  _ ← create_user_full now #"alistair" #"hash" (replicate 32 (of_byte 1)) (Some #"ivk-hex") (Some #"R");
  users ← list_users;
  alistair ← first_of (filter (fun u => us_username u = #"alistair") users);
  zeta ← first_of (filter (fun u => us_username u = #"zeta") users);
  assert ((length users =? 2)%nat && us_has_ivk alistair && us_has_attestation alistair && negb (us_has_ivk zeta)
          && negb (us_has_attestation zeta) && (0 <? us_created_at alistair)%Z)).
Definition set_password_changes_hash : bool := passes (
  _ ← make_user #"pwuser"; _ ← set_password #"pwuser" #"new-hash"; h ← password_hash #"pwuser";
  _ ← assert (h ≟ Some #"new-hash"); fails (set_password #"missing" #"h")).
Definition set_ivk_sets_and_clears : bool := passes (
  _ ← make_user #"ivkuser"; _ ← set_ivk #"ivkuser" (Some #"ivk-hex"); o ← get_user #"ivkuser"; u ← expect o;
  _ ← assert (user_ivk_commitment u ≟ Some #"ivk-hex"); _ ← set_ivk #"ivkuser" None; o ← get_user #"ivkuser"; u ← expect o;
  _ ← assert (user_ivk_commitment u ≟ None); fails (set_ivk #"missing" None)).
Definition delete_user_cascades : bool := passes (
  u ← make_user #"doomed"; _ ← add_share u #"s1" #"wrapped"; _ ← keyring_set_trusted now u #"alice@example.org" #"k" #"att";
  _ ← append u (mk #"m"); _ ← delete_user #"doomed"; o ← get_user #"doomed"; _ ← assert (bool_decide (user_id <$> o = None));
  _ ← fails (list_messages u); shares ← list_shares u; keyring ← list_keyring u;
  _ ← assert ((length shares =? 0)%nat && (length keyring =? 0)%nat); fails (delete_user #"doomed")).
Definition shares_list_revoked_and_add : bool := passes (
  u ← make_user #"shares"; _ ← add_share u #"s1" #"w1"; _ ← add_share u #"s2" #"w2"; l ← list_shares u;
  _ ← assert ((length l =? 2)%nat && forallb (fun s => negb (se_revoked s)) l);
  _ ← revoke_share u #"s1"; l ← list_shares u; s1 ← first_of (filter (fun s => se_share_id s = #"s1") l);
  _ ← assert (se_revoked s1 && (se_wrapped_dk s1 ≟ #"w1")); active ← get_shares u;
  _ ← assert (map fst active ≟ [ #"s2"]); fails (revoke_share u #"nope")).
Definition keyring_list_and_unpin : bool := passes (
  u ← make_user #"krlist"; _ ← keyring_set_trusted now u #"a@example.org" #"ka" #"att";
  _ ← keyring_set_trusted now u #"b@example.org" #"kb" #"att"; entries ← list_keyring u;
  _ ← assert ((length entries =? 2)%nat && forallb (fun e => ke_state e ≟ #"trusted") entries
              && forallb (fun e => 0 <? ke_first_seen e)%Z entries);
  _ ← unpin_keyring u #"a@example.org"; entries ← list_keyring u;
  _ ← assert (map ke_sender_mailbox entries ≟ [ #"b@example.org"]); fails (unpin_keyring u #"missing@example.org")).
Definition settings_crud : bool := passes (
  v ← get_setting #"k"; _ ← assert (v ≟ None); _ ← set_setting #"k" #"v1"; _ ← set_setting #"k" #"v2"; v ← get_setting #"k";
  _ ← assert (v ≟ Some #"v2"); _ ← set_setting #"other" #"x"; all ← list_settings;
  _ ← assert (all ≟ [( #"k", #"v2"); ( #"other", #"x")]); _ ← delete_setting #"k"; v ← get_setting #"k"; _ ← assert (v ≟ None);
  fails (delete_setting #"k")).
Definition users_have_inbox_and_sent : bool := passes (
  u ← make_user #"multibox"; inbox ← list_messages_in u INBOX; sent ← list_messages_in u SENT;
  _ ← assert ((length inbox =? 0)%nat && (length sent =? 0)%nat);
  _ ← append_message_to now u INBOX (new_invoice #"m1" #"received" #"b");
  _ ← append_message_to now u SENT (new_invoice #"m1" #"sent copy" #"b");
  inbox ← list_messages_in u INBOX; sent ← list_messages_in u SENT; m ← first_of sent; n ← uidnext_in u SENT;
  assert ((length inbox =? 1)%nat && (length sent =? 1)%nat && (meta_subject m ≟ #"sent copy") && (meta_uid m =? 1)%Z && (n =? 2)%Z)).
Definition transactions_ledger_crud : bool := passes (
  t ← tx_create now (mkNewTx MailStore.In Opaque #"alice@example.org" #"bob@talk.local" #"1.5" None #"msg-tx-1" None #"sealed");
  _ ← assert ((tx_state t ≟ Opaque) && (0 <? tx_created_at t)%Z && (tx_amount t ≟ #"1.5"));
  got ← tx_get (tx_id t); got ← expect got; _ ← assert (tx_message_id got ≟ #"msg-tx-1");
  by_mid ← tx_by_message_id MailStore.In #"msg-tx-1"; by_mid ← expect by_mid; _ ← assert (tx_id by_mid =? tx_id t)%Z;
  _ ← tx_transition now (tx_id t) Resolved; got ← tx_get (tx_id t); got ← expect got; _ ← assert (tx_state got ≟ Resolved);
  out ← tx_create now (mkNewTx Out Sent #"bob@talk.local" #"alice@example.org" [] None #"msg-tx-2" (Some #"invoice body") #"sealed");
  _ ← assert (tx_outbound_body out ≟ Some #"invoice body");
  all ← tx_list None None; in_only ← tx_list (Some MailStore.In) None; resolved ← tx_list None (Some Resolved);
  assert ((length all =? 2)%nat && (length in_only =? 1)%nat && (map tx_id resolved ≟ [tx_id t]))).
Definition message_links_to_transaction_state : bool := passes (
  u ← make_user #"txlink"; meta ← append u (mk #"m1"); l ← list_messages u; m ← first_of l; _ ← assert (meta_tx_state m ≟ None);
  tx ← tx_create now (mkNewTx MailStore.In Opaque #"alice@example.org" #"txlink@talk.local" #"0.5" None #"m1" None #"sealed");
  _ ← tx_link_message now (tx_id tx) (meta_id meta); l ← list_messages u; m ← first_of l;
  assert (meta_tx_state m ≟ Some #"opaque")).

Lemma store_tests_pass :
  forallb id [open_creates_schema; duplicate_username_rejected; append_and_list_messages; uid_increments_per_mailbox;
    duplicate_message_id_rejected; fetch_returns_body; flags_and_expunge; users_are_isolated; list_is_newest_first;
    uid_continues_after_delete; uid_validity_stable_for_user; unknown_user_append_fails; unknown_user_list_is_empty_error;
    fetch_missing_message_fails; set_flags_missing_message_is_ok_noop; message_id_unique_across_users; flags_mask_operations;
    empty_expunge_is_noop; expunge_returns_sorted_uids; expunge_keeps_undeleted; message_stores_sender;
    keyring_pin_and_lookup; keyring_pin_updates_existing; message_trust_state_roundtrip; list_users_reports_summaries;
    set_password_changes_hash; set_ivk_sets_and_clears; delete_user_cascades; shares_list_revoked_and_add;
    keyring_list_and_unpin; settings_crud; users_have_inbox_and_sent; transactions_ledger_crud;
    message_links_to_transaction_state] = true.
Proof. vm_compute. reflexivity. Qed.

(** Closing the store leaves what is durable in the file; opening the file reads it. *)
From S2P Require Import StoreFile.

Definition store_reopen_preserves_data : bool :=
  let path := #"/tmp/reopen.db" in
  match (u ← make_user #"ivan"; _ ← append u (new_invoice #"m" #"s" #"data"); mret u) start with
  | (Ok u, s) =>
      let '(opened, disk) := store_open path (mkDisk (mkFiles ∅ [] 420) {[ path := file_of (durable s) ]} []) in
      match opened, load (db_at path disk) with
      | Ok _, Some d => match list_messages u (mkStore d None []) with (Ok l, _) => (length l =? 1)%nat | _ => false end
      | _, _ => false
      end
  | _ => false
  end.
Lemma reopen_test_passes : store_reopen_preserves_data = true.
Proof. vm_compute. reflexivity. Qed.
