(* ===== verification/TestsMachine.v ===== *)
(** * The tests of the machine's files and of the tool, on the model

    The tests of capture.rs ([talk-imap]), of config.rs and tests/core.rs ([talk-core]), and
    the end-to-end tests of the tool, tests/cli.rs ([talk-ctl]).  The TOML documents are
    those of the tests, read by a parser of the TOML they use. *)

From S2P Require Export TestsBase Capture Ledger.
From S2P Require Sockets.
From S2P Require Import ImapFetch Capture.

(** ** capture.rs *)

(** A duplex stream: what can be read, and what was written. *)
#[export] Instance duplex : AsyncStream (str * str) := {|
  poll_read := fun buf '(rx, tx) =>
    if rx ≟ [] then (Pending, buf, (rx, tx))
    else (Ready (Ok tt), mkReadBuf (rb_filled buf ++ take (rb_room buf) rx) (rb_room buf - length rx), (drop (rb_room buf) rx, tx));
  poll_write := fun b '(rx, tx) => (Ready (Ok (length b)), (rx, tx ++ b));
  poll_flush := fun t => (Ready (Ok tt), t);
  poll_shutdown := fun t => (Ready (Ok tt), t);
|}.
#[export] Instance utc_times : CaptureTime := {|
  compact_utc := fun t => Some ( #"20260816T" ++ show_Z t); rfc3339_utc := fun t => Some ( #"2026-08-16T" ++ show_Z t) |}.
Definition empty_disk : Files := mkFiles ∅ [] 420.

Definition captures_reads_and_writes : bool :=
  match capture_open #"/tmp" 1 #"127.0.0.1:9" 100 101 empty_disk with
  | (Ok capture, disk) =>
      let captured := mkCaptured ( #"A1 LOGIN violet pw" ++ crlf, []) capture disk (fun n => 102 + Z.of_nat n)%Z 0 in
      let '(_, buf, captured) := poll_read (mkReadBuf [] 64) captured in
      let '(_, captured) := poll_write ( #"* OK ready" ++ crlf) captured in
      let '(_, captured) := poll_flush captured in
      let captured := captured_finish captured in
      match map_to_list (fs (c_files captured)) with
      | [(path, file)] =>
          let contents := f_bytes file in
          (rb_filled buf ≟ #"A1 LOGIN violet pw" ++ crlf) && ends_with #".pcap.txt" path
          && contains #"# peer=127.0.0.1:9" contents && contains #"C> 20 bytes" contents
          && contains #"A1 LOGIN violet pw" contents && contains #"C> hex: 4131204c4f47494e20" contents
          && contains #"S> 12 bytes" contents && contains #"* OK ready" contents
          && contains #"S> hex: 2a204f4b207265616479" contents && contains #"# ended=" contents
      | _ => false
      end
  | _ => false
  end.
Definition capture_filenames_are_timestamped : bool :=
  match rsplit_once "/"%char (capture_path #"/tmp" 42 100) with
  | Some (_, name) => starts_with #"imap-" name && ends_with #"-00042.pcap.txt" name
  | None => false
  end.

Lemma capture_tests_pass : forallb id [captures_reads_and_writes; capture_filenames_are_timestamped] = true.
Proof. vm_compute. reflexivity. Qed.

(** ** TOML *)

Module TomlFixture.
(** Sections of fields that are quoted strings without escapes, booleans and numbers. *)
Definition toml_scalar (s : str) : result str Toml :=
  match s with
  | c :: r =>
      if c ≟ b_dq then match split_once b_dq r with Some (x, []) => Ok (TString x) | _ => Err #"invalid string" end
      else if (s ≟ #"true") || (s ≟ #"false") || forallb (between 48 57) s then Ok (TOther s) else Err #"invalid value"
  | [] => Err #"no value"
  end.
Definition add_field (section : option str) (k : str) (v : Toml) (root : list (str * Toml)) : list (str * Toml) :=
  match section with
  | None => root ++ [(k, v)]
  | Some n => map (fun e => if fst e ≟ n then (n, match snd e with TTable l => TTable (l ++ [(k, v)]) | x => x end) else e) root
  end.
Definition toml_line (st : result str (option str * list (str * Toml))) (line : str) : result str (option str * list (str * Toml)) :=
  '(section, root) ← st;
  let l := trim line in
  if (l ≟ []) || starts_with #"#" l then Ok (section, root)
  else match strip_prefix #"[" l with
       | Some r =>
           match split_once "]"%char r with
           | Some (n, []) => Ok (Some n, root ++ [(n, TTable [])])
           | _ => Err #"invalid header"
           end
       | None =>
           '(k, v) ← ok_or (split_once "="%char l) #"expected a value";
           v ← toml_scalar (trim v);
           Ok (section, add_field section (trim k) v root)
       end.
Definition parse_toml (s : str) : result str Toml :=
  '(_, root) ← foldl toml_line (Ok (None, [])) (split b_nl s);
  Ok (TTable root).
Definition show_scalar (v : Toml) : str :=
  match v with TString s => [b_dq] ++ s ++ [b_dq] | TOther t => t | TTable _ => [] end.
Definition show_toml (v : Toml) : str :=
  match v with
  | TTable root => concat (map (fun '(n, x) =>
      match x with
      | TTable l => #"[" ++ n ++ #"]" ++ [b_nl] ++ concat (map (fun '(k, y) => k ++ #" = " ++ show_scalar y ++ [b_nl]) l)
      | x => n ++ #" = " ++ show_scalar x ++ [b_nl]
      end) root)
  | x => show_scalar x
  end.
#[export] Instance toml_text : TomlText := {|
  toml_value := parse_toml; toml_pretty := fun v => Ok (show_toml v); toml_display := show_scalar |}.

(** The structs of the configuration: their fields, and which of these may be absent. *)
Definition KNOWN : list (str * list str) := [
  ( #"general", [ #"data_dir"; #"domain"; #"log_level"]); ( #"network", [ #"indexer_url"; #"send_endpoint"]);
  ( #"sockets", [ #"secure_mailbox"; #"zsmtp"; #"zsmtp_listen"; #"imap_listen"]); ( #"tls", [ #"cert"; #"key"]);
  ( #"mailbox", [ #"encrypt_db"; #"passphrase"; #"wallet_dir"; #"template_path"]); ( #"auth", [ #"mode"])].
Definition known (root : list (str * Toml)) : bool :=
  forallb (fun '(n, x) => match assoc_get n KNOWN, x with
    | Some fields, TTable l => forallb (fun '(k, _) => bool_decide (k ∈ fields)) l
    | _, _ => false end) root.
Definition fields (n : str) (root : list (str * Toml)) : result str (list (str * Toml)) :=
  match assoc_get n root with Some (TTable l) => Ok l | _ => Err ( #"missing field " ++ n) end.
Definition text (k : str) (l : list (str * Toml)) : result str (option str) :=
  match assoc_get k l with None => Ok None | Some (TString s) => Ok (Some s) | Some _ => Err #"invalid type" end.
Definition need (k : str) (l : list (str * Toml)) : result str str := o ← text k l; ok_or o ( #"missing field " ++ k).
Definition flag (k : str) (l : list (str * Toml)) : result str (option bool) :=
  match assoc_get k l with
  | None => Ok None
  | Some (TOther t) => if t ≟ #"true" then Ok (Some true) else if t ≟ #"false" then Ok (Some false) else Err #"invalid type"
  | Some _ => Err #"invalid type"
  end.
Definition read_document (raw : str) : result str Document :=
  v ← parse_toml raw;
  root ← ok_or (as_table v) #"no table";
  if negb (known root) then Err #"unknown field"
  else
    g ← fields #"general" root; n ← fields #"network" root; so ← fields #"sockets" root;
    t ← fields #"tls" root; mb ← fields #"mailbox" root;
    data_dir ← need #"data_dir" g; domain ← need #"domain" g; level ← text #"log_level" g;
    indexer ← need #"indexer_url" n; endpoint ← need #"send_endpoint" n;
    s1 ← need #"secure_mailbox" so; s2 ← need #"zsmtp" so; s3 ← need #"zsmtp_listen" so; s4 ← need #"imap_listen" so;
    cert ← need #"cert" t; key ← need #"key" t;
    enc ← flag #"encrypt_db" mb; pass ← text #"passphrase" mb; wallet ← need #"wallet_dir" mb; tpl ← text #"template_path" mb;
    mode ← text #"mode" (match fields #"auth" root with Ok l => l | Err _ => [] end);
    Ok (mkDocument data_dir domain level (mkNetwork indexer endpoint) (mkSockets s1 s2 s3 s4) (mkTls cert key) enc pass wallet tpl mode).
#[export] Instance documents : ConfigParser := {|
  toml_document := read_document; custom_error := fun _ s => s; escape_char := fun s => s |}.
#[export] Instance io_texts : IoTexts := {| io_error_text := fun _ => #"io" |}.
End TomlFixture.
Import TomlFixture.

(** ** config.rs *)

Definition minimal_toml : str := dq "
    [general]
    data_dir = ~/tmp/talk~
    domain = ~example.org~

    [network]
    indexer_url = ~lwd.example.com:9067~
    send_endpoint = ~receiver.example.org:2525~

    [sockets]
    secure_mailbox = ~/tmp/secure.sock~
    zsmtp = ~/tmp/zsmtp.sock~
    zsmtp_listen = ~127.0.0.1:1465~
    imap_listen = ~127.0.0.1:993~

    [tls]
    cert = ~/tmp/cert.pem~
    key = ~/tmp/key.pem~

    [mailbox]
    wallet_dir = ~/tmp/wallets~
    ".

(** A document of the tests, with the lines of its section general. *)
Definition toml_with (general : str) : str := dq "
    [general]
    " ++ general ++ dq "

    [network]
    indexer_url = ~lwd.example.com:9067~
    send_endpoint = ~~

    [sockets]
    secure_mailbox = ~/tmp/secure.sock~
    zsmtp = ~/tmp/zsmtp.sock~
    zsmtp_listen = ~127.0.0.1:1465~
    imap_listen = ~127.0.0.1:993~

    [tls]
    cert = ~/tmp/cert.pem~
    key = ~/tmp/key.pem~

    [mailbox]
    wallet_dir = ~/tmp/wallets~
    ".
(** config.example.toml without its comments. *)
Definition example_toml : str := dq "
[general]
data_dir = ~/var/lib/talk~
domain = ~talk.local~
log_level = ~info~

[network]
indexer_url = ~zec.rocks:9067~
send_endpoint = ~~

[sockets]
secure_mailbox = ~/run/talk/secure_mailbox.sock~
zsmtp = ~/run/talk/zsmtp.sock~
zsmtp_listen = ~0.0.0.0:465~
imap_listen = ~127.0.0.1:1143~

[tls]
cert = ~/etc/talk/cert.pem~
key = ~/etc/talk/key.pem~

[auth]
mode = ~database~

[mailbox]
encrypt_db = false
passphrase = ~CHANGE-ME~
wallet_dir = ~/var/lib/talk/wallets~
".
Definition load_toml (raw : str) : result ConfigError Config :=
  fst (Config.load #"/tmp/config.toml" (mkFiles {[ #"/tmp/config.toml" := mkFile raw 420]} [] 420)).

Definition loads_example_config : bool :=
  unwrap (load_toml example_toml) (fun cfg =>
    (g_log_level (general cfg) ≟ #"info") && (g_domain (general cfg) ≟ #"talk.local") && negb (mc_encrypt_db (mailbox cfg))
    && (mc_wallet_dir (mailbox cfg) ≟ #"/var/lib/talk/wallets")).
Definition defaults_log_level_and_encrypt : bool :=
  unwrap (config_of minimal_toml) (fun cfg =>
    (g_log_level (general cfg) ≟ #"info") && (g_domain (general cfg) ≟ #"example.org") && mc_encrypt_db (mailbox cfg)).
Definition missing_domain_fails_load : bool :=
  unwrap_err (load_toml (toml_with (dq "data_dir = ~/tmp/talk~")))
    (fun e => match e with CfgParse _ _ => true | _ => false end).
Definition empty_domain_fails_load : bool :=
  unwrap_err (load_toml (toml_with (dq "data_dir = ~/tmp/talk~
    domain = ~  ~")))
    (fun e => match e with InvalidDomain d => d ≟ #"  " | _ => false end).

Lemma config_tests_pass :
  forallb id [loads_example_config; defaults_log_level_and_encrypt; missing_domain_fails_load; empty_domain_fails_load] = true.
Proof. vm_compute. reflexivity. Qed.

(** ** tests/core.rs *)

Definition config_missing_file_errors : bool :=
  unwrap_err (fst (Config.load #"/nonexistent/talk-config.toml" empty_disk))
    (fun e => contains #"failed to read config" (config_error_str e)).
Definition config_invalid_toml_errors : bool :=
  unwrap_err (load_toml ( #"this is not [ valid toml ===" ++ [b_nl])) (fun e => contains #"failed to parse config" (config_error_str e)).
Definition config_missing_required_field_errors : bool :=
  is_err (load_toml (dq "[general]
data_dir = ~/tmp/talk~
")).
(** The domain is missing as well, as in the test. *)
Definition config_unknown_field_rejected : bool :=
  is_err (load_toml (toml_with (dq "data_dir = ~/tmp/talk~
    log_level = ~info~
    bogus_field = 1"))).
Definition config_roundtrip_example : bool :=
  unwrap (load_toml example_toml) (fun cfg =>
    (g_log_level (general cfg) ≟ #"info") && negb (mc_encrypt_db (mailbox cfg))
    && (mc_wallet_dir (mailbox cfg) ≟ #"/var/lib/talk/wallets") && (so_imap_listen (sockets cfg) ≟ #"127.0.0.1:1143")).

(** A machine with one file, or none, and a socket that is bound on it. *)
Definition machine_with (files : gmap str File) : Sockets.Local := Sockets.mkLocal (mkFiles files [] 420) ∅ ∅.
Definition bound (path : str) (s : Sockets.Local) (k : Sockets.SocketListener -> Sockets.Local -> bool) : bool :=
  match Sockets.bind 1 path s with (Ok sock, s) => k sock s | (Err _, _) => false end.
Definition stale (path bytes : str) : Sockets.Local := machine_with {[ path := mkFile bytes 420 ]}.

Definition socket_creates_parent_dirs : bool :=
  let path := #"/tmp/nested/deep/socket.sock" in
  bound path (machine_with ∅) (fun sock _ => Sockets.sl_path sock ≟ path).
Definition socket_removes_stale_file : bool :=
  let path := #"/tmp/socket.sock" in
  bound path (stale path #"stale") (fun sock s =>
    Sockets.there path s && negb (Sockets.there path (Sockets.drop sock s))).
Definition socket_accept_roundtrip : bool :=
  let path := #"/tmp/accept.sock" in bound path (machine_with ∅) (fun _ s => Sockets.listening path s).
Definition socket_drop_removes_file : bool :=
  let path := #"/tmp/drop.sock" in
  bound path (machine_with ∅) (fun sock s => Sockets.there path s && negb (Sockets.there path (Sockets.drop sock s))).
Definition socket_bind_second_fails_when_first_live : bool :=
  let path := #"/tmp/live.sock" in bound path (machine_with ∅) (fun _ s => is_err (fst (Sockets.bind 2 path s))).
Definition socket_file_content_discarded : bool :=
  let path := #"/tmp/discard.sock" in
  bound path (stale path #"leftover") (fun _ s => Sockets.there path s && Sockets.listening path s).

Lemma core_tests_pass :
  forallb id [config_missing_file_errors; config_invalid_toml_errors; config_missing_required_field_errors;
    config_unknown_field_rejected; config_roundtrip_example; socket_creates_parent_dirs; socket_removes_stale_file;
    socket_accept_roundtrip; socket_drop_removes_file; socket_bind_second_fails_when_first_live;
    socket_file_content_discarded] = true.
Proof. vm_compute. reflexivity. Qed.

(** ** tests/cli.rs *)

From S2P Require Import TestsKeys TestsDaemon.

Import KeyFixture DaemonFixture.

Module ToolFixture.

Definition data : str := #"/t/data".
Definition config_path : str := #"/t/config.toml".
Definition tool_toml : str := dq "
[general]
data_dir = ~/t/data~
domain = ~talk.local~
log_level = ~info~

[network]
indexer_url = ~lwd.example.com:9067~
send_endpoint = ~~

[sockets]
secure_mailbox = ~/t/data/run/secure.sock~
zsmtp = ~/t/data/run/zsmtp.sock~
zsmtp_listen = ~127.0.0.1:1465~
imap_listen = ~127.0.0.1:1143~

[tls]
cert = ~/t/data/cert.pem~
key = ~/t/data/key.pem~

[mailbox]
encrypt_db = false
passphrase = ~~
wallet_dir = ~/t/data/wallets~
".
#[export] Instance tool_outside : CtlOutside := {|
  open_store := fun _ => Ok tt; prompt_password := fun _ => [];
  signing_key_of := fun b => b; verifying_key_bytes := fun k => k |}.
#[export] Instance no_environment : DnsExternals := DaemonFixture.env_with [].
(** No daemon, and one that has written these bytes. *)
Definition down : DaemonSocket := {| connect_socket := fun _ => Err #"connection refused" |}.
Definition up (bytes : str) : DaemonSocket := {| connect_socket := fun _ => Ok (mkConn bytes []) |}.

(** [setup]: a data directory with a domain key, and the configuration. *)
Definition setup : Cli :=
  mkCli (DaemonFixture.world_of ToyStore.ToyStore.start)
    (mkFiles (<[ #"/t/data/domainkey" := mkFile (replicate 32 (of_byte 7)) 420]> {[ config_path := mkFile tool_toml 420 ]}) [] 420) [] [].

(** [run]: one process, with its own streams. *)
Definition run_with (socket : DaemonSocket) (stdin : str) (command : CtlCommand) (c : Cli) : result CtlError unit * str * Cli :=
  let '(r, c) := @ctl_run _ _ _ _ _ _ _ _ _ _ _ socket _ _ _ _ (Some config_path) command
                   (mkCli (c_world c) (Cli.c_files c) stdin []) in
  (r, c_stdout c, c).
Definition run : CtlCommand -> Cli -> result CtlError unit * str * Cli := run_with down [].

(** A test goes on with the machine that a command leaves. *)
Definition T := Cli -> bool.
Definition passed : T := fun _ => true.
(** [ok(&out, ..)] and what the test asserts of the output; [err_contains]. *)
Definition succeeds (command : CtlCommand) (p : str -> bool) (k : T) : T := fun c =>
  let '(r, out, c) := run command c in is_ok r && p out && k c.
Definition prints (command : CtlCommand) (k : str -> T) : T := fun c =>
  let '(r, out, c) := run command c in is_ok r && k out c.
Definition fails_with (command : CtlCommand) (needle : str) (k : T) : T := fun c =>
  let '(r, _, c) := run command c in
  match r with Err e => contains needle (ctl_error_str e) | Ok _ => false end && k c.
Definition any (out : str) : bool := true.
Definition read_back (path : str) (k : str -> T) : T := fun c =>
  match fs (Cli.c_files c) !! path with Some f => k (f_bytes f) c | None => false end.
Definition write_file (path bytes : str) (k : T) : T := fun c => k (set_files (put path bytes (Cli.c_files c)) c).
(** Methods of the store between the commands. *)
Definition in_store {A} (m : M A) (k : A -> T) : T := fun c =>
  match m (c_store c) with (Ok a, s) => k a (set_world (set_store (c_world c) s) c) | (Err _, _) => false end.

Definition PUBKEY : str := #"aabbccdd11223344aabbccdd11223344aabbccdd11223344aabbccdd11223344".
Definition create (name password : str) : CtlCommand := CtlUser (UCreate name (Some password) PUBKEY None 0).
Definition lines (out : str) : list str := filter (fun l => negb (l ≟ []) = true) (split b_nl out).
Definition count (needle out : str) : nat := length (filter (fun l => contains needle l = true) (lines out)).
End ToolFixture.
Import ToolFixture.

Definition status_reports_domain_and_users : bool :=
  succeeds CtlStatus (fun out => contains #"domain         talk.local" out && contains #"users          0" out) passed setup.
Definition config_validate_and_get : bool :=
  (succeeds (CtlConfig CfgValidate) (contains #"is valid")
   $ succeeds (CtlConfig (CfgGet #"general.domain")) (fun out => trim out ≟ dq "~talk.local~") passed) setup.
Definition config_set_roundtrip_and_unknown_key_rejected : bool :=
  (succeeds (CtlConfig (CfgSet #"general.domain" #"example.org")) any
   $ succeeds (CtlConfig (CfgGet #"general.domain")) (fun out => trim out ≟ dq "~example.org~")
   $ fails_with (CtlConfig (CfgSet #"nope.x" #"1")) #"unknown key"
   $ fails_with (CtlConfig (CfgSet #"general.domain" #"bad domain")) #"refusing to write invalid config"
   $ succeeds (CtlConfig (CfgGet #"general.domain")) (fun out => trim out ≟ dq "~example.org~") passed) setup.
Definition user_lifecycle : bool :=
  (succeeds (create #"alice" #"s3cret") (contains #"ok: registered alice")
   $ succeeds (CtlUser UList) (contains #"alice")
   $ succeeds (CtlUser (UShow #"alice")) (fun out =>
       contains #"username      alice" out && contains #"attestation   present" out && contains #"R: domain=talk.local" out)
   $ succeeds (CtlUser (UDelete #"alice")) any
   $ succeeds (CtlUser UList) (fun out => negb (contains #"alice" out)) passed) setup.
Definition user_create_rejects_bad_pubkey_and_missing_domain_key : bool :=
  (fails_with (CtlUser (UCreate #"bob" (Some #"pw") #"nope" None 0)) #"32 bytes of hex"
   $ (fun c => fails_with (create #"bob" #"pw") #"domain key" passed
                 (set_files (set_fs (delete #"/t/data/domainkey" (fs (Cli.c_files c))) (Cli.c_files c)) c))) setup.
Definition user_create_rejects_qualified_usernames : bool :=
  (fails_with (create #"bob@talk.local" #"pw") #"bare local name"
   $ fails_with (create #"bob:app" #"pw") #"app passwords" passed) setup.
Definition user_lookups_accept_local_domain : bool :=
  (succeeds (create #"carol" #"pw") any
   $ succeeds (CtlUser (UShow #"carol@talk.local")) (contains #"username      carol")
   $ fails_with (CtlUser (UShow #"carol@evil.org")) #"no such user" passed) setup.
(** The ids of the lines that begin with "share id=". *)
Definition share_ids (out : str) : list str :=
  omap (fun l => fst <$> (r ← strip_prefix #"share id=" l; split_once b_sp r)) (lines out).
Definition shares_init_list_revoke : bool :=
  (succeeds (create #"carol" #"pw") any
   $ prints (CtlShare (ShInit #"carol" 3)) (fun out =>
       let ids := share_ids out in
       succeeds (CtlShare (ShList #"carol")) (fun l =>
         contains #"ok: registered 3 shares" out && (length ids =? 3)%nat && (count #" active " l =? 3)%nat)
       $ succeeds (CtlShare (ShRevoke #"carol" (default [] (head ids)))) any
       $ succeeds (CtlShare (ShList #"carol")) (fun l =>
           (count #" active " l =? 2)%nat && (count #" revoked " l =? 1)%nat) passed)) setup.
Definition keyring_pin_list_unpin : bool :=
  (succeeds (create #"dave" #"pw") any
   $ succeeds (CtlKeyring (KrPin #"dave" #"bob@example.org" (Some #"aabb"))) any
   $ succeeds (CtlKeyring (KrList #"dave")) (contains #"bob@example.org")
   $ succeeds (CtlKeyring (KrUnpin #"dave" #"bob@example.org")) any
   $ succeeds (CtlKeyring (KrList #"dave")) (fun out => length (lines out) =? 0)%nat passed) setup.
Definition settings_crud : bool :=
  (succeeds (CtlSettings (SeSet #"k" #"v")) any
   $ succeeds (CtlSettings (SeGet #"k")) (fun out => trim out ≟ #"v")
   $ succeeds (CtlSettings SeList) (contains #"k = v")
   $ succeeds (CtlSettings (SeDelete #"k")) any
   $ fails_with (CtlSettings (SeGet #"k")) #"no such setting" passed) setup.
Definition attest_direct_when_daemon_down : bool :=
  (succeeds (create #"erin" #"pw") any
   $ succeeds (CtlAttest #"erin" #"ephemeral") (fun out =>
       contains #"user        erin" out && contains #"mode        ephemeral" out && contains #"signature   " out) passed) setup.

Lemma cli_tests_pass :
  forallb id [status_reports_domain_and_users; config_validate_and_get; config_set_roundtrip_and_unknown_key_rejected;
    user_lifecycle; user_create_rejects_bad_pubkey_and_missing_domain_key; user_create_rejects_qualified_usernames;
    user_lookups_accept_local_domain; shares_init_list_revoke; keyring_pin_list_unpin; settings_crud;
    attest_direct_when_daemon_down] = true.
Proof. vm_compute. reflexivity. Qed.

(** The keys. *)
Definition generate (path : str) (force : bool) : CtlCommand := CtlKey (KeyGenerate (Some path) None force).
Definition master : str := #"/t/data/master.key".
Definition key_generate_to_file_and_pubkey_matches : bool :=
  prints (generate master false) (fun out c =>
    match omap (strip_prefix #"public: ") (lines out), fs (Cli.c_files c) !! master with
    | pub :: _, Some f =>
        (length pub =? 64)%nat && (length (f_bytes f) =? 32)%nat && (f_mode f =? 384)%Z
        && (succeeds (CtlKey (KeyPubkey (Some master) None)) (fun out => trim out ≟ pub)
            $ succeeds (CtlKey (KeyPubkey None (Some (hex_encode (f_bytes f))))) (fun out => trim out ≟ pub) passed) c
    | _, _ => false
    end) setup.
Definition key_generate_refuses_overwrite_without_force : bool :=
  (succeeds (generate master false) any
   $ fails_with (generate master false) #"already exists"
   $ succeeds (generate master true) any passed) setup.
Definition payload_bytes : str := #"opaque invoice body " ++ map of_byte [0; 1; 2]%Z.
Definition key_seal_unseal_roundtrip_files : bool :=
  (succeeds (generate master false) any
   $ write_file #"/t/data/payload.bin" payload_bytes
   $ succeeds (CtlKey (KeySeal master None (Some #"/t/data/payload.bin") (Some #"/t/data/sealed.bin"))) any
   $ succeeds (CtlKey (KeyUnseal master (Some #"/t/data/sealed.bin") (Some #"/t/data/plain.bin"))) any
   $ read_back #"/t/data/plain.bin" (fun plain => read_back #"/t/data/sealed.bin" (fun sealed _ =>
       (plain ≟ payload_bytes) && (32 <? length sealed)%nat && (take 4 sealed ≟ #"TKS1")))) setup.
Definition key_seal_to_explicit_pub_and_wrong_key_fails : bool :=
  (succeeds (generate master false) any
   $ succeeds (generate #"/t/data/other.key" false) any
   $ prints (CtlKey (KeyPubkey (Some master) None)) (fun out =>
       write_file #"/t/data/p.bin" #"to-explicit-pub"
       $ succeeds (CtlKey (KeySeal master (Some (trim out)) (Some #"/t/data/p.bin") (Some #"/t/data/s.bin"))) any
       $ fails_with (CtlKey (KeyUnseal #"/t/data/other.key" (Some #"/t/data/s.bin") None)) #"unseal failed" passed)) setup.
Definition key_seal_unseal_via_stdin_stdout : bool :=
  succeeds (generate master false) any (fun c =>
    let '(r, sealed, c) := run_with down #"piped data" (CtlKey (KeySeal master None None None)) c in
    let '(r', plain, c) := run_with down sealed (CtlKey (KeyUnseal master None None)) c in
    is_ok r && is_ok r' && (plain ≟ #"piped data")) setup.
Definition domainkey_pubkey_prints_hex : bool :=
  prints CtlDomainkeyPubkey (fun out =>
    succeeds CtlDomainkeyPubkey (fun out2 =>
      let pk := trim out in
      (length pk =? 64)%nat && forallb (fun c => between 48 57 c || between 97 102 c || between 65 70 c) pk
      && (trim out2 ≟ pk)) passed) setup.

(** The daemon of the test: it keeps the payments it is asked to emulate. *)
Definition keeps_payments : SecureMailboxHandler (list (str * EmulatePayload)) := mkHandler _
  (fun _ _ _ _ _ w => (SendOk #"delivered", w))
  (fun _ _ w => (AttestOk [], w))
  (fun _ _ _ _ w => (RegisterOk, w))
  (fun _ => #"mock")
  (fun recipient p w => (EmulateOk ( #"delivered to " ++ recipient), w ++ [(recipient, p)])).
#[local] Instance EmulatePayload_eq_dec : EqDecision EmulatePayload.
Proof. solve_decision. Defined.
Definition the_invoice : str := #"line one" ++ [b_nl] ++ #"line two".
Definition emulate_payment_reaches_daemon_socket : bool :=
  let written := tx (snd (mc_emulate #"alice" #"Alice Smith" #"t1abc123" #"1.5" the_invoice (mkConn [] []))) in
  match SecureMailbox.serve keeps_payments [] (mkConn written []) with
  | Some (_, got, served) =>
      (got ≟ [( #"alice", mkEmulate #"Alice Smith" #"t1abc123" #"1.5" the_invoice)])
      && write_file #"/t/data/inv.txt" the_invoice (fun c =>
           let '(r, out, _) := run_with (up (tx served)) []
             (CtlEmulatePayment #"alice" #"Alice Smith" #"t1abc123" #"1.5" #"/t/data/inv.txt") c in
           is_ok r && contains #"OK delivered to alice" out) setup
  | None => false
  end.
Definition emulate_fails_when_daemon_down : bool :=
  (write_file #"/t/data/inv.txt" #"hi"
   $ fails_with (CtlEmulatePayment #"alice" #"x" #"t1" #"0.1" #"/t/data/inv.txt") #"daemon not running" passed) setup.

Definition tx_ledger_lifecycle : bool :=
  let ledger_entry :=
    u ← create_user 1600000000 #"alice" #"a hash" (replicate 32 b_nul);
    meta ← append_message 1600000000 (user_id u) (new_invoice #"tx-1" #"s" #"b");
    tx ← tx_create 1600000000 (mkNewTx MailStore.In Opaque #"bob@example.org" #"alice@talk.local" #"1.5" None #"tx-1" None #"sealed");
    _ ← tx_link_message 1600000000 (tx_id tx) (meta_id meta);
    mret (tx_id tx) in
  let outbound := tx_create 1600000000
    (mkNewTx Out Sent #"alice@talk.local" #"bob@example.org" [] None #"out-1" (Some #"body") #"sealed") in
  in_store ledger_entry (fun id =>
    succeeds (CtlTx (TxList None None)) (fun out => contains #"opaque" out && contains #"1.5" out)
    $ succeeds (CtlTx (TxShow id)) (contains #"state           opaque")
    $ succeeds (CtlTx (TxResolve id (Some #"aabbccdd"))) any
    $ succeeds (CtlTx (TxShow id)) (fun out => contains #"state           resolved" out && contains #"binding         aabbccdd" out)
    $ succeeds (CtlTx (TxMarkSpent id)) any
    $ succeeds (CtlTx (TxShow id)) (contains #"state           spent")
    $ succeeds (CtlTx (TxList (Some #"out") None)) (fun out => negb (contains #"tx-1" out))
    $ succeeds (CtlTx (TxList None (Some #"spent"))) (contains #"tx-1")
    $ in_store outbound (fun tx => fails_with (CtlTx (TxResolve (tx_id tx) None)) #"only inbound" passed)) setup.

Lemma cli_key_tests_pass :
  forallb id [key_generate_to_file_and_pubkey_matches; key_generate_refuses_overwrite_without_force;
    key_seal_unseal_roundtrip_files; key_seal_to_explicit_pub_and_wrong_key_fails; key_seal_unseal_via_stdin_stdout;
    domainkey_pubkey_prints_hex; emulate_payment_reaches_daemon_socket; emulate_fails_when_daemon_down;
    tx_ledger_lifecycle] = true.
Proof. vm_compute. reflexivity. Qed.
